(* ===== verification/_CoqProject ===== *)
-Q . S2P
Prelude.v
Js.v
JsString.v
Regex.v
Bytes.v
Zod.v
Constants.v
Schemas.v
Ccc.v
Blake2b.v
Sha256.v
CccRef.v
Wire.v
Protocol.v
Codec.v
Digest.v
Vectors.v
Manifests.v
State.v
Base64.v
Effects.v
Json.v
JsonLaws.v
Storage.v
Chain.v
Spending.v
Abi.v
Vm.v
Lock.v
Molecule.v
Unlock.v
Approval.v
OneKey.v
Verifier.v
Assertion.v
PostQuantum.v
Acceptance.v
Passkey.v
Account.v
Artifacts.v
Bundle.v
Build.v
Deployment.v
Publish.v
Atomic.v
Bootstrap.v
Creation.v
Service.v
Requests.v
Completion.v
Http.v
Api.v
Wizard.v
Steps.v
Session.v
Sessions.v
Pages.v
Review.v
Host.v
Exporter.v
Exported.v
Process.v
Provisioning.v
Startup.v
Samples.v
Witnesses.v
ToolWitnesses.v
ServerWitnesses.v
ClientWitnesses.v
SessionWitnesses.v
Machine.v
ContractWitnesses.v
