(* ===== verification/Prelude.v ===== *)
(** * Crypto-agile CKB accounts

    A model of the passkey account demo, of the tools that deploy its contracts and of the
    contracts themselves ([demo/src], [tools/deploy/src], [contracts], [crates/protocol];
    paths are below [src/]). The definitions follow the source function by function and
    can be evaluated; the theorems say what each part promises.

    ** The program

    A user creates a passkey in the browser ([demo/src/client/passkey.ts], [storage.ts]).
    The browser asks a server on the same machine ([demo/src/server]) for an account: the
    server checks the published contracts, lets the host tool encode the account's first
    state for that passkey ([state-exporter.ts], [crates/host]), and sends the creation
    transaction with the deploy library ([tools/deploy/src/bootstrap-lib.ts]). The browser
    then finds the account's cells on the chain, prepares a fixed transfer, has the passkey
    sign the authorization digest, completes the witness and submits the transaction
    ([demo/src/client/chain.ts], [demo/src/shared]). The wizard ([App.tsx] and its step
    components) leads through these steps. The contracts were published before by the
    deployment program ([tools/deploy/src/deploy.ts]).

    On the chain the account lock ([contracts/account-lock]) guards the account's cells. It
    finds the account's state in the transaction, recomputes the digest, and starts one
    verifier ([contracts/verifier-p256], [verifier-mldsa-adapter], [verifier-slhdsa-adapter])
    for each proof of the witness, as a child process that reads one request from a pipe.

    ** The files

    Foundations. [Prelude]: exceptions, results, lists, tactics and the hint database [js].
    [Js], [JsString], [Regex]: the language's numbers, strings, typed arrays, JSON-shaped
    values and anchored patterns. [Effects]: a state and exception monad over an abstract
    environment that logs every call into it. [Json], [JsonLaws]: printing and reading JSON.
    [Zod]: schemas as syntax. [Base64], [Blake2b], [Sha256]: codecs and hashes. [Ccc]: the
    chain library.

    Shared code ([demo/src/shared]). [Bytes] ([bytes.ts]), [Constants], [Schemas],
    [Manifests] and [Protocol] are the files of these names. [Wire] holds the parsers of the
    contracts ([crates/protocol/src/wire.rs], [contracts/verifier-p256/src/main.rs]).
    [Codec] proves that the encoders of [Protocol] and the parsers of [Wire] invert each
    other, [Digest] what the two digests commit to; [Vectors] recomputes the repository's
    frozen vectors.

    Client ([demo/src/client]). [State]: [parseAccountState]. [Chain]: discovery,
    preparation, finalization, submission and confirmation, with their theorems in
    [Spending]. [Passkey], [Storage], [Api]: the files of these names. [Wizard]: the pure
    decisions of [App.tsx]; [Steps]: the states of the four step components; [Session]: the
    interface as a transition system; [Sessions]: its invariant and what follows from it.
    [Pages]: what every component renders, as trees of elements; [Review]: the buttons of a
    page are the presses of the session, and what the review of a spend shows. [Build] is
    [demo/vite.config.ts], [Bundle] the check [demo/scripts/check-client-bundle.mjs].

    Contracts ([contracts], [crates/protocol]). [Abi]: requests, lock arguments and
    capabilities ([wire.rs]), what the parsers accept. [Vm]: the system calls and the
    transaction they show. [Lock]: [account-lock/src/main.rs], for spends, updates and
    recoveries; [Molecule]: its readers of serialized tables; [Unlock]: its resolution of
    cells, its loops and its exit codes; [Approval]: what an accepted transaction implies;
    [OneKey]: the lock on an account with one key, as the demo creates it. [Verifier]:
    [verifier-p256/src/main.rs]; [Assertion]: what it accepts. [PostQuantum]: the two
    post-quantum verifiers. [Acceptance] composes client, lock and passkey verifier.

    Server ([demo/src/server]). [Service]: [errors.ts], [config.ts] and the handlers of
    [service.ts] as programs that await one dependency at a time; [Requests]: the transition
    system in which concurrent requests interleave at those awaits; [Completion]: why every
    request completes; [Http]: [http.ts].
    [Exporter]: [state-exporter.ts]; [Host]: the encoder the exporter runs; [Exported]: the
    two composed; [Process]: the dependencies of the exporter on the platform, with the child
    process. [Provisioning]: server, exporter, deploy library and client composed. [Startup]:
    [index.ts], the start of the program and the service over its real dependencies.

    Tools ([tools/deploy/src]). [Artifacts]: [artifacts.ts] and [plan.ts]; [Deployment]:
    [deployment.ts]; [Publish]: [deploy.ts]; [Account]: [account.ts]; [Bootstrap]:
    [bootstrapAccount] of [bootstrap-lib.ts]; [Atomic]: its [writeJsonAtomicFile]; [Creation]:
    [bootstrap.ts].

    [Samples] has concrete inputs and environments, and [Witnesses], [ServerWitnesses],
    [ClientWitnesses], [ToolWitnesses] and [SessionWitnesses] apply the theorems to them.
    [Machine] is a concrete virtual machine, and [ContractWitnesses] runs the contracts on it.

    ** What is proved

    Spending: the prepared transaction has exactly the planned inputs, outputs, fee and
    dependencies; the digest the passkey signs is the one the contracts recompute from the
    finalized transaction; a finalized transaction passes the on-chain parsers and keeps the
    reviewed hash; every in-bounds assertion finalizes; submission sends once; confirmation
    never sends. Codecs: encoders and contract parsers are inverse, digests are injective
    up to an explicit hash collision, accepted states are valid on chain. Validation: each
    schema and validator accepts exactly the stated values. Accounts: creation is guarded,
    sends at most once and yields a manifest the demo accepts; the exported state is the one
    the client reads and the contracts accept. Server: creations are serialized,
    verification is shared, every request completes
    in a bounded number of steps in every order, only local well-formed requests reach
    the service, and the client sees the service's answers unchanged. The server as it is wired sends at most
    one transaction for a request, and only after all checks; an export uses one private
    directory and keeps a bounded part of the tool's error text. Passkeys: what is
    requested from the browser, and that only a complete answer of the right credential is
    used. Sessions: rendering never throws, at most one transaction is submitted and it is
    the reviewed one, and an account creation is repeated only when that is known to be
    safe. Pages: the enabled buttons are the presses of the session, and the page that asks
    for an authorization shows the transaction that is signed, amount by amount. Build: the
    check passes exactly the bundles without server code, and refuses every build that has
    a module of the server or of the deploy tools. Tools: plans contain verified artifacts only; the deployment program sends one
    transaction per planned cell, only after the checks, and records only cells it has read
    back; merging manifests loses nothing; a manifest file is replaced as a whole or not at
    all. Contracts: a spend that the client prepared and finalized unlocks the account
    exactly when its assertion is genuine, and nothing else in it can make the lock fail;
    whatever the lock accepts is authorized by the account's current state, for the digest
    of that very transaction, with proofs of enough weight; the lock ends with one of its
    exit codes and never panics; requests are read exactly as the ABI lays them out; each
    verifier exits with 0 exactly for the requests that are characterized, and the
    passkey verifier's scanner accepts exactly the client data that names type, challenge
    and origin once each.

    ** Interfaces and assumptions

    Code outside the repository is a class of operations, and the laws a theorem relies on
    are a class of their own: [Ccc] and [CccLaws] (chain library), [Zod] and [ZodLaws]
    (schema library), [Json] and its laws, [Files], [BootstrapDeps] and [BootstrapLaws],
    [Tool] and [ToolLaws] (wallet, network and disk of the tools), [FileSystem] and
    [FileSystemLaws], [SpendClient] (chain client), [Browser], [Storage], [Fetch], [Listener]
    (the server's socket), the service's dependencies, [Platform] and [Os] (paths, files and
    processes of the exporter). Every class has a concrete instance ([CccRef], [zod_ref],
    [json_ref], [Samples] and the witness files) on which the laws are proved, so no
    hypothesis is empty. For the contracts these are [Loads] and [LoadLaws] (the calls that
    show a transaction), [Processes] with [ProcessSound] (a child's exit code is one its
    program has on the request), [ProcessLive] (a free kernel can start and wait for it, with the
    reading end of the pipe moved to the child or closed by the parent) and
    [PipeReads] (a child reads what its parent wrote), and the signature crates [P256] and
    [SignatureScheme], with concrete instances in [Machine]. [Acceptance] also assumes that
    the chain client reports cells as they are, that the chain library serializes witnesses
    as molecule tables, that SHA-256 is the standard function, and that the code cells are
    [deployed]. The laws state documented behaviour only: the hash is a function to
    32 bytes (never that it is injective), serialization round-trips, completing a
    transaction keeps its outputs.

    Mutable objects: the log and the environment are threaded through each call, a
    transaction that a library call mutates is returned by it, and where code can observe a
    mutation during an await ([SpendStep]) the later value is arbitrary.

    Fuel: number printing takes as much as the number has binary digits and loses nothing
    ([radix_digits_parse] in [JsString]); the reference JSON parser takes twice the length of
    the text, which is enough for every text the printer produces ([JsonLaws]); the blocks
    of BLAKE2b are counted by the length of the message. The lock's loops over cells take
    more fuel than the transaction has cells ([enough] in [Unlock], under which the lock
    always exits), its loops on pipes as much as there are bytes left to move, and the
    verifier's scanner as much as the text is long. All other recursion is structural.

    Numbers: array lengths, indices and counts are integers within the safe range where the
    code checks it; amounts are unbounded integers ([bigint]); byte and
    16/32/64-bit fields carry their bounds, and the contracts' checked arithmetic fails as
    in the source.

    Sessions: a step is a commit of React, a press of an enabled button, or the settlement of
    one pending promise with any outcome the called function can have. The updates of a
    press are committed before the next event, those of a settled promise at any later time.
    The chain client is configured, as [main.tsx] does.

    ** Not modelled

    Focus and styling of the pages, and the double effects of React's development mode.
    [main.tsx], which mounts the application. Sockets, files and processes themselves,
    which are interfaces. The signature crates and the chain's scheduler. The cycles and
    the memory of the contracts, so that a run is never cut off. The verifier that only
    the contracts' tests deploy, and the encoders of the host that only tests use.
    Hashes are computed for the vectors but nothing is proved of their strength; the
    theorems end in an explicit collision instead. Tests and test support. *)

From stdpp Require Export base tactics list list_numbers numbers strings option.
From Stdlib Require Export ZArith Lia.
From Stdlib Require Export Init.Byte.
From Stdlib Require Ascii String.

Declare Scope js_scope.
Delimit Scope js_scope with js.
#[global] Open Scope string_scope.
#[global] Open Scope list_scope.
#[global] Open Scope bool_scope.
#[global] Open Scope Z_scope.

(** ** Exceptions

    One constructor per class of value the program throws or tests with
    [instanceof]; the message is kept because callers match on it. *)

Inductive error_class :=
  | CError
  | CTypeError
  | CRangeError
  | CSyntaxError
  | CZodError
  | CDOMException (name : string)
  | CPasskeyCancelled
  | CPasskeyProtocol
  | CApiError (code : string) (status : Z)
  | CDemoApiError (code : string) (status : option Z)
  | CLibrary (name : string).

Record exn := Exn { exn_class : error_class; exn_message : string }.

#[export] Instance error_class_eq_dec : EqDecision error_class.
Proof. solve_decision. Defined.
#[export] Instance exn_eq_dec : EqDecision exn.
Proof. solve_decision. Defined.

Definition TypeError (m : string) : exn := Exn CTypeError m.
Definition RangeError (m : string) : exn := Exn CRangeError m.
Definition Error (m : string) : exn := Exn CError m.

(** ** Results of code that may throw *)

Inductive res (A : Type) :=
  | Ok (a : A)
  | Throw (e : exn).
Arguments Ok {A} a.
Arguments Throw {A} e.

#[export] Instance res_eq_dec {A} `{EqDecision A} : EqDecision (res A).
Proof. solve_decision. Defined.

#[export] Instance res_ret : MRet res := fun A => Ok.
#[export] Instance res_bind : MBind res := fun A B f m =>
  match m with Ok a => f a | Throw e => Throw e end.
#[export] Instance res_fmap : FMap res := fun A B f m =>
  match m with Ok a => Ok (f a) | Throw e => Throw e end.

(** [if (c) throw e;] *)
Definition throw_if (c : bool) (e : exn) : res unit :=
  if c then Throw e else Ok tt.

(** [a || b] where evaluating either side may throw: [b] only runs when [a] is
    false. *)
Definition or_else (a b : res bool) : res bool :=
  x ← a; if x : bool then Ok true else b.

Definition from_option_or {A} (e : exn) (o : option A) : res A :=
  match o with Some a => Ok a | None => Throw e end.

Definition is_ok {A} (m : res A) : bool :=
  match m with Ok _ => true | Throw _ => false end.

Fixpoint mapM_res {A B} (f : A → res B) (l : list A) : res (list B) :=
  match l with
  | [] => Ok []
  | x :: l' => y ← f x; ys ← mapM_res f l'; Ok (y :: ys)
  end.

Section res_lemmas.
Context {A B : Type}.

Lemma bind_Ok_iff (m : res A) (f : A → res B) b :
  (m ≫= f) = Ok b ↔ ∃ a, m = Ok a ∧ f a = Ok b.
Proof. destruct m; simpl; naive_solver. Qed.

Lemma bind_Throw_iff (m : res A) (f : A → res B) e :
  (m ≫= f) = Throw e ↔ m = Throw e ∨ ∃ a, m = Ok a ∧ f a = Throw e.
Proof. destruct m; simpl; naive_solver. Qed.

Lemma fmap_Ok_iff (m : res A) (f : A → B) b :
  (f <$> m) = Ok b ↔ ∃ a, m = Ok a ∧ f a = b.
Proof. destruct m; simpl; naive_solver. Qed.

Lemma bind_assoc_res {C} (m : res A) (f : A → res B) (g : B → res C) :
  (m ≫= f) ≫= g = m ≫= (λ x, f x ≫= g).
Proof. by destruct m. Qed.

Lemma from_option_or_Ok e (o : option A) a :
  from_option_or e o = Ok a ↔ o = Some a.
Proof. destruct o; simpl; naive_solver. Qed.
End res_lemmas.

Lemma mapM_res_Ok {A B} (f : A → res B) l k :
  mapM_res f l = Ok k ↔ Forall2 (λ x y, f x = Ok y) l k.
Proof.
  revert k. induction l as [|x l IH]; intros k; simpl.
  - split; [intros [= <-]; constructor | intros H; by inversion H].
  - rewrite bind_Ok_iff. setoid_rewrite bind_Ok_iff. split.
    + intros (y & Hy & ys & Hys & [= <-]). constructor; [done|]. by apply IH.
    + intros H. inversion H; subst. eexists; split; [done|].
      eexists; split; [by apply IH | done].
Qed.

Lemma throw_if_Ok c e u : throw_if c e = Ok u ↔ c = false.
Proof. destruct c, u; simpl; naive_solver. Qed.

Lemma throw_if_Throw c e e' : throw_if c e = Throw e' ↔ c = true ∧ e' = e.
Proof. destruct c; simpl; naive_solver. Qed.

Lemma or_else_Ok_false a b :
  or_else a b = Ok false ↔ a = Ok false ∧ b = Ok false.
Proof. destruct a as [[]|]; simpl; naive_solver. Qed.

Lemma or_else_false_l b : or_else (Ok false) b = b.
Proof. done. Qed.

(** ** Tactics *)

(** Split a hypothesis [m = Ok a] on a chain of binds into its steps. *)
Ltac inv_res_step :=
  match goal with
  | H : mbind _ _ = Ok _ |- _ =>
      apply bind_Ok_iff in H; let x := fresh "v" in
      destruct H as (x & ? & H); cbv beta in H
  | H : fmap _ _ = Ok _ |- _ =>
      apply fmap_Ok_iff in H; let x := fresh "v" in
      destruct H as (x & ? & H); cbv beta in H
  | H : throw_if _ _ = Ok _ |- _ => apply throw_if_Ok in H
  | H : or_else _ _ = Ok false |- _ =>
      apply or_else_Ok_false in H; destruct H
  | H : from_option_or _ _ = Ok _ |- _ => apply from_option_or_Ok in H
  | H : Ok _ = Ok _ |- _ => injection H; clear H; intros
  | H : Throw _ = Ok _ |- _ => discriminate H
  | H : Ok _ = Throw _ |- _ => discriminate H
  | H : mret _ = Ok _ |- _ => unfold mret, res_ret in H
  | H : (let '(_, _) := ?p in _) = Ok _ |- _ => destruct p
  end.
Ltac inv_res := repeat (inv_res_step; try subst).

(** Step over a guard whose condition is false in the context. *)
Ltac pass_guard :=
  match goal with
  | |- context [throw_if ?c ?e] =>
      rewrite (proj2 (throw_if_Ok c e tt)) by first [done | lia]
  end; cbn [mbind res_bind].
Ltac pass_guards := repeat pass_guard.

(** The same for the guard at the head of a chain. *)
Ltac head_guard :=
  lazymatch goal with
  | |- mbind _ (throw_if ?c ?e) = _ =>
      rewrite (proj2 (throw_if_Ok c e tt)) by first [lia | done]
  end; cbn [mbind res_bind].

(** Turn boolean guards that evaluated to a known value into propositions. *)
Ltac bool_step :=
  match goal with
  | H : _ || _ = false |- _ => apply orb_false_iff in H; destruct H
  | H : _ && _ = true |- _ => apply andb_true_iff in H; destruct H
  | H : negb _ = false |- _ => apply negb_false_iff in H
  | H : negb _ = true |- _ => apply negb_true_iff in H
  | H : (_ =? _)%Z = true |- _ => apply Z.eqb_eq in H
  | H : (_ =? _)%Z = false |- _ => apply Z.eqb_neq in H
  | H : (_ <? _)%Z = true |- _ => apply Z.ltb_lt in H
  | H : (_ <? _)%Z = false |- _ => apply Z.ltb_ge in H
  | H : (_ <=? _)%Z = true |- _ => apply Z.leb_le in H
  | H : (_ <=? _)%Z = false |- _ => apply Z.leb_gt in H
  | H : (_ >? _)%Z = _ |- _ => rewrite Z.gtb_ltb in H
  | H : (_ >=? _)%Z = _ |- _ => rewrite Z.geb_leb in H
  | H : bool_decide _ = true |- _ => apply bool_decide_eq_true in H
  | H : bool_decide _ = false |- _ => apply bool_decide_eq_false in H
  | H : String.eqb _ _ = true |- _ => apply String.eqb_eq in H
  | H : String.eqb _ _ = false |- _ => apply String.eqb_neq in H
  end.
Ltac bool_simpl := repeat bool_step.

(** String concatenation computes on a constructor. *)
#[global] Arguments String.append !_ _ / : simpl nomatch.
#[global] Arguments String.length !_ / : simpl nomatch.
