(* ===== verification/Js.v ===== *)
(** * The JavaScript values and library functions the program uses

    Numbers, byte arrays with their views, strings and JSON-shaped values.
    A [Uint8Array] is a list of [byte], so its elements are in range by
    construction; a string is a sequence of code units below 256, which covers
    every literal of the program and all hexadecimal and base64 text. *)

From S2P Require Import Prelude.
Import Ascii.

(** ** Numbers

    A [number] is an integer, a finite non-integer (kept as its floor, which
    determines every comparison with an integer), or one of the three special
    values. *)

Inductive number :=
  | NInt (z : Z)
  | NFrac (floor : Z)
  | NNaN
  | NPosInf
  | NNegInf.

#[export] Instance number_eq_dec : EqDecision number.
Proof. solve_decision. Defined.

Definition MAX_SAFE_INTEGER : Z := 2 ^ 53 - 1.

Definition Number_isInteger (n : number) : bool :=
  match n with NInt _ => true | _ => false end.
Definition Number_isSafeInteger (n : number) : bool :=
  match n with NInt z => (Z.abs z <=? MAX_SAFE_INTEGER)%Z | _ => false end.
Definition Number_isFinite (n : number) : bool :=
  match n with NInt _ | NFrac _ => true | _ => false end.

(** [n < k], [n > k] and [n <= k] for an integer [k]. *)
Definition num_lt (n : number) (k : Z) : bool :=
  match n with
  | NInt z => z <? k | NFrac f => f <? k
  | NNaN | NPosInf => false | NNegInf => true
  end.
Definition num_gt (n : number) (k : Z) : bool :=
  match n with
  | NInt z => k <? z | NFrac f => k <=? f
  | NNaN | NNegInf => false | NPosInf => true
  end.
Definition num_le (n : number) (k : Z) : bool :=
  match n with
  | NInt z => z <=? k | NFrac f => f <? k
  | NNaN | NPosInf => false | NNegInf => true
  end.
(** [n === k]. *)
Definition num_is (n : number) (k : Z) : bool :=
  match n with NInt z => z =? k | _ => false end.

(** The integer a typed view reads from a number (integers only). *)
Definition num_Z (n : number) : Z :=
  match n with NInt z => z | NFrac f => f | _ => 0 end.

(** ** Bytes and byte arrays *)

Definition Z_of_byte (b : byte) : Z := Z.of_N (Byte.to_N b).
(** [ToUint8]: storing a number in a [Uint8Array] keeps it modulo 256. *)
Definition byte_of_Z (z : Z) : byte :=
  match Byte.of_N (Z.to_N (z mod 256)) with Some b => b | None => x00 end.
Definition byte_of_number (n : number) : byte :=
  match n with NInt z => byte_of_Z z | NFrac f => byte_of_Z f | _ => x00 end.

#[export] Instance byte_eq_dec : EqDecision byte.
Proof. intros a b. destruct (Byte.byte_eq_dec a b); [by left|by right]. Defined.

Notation bytes := (list byte).

(** [bytes[i]], [undefined] out of range. *)
Definition at_ (bs : bytes) (i : nat) : option Z := Z_of_byte <$> bs !! i.
(** [bytes[i] === k]. *)
Definition at_is (bs : bytes) (i : nat) (k : Z) : bool :=
  bool_decide (at_ bs i = Some k).
(** [bytes.length] as an integer. *)
Definition len {A} (l : list A) : Z := Z.of_nat (length l).
(** [bytes.subarray(a, b)] and [bytes.slice(a, b)] for [a <= b]. *)
Definition subarray (bs : bytes) (a b : nat) : bytes := take (b - a) (drop a bs).
(** [new Uint8Array(n)]. *)
Definition zeros (n : nat) : bytes := replicate n x00.

(** Little-endian stores and loads. *)
Fixpoint le_bytes (n : nat) (v : Z) : bytes :=
  match n with
  | O => []
  | S n' => byte_of_Z v :: le_bytes n' (v / 256)
  end.
Fixpoint le_value (bs : bytes) : Z :=
  match bs with
  | [] => 0
  | b :: bs' => Z_of_byte b + 256 * le_value bs'
  end.

(** [DataView] reads: a read past the end throws. *)
Definition view_get (n : nat) (bs : bytes) (off : nat) : res Z :=
  if (off + n <=? length bs)%nat
  then Ok (le_value (subarray bs off (off + n)))
  else Throw (RangeError "Offset is outside the bounds of the DataView").
Definition getUint16 := view_get 2.
Definition getUint32 := view_get 4.
Definition getBigUint64 := view_get 8.

(** The 32-bit operators of the source. *)
Definition to_uint32 (z : Z) : Z := z mod 2 ^ 32.
Definition to_int32 (z : Z) : Z :=
  let u := to_uint32 z in if u <? 2 ^ 31 then u else u - 2 ^ 32.
Definition bit_and (a b : Z) : Z := to_int32 (Z.land (to_uint32 a) (to_uint32 b)).
Definition ushr (a k : Z) : Z := Z.shiftr (to_uint32 a) (k mod 32).

(** ** Byte lemmas *)

Lemma Z_of_byte_range b : 0 <= Z_of_byte b < 256.
Proof. destruct b; vm_compute; split; done. Qed.

Lemma byte_of_Z_of_byte b : byte_of_Z (Z_of_byte b) = b.
Proof. destruct b; reflexivity. Qed.

Lemma Z_of_byte_of_Z z : Z_of_byte (byte_of_Z z) = z mod 256.
Proof.
  unfold byte_of_Z, Z_of_byte.
  pose proof (Z.mod_pos_bound z 256 ltac:(lia)) as Hb.
  destruct (Byte.of_N (Z.to_N (z mod 256))) as [b|] eqn:E.
  - apply Byte.to_of_N in E. rewrite E, Z2N.id; lia.
  - apply Byte.of_N_None_iff in E. lia.
Qed.

Lemma Z_of_byte_inj a b : Z_of_byte a = Z_of_byte b → a = b.
Proof. intros H. by rewrite <- (byte_of_Z_of_byte a), <- (byte_of_Z_of_byte b), H. Qed.

Lemma byte_of_Z_mod z : byte_of_Z (z mod 256) = byte_of_Z z.
Proof. unfold byte_of_Z. by rewrite Z.mod_mod by lia. Qed.

Lemma length_le_bytes n v : length (le_bytes n v) = n.
Proof. revert v. induction n; intros; simpl; auto. Qed.

Lemma le_value_bytes n v : le_value (le_bytes n v) = v mod 256 ^ Z.of_nat n.
Proof.
  revert v. induction n as [|n IH]; intros v; [by rewrite Z.mod_1_r|].
  cbn [le_bytes le_value]. rewrite IH, Z_of_byte_of_Z.
  rewrite Nat2Z.inj_succ, Z.pow_succ_r by lia.
  rewrite Z.rem_mul_r by (try lia; apply Z.pow_pos_nonneg; lia). done.
Qed.

Lemma le_bytes_value bs : le_bytes (length bs) (le_value bs) = bs.
Proof.
  induction bs as [|b bs IH]; [done|]. cbn [length le_bytes le_value].
  pose proof (Z_of_byte_range b).
  f_equal.
  - rewrite <- byte_of_Z_mod, Z.mul_comm, Z.mod_add, Z.mod_small by lia.
    apply byte_of_Z_of_byte.
  - rewrite Z.mul_comm, Z.div_add, Z.div_small by lia. by rewrite Z.add_0_l.
Qed.

Lemma le_value_range bs : 0 <= le_value bs < 256 ^ len bs.
Proof.
  unfold len. induction bs as [|b bs IH]; cbn [le_value length]; [lia|].
  pose proof (Z_of_byte_range b). rewrite Nat2Z.inj_succ, Z.pow_succ_r; lia.
Qed.

Lemma le_value_inj a b : length a = length b → le_value a = le_value b → a = b.
Proof.
  intros Hl Hv. by rewrite <- (le_bytes_value a), <- (le_bytes_value b), Hl, Hv.
Qed.

Lemma le_bytes_inj n v w :
  0 <= v < 256 ^ Z.of_nat n → 0 <= w < 256 ^ Z.of_nat n →
  le_bytes n v = le_bytes n w → v = w.
Proof.
  intros Hv Hw H. apply (f_equal le_value) in H.
  by rewrite !le_value_bytes, !Z.mod_small in H.
Qed.

Lemma len_app {A} (l k : list A) : len (l ++ k) = len l + len k.
Proof. unfold len. rewrite length_app. lia. Qed.
Lemma len_cons {A} (x : A) l : len (x :: l) = 1 + len l.
Proof. unfold len. simpl length. lia. Qed.
Lemma len_nil {A} : len (@nil A) = 0.
Proof. done. Qed.
Lemma len_nonneg {A} (l : list A) : 0 <= len l.
Proof. unfold len. lia. Qed.
Lemma len_zero {A} (l : list A) : len l = 0 ↔ l = [].
Proof. unfold len. destruct l; simpl; naive_solver lia. Qed.
Lemma len_le_bytes n v : len (le_bytes n v) = Z.of_nat n.
Proof. unfold len. by rewrite length_le_bytes. Qed.
Lemma len_zeros n : len (zeros n) = Z.of_nat n.
Proof. unfold len, zeros. by rewrite length_replicate. Qed.

Create HintDb js discriminated.
#[export] Hint Rewrite @len_app @len_cons @len_nil len_le_bytes len_zeros : js.
#[export] Hint Rewrite byte_of_Z_of_byte Z_of_byte_of_Z length_le_bytes : js.
#[export] Hint Resolve len_nonneg : js.
