(* ===== verification/JsString.v ===== *)
(** * Strings, number printing, text decoding and JSON-shaped values *)

From S2P Require Import Prelude Js.
From Stdlib Require Import Ascii.

(** ** Code units *)

Definition code (c : ascii) : Z := Z.of_N (N_of_ascii c).
Definition chr (z : Z) : ascii := ascii_of_N (Z.to_N z).
Definition str_codes (s : string) : list Z := code <$> String.list_ascii_of_string s.
Definition str_len (s : string) : nat := String.length s.
Definition in_range (lo hi : ascii) (c : ascii) : bool :=
  (code lo <=? code c) && (code c <=? code hi).

Fixpoint str_all (p : ascii → bool) (s : string) : bool :=
  match s with
  | EmptyString => true
  | String c s' => p c && str_all p s'
  end.
Fixpoint str_map (f : ascii → ascii) (s : string) : string :=
  match s with
  | EmptyString => EmptyString
  | String c s' => String (f c) (str_map f s')
  end.
Fixpoint str_repeat (n : nat) (s : string) : string :=
  match n with O => "" | S n' => s +:+ str_repeat n' s end.

(** [s.slice(a)] and [s.slice(a, b)] for [0 <= a <= b]. *)
Fixpoint str_drop (n : nat) (s : string) : string :=
  match n, s with
  | O, _ => s
  | S n', String _ s' => str_drop n' s'
  | S _, EmptyString => ""
  end.
Fixpoint str_take (n : nat) (s : string) : string :=
  match n, s with
  | O, _ => ""
  | S n', String c s' => String c (str_take n' s')
  | S _, EmptyString => ""
  end.
Definition slice (a b : nat) (s : string) : string := str_take (b - a) (str_drop a s).

(** [s.padStart(n, c)]. *)
Definition padStart (n : nat) (c : string) (s : string) : string :=
  str_repeat (n - str_len s) c +:+ s.
Definition padEnd (n : nat) (c : string) (s : string) : string :=
  s +:+ str_repeat (n - str_len s) c.
(** [s.replaceAll(a, b)] for one-character [a] and [b]. *)
Definition replaceAll (a b : ascii) : string → string :=
  str_map (λ c, if Ascii.eqb c a then b else c).
(** [s.toLowerCase()] on code units below 256. *)
Definition lower_char (c : ascii) : ascii :=
  let n := code c in
  if ((65 <=? n) && (n <=? 90)) || ((192 <=? n) && (n <=? 222) && negb (n =? 215))
  then chr (n + 32) else c.
Definition toLowerCase : string → string := str_map lower_char.
Fixpoint startsWith (p s : string) : bool :=
  match p, s with
  | EmptyString, _ => true
  | String a p', String b s' => Ascii.eqb a b && startsWith p' s'
  | String _ _, EmptyString => false
  end.
Fixpoint includes (p s : string) : bool :=
  startsWith p s ||
  match s with EmptyString => false | String _ s' => includes p s' end.

(** ** Printing and reading integers *)

Definition digit_char (d : Z) : ascii := if d <? 10 then chr (48 + d) else chr (87 + d).
Definition digit_value (c : ascii) : option Z :=
  let n := code c in
  if (48 <=? n) && (n <=? 57) then Some (n - 48)
  else if (97 <=? n) && (n <=? 122) then Some (n - 87)
  else if (65 <=? n) && (n <=? 90) then Some (n - 55)
  else None.

Fixpoint radix_digits (fuel : nat) (base z : Z) (acc : string) : string :=
  match fuel with
  | O => acc
  | S fuel' =>
      let acc' := String (digit_char (z mod base)) acc in
      if z / base =? 0 then acc' else radix_digits fuel' base (z / base) acc'
  end.
(** [z.toString(base)] for an integer; one digit per bit is always enough. *)
Definition to_radix (base z : Z) : string :=
  if z <? 0 then String "-" (radix_digits (S (Z.to_nat (Z.log2 (- z)))) base (- z) "")
  else radix_digits (S (Z.to_nat (Z.log2 z))) base z "".
Definition dec (z : Z) : string := to_radix 10 z.

(** [Number.parseInt(s, base)]: the value of the longest prefix of digits. *)
Fixpoint parse_digits (base : Z) (s : string) (acc : option Z) : option Z :=
  match s with
  | EmptyString => acc
  | String c s' =>
      match digit_value c with
      | Some d => if d <? base
                  then parse_digits base s' (Some (default 0 acc * base + d))
                  else acc
      | None => acc
      end
  end.
Definition parseInt (s : string) (base : Z) : number :=
  match parse_digits base s None with Some z => NInt z | None => NNaN end.

(** ** [TextEncoder] and [TextDecoder] *)

Definition utf8_char (c : ascii) : bytes :=
  let n := code c in
  if n <? 128 then [byte_of_Z n]
  else [byte_of_Z (192 + n / 64); byte_of_Z (128 + n mod 64)].
(** [new TextEncoder().encode(s)]. *)
Fixpoint utf8_encode (s : string) : bytes :=
  match s with
  | EmptyString => []
  | String c s' => utf8_char c ++ utf8_encode s'
  end.

(** The UTF-8 decoder of the encoding standard: a pending sequence is its code
    point so far, the number of continuation bytes it still needs, and the
    bounds of the next one. The result is the list of code points, with U+FFFD
    for each error. *)
Record utf8_state := Utf8 { u_cp : Z; u_needed : nat; u_lo : Z; u_hi : Z }.
Definition utf8_idle : utf8_state := Utf8 0 0 128 191.
Definition REPLACEMENT : Z := 65533.

Definition utf8_lead (b : Z) : utf8_state * list Z :=
  if b <=? 127 then (utf8_idle, [b])
  else if (194 <=? b) && (b <=? 223) then (Utf8 (b mod 32) 1 128 191, [])
  else if (224 <=? b) && (b <=? 239) then
    (Utf8 (b mod 16) 2 (if b =? 224 then 160 else 128) (if b =? 237 then 159 else 191), [])
  else if (240 <=? b) && (b <=? 244) then
    (Utf8 (b mod 8) 3 (if b =? 240 then 144 else 128) (if b =? 244 then 143 else 191), [])
  else (utf8_idle, [REPLACEMENT]).

Definition utf8_step (st : utf8_state) (b : Z) : utf8_state * list Z :=
  match u_needed st with
  | O => utf8_lead b
  | S n =>
      if (u_lo st <=? b) && (b <=? u_hi st) then
        let cp := u_cp st * 64 + b mod 64 in
        match n with
        | O => (utf8_idle, [cp])
        | S _ => (Utf8 cp n 128 191, [])
        end
      else let '(st', out) := utf8_lead b in (st', REPLACEMENT :: out)
  end.

Fixpoint utf8_run (st : utf8_state) (bs : bytes) : list Z :=
  match bs with
  | [] => match u_needed st with O => [] | S _ => [REPLACEMENT] end
  | b :: bs' => let '(st', out) := utf8_step st (Z_of_byte b) in out ++ utf8_run st' bs'
  end.

(** [new TextDecoder().decode(bytes)]: a leading byte-order mark is dropped. *)
Definition text_decode (bs : bytes) : list Z :=
  if bool_decide (take 3 bs = [xef; xbb; xbf])
  then utf8_run utf8_idle (drop 3 bs) else utf8_run utf8_idle bs.

(** ** JSON-shaped values *)

Inductive jsval :=
  | JUndef
  | JNull
  | JBool (b : bool)
  | JNum (n : number)
  | JStr (s : string)
  | JArr (l : list jsval)
  | JObj (fields : list (string * jsval)).

Fixpoint assoc {A} (k : string) (l : list (string * A)) : option A :=
  match l with
  | [] => None
  | (k', v) :: l' => if String.eqb k k' then Some v else assoc k l'
  end.

(** [v.k] for a name no array or primitive defines. *)
Definition prop (v : jsval) (k : string) : jsval :=
  match v with JObj fs => default JUndef (assoc k fs) | _ => JUndef end.

(** The reads a statically typed access compiles to. *)
Definition as_str (v : jsval) : string := match v with JStr s => s | _ => "" end.
Definition as_int (v : jsval) : Z := match v with JNum n => num_Z n | _ => 0 end.
Definition as_bool (v : jsval) : bool := match v with JBool b => b | _ => false end.

(** Text of a value in a template string. The digits of a fraction are not kept. *)
Definition number_text (n : number) : string :=
  match n with
  | NInt z => dec z
  | NFrac f => dec f
  | NNaN => "NaN"
  | NPosInf => "Infinity"
  | NNegInf => "-Infinity"
  end.
Fixpoint js_text (v : jsval) : string :=
  match v with
  | JUndef => "undefined"
  | JNull => "null"
  | JBool b => if b then "true" else "false"
  | JNum n => number_text n
  | JStr s => s
  | JArr l => String.concat ","
      ((λ v, match v with JUndef | JNull => "" | _ => js_text v end) <$> l)
  | JObj _ => "[object Object]"
  end.
Definition error_name (c : error_class) : string :=
  match c with
  | CError => "Error" | CTypeError => "TypeError" | CRangeError => "RangeError"
  | CSyntaxError => "SyntaxError" | CZodError => "ZodError"
  | CDOMException name | CLibrary name => name
  | CPasskeyCancelled => "PasskeyCancelledError" | CPasskeyProtocol => "PasskeyProtocolError"
  | CApiError _ _ => "ApiError" | CDemoApiError _ _ => "DemoApiError"
  end.
Definition error_text (e : exn) : string :=
  if String.eqb (exn_message e) "" then error_name (exn_class e)
  else error_name (exn_class e) +:+ ": " +:+ exn_message e.

(** [v === s], [v === k], [v === b] against constants. *)
Definition is_str (v : jsval) (s : string) : bool :=
  match v with JStr s' => String.eqb s' s | _ => false end.
Lemma is_str_true v s : is_str v s = true ↔ v = JStr s.
Proof. destruct v; cbn; rewrite ?String.eqb_eq; naive_solver. Qed.

Definition is_num (v : jsval) (k : Z) : bool :=
  match v with JNum n => num_is n k | _ => false end.
Definition is_bool (v : jsval) (b : bool) : bool :=
  match v with JBool b' => Bool.eqb b' b | _ => false end.
Definition is_undef (v : jsval) : bool := match v with JUndef => true | _ => false end.
Definition is_null (v : jsval) : bool := match v with JNull => true | _ => false end.
(** [typeof v === "object" && v !== null]. *)
Definition is_object (v : jsval) : bool :=
  match v with JArr _ | JObj _ => true | _ => false end.
(** The same, and not an array. *)
Definition is_plain (v : jsval) : bool := match v with JObj _ => true | _ => false end.

(** No [undefined] anywhere, as in a value read from JSON text. *)
Fixpoint is_json (v : jsval) : bool :=
  match v with
  | JUndef => false
  | JNull | JBool _ | JNum _ | JStr _ => true
  | JArr l => forallb is_json l
  | JObj fs => forallb (λ kv, is_json kv.2) fs
  end.

Lemma is_json_assoc k fs w :
  is_json (JObj fs) = true → assoc k fs = Some w → is_json w = true.
Proof.
  simpl. induction fs as [|[k' v'] fs IH]; simpl; [done|].
  rewrite andb_true_iff. intros [Hv Hfs]. destruct (String.eqb k k'); [|auto].
  by intros [= <-].
Qed.

(** ** String lemmas *)

Lemma str_app_assoc (a b c : string) : (a +:+ b) +:+ c = a +:+ (b +:+ c).
Proof. induction a; simpl; congruence. Qed.
Lemma str_app_nil_r (s : string) : s +:+ "" = s.
Proof. induction s; simpl; congruence. Qed.
Lemma str_app_inv_l (p a b : string) : p +:+ a = p +:+ b → a = b.
Proof. induction p; simpl; [done|]. intros [= H]. auto. Qed.
Lemma str_len_app a b : str_len (a +:+ b) = (str_len a + str_len b)%nat.
Proof. unfold str_len. induction a; simpl; congruence. Qed.
Lemma str_drop_app a b : str_drop (str_len a) (a +:+ b) = b.
Proof. unfold str_len. induction a; simpl; done. Qed.
Lemma str_take_app a b : str_take (str_len a) (a +:+ b) = a.
Proof. unfold str_len. induction a; simpl; [by destruct b | congruence]. Qed.
Lemma str_take_drop n s : str_take n s +:+ str_drop n s = s.
Proof. revert s. induction n; intros [|c s]; simpl; congruence. Qed.
Lemma str_len_take n s : (n ≤ str_len s)%nat → str_len (str_take n s) = n.
Proof.
  unfold str_len. revert s. induction n; intros [|c s]; simpl; intros; try lia.
  rewrite IHn; lia.
Qed.
Lemma str_len_drop n s : str_len (str_drop n s) = (str_len s - n)%nat.
Proof. unfold str_len. revert s. induction n; intros [|c s]; simpl; auto. Qed.
Lemma str_all_app p a b : str_all p (a +:+ b) = str_all p a && str_all p b.
Proof. induction a; simpl; [done|]. rewrite IHa. by destruct (p a), (str_all p a0). Qed.
Lemma str_all_take p n s : str_all p s = true → str_all p (str_take n s) = true.
Proof.
  revert s. induction n; intros [|c s]; simpl; [done..|].
  rewrite !andb_true_iff. naive_solver.
Qed.
Lemma str_all_drop p n s : str_all p s = true → str_all p (str_drop n s) = true.
Proof.
  revert s. induction n; intros [|c s]; simpl; [done..|].
  rewrite !andb_true_iff. naive_solver.
Qed.
Lemma str_all_impl (p q : ascii → bool) s :
  (∀ c, p c = true → q c = true) → str_all p s = true → str_all q s = true.
Proof.
  intros H. induction s; simpl; [done|]. rewrite !andb_true_iff. naive_solver.
Qed.
Lemma str_map_id p f s :
  (∀ c, p c = true → f c = c) → str_all p s = true → str_map f s = s.
Proof.
  intros H. induction s; simpl; [done|]. rewrite andb_true_iff.
  intros [Hc Hs]. by rewrite H, IHs.
Qed.
Lemma str_len_map f s : str_len (str_map f s) = str_len s.
Proof. unfold str_len. induction s; simpl; congruence. Qed.

Lemma code_range c : 0 <= code c < 256.
Proof. unfold code. pose proof (N_ascii_bounded c). lia. Qed.
Lemma code_inj a b : code a = code b → a = b.
Proof.
  unfold code. intros H%N2Z.inj.
  by rewrite <- (ascii_N_embedding a), <- (ascii_N_embedding b), H.
Qed.
Lemma chr_code c : chr (code c) = c.
Proof. unfold chr, code. by rewrite N2Z.id, ascii_N_embedding. Qed.
Lemma code_chr z : 0 <= z < 256 → code (chr z) = z.
Proof. intros H. unfold chr, code. rewrite N_ascii_embedding; lia. Qed.

(** ** Decoding to ASCII text

    Every output of the decoder below 128 comes from the byte with that value,
    so a decoded text is an ASCII string only when the bytes are its codes. *)

Definition pending_ok (st : utf8_state) : Prop :=
  128 ≤ u_lo st ∧ u_hi st ≤ 191 ∧ 0 ≤ u_cp st ∧
  match u_needed st with
  | 1%nat => 2 ≤ u_cp st
  | 2%nat => 1 ≤ u_cp st ∨ 160 ≤ u_lo st
  | 3%nat => 1 ≤ u_cp st ∨ 144 ≤ u_lo st
  | _ => False
  end.

Lemma mod_window m k b : 0 < m → m * k ≤ b < m * k + m → b mod m = b - m * k.
Proof. intros Hm Hb. symmetry. apply (Z.mod_unique _ _ k); lia. Qed.

Lemma utf8_pending_not_ascii bs st :
  pending_ok st → ¬ Forall (λ c, c < 128) (utf8_run st bs).
Proof.
  revert st. induction bs as [|b bs IH]; intros [cp n lo hi] (Hlo & Hhi & Hcp & Hn).
  - destruct n as [|[|[|[]]]]; simpl in *; try done;
      intros H; inversion H; subst; unfold REPLACEMENT in *; lia.
  - cbn -[Z.mul Z.modulo] in *. unfold utf8_step. cbn -[Z.mul Z.modulo].
    destruct n as [|n]; [done|].
    destruct ((lo <=? Z_of_byte b) && (Z_of_byte b <=? hi)) eqn:E.
    + bool_simpl. pose proof (mod_window 64 2 (Z_of_byte b) ltac:(lia) ltac:(lia)).
      destruct n as [|[|[|]]]; try done.
      * intros Hf. cbn -[Z.mul Z.modulo] in Hf. inversion Hf; subst. lia.
      * apply IH. repeat split; cbn -[Z.mul Z.modulo]; try lia.
      * apply IH. repeat split; cbn -[Z.mul Z.modulo]; try lia.
    + destruct (utf8_lead (Z_of_byte b)). intros Hf. inversion Hf; subst.
      unfold REPLACEMENT in *. lia.
Qed.

Lemma utf8_run_ascii bs :
  Forall (λ c, c < 128) (utf8_run utf8_idle bs) →
  utf8_run utf8_idle bs = Z_of_byte <$> bs.
Proof.
  induction bs as [|b bs IH]; [done|].
  cbn [utf8_run]. unfold utf8_step. cbn [u_needed utf8_idle]. unfold utf8_lead.
  repeat case_match; bool_simpl; simplify_eq/=; intros Hf;
    try (exfalso; eapply utf8_pending_not_ascii; [|exact Hf];
         repeat split; cbn -[Z.modulo];
         try rewrite (mod_window 32 6) by lia; try rewrite (mod_window 16 14) by lia;
         try rewrite (mod_window 8 30) by lia; lia).
  - inversion Hf; subst. f_equal. by apply IH.
  - inversion Hf; subst. unfold REPLACEMENT in *. lia.
Qed.

Lemma utf8_run_of_ascii bs :
  Forall (λ b, Z_of_byte b < 128) bs → utf8_run utf8_idle bs = Z_of_byte <$> bs.
Proof.
  induction 1 as [|b bs Hb _ IH]; [done|].
  cbn [utf8_run]. unfold utf8_step. cbn [u_needed utf8_idle]. unfold utf8_lead.
  rewrite (proj2 (Z.leb_le _ _)) by lia. by rewrite IH.
Qed.

Lemma utf8_encode_ascii s :
  Forall (λ c, c < 128) (str_codes s) → Z_of_byte <$> utf8_encode s = str_codes s.
Proof.
  unfold str_codes. induction s as [|c s IH]; simpl; [done|].
  intros Hf. inversion Hf; subst. rewrite fmap_app, IH by done.
  unfold utf8_char. rewrite (proj2 (Z.ltb_lt _ _)) by done.
  pose proof (code_range c). simpl. by rewrite Z_of_byte_of_Z, Z.mod_small by lia.
Qed.

Lemma Z_of_bytes_inj (a b : bytes) : Z_of_byte <$> a = Z_of_byte <$> b → a = b.
Proof.
  revert b. induction a as [|x a IH]; intros [|y b]; simpl; try done.
  intros [= Hx Ha]. f_equal; [by apply Z_of_byte_inj | by apply IH].
Qed.

Lemma length_str_codes s : length (str_codes s) = str_len s.
Proof.
  unfold str_codes, str_len. rewrite length_fmap.
  induction s; simpl; congruence.
Qed.

Lemma text_decode_ascii bs s :
  length bs = str_len s → Forall (λ c, c < 128) (str_codes s) →
  text_decode bs = str_codes s ↔ bs = utf8_encode s.
Proof.
  intros Hlen Hs. pose proof (utf8_encode_ascii s Hs) as He. unfold text_decode.
  case_bool_decide as Hbom; split; intros H.
  - exfalso. rewrite utf8_run_ascii in H by by rewrite H.
    apply (f_equal length) in H. apply (f_equal length) in Hbom.
    rewrite length_fmap, length_drop, length_str_codes in H.
    rewrite length_take in Hbom. cbn [length] in Hbom. lia.
  - exfalso. subst bs. rewrite <- He in Hs. apply Forall_fmap in Hs.
    apply (Forall_take _ 3%nat) in Hs. rewrite Hbom in Hs.
    inversion Hs as [|?? Hx]; subst. vm_compute in Hx. done.
  - rewrite utf8_run_ascii in H by by rewrite H.
    apply Z_of_bytes_inj. by rewrite H, He.
  - subst bs. rewrite utf8_run_of_ascii; [done|].
    rewrite <- He in Hs. by apply Forall_fmap in Hs.
Qed.

(** ** Decimal and hexadecimal printing *)

Lemma digit_value_char d : 0 <= d < 36 → digit_value (digit_char d) = Some d.
Proof.
  intros H. unfold digit_char, digit_value.
  destruct (d <? 10) eqn:E; bool_simpl; rewrite code_chr by lia.
  - rewrite (proj2 (Z.leb_le 48 _)), (proj2 (Z.leb_le _ 57)) by lia. simpl. f_equal. lia.
  - rewrite (proj2 (Z.leb_le 48 _)), (proj2 (Z.leb_gt _ 57)) by lia.
    rewrite (proj2 (Z.leb_le 97 _)), (proj2 (Z.leb_le _ 122)) by lia. simpl. f_equal. lia.
Qed.

Lemma parse_digits_app base a b acc v :
  parse_digits base a acc = Some v → str_all (λ c,
    match digit_value c with Some d => d <? base | None => false end) a = true →
  parse_digits base (a +:+ b) acc = parse_digits base b (Some v).
Proof.
  revert acc. induction a as [|c a IH]; intros acc; simpl; [by intros -> |].
  destruct (digit_value c) as [d|]; [|done]. destruct (d <? base); [|done]. simpl. apply IH.
Qed.

Lemma radix_digits_parse fuel base z acc a0 :
  2 <= base <= 36 → 0 <= z < base ^ Z.of_nat fuel → (0 < fuel)%nat →
  ∃ k : Z, 0 <= k ∧
    parse_digits base (radix_digits fuel base z acc) a0 =
    parse_digits base acc (Some (default 0 a0 * base ^ k + z)).
Proof.
  intros Hb. revert z acc. induction fuel as [|fuel IH]; intros z acc Hz Hf; [lia|].
  rewrite Nat2Z.inj_succ, Z.pow_succ_r in Hz by lia.
  pose proof (Z.mod_pos_bound z base ltac:(lia)) as Hm.
  assert (Hdig : ∀ o : option Z,
    parse_digits base (String (digit_char (z mod base)) acc) o =
    parse_digits base acc (Some (default 0 o * base + z mod base))).
  { intros o. simpl. rewrite digit_value_char by lia.
    by rewrite (proj2 (Z.ltb_lt _ _)) by lia. }
  cbn [radix_digits]. destruct (z / base =? 0) eqn:E; bool_simpl.
  - exists 1. split; [lia|]. rewrite Hdig. do 3 f_equal; [lia|].
    pose proof (Z.div_mod z base). lia.
  - assert (Hdiv : 0 <= z / base < base ^ Z.of_nat fuel).
    { split; [apply Z.div_pos; lia | apply Z.div_lt_upper_bound; lia]. }
    destruct (IH (z / base) (String (digit_char (z mod base)) acc)) as (k & Hk & ->);
      [done| |].
    { destruct fuel; [simpl in Hdiv; lia | lia]. }
    exists (Z.succ k). split; [lia|]. rewrite Hdig. do 2 f_equal. simpl.
    rewrite Z.pow_succ_r by lia. pose proof (Z.div_mod z base ltac:(lia)). nia.
Qed.

(** Reading back what [toString] printed gives the number, so printing is
    injective. *)
Lemma parseInt_to_radix base z :
  2 <= base <= 36 → 0 <= z → parseInt (to_radix base z) base = NInt z.
Proof.
  intros Hb Hz. unfold parseInt, to_radix.
  rewrite (proj2 (Z.ltb_ge z 0)) by done.
  destruct (radix_digits_parse (S (Z.to_nat (Z.log2 z))) base z "" None)
    as (k & Hk & ->); [done| |lia|by simpl].
  split; [done|].
  apply Z.lt_le_trans with (2 ^ Z.of_nat (S (Z.to_nat (Z.log2 z)))).
  - rewrite Nat2Z.inj_succ, Z2Nat.id by apply Z.log2_nonneg.
    destruct (decide (z = 0)) as [->|]; [done|]. apply Z.log2_spec. lia.
  - apply Z.pow_le_mono_l. lia.
Qed.

Lemma dec_inj a b : 0 <= a → 0 <= b → dec a = dec b → a = b.
Proof.
  intros Ha Hb H. apply (f_equal (λ s, parseInt s 10)) in H. unfold dec in H.
  rewrite !parseInt_to_radix in H by lia. by injection H.
Qed.
