(* ===== verification/Regex.v ===== *)
(** * Regular expressions

    The anchored patterns of the source ([/^...$/]) as syntax trees, matched by
    derivatives, with the language each tree denotes. *)

From S2P Require Import Prelude Js JsString.
From Stdlib Require Import Ascii.

Inductive re :=
  | RNone
  | REps
  | RCls (p : ascii → bool)
  | RSeq (a b : re)
  | RAlt (a b : re)
  | RStar (a : re).

Fixpoint RLit (s : string) : re :=
  match s with
  | EmptyString => REps
  | String c s' => RSeq (RCls (Ascii.eqb c)) (RLit s')
  end.
(** [r{n}] and [r+]. *)
Fixpoint RRep (n : nat) (r : re) : re :=
  match n with O => REps | S n' => RSeq r (RRep n' r) end.
Definition RPlus (r : re) : re := RSeq r (RStar r).

(** ** Matching *)

Fixpoint nullable (r : re) : bool :=
  match r with
  | RNone | RCls _ => false
  | REps | RStar _ => true
  | RSeq a b => nullable a && nullable b
  | RAlt a b => nullable a || nullable b
  end.

Definition seq_ (a b : re) : re :=
  match a with RNone => RNone | REps => b | _ => RSeq a b end.
Definition alt_ (a b : re) : re :=
  match a, b with RNone, _ => b | _, RNone => a | _, _ => RAlt a b end.

Fixpoint deriv (c : ascii) (r : re) : re :=
  match r with
  | RNone | REps => RNone
  | RCls p => if p c then REps else RNone
  | RSeq a b =>
      if nullable a then alt_ (seq_ (deriv c a) b) (deriv c b)
      else seq_ (deriv c a) b
  | RAlt a b => alt_ (deriv c a) (deriv c b)
  | RStar a => seq_ (deriv c a) (RStar a)
  end.

(** [/^r$/.test(s)]. *)
Fixpoint test (r : re) (s : string) : bool :=
  match s with
  | EmptyString => nullable r
  | String c s' => test (deriv c r) s'
  end.

(** ** The language of a pattern *)

Inductive lang : re → string → Prop :=
  | L_eps : lang REps ""
  | L_cls p c : p c = true → lang (RCls p) (String c "")
  | L_seq a b s t : lang a s → lang b t → lang (RSeq a b) (s +:+ t)
  | L_alt_l a b s : lang a s → lang (RAlt a b) s
  | L_alt_r a b s : lang b s → lang (RAlt a b) s
  | L_star_nil a : lang (RStar a) ""
  | L_star_cons a c s t :
      lang a (String c s) → lang (RStar a) t → lang (RStar a) (String c s +:+ t).
#[export] Hint Constructors lang : core.

Lemma nullable_lang r : nullable r = true ↔ lang r "".
Proof.
  induction r; simpl.
  - split; [done|]. intros H; inversion H.
  - naive_solver.
  - split; [done|]. intros H; inversion H.
  - rewrite andb_true_iff, IHr1, IHr2. split.
    + intros [Ha Hb]. exact (L_seq _ _ _ _ Ha Hb).
    + intros H. inversion H as [| |? ? s t Ha Hb Heq Hs| | | |]; subst.
      destruct s; simpl in Hs; [|done]. by subst.
  - rewrite orb_true_iff, IHr1, IHr2. split; [naive_solver|].
    intros H. inversion H; subst; auto.
  - naive_solver.
Qed.

Lemma lang_seq_ a b s : lang (seq_ a b) s ↔ lang (RSeq a b) s.
Proof.
  destruct a; simpl; try done; split; intros H.
  - inversion H.
  - inversion H; subst. match goal with H : lang RNone _ |- _ => inversion H end.
  - exact (L_seq _ _ _ _ L_eps H).
  - inversion H; subst. match goal with H : lang REps _ |- _ => inversion H; subst end.
    done.
Qed.

Lemma lang_alt_ a b s : lang (alt_ a b) s ↔ lang (RAlt a b) s.
Proof.
  destruct a, b; simpl; try done; split; intros H; auto;
    inversion H; subst; auto;
    match goal with H : lang RNone _ |- _ => inversion H end.
Qed.

Lemma lang_star_inv a c s :
  lang (RStar a) (String c s) →
  ∃ u t, s = u +:+ t ∧ lang a (String c u) ∧ lang (RStar a) t.
Proof.
  intros H. remember (RStar a) as r eqn:Er. remember (String c s) as w eqn:Ew.
  destruct H; try discriminate. injection Er as ->. simpl in Ew.
  injection Ew as -> <-. eauto.
Qed.

Lemma deriv_lang c r s : lang (deriv c r) s ↔ lang r (String c s).
Proof.
  revert s. induction r; intros s; simpl.
  - split; intros H; inversion H.
  - split; intros H; inversion H.
  - destruct (p c) eqn:E.
    + split; intros H; inversion H; subst; auto.
    + split; intros H; inversion H; subst; congruence.
  - assert (Hd : ∀ s, lang (RSeq (deriv c r1) r2) s →
                 lang (RSeq r1 r2) (String c s)).
    { intros s' H. inversion H as [| |? ? u t Hu Ht| | | |]; subst.
      change (String c (u +:+ t)) with (String c u +:+ t).
      constructor; [by apply IHr1 | done]. }
    assert (Hd' : lang (RSeq r1 r2) (String c s) →
       lang (RSeq (deriv c r1) r2) s ∨ (nullable r1 = true ∧ lang (deriv c r2) s)).
    { intros H. inversion H as [| |? ? u t Hu Ht Heq Hs| | | |]; subst.
      destruct u as [|c' u]; simpl in Hs.
      - right. subst. split; [by apply nullable_lang | by apply IHr2].
      - left. injection Hs as -> <-. constructor; [by apply IHr1 | done]. }
    destruct (nullable r1) eqn:E.
    + rewrite lang_alt_. split.
      * intros H. inversion H; subst.
        -- apply Hd. by apply lang_seq_.
        -- change (String c s) with ("" +:+ String c s).
           constructor; [by apply nullable_lang | by apply IHr2].
      * intros [H|[_ H]]%Hd'; [apply L_alt_l; by apply lang_seq_ | by apply L_alt_r].
    + rewrite lang_seq_. split; [apply Hd|]. by intros [H|[? _]]%Hd'.
  - rewrite lang_alt_. split; intros H; inversion H; subst.
    + apply L_alt_l. by apply IHr1.
    + apply L_alt_r. by apply IHr2.
    + apply L_alt_l. by apply IHr1.
    + apply L_alt_r. by apply IHr2.
  - rewrite lang_seq_. split; intros H.
    + inversion H as [| |? ? u t Hu Ht| | | |]; subst.
      change (String c (u +:+ t)) with (String c u +:+ t).
      constructor; [by apply IHr | done].
    + apply lang_star_inv in H as (u & t & -> & Hu & Ht).
      constructor; [by apply IHr | done].
Qed.

(** The matcher decides the language. *)
Lemma test_lang r s : test r s = true ↔ lang r s.
Proof.
  revert r. induction s as [|c s IH]; intros r; simpl.
  - apply nullable_lang.
  - by rewrite IH, deriv_lang.
Qed.

(** ** Reading the languages of the patterns the program uses *)

Lemma lang_seq_iff a b s :
  lang (RSeq a b) s ↔ ∃ u t, s = u +:+ t ∧ lang a u ∧ lang b t.
Proof.
  split; [intros H; inversion H; subst; eauto | intros (u & t & -> & ? & ?); auto].
Qed.

Lemma lang_alt_iff a b s : lang (RAlt a b) s ↔ lang a s ∨ lang b s.
Proof. split; [intros H; inversion H; subst; auto | naive_solver]. Qed.

Lemma lang_cls_iff p s : lang (RCls p) s ↔ ∃ c, s = String c "" ∧ p c = true.
Proof. split; [intros H; inversion H; subst; eauto | intros (c & -> & ?); auto]. Qed.

Lemma lang_eps_iff s : lang REps s ↔ s = "".
Proof. split; [intros H; by inversion H | intros ->; auto]. Qed.

Lemma lang_lit_iff w s : lang (RLit w) s ↔ s = w.
Proof.
  revert s. induction w as [|c w IH]; intros s; simpl; [apply lang_eps_iff|].
  rewrite lang_seq_iff. split.
  - intros (u & t & -> & Hu & Ht). apply lang_cls_iff in Hu as (c' & -> & Hc).
    apply Ascii.eqb_eq in Hc. apply IH in Ht. by subst.
  - intros ->. exists (String c ""), w. split; [done|]. split; [|by apply IH].
    constructor. apply Ascii.eqb_refl.
Qed.

Lemma lang_rep_cls_iff n p s :
  lang (RRep n (RCls p)) s ↔ str_len s = n ∧ str_all p s = true.
Proof.
  unfold str_len. revert s. induction n as [|n IH]; intros s; simpl.
  - rewrite lang_eps_iff. destruct s; simpl; naive_solver.
  - rewrite lang_seq_iff. split.
    + intros (u & t & -> & Hu & Ht). apply lang_cls_iff in Hu as (c & -> & Hc).
      apply IH in Ht as [Hl Ha]. simpl. rewrite Hl, Hc, Ha. done.
    + destruct s as [|c s]; simpl; [naive_solver|].
      rewrite andb_true_iff. intros (Hl & Hc & Ha). exists (String c ""), s.
      split; [done|]. split; [by constructor|]. apply IH. split; [lia|done].
Qed.

Lemma lang_star_cls_iff p s : lang (RStar (RCls p)) s ↔ str_all p s = true.
Proof.
  induction s as [|c s IH]; simpl; [naive_solver|].
  rewrite andb_true_iff. split.
  - intros (u & t & -> & Hu & Ht)%lang_star_inv.
    apply lang_cls_iff in Hu as (c'' & [= -> ->] & Hc).
    split; [done | by apply IH].
  - intros [Hc Hs]. change (String c s) with (String c "" +:+ s).
    constructor; [by constructor | by apply IH].
Qed.

Lemma lang_plus_cls_iff p s :
  lang (RPlus (RCls p)) s ↔ s ≠ "" ∧ str_all p s = true.
Proof.
  unfold RPlus. rewrite lang_seq_iff. split.
  - intros (u & t & -> & Hu & Ht). apply lang_cls_iff in Hu as (c & -> & Hc).
    apply lang_star_cls_iff in Ht. simpl. by rewrite Hc, Ht.
  - destruct s as [|c s]; simpl; [naive_solver|].
    rewrite andb_true_iff. intros (_ & Hc & Hs). exists (String c ""), s.
    split; [done|]. split; [by constructor|]. by apply lang_star_cls_iff.
Qed.

(** ** Character classes *)

Definition is_digit (c : ascii) : bool := in_range "0" "9" c.
Definition is_digit1 (c : ascii) : bool := in_range "1" "9" c.
Definition is_hex_lower (c : ascii) : bool := is_digit c || in_range "a" "f" c.
Definition is_hex (c : ascii) : bool := is_hex_lower c || in_range "A" "F" c.
Definition is_base64url (c : ascii) : bool :=
  in_range "A" "Z" c || in_range "a" "z" c || is_digit c ||
  Ascii.eqb c "_" || Ascii.eqb c "-".

(** [p] followed by exactly [n] characters of a class. *)
Definition prefixed (p : string) (n : nat) (cls : ascii → bool) (s : string) : Prop :=
  ∃ h, s = p +:+ h ∧ str_len h = n ∧ str_all cls h = true.

Lemma test_prefixed p n cls s :
  test (RSeq (RLit p) (RRep n (RCls cls))) s = true ↔ prefixed p n cls s.
Proof.
  rewrite test_lang, lang_seq_iff. split.
  - intros (u & t & -> & Hu & Ht). apply lang_lit_iff in Hu as ->.
    apply lang_rep_cls_iff in Ht as [??]. by exists t.
  - intros (h & -> & ? & ?). exists p, h. split; [done|].
    split; [by apply lang_lit_iff | by apply lang_rep_cls_iff].
Qed.
