(* ===== verification/Bytes.v ===== *)
(** * Byte utilities ([demo/src/shared/bytes.ts])

    The hexadecimal codec, concatenation and the fixed-width little-endian
    integer encoders every other codec is built from. *)

From S2P Require Import Prelude Js JsString Regex.
From Stdlib Require Import Ascii.

(** [/^0x(?:[0-9a-f]{2})+$/] *)
Definition HEX_PATTERN : re := RSeq (RLit "0x") (RPlus (RRep 2 (RCls is_hex_lower))).

(** [Number.parseInt(hex.slice(2 + index * 2, 4 + index * 2), 16)], stored in a
    [Uint8Array]. *)
Definition hex_byte (hex : string) (index : nat) : byte :=
  byte_of_number (parseInt (slice (2 + index * 2) (4 + index * 2) hex) 16).

Definition bytesFromHex (hex : string) : res bytes :=
  throw_if (negb (test HEX_PATTERN hex)) (TypeError "expected canonical lowercase 0x hex");;
  Ok (hex_byte hex <$> seq 0 ((str_len hex - 2) / 2)).

Definition byte_hex (b : byte) : string := padStart 2 "0" (to_radix 16 (Z_of_byte b)).

Definition hexFromBytes (bs : bytes) : string :=
  foldl (λ value b, value +:+ byte_hex b) "0x" bs.

(** [out.set(part, offset)]. *)
Definition array_set (out : bytes) (offset : nat) (part : bytes) : res bytes :=
  if (offset + length part <=? length out)%nat
  then Ok (take offset out ++ part ++ drop (offset + length part) out)
  else Throw (RangeError "offset is out of bounds").

Fixpoint concat_length (parts : list bytes) (length_ : Z) : res Z :=
  match parts with
  | [] => Ok length_
  | part :: parts' =>
      let length_ := length_ + len part in
      throw_if (negb (Number_isSafeInteger (NInt length_))) (RangeError "byte length");;
      concat_length parts' length_
  end.
Fixpoint concat_fill (parts : list bytes) (out : bytes) (offset : nat) : res bytes :=
  match parts with
  | [] => Ok out
  | part :: parts' =>
      out' ← array_set out offset part;
      concat_fill parts' out' (offset + length part)
  end.
Definition bytesConcat (parts : list bytes) : res bytes :=
  length_ ← concat_length parts 0;
  concat_fill parts (zeros (Z.to_nat length_)) 0.

Definition u16le (value : number) : res bytes :=
  throw_if (negb (Number_isInteger value) || num_lt value 0 || num_gt value 0xffff)
    (RangeError "u16");;
  Ok [byte_of_Z (bit_and (num_Z value) 0xff); byte_of_Z (ushr (num_Z value) 8)].

Definition u32le (value : number) : res bytes :=
  throw_if (negb (Number_isInteger value) || num_lt value 0 || num_gt value 0xffffffff)
    (RangeError "u32");;
  Ok (le_bytes 4 (to_uint32 (num_Z value))).

Definition u64le (value : Z) : res bytes :=
  throw_if ((value <? 0) || (value >? 0xffffffffffffffff)) (RangeError "u64");;
  Ok (le_bytes 8 (value mod 2 ^ 64)).

(** ** The hexadecimal codec *)

Fixpoint hex_digits (bs : bytes) : string :=
  match bs with [] => "" | b :: bs' => byte_hex b +:+ hex_digits bs' end.

Lemma byte_hex_facts b :
  str_len (byte_hex b) = 2%nat ∧ str_all is_hex_lower (byte_hex b) = true ∧
  byte_of_number (parseInt (byte_hex b) 16) = b.
Proof. destruct b; vm_compute; auto. Qed.

Lemma hexFromBytes_digits bs : hexFromBytes bs = "0x" +:+ hex_digits bs.
Proof.
  unfold hexFromBytes. generalize "0x". induction bs as [|b bs IH]; intros p; simpl.
  - by rewrite str_app_nil_r.
  - by rewrite IH, str_app_assoc.
Qed.

Lemma hex_digits_len bs : str_len (hex_digits bs) = (2 * length bs)%nat.
Proof.
  induction bs as [|b bs IH]; [done|]. cbn [hex_digits length].
  destruct (byte_hex_facts b) as (Hl & _). rewrite str_len_app, Hl, IH. lia.
Qed.

Lemma hex_digits_all bs : str_all is_hex_lower (hex_digits bs) = true.
Proof.
  induction bs as [|b bs IH]; [done|]. cbn [hex_digits].
  destruct (byte_hex_facts b) as (_ & Ha & _). by rewrite str_all_app, Ha, IH.
Qed.

Lemma hex_digits_app a b : hex_digits (a ++ b) = hex_digits a +:+ hex_digits b.
Proof. induction a; simpl; [done|]. by rewrite IHa, str_app_assoc. Qed.

Lemma hex_lower_cases c :
  is_hex_lower c = true → c ∈ String.list_ascii_of_string "0123456789abcdef".
Proof.
  intros H. apply list_elem_of_In.
  destruct c as [[] [] [] [] [] [] [] []]; vm_compute in H; try discriminate H;
    vm_compute; tauto.
Qed.

Lemma hex_pair_byte c1 c2 :
  is_hex_lower c1 = true → is_hex_lower c2 = true →
  ∃ b, byte_hex b = String c1 (String c2 "").
Proof.
  intros H1%hex_lower_cases H2%hex_lower_cases.
  exists (byte_of_number (parseInt (String c1 (String c2 "")) 16)).
  apply list_elem_of_In in H1, H2. simpl in H1, H2.
  repeat (destruct H1 as [<-|H1]);
    repeat (destruct H2 as [<-|H2]); try done; by vm_compute.
Qed.

Lemma lang_hex_star s :
  lang (RStar (RRep 2 (RCls is_hex_lower))) s ↔ ∃ bs, s = hex_digits bs.
Proof.
  split.
  - intros H. remember (RStar _) as r eqn:Er. induction H; try discriminate Er.
    + by exists [].
    + injection Er as ->. destruct (IHlang2 eq_refl) as [bs ->].
      change (lang (RRep 2 (RCls is_hex_lower)) (String c s)) in H.
      apply lang_rep_cls_iff in H as [Hl Ha].
      destruct s as [|c2 [|? ?]]; try discriminate Hl.
      simpl in Ha. rewrite !andb_true_iff in Ha. destruct Ha as (H1 & H2 & _).
      destruct (hex_pair_byte c c2 H1 H2) as [b Hb].
      exists (b :: bs). cbn [hex_digits]. by rewrite Hb.
  - intros [bs ->]. induction bs as [|b bs IH]; [by constructor|]. cbn [hex_digits].
    destruct (byte_hex_facts b) as (Hl & Ha & _).
    destruct (byte_hex b) as [|c w] eqn:E; [discriminate Hl|].
    constructor; [|done]. by apply lang_rep_cls_iff.
Qed.

Lemma hex_pattern_iff s :
  test HEX_PATTERN s = true ↔ ∃ bs, bs ≠ [] ∧ s = hexFromBytes bs.
Proof.
  unfold HEX_PATTERN, RPlus. rewrite test_lang, lang_seq_iff. split.
  - intros (p & t & -> & Hp & Ht). apply lang_lit_iff in Hp as ->.
    apply lang_seq_iff in Ht as (u & w & -> & Hu & Hw).
    apply lang_hex_star in Hw as [bs ->].
    apply lang_rep_cls_iff in Hu as [Hl Ha].
    destruct u as [|c1 [|c2 [|? ?]]]; try discriminate Hl.
    simpl in Ha. rewrite !andb_true_iff in Ha. destruct Ha as (H1 & H2 & _).
    destruct (hex_pair_byte c1 c2 H1 H2) as [b Hb].
    exists (b :: bs). split; [done|]. rewrite hexFromBytes_digits. cbn [hex_digits].
    by rewrite Hb.
  - intros ([|b bs] & Hne & ->); [done|]. rewrite hexFromBytes_digits.
    exists "0x", (hex_digits (b :: bs)). split; [done|].
    split; [by apply lang_lit_iff|]. cbn [hex_digits]. apply lang_seq_iff.
    exists (byte_hex b), (hex_digits bs). split; [done|].
    destruct (byte_hex_facts b) as (Hl & Ha & _).
    split; [by apply lang_rep_cls_iff | apply lang_hex_star; by exists bs].
Qed.

Lemma hex_byte_seq bs p k :
  str_len p = (2 + k * 2)%nat →
  hex_byte (p +:+ hex_digits bs) <$> seq k (length bs) = bs.
Proof.
  revert p k. induction bs as [|b bs IH]; intros p k Hp; [done|].
  cbn [length seq fmap list_fmap hex_digits].
  destruct (byte_hex_facts b) as (Hl & _ & Hparse). f_equal.
  - unfold hex_byte, slice. replace (4 + k * 2 - (2 + k * 2))%nat with 2%nat by lia.
    rewrite <- Hp, str_drop_app, <- Hl at 1. by rewrite str_take_app.
  - rewrite <- str_app_assoc. apply IH. rewrite str_len_app, Hl, Hp. lia.
Qed.

(** A string decodes exactly when it is the encoding of the result. *)
Lemma bytesFromHex_iff s bs :
  bytesFromHex s = Ok bs ↔ bs ≠ [] ∧ s = hexFromBytes bs.
Proof.
  assert (Hdec : ∀ l, hex_byte (hexFromBytes l) <$>
    seq 0 ((str_len (hexFromBytes l) - 2) / 2) = l).
  { intros l. rewrite hexFromBytes_digits, str_len_app, hex_digits_len.
    replace (str_len "0x" + 2 * length l - 2)%nat with (length l * 2)%nat
      by (change (str_len "0x") with 2%nat; lia).
    rewrite Nat.div_mul by lia. by apply (hex_byte_seq l "0x" 0). }
  unfold bytesFromHex. split.
  - intros H. inv_res. bool_simpl. apply hex_pattern_iff in H0 as (l & Hne & ->).
    by rewrite Hdec.
  - intros [Hne ->]. rewrite (proj2 (hex_pattern_iff _)) by eauto. simpl.
    by rewrite Hdec.
Qed.

Lemma bytesFromHex_of_bytes bs : bs ≠ [] → bytesFromHex (hexFromBytes bs) = Ok bs.
Proof. intros. by apply bytesFromHex_iff. Qed.

Lemma bytesFromHex_Throw s e :
  bytesFromHex s = Throw e → e = TypeError "expected canonical lowercase 0x hex".
Proof. unfold bytesFromHex. destruct (negb _); simpl; naive_solver. Qed.

Lemma hexFromBytes_len bs : str_len (hexFromBytes bs) = (2 + 2 * length bs)%nat.
Proof. by rewrite hexFromBytes_digits, str_len_app, hex_digits_len. Qed.

Lemma hexFromBytes_inj a b : hexFromBytes a = hexFromBytes b → a = b.
Proof.
  intros H. pose proof (f_equal str_len H) as Hl. rewrite !hexFromBytes_len in Hl.
  destruct a as [|x a], b as [|y b]; [done|simpl in Hl; lia..|].
  assert (Ok (x :: a) = Ok (y :: b)) as [= -> ->]; [|done].
  rewrite <- !bytesFromHex_of_bytes by done. by rewrite H.
Qed.

(** ** Concatenation *)

Lemma concat_length_spec parts n :
  0 <= n →
  concat_length parts n =
    (if n + len (concat parts) <=? MAX_SAFE_INTEGER then Ok (n + len (concat parts))
     else if bool_decide (parts = []) then Ok n else Throw (RangeError "byte length")).
Proof.
  revert n. induction parts as [|p ps IH]; intros n Hn; cbn [concat_length concat].
  - rewrite len_nil, Z.add_0_r. by destruct (n <=? _).
  - pose proof (len_nonneg p). pose proof (len_nonneg (concat ps)).
    rewrite len_app. unfold Number_isSafeInteger. rewrite Z.abs_eq by lia.
    destruct (n + len p <=? MAX_SAFE_INTEGER) eqn:E; simpl; bool_simpl.
    + rewrite IH by lia. rewrite Z.add_assoc.
      destruct (_ <=? _) eqn:E'; [done|]. bool_simpl.
      destruct ps; [change (len (concat [])) with 0 in E'; lia | done].
    + by rewrite (proj2 (Z.leb_gt _ _)) by lia.
Qed.

Lemma concat_fill_spec parts pre rest :
  length rest = length (concat parts) →
  concat_fill parts (pre ++ rest) (length pre) = Ok (pre ++ concat parts).
Proof.
  revert pre rest. induction parts as [|p ps IH]; intros pre rest Hl; cbn [concat_fill concat].
  - simpl in Hl. by destruct rest.
  - simpl in Hl. rewrite length_app in Hl. unfold array_set.
    rewrite length_app, (proj2 (Nat.leb_le _ _)) by lia. simpl.
    rewrite take_app_length, drop_app_add.
    rewrite (app_assoc pre p), (app_assoc pre p), <- length_app.
    apply IH. rewrite length_drop. lia.
Qed.

(** [bytesConcat] is concatenation while the total is a safe integer. *)
Lemma bytesConcat_spec parts :
  len (concat parts) <= MAX_SAFE_INTEGER → bytesConcat parts = Ok (concat parts).
Proof.
  intros H. unfold bytesConcat. rewrite concat_length_spec by lia.
  rewrite Z.add_0_l, (proj2 (Z.leb_le _ _)) by done. simpl.
  apply (concat_fill_spec parts [] _). unfold zeros, len.
  by rewrite length_replicate, Nat2Z.id.
Qed.

Lemma bytesConcat_Ok parts bs : bytesConcat parts = Ok bs → bs = concat parts.
Proof.
  destruct (decide (len (concat parts) <= MAX_SAFE_INTEGER)) as [H|H].
  - rewrite bytesConcat_spec by done. by intros [= ->].
  - unfold bytesConcat. rewrite concat_length_spec by lia.
    rewrite Z.add_0_l, (proj2 (Z.leb_gt _ _)) by lia.
    case_bool_decide; simpl; [|done]. subst. by intros [= <-].
Qed.

(** ** Fixed-width integers *)

Lemma u16le_spec v :
  u16le (NInt v) =
    if (0 <=? v) && (v <=? 0xffff) then Ok (le_bytes 2 v) else Throw (RangeError "u16").
Proof.
  unfold u16le. simpl num_Z. simpl Number_isInteger. cbn [negb orb num_lt num_gt].
  destruct (v <? 0) eqn:E1, (0xffff <? v) eqn:E2; bool_simpl; simpl;
    try (rewrite (proj2 (Z.leb_gt 0 v)) by lia; done);
    try (rewrite (proj2 (Z.leb_gt v _)), andb_false_r by lia; done).
  rewrite !(proj2 (Z.leb_le _ _)) by lia. cbn [andb le_bytes].
  f_equal. f_equal; [|f_equal; f_equal].
  - unfold bit_and, to_int32, to_uint32.
    rewrite (Z.mod_small v), (Z.mod_small 255) by lia.
    change 255 with (Z.ones 8). rewrite Z.land_ones by lia.
    pose proof (Z.mod_pos_bound v (2 ^ 8) ltac:(lia)).
    rewrite Z.mod_small by lia. rewrite (proj2 (Z.ltb_lt _ _)) by lia.
    apply (byte_of_Z_mod v).
  - unfold ushr, to_uint32. rewrite (Z.mod_small v) by lia.
    rewrite Z.shiftr_div_pow2 by done. done.
Qed.

Lemma u32le_spec v :
  u32le (NInt v) =
    if (0 <=? v) && (v <=? 0xffffffff) then Ok (le_bytes 4 v) else Throw (RangeError "u32").
Proof.
  unfold u32le. cbn [negb orb num_lt num_gt num_Z Number_isInteger].
  destruct (v <? 0) eqn:E1, (0xffffffff <? v) eqn:E2; bool_simpl; cbn [orb throw_if];
    try (rewrite (proj2 (Z.leb_gt 0 v)) by lia; done);
    try (rewrite (proj2 (Z.leb_gt v _)), andb_false_r by lia; done).
  rewrite !(proj2 (Z.leb_le _ _)) by lia. cbn [andb].
  unfold to_uint32. by rewrite Z.mod_small by lia.
Qed.

Lemma u64le_spec v :
  u64le v =
    if (0 <=? v) && (v <? 2 ^ 64) then Ok (le_bytes 8 v) else Throw (RangeError "u64").
Proof.
  unfold u64le. rewrite Z.gtb_ltb.
  destruct (v <? 0) eqn:E1, (0xffffffffffffffff <? v) eqn:E2; bool_simpl; cbn [orb throw_if];
    try (rewrite (proj2 (Z.leb_gt 0 v)) by lia; done);
    try (rewrite (proj2 (Z.ltb_ge v _)), andb_false_r by lia; done).
  rewrite (proj2 (Z.leb_le _ _)), (proj2 (Z.ltb_lt _ _)) by lia. cbn [andb].
  by rewrite Z.mod_small by lia.
Qed.

Lemma u16le_Ok v bs : u16le (NInt v) = Ok bs → 0 <= v <= 0xffff ∧ bs = le_bytes 2 v.
Proof.
  rewrite u16le_spec. destruct (_ && _) eqn:E; [|done]. intros [= <-].
  bool_simpl. done.
Qed.

Lemma u32le_Ok v bs : u32le (NInt v) = Ok bs → 0 <= v <= 0xffffffff ∧ bs = le_bytes 4 v.
Proof.
  rewrite u32le_spec. destruct (_ && _) eqn:E; [|done]. intros [= <-].
  bool_simpl. done.
Qed.

Lemma u64le_Ok v bs : u64le v = Ok bs → 0 <= v < 2 ^ 64 ∧ bs = le_bytes 8 v.
Proof.
  rewrite u64le_spec. destruct (_ && _) eqn:E; [|done]. intros [= <-].
  bool_simpl. done.
Qed.

(** ** Hexadecimal text of a fixed width *)

Lemma hex_digits_of n h :
  str_len h = (2 * n)%nat → str_all is_hex_lower h = true →
  ∃ bs, length bs = n ∧ h = hex_digits bs.
Proof.
  revert h. induction n as [|n IH]; intros h Hl Ha.
  - exists []. by destruct h.
  - destruct h as [|c1 [|c2 h]]; try (cbn in Hl; lia).
    cbn in Ha. rewrite !andb_true_iff in Ha. destruct Ha as (H1 & H2 & Ha).
    destruct (hex_pair_byte c1 c2 H1 H2) as [b Hb].
    destruct (IH h) as (bs & Hn & ->); [cbn in *; unfold str_len; lia|done|].
    exists (b :: bs). split; [simpl; lia|]. cbn [hex_digits]. by rewrite Hb.
Qed.

Lemma prefixed_hex pre n s :
  prefixed ("0x" +:+ hex_digits pre) (2 * n) is_hex_lower s ↔
  ∃ bs, length bs = n ∧ s = hexFromBytes (pre ++ bs).
Proof.
  split.
  - intros (h & -> & Hl & Ha). destruct (hex_digits_of n h Hl Ha) as (bs & Hn & ->).
    exists bs. split; [done|]. by rewrite hexFromBytes_digits, hex_digits_app, str_app_assoc.
  - intros (bs & <- & ->). exists (hex_digits bs). rewrite hexFromBytes_digits, hex_digits_app.
    split; [by rewrite str_app_assoc|]. split; [apply hex_digits_len | apply hex_digits_all].
Qed.
