(* ===== verification/Zod.v ===== *)
(** * Schemas

    The validation library's combinators as syntax, so that the schemas of the
    source are data, and the interface through which the program uses them: a
    parser [safeParse] with one documented equation per combinator. Everything
    proved about a schema uses these equations only. [zod_ref] is a concrete
    parser that satisfies them. *)

From S2P Require Import Prelude Js JsString Regex.
From Stdlib Require Import Ascii.

Inductive strcheck :=
  | SRegex (r : re)
  | SMin (n : nat)
  | SMax (n : nat)
  | SDatetime (offset : bool)
  | SUrl.

Inductive numcheck := NIsInt | NNonnegative | NPositive.

Inductive schema :=
  | ZString (checks : list strcheck)
  | ZLitStr (s : string)
  | ZLitNum (k : Z)
  | ZLitBool (b : bool)
  | ZEnum (options : list string)
  | ZNumber (checks : list numcheck)
  | ZBoolean
  | ZOptional (s : schema)
  | ZNullable (s : schema)
  | ZObject (shape : list (string * schema)) (strict : bool)
  | ZSuperRefine (s : schema) (accepts : jsval → bool)
  | ZDiscriminatedUnion (key : string) (options : list schema).

(** [schema.extend(shape)] keeps the position of an overridden key; [.strict()]
    refuses unknown keys. *)
Definition override {A} (shape : list (string * A)) (kv : string * A) : list (string * A) :=
  match assoc (kv.1) shape with
  | Some _ => (λ p, if String.eqb (kv.1) p.1 then kv else p) <$> shape
  | None => shape ++ [kv]
  end.
Definition z_extend (s : schema) (new : list (string * schema)) : schema :=
  match s with
  | ZObject shape strict => ZObject (foldl override shape new) strict
  | _ => s
  end.
Definition z_strict (s : schema) : schema :=
  match s with ZObject shape _ => ZObject shape true | _ => s end.
Definition z_object (shape : list (string * schema)) : schema := ZObject shape false.

(** ** One step of parsing *)

Definition num_check (n : number) (c : numcheck) : bool :=
  match c with
  | NIsInt => Number_isSafeInteger n
  | NNonnegative => negb (num_lt n 0)
  | NPositive => num_gt n 0
  end.

Definition has_key {A} (k : string) (l : list (string * A)) : bool :=
  match assoc k l with Some _ => true | None => false end.

(** The fields of a parsed object come in the order of the shape; an absent
    optional field stays absent. *)
Fixpoint parse_fields (sp : schema → jsval → option jsval)
    (shape : list (string * schema)) (fs : list (string * jsval))
    : option (list (string * jsval)) :=
  match shape with
  | [] => Some []
  | (k, s) :: shape' =>
      match assoc k fs with
      | Some v =>
          match sp s v, parse_fields sp shape' fs with
          | Some v', Some rest => Some ((k, v') :: rest)
          | _, _ => None
          end
      | None => match s with ZOptional _ => parse_fields sp shape' fs | _ => None end
      end
  end.

(** The option of a discriminated union whose literal the input carries. *)
Definition discriminates (key : string) (v : jsval) (s : schema) : bool :=
  match s with
  | ZObject shape _ =>
      match assoc key shape with Some (ZLitStr w) => is_str (prop v key) w | _ => false end
  | _ => false
  end.

Class Zod := {
  safeParse : schema → jsval → option jsval;
  datetime_ok : bool → string → bool;
  url_ok : string → bool;
}.

Definition str_check `{Zod} (s : string) (c : strcheck) : bool :=
  match c with
  | SRegex r => test r s
  | SMin n => (n <=? str_len s)%nat
  | SMax n => (str_len s <=? n)%nat
  | SDatetime offset => datetime_ok offset s
  | SUrl => url_ok s
  end.

Class ZodLaws `{Zod} : Prop := {
  sp_string cs v : safeParse (ZString cs) v =
    match v with JStr s => if forallb (str_check s) cs then Some v else None | _ => None end;
  sp_lit_str s v : safeParse (ZLitStr s) v = if is_str v s then Some v else None;
  sp_lit_num k v : safeParse (ZLitNum k) v = if is_num v k then Some v else None;
  sp_lit_bool b v : safeParse (ZLitBool b) v = if is_bool v b then Some v else None;
  sp_enum l v : safeParse (ZEnum l) v = if existsb (is_str v) l then Some v else None;
  sp_number cs v : safeParse (ZNumber cs) v =
    match v with
    | JNum n => if Number_isFinite n && forallb (num_check n) cs then Some v else None
    | _ => None
    end;
  sp_boolean v : safeParse ZBoolean v = match v with JBool _ => Some v | _ => None end;
  sp_optional s v : safeParse (ZOptional s) v =
    match v with JUndef => Some v | _ => safeParse s v end;
  sp_nullable s v : safeParse (ZNullable s) v =
    match v with JNull => Some v | _ => safeParse s v end;
  sp_object shape strict v : safeParse (ZObject shape strict) v =
    match v with
    | JObj fs =>
        if strict && negb (forallb (λ kv, has_key kv.1 shape) fs) then None
        else JObj <$> parse_fields safeParse shape fs
    | _ => None
    end;
  sp_refine s ok v : safeParse (ZSuperRefine s ok) v =
    match safeParse s v with Some d => if ok d then Some d else None | None => None end;
  sp_union key opts v : safeParse (ZDiscriminatedUnion key opts) v =
    if is_plain v
    then match List.find (discriminates key v) opts with
         | Some o => safeParse o v
         | None => None
         end
    else None;
}.

(** [schema.parse(v)]. *)
Definition ZodError : exn := Exn CZodError "".
Definition zparse `{Zod} (s : schema) (v : jsval) : res jsval :=
  from_option_or ZodError (safeParse s v).

(** ** A parser that satisfies the interface *)

(** [YYYY-MM-DDTHH:MM:SS(.d+)?Z] *)
Definition ref_datetime : re :=
  let d n := RRep n (RCls is_digit) in
  RSeq (d 4%nat) (RSeq (RLit "-") (RSeq (d 2%nat) (RSeq (RLit "-") (RSeq (d 2%nat)
  (RSeq (RLit "T") (RSeq (d 2%nat) (RSeq (RLit ":") (RSeq (d 2%nat) (RSeq (RLit ":")
  (RSeq (d 2%nat) (RSeq (RAlt REps (RSeq (RLit ".") (RPlus (RCls is_digit))))
  (RLit "Z")))))))))))).

Definition ref_str_check (s : string) (c : strcheck) : bool :=
  match c with
  | SRegex r => test r s
  | SMin n => (n <=? str_len s)%nat
  | SMax n => (str_len s <=? n)%nat
  | SDatetime _ => test ref_datetime s
  | SUrl => startsWith "https://" s
  end.

Fixpoint zod_eval (s : schema) (v : jsval) {struct s} : option jsval :=
  match s with
  | ZString cs =>
      match v with JStr t => if forallb (ref_str_check t) cs then Some v else None | _ => None end
  | ZLitStr t => if is_str v t then Some v else None
  | ZLitNum k => if is_num v k then Some v else None
  | ZLitBool b => if is_bool v b then Some v else None
  | ZEnum l => if existsb (is_str v) l then Some v else None
  | ZNumber cs =>
      match v with
      | JNum n => if Number_isFinite n && forallb (num_check n) cs then Some v else None
      | _ => None
      end
  | ZBoolean => match v with JBool _ => Some v | _ => None end
  | ZOptional t => match v with JUndef => Some v | _ => zod_eval t v end
  | ZNullable t => match v with JNull => Some v | _ => zod_eval t v end
  | ZObject shape strict =>
      match v with
      | JObj fs =>
          if strict && negb (forallb (λ kv, has_key kv.1 shape) fs) then None
          else JObj <$>
            (fix go (shape : list (string * schema)) : option (list (string * jsval)) :=
               match shape with
               | [] => Some []
               | (k, t) :: shape' =>
                   match assoc k fs with
                   | Some w =>
                       match zod_eval t w, go shape' with
                       | Some w', Some rest => Some ((k, w') :: rest)
                       | _, _ => None
                       end
                   | None => match t with ZOptional _ => go shape' | _ => None end
                   end
               end) shape
      | _ => None
      end
  | ZSuperRefine t ok =>
      match zod_eval t v with Some d => if ok d then Some d else None | None => None end
  | ZDiscriminatedUnion key opts =>
      if is_plain v
      then (fix go (opts : list schema) : option jsval :=
              match opts with
              | [] => None
              | o :: opts' => if discriminates key v o then zod_eval o v else go opts'
              end) opts
      else None
  end.

#[export] Instance zod_ref : Zod := {|
  safeParse := zod_eval;
  datetime_ok := λ _ s, test ref_datetime s;
  url_ok := λ s, startsWith "https://" s;
|}.

#[export] Instance zod_ref_laws : ZodLaws.
Proof.
  constructor; intros; try reflexivity.
  - simpl. destruct v; try reflexivity. destruct (strict && _); [done|]. f_equal.
    induction shape as [|[k s] shape IH]; [done|]. simpl. by rewrite IH.
  - simpl. destruct (is_plain v); [|done].
    induction opts as [|o opts IH]; [done|]. simpl. by destruct (discriminates key v o).
Qed.
