(* ===== verification/Constants.v ===== *)
(** * Shared constants ([demo/src/shared/constants.ts]) *)

From S2P Require Import Prelude Js JsString.

Definition CLIENT_ORIGIN : string := "http://localhost:5173".
Definition RP_ID : string := "localhost".
Definition API_PORT : Z := 8790.
Definition API_ORIGIN : string := "http://127.0.0.1:" +:+ dec API_PORT.

Definition SHANNONS_PER_CKB : Z := 100000000.
Definition INITIAL_ASSET : Z := 200 * SHANNONS_PER_CKB.
Definition TRANSFER_CAPACITY : Z := 100 * SHANNONS_PER_CKB.
Definition FEE_RATE : Z := 1000.
Definition OP_SPEND : Z := 1.

Definition EXPLORER_URL : string := "https://pudge.explorer.nervos.org/transaction/".
