(* ===== verification/Schemas.v ===== *)
(** * Data schemas ([demo/src/shared/schemas.ts])

    The schemas as data, the records their inferred types describe, the view
    through which typed code reads a parsed value, and the theorems that the
    views lose nothing: the values a schema produces are exactly the encodings
    of the well-formed records. *)

From S2P Require Import Prelude Js JsString Regex Zod Constants.
From Stdlib Require Import Ascii.

(** ** Schemas *)

(** [0], or a digit from 1 to 9 followed by digits, anchored at both ends. *)
Definition DECIMAL : re :=
  RAlt (RLit "0") (RSeq (RCls is_digit1) (RStar (RCls is_digit))).
Definition decimalString : schema := ZString [SRegex DECIMAL].
(** [/^[A-Za-z0-9_-]+$/] *)
Definition BASE64URL : re := RPlus (RCls is_base64url).
Definition base64url : schema := ZString [SMin 1; SRegex BASE64URL].

Definition hex_re (p : string) (n : nat) : re := RSeq (RLit p) (RRep n (RCls is_hex_lower)).
Definition hexBytes (n : nat) : schema := ZString [SRegex (hex_re "0x" (n * 2))].

Definition Hash32Schema : schema := hexBytes 32.
Definition PublicKeySchema : schema := ZString [SRegex (hex_re "0x04" 128)].
Definition AccountLockArgsSchema : schema := ZString [SRegex (hex_re "0x01" 64)].

Definition DeploymentArtifactSchema : schema := z_strict (z_object [
  ("name", ZEnum ["account_lock"; "verifier_p256"]);
  ("dataHash", Hash32Schema);
  ("hashType", ZLitStr "data2");
  ("txHash", Hash32Schema);
  ("index", ZNumber [NIsInt; NNonnegative]);
  ("capacityShannons", decimalString)]).

Definition DeploymentManifestSchema : schema := z_strict (z_object [
  ("schema_version", ZLitNum 1);
  ("network", ZLitStr "testnet");
  ("published", ZLitBool true);
  ("hash_type", ZLitStr "data2");
  ("note", ZOptional (ZString [SMax 500]));
  ("artifacts", z_strict (z_object [
    ("account_lock",
      z_extend DeploymentArtifactSchema [("name", ZLitStr "account_lock")]);
    ("verifier_p256",
      z_extend DeploymentArtifactSchema [("name", ZLitStr "verifier_p256")])]))]).

Definition OutPointSchema : schema := z_strict (z_object [
  ("tx_hash", Hash32Schema);
  ("index", ZNumber [NIsInt; NNonnegative])]).

Definition args_contain_account_id (manifest : jsval) : bool :=
  String.eqb (str_drop 4 (as_str (prop (prop manifest "account_lock") "args")))
             (str_drop 2 (as_str (prop manifest "account_id"))).

Definition AccountManifestSchema : schema := ZSuperRefine (z_strict (z_object [
  ("schema_version", ZLitNum 1);
  ("network", ZLitStr "testnet");
  ("account_id", Hash32Schema);
  ("account_lock", z_strict (z_object [
    ("code_hash", Hash32Schema);
    ("hash_type", ZLitStr "data2");
    ("args", AccountLockArgsSchema)]));
  ("type_id_args", Hash32Schema);
  ("state_out_point", OutPointSchema);
  ("asset_out_point", OutPointSchema);
  ("state_bytes", ZNumber [NIsInt; NPositive])])) args_contain_account_id.

Definition PasskeyRecordSchema : schema := z_strict (z_object [
  ("schemaVersion", ZLitNum 1);
  ("credentialId", base64url);
  ("publicKey", PublicKeySchema);
  ("keyId", Hash32Schema);
  ("rpId", ZLitStr RP_ID);
  ("origin", ZLitStr CLIENT_ORIGIN);
  ("createdAt", ZString [SDatetime false])]).

Definition BootstrapRequestSchema : schema := z_strict (z_object [
  ("publicKey", PublicKeySchema);
  ("credentialId", base64url)]).

Definition DemoStatusSchema : schema := z_strict (z_object [
  ("schemaVersion", ZLitNum 1);
  ("network", ZLitStr "testnet");
  ("origin", ZLitStr CLIENT_ORIGIN);
  ("rpId", ZLitStr RP_ID);
  ("deploymentVerified", ZBoolean);
  ("deployment", DeploymentManifestSchema);
  ("funderAddress", ZString [SMin 1; SMax 200]);
  ("funderBalanceShannons", decimalString);
  ("account", ZNullable AccountManifestSchema)]).

Definition ReceiptBaseSchema : schema := z_object [
  ("txHash", Hash32Schema);
  ("explorerUrl", ZString [SUrl]);
  ("remainingCapacityShannons", decimalString)].
Definition SubmittedReceiptSchema : schema :=
  z_strict (z_extend ReceiptBaseSchema [("status", ZLitStr "submitted")]).
Definition CommittedReceiptSchema : schema :=
  z_strict (z_extend ReceiptBaseSchema [("status", ZLitStr "committed")]).
Definition ConfirmationTimedOutReceiptSchema : schema :=
  z_strict (z_extend ReceiptBaseSchema [("status", ZLitStr "confirmation_timeout")]).
Definition TransactionReceiptSchema : schema := ZDiscriminatedUnion "status"
  [SubmittedReceiptSchema; CommittedReceiptSchema; ConfirmationTimedOutReceiptSchema].

Definition API_ERROR_CODES : list string := [
  "BAD_ORIGIN"; "INVALID_REQUEST"; "KEY_UNAVAILABLE"; "DEPLOYMENT_INVALID";
  "ACCOUNT_NOT_CREATED"; "ACCOUNT_MISMATCH"; "INSUFFICIENT_BALANCE";
  "BOOTSTRAP_FAILED"; "CONFIRMATION_TIMEOUT"; "INTERNAL_ERROR"].
Definition ApiErrorBodySchema : schema := z_strict (z_object [
  ("error", z_strict (z_object [
    ("code", ZEnum API_ERROR_CODES);
    ("message", ZString [SMax 240])]))]).

(** ** Records of the inferred types *)

Record DeploymentArtifact := {
  da_name : string; da_dataHash : string; da_hashType : string;
  da_txHash : string; da_index : Z; da_capacityShannons : string }.

Record DeploymentManifest := {
  dm_schema_version : Z; dm_network : string; dm_published : bool;
  dm_hash_type : string; dm_note : option string;
  dm_account_lock : DeploymentArtifact; dm_verifier_p256 : DeploymentArtifact }.

Record ManifestOutPoint := { mo_tx_hash : string; mo_index : Z }.

Record AccountManifest := {
  am_schema_version : Z; am_network : string; am_account_id : string;
  am_code_hash : string; am_hash_type : string; am_args : string;
  am_type_id_args : string; am_state_out_point : ManifestOutPoint;
  am_asset_out_point : ManifestOutPoint; am_state_bytes : Z }.

Record PasskeyRecord := {
  pk_schemaVersion : Z; pk_credentialId : string; pk_publicKey : string;
  pk_keyId : string; pk_rpId : string; pk_origin : string; pk_createdAt : string }.

Record BootstrapRequest := { br_publicKey : string; br_credentialId : string }.

Record Receipt := {
  rc_txHash : string; rc_explorerUrl : string;
  rc_remainingCapacityShannons : string; rc_status : string }.

(** ** Views of parsed values *)

Definition artifact_of (v : jsval) : DeploymentArtifact := {|
  da_name := as_str (prop v "name"); da_dataHash := as_str (prop v "dataHash");
  da_hashType := as_str (prop v "hashType"); da_txHash := as_str (prop v "txHash");
  da_index := as_int (prop v "index");
  da_capacityShannons := as_str (prop v "capacityShannons") |}.
Definition artifact_val (a : DeploymentArtifact) : jsval := JObj [
  ("name", JStr (da_name a)); ("dataHash", JStr (da_dataHash a));
  ("hashType", JStr (da_hashType a)); ("txHash", JStr (da_txHash a));
  ("index", JNum (NInt (da_index a)));
  ("capacityShannons", JStr (da_capacityShannons a))].

Definition deployment_of (v : jsval) : DeploymentManifest := {|
  dm_schema_version := as_int (prop v "schema_version");
  dm_network := as_str (prop v "network");
  dm_published := as_bool (prop v "published");
  dm_hash_type := as_str (prop v "hash_type");
  dm_note := match prop v "note" with JStr s => Some s | _ => None end;
  dm_account_lock := artifact_of (prop (prop v "artifacts") "account_lock");
  dm_verifier_p256 := artifact_of (prop (prop v "artifacts") "verifier_p256") |}.
Definition deployment_val (m : DeploymentManifest) : jsval := JObj (
  [("schema_version", JNum (NInt (dm_schema_version m)));
   ("network", JStr (dm_network m)); ("published", JBool (dm_published m));
   ("hash_type", JStr (dm_hash_type m))] ++
  match dm_note m with Some s => [("note", JStr s)] | None => [] end ++
  [("artifacts", JObj [
     ("account_lock", artifact_val (dm_account_lock m));
     ("verifier_p256", artifact_val (dm_verifier_p256 m))])]).

Definition outpoint_of (v : jsval) : ManifestOutPoint := {|
  mo_tx_hash := as_str (prop v "tx_hash"); mo_index := as_int (prop v "index") |}.
Definition outpoint_val (o : ManifestOutPoint) : jsval := JObj [
  ("tx_hash", JStr (mo_tx_hash o)); ("index", JNum (NInt (mo_index o)))].

Definition account_of (v : jsval) : AccountManifest := {|
  am_schema_version := as_int (prop v "schema_version");
  am_network := as_str (prop v "network");
  am_account_id := as_str (prop v "account_id");
  am_code_hash := as_str (prop (prop v "account_lock") "code_hash");
  am_hash_type := as_str (prop (prop v "account_lock") "hash_type");
  am_args := as_str (prop (prop v "account_lock") "args");
  am_type_id_args := as_str (prop v "type_id_args");
  am_state_out_point := outpoint_of (prop v "state_out_point");
  am_asset_out_point := outpoint_of (prop v "asset_out_point");
  am_state_bytes := as_int (prop v "state_bytes") |}.
Definition account_val (m : AccountManifest) : jsval := JObj [
  ("schema_version", JNum (NInt (am_schema_version m)));
  ("network", JStr (am_network m)); ("account_id", JStr (am_account_id m));
  ("account_lock", JObj [
    ("code_hash", JStr (am_code_hash m)); ("hash_type", JStr (am_hash_type m));
    ("args", JStr (am_args m))]);
  ("type_id_args", JStr (am_type_id_args m));
  ("state_out_point", outpoint_val (am_state_out_point m));
  ("asset_out_point", outpoint_val (am_asset_out_point m));
  ("state_bytes", JNum (NInt (am_state_bytes m)))].

Definition passkey_of (v : jsval) : PasskeyRecord := {|
  pk_schemaVersion := as_int (prop v "schemaVersion");
  pk_credentialId := as_str (prop v "credentialId");
  pk_publicKey := as_str (prop v "publicKey"); pk_keyId := as_str (prop v "keyId");
  pk_rpId := as_str (prop v "rpId"); pk_origin := as_str (prop v "origin");
  pk_createdAt := as_str (prop v "createdAt") |}.
Definition passkey_val (p : PasskeyRecord) : jsval := JObj [
  ("schemaVersion", JNum (NInt (pk_schemaVersion p)));
  ("credentialId", JStr (pk_credentialId p)); ("publicKey", JStr (pk_publicKey p));
  ("keyId", JStr (pk_keyId p)); ("rpId", JStr (pk_rpId p));
  ("origin", JStr (pk_origin p)); ("createdAt", JStr (pk_createdAt p))].

Definition request_of (v : jsval) : BootstrapRequest := {|
  br_publicKey := as_str (prop v "publicKey");
  br_credentialId := as_str (prop v "credentialId") |}.
Definition request_val (r : BootstrapRequest) : jsval := JObj [
  ("publicKey", JStr (br_publicKey r)); ("credentialId", JStr (br_credentialId r))].

Definition receipt_of (v : jsval) : Receipt := {|
  rc_txHash := as_str (prop v "txHash"); rc_explorerUrl := as_str (prop v "explorerUrl");
  rc_remainingCapacityShannons := as_str (prop v "remainingCapacityShannons");
  rc_status := as_str (prop v "status") |}.
Definition receipt_val (r : Receipt) : jsval := JObj [
  ("txHash", JStr (rc_txHash r)); ("explorerUrl", JStr (rc_explorerUrl r));
  ("remainingCapacityShannons", JStr (rc_remainingCapacityShannons r));
  ("status", JStr (rc_status r))].

(** ** Well-formed records *)

Definition hash32 (s : string) : Prop := prefixed "0x" 64 is_hex_lower s.
Definition public_key_hex (s : string) : Prop := prefixed "0x04" 128 is_hex_lower s.
Definition lock_args_hex (s : string) : Prop := prefixed "0x01" 64 is_hex_lower s.
Definition decimal (s : string) : Prop := test DECIMAL s = true.
Definition base64url_text (s : string) : Prop := s ≠ "" ∧ str_all is_base64url s = true.
Definition index_ok (i : Z) : Prop := 0 <= i <= MAX_SAFE_INTEGER.

Record artifact_wf (name : string) (a : DeploymentArtifact) : Prop := {
  awf_name : da_name a = name;
  awf_dataHash : hash32 (da_dataHash a);
  awf_hashType : da_hashType a = "data2";
  awf_txHash : hash32 (da_txHash a);
  awf_index : index_ok (da_index a);
  awf_capacity : decimal (da_capacityShannons a) }.

Record deployment_wf (m : DeploymentManifest) : Prop := {
  dwf_version : dm_schema_version m = 1;
  dwf_network : dm_network m = "testnet";
  dwf_published : dm_published m = true;
  dwf_hash_type : dm_hash_type m = "data2";
  dwf_note : ∀ s, dm_note m = Some s → (str_len s ≤ 500)%nat;
  dwf_account_lock : artifact_wf "account_lock" (dm_account_lock m);
  dwf_verifier : artifact_wf "verifier_p256" (dm_verifier_p256 m) }.

Definition outpoint_wf (o : ManifestOutPoint) : Prop :=
  hash32 (mo_tx_hash o) ∧ index_ok (mo_index o).

Record account_wf (m : AccountManifest) : Prop := {
  mwf_version : am_schema_version m = 1;
  mwf_network : am_network m = "testnet";
  mwf_id : hash32 (am_account_id m);
  mwf_code_hash : hash32 (am_code_hash m);
  mwf_hash_type : am_hash_type m = "data2";
  mwf_args : lock_args_hex (am_args m);
  mwf_type_id : hash32 (am_type_id_args m);
  mwf_state_out_point : outpoint_wf (am_state_out_point m);
  mwf_asset_out_point : outpoint_wf (am_asset_out_point m);
  mwf_state_bytes : 0 < am_state_bytes m <= MAX_SAFE_INTEGER;
  mwf_binding : str_drop 4 (am_args m) = str_drop 2 (am_account_id m) }.

Record passkey_wf `{Zod} (p : PasskeyRecord) : Prop := {
  pwf_version : pk_schemaVersion p = 1;
  pwf_credential : base64url_text (pk_credentialId p);
  pwf_public_key : public_key_hex (pk_publicKey p);
  pwf_key_id : hash32 (pk_keyId p);
  pwf_rp : pk_rpId p = RP_ID;
  pwf_origin : pk_origin p = CLIENT_ORIGIN;
  pwf_created : datetime_ok false (pk_createdAt p) = true }.

Definition request_wf (r : BootstrapRequest) : Prop :=
  public_key_hex (br_publicKey r) ∧ base64url_text (br_credentialId r).

Record receipt_wf `{Zod} (status : string) (r : Receipt) : Prop := {
  rwf_txHash : hash32 (rc_txHash r);
  rwf_url : url_ok (rc_explorerUrl r) = true;
  rwf_remaining : decimal (rc_remainingCapacityShannons r);
  rwf_status : rc_status r = status }.

Lemma forallb_Forall_true {A} (f : A → bool) l :
  forallb f l = true ↔ Forall (λ x, f x = true) l.
Proof.
  induction l as [|x l IH]; simpl; [naive_solver|].
  by rewrite andb_true_iff, IH, List.Forall_cons_iff.
Qed.

Section parsing.
Context {zod : Zod} {zod_laws : ZodLaws}.

(** ** Inverting a successful parse *)

Lemma object_inv shape strict v d :
  safeParse (ZObject shape strict) v = Some d →
  ∃ fs ds, v = JObj fs ∧ d = JObj ds ∧ parse_fields safeParse shape fs = Some ds.
Proof.
  rewrite sp_object. destruct v as [| | | | | |fs]; try done.
  destruct (strict && _); [done|]. intros (ds & Hds & ->)%fmap_Some. eauto.
Qed.

Lemma fields_nil_inv fs ds : parse_fields safeParse [] fs = Some ds → ds = [].
Proof. by intros [= <-]. Qed.

Lemma fields_optional_inv k s shape fs ds :
  parse_fields safeParse ((k, ZOptional s) :: shape) fs = Some ds →
  parse_fields safeParse shape fs = Some ds ∨
  ∃ v v' rest, assoc k fs = Some v ∧ safeParse (ZOptional s) v = Some v' ∧
    parse_fields safeParse shape fs = Some rest ∧ ds = (k, v') :: rest.
Proof.
  cbn [parse_fields]. destruct (assoc k fs); [|auto].
  repeat case_match; intros; simplify_eq. right. eauto 7.
Qed.

Lemma fields_cons_inv k s shape fs ds :
  (∀ t, s ≠ ZOptional t) →
  parse_fields safeParse ((k, s) :: shape) fs = Some ds →
  ∃ v v' rest, safeParse s v = Some v' ∧
    parse_fields safeParse shape fs = Some rest ∧ ds = (k, v') :: rest.
Proof.
  intros Hs. cbn [parse_fields]. destruct (assoc k fs).
  - repeat case_match; intros; simplify_eq. eauto 6.
  - destruct s; try done. intros _. by edestruct Hs.
Qed.

Lemma lit_str_inv w v d : safeParse (ZLitStr w) v = Some d → d = JStr w.
Proof.
  rewrite sp_lit_str. destruct v; simpl; try done.
  destruct (String.eqb_spec s w); [|done]. intros [= <-]. by subst.
Qed.
Lemma lit_num_inv k v d : safeParse (ZLitNum k) v = Some d → d = JNum (NInt k).
Proof.
  rewrite sp_lit_num. destruct v as [| | |[]| | |]; simpl; try done.
  destruct (Z.eqb_spec z k); [|done]. intros [= <-]. by subst.
Qed.
Lemma lit_bool_inv b v d : safeParse (ZLitBool b) v = Some d → d = JBool b.
Proof.
  rewrite sp_lit_bool. destruct v as [| |b'| | | |]; simpl; try done.
  destruct b, b'; simpl; naive_solver.
Qed.
Lemma boolean_inv v d : safeParse ZBoolean v = Some d → ∃ b, d = JBool b.
Proof. rewrite sp_boolean. destruct v; naive_solver. Qed.
Lemma string_inv cs v d :
  safeParse (ZString cs) v = Some d →
  ∃ s, d = JStr s ∧ Forall (λ c, str_check s c = true) cs.
Proof.
  rewrite sp_string. destruct v; try done. destruct (forallb _ _) eqn:E; [|done].
  intros [= <-]. exists s. split; [done|]. by apply forallb_Forall_true.
Qed.
Lemma number_inv cs v d :
  safeParse (ZNumber cs) v = Some d →
  ∃ n, d = JNum n ∧ Forall (λ c, num_check n c = true) cs.
Proof.
  rewrite sp_number. destruct v; try done.
  destruct (_ && _) eqn:E; [|done]. bool_simpl. intros [= <-].
  exists n. split; [done|]. by apply forallb_Forall_true.
Qed.
Lemma refine_inv s ok v d :
  safeParse (ZSuperRefine s ok) v = Some d → safeParse s v = Some d ∧ ok d = true.
Proof. rewrite sp_refine. repeat case_match; naive_solver. Qed.
Lemma optional_inv s v d :
  safeParse (ZOptional s) v = Some d → v = JUndef ∨ safeParse s v = Some d.
Proof. rewrite sp_optional. destruct v; naive_solver. Qed.
Lemma nullable_inv s v d :
  safeParse (ZNullable s) v = Some d → d = JNull ∨ safeParse s v = Some d.
Proof. rewrite sp_nullable. destruct v; naive_solver. Qed.
End parsing.

(** [sp_inv] takes a successful parse apart down to the leaves. *)
Ltac sp_inv_step :=
  match goal with
  | H : safeParse (ZLitStr _) _ = Some _ |- _ => apply lit_str_inv in H; subst
  | H : safeParse (ZLitNum _) _ = Some _ |- _ => apply lit_num_inv in H; subst
  | H : safeParse (ZLitBool _) _ = Some _ |- _ => apply lit_bool_inv in H; subst
  | H : safeParse ZBoolean _ = Some _ |- _ =>
      let b := fresh "b" in apply boolean_inv in H as [b ->]
  | H : safeParse (ZString _) _ = Some _ |- _ =>
      let s := fresh "s" in let Hs := fresh "Hs" in
      apply string_inv in H as (s & -> & Hs)
  | H : safeParse (ZNumber _) _ = Some _ |- _ =>
      let n := fresh "n" in let Hn := fresh "Hn" in
      apply number_inv in H as (n & -> & Hn)
  | H : safeParse (ZOptional _) _ = Some _ |- _ => apply optional_inv in H; destruct H as [?|H]
  | H : safeParse (ZNullable _) _ = Some _ |- _ => apply nullable_inv in H; destruct H as [->|H]
  | H : safeParse (ZSuperRefine _ _) _ = Some _ |- _ =>
      let Hr := fresh "Href" in apply refine_inv in H; destruct H as [H Hr]
  | H : safeParse (ZObject _ _) _ = Some _ |- _ =>
      let fs := fresh "fs" in let ds := fresh "ds" in
      apply object_inv in H; destruct H as (fs & ds & -> & -> & H)
  | H : parse_fields _ [] _ = Some _ |- _ => apply fields_nil_inv in H; subst
  | H : parse_fields _ ((_, ZOptional _) :: _) _ = Some _ |- _ =>
      let v := fresh "v" in let v' := fresh "w" in let r := fresh "rest" in
      let H1 := fresh "Hf" in let H2 := fresh "Hassoc" in
      apply fields_optional_inv in H;
      destruct H as [H|(v & v' & r & H2 & H1 & H & ->)]
  | H : parse_fields _ (_ :: _) _ = Some _ |- _ =>
      let v := fresh "v" in let v' := fresh "w" in let r := fresh "rest" in
      let H1 := fresh "Hf" in
      apply fields_cons_inv in H;
      [destruct H as (v & v' & r & H1 & H & ->) | by intros ? [=]]
  end.

Definition artifact_schema (name : string) : schema := ZObject [
  ("name", ZLitStr name);
  ("dataHash", Hash32Schema);
  ("hashType", ZLitStr "data2");
  ("txHash", Hash32Schema);
  ("index", ZNumber [NIsInt; NNonnegative]);
  ("capacityShannons", decimalString)] true.

Section typing.
Context {zod : Zod} {zod_laws : ZodLaws}.

Lemma hash32_inv v d :
  safeParse Hash32Schema v = Some d → ∃ s, d = JStr s ∧ hash32 s.
Proof.
  intros (s & -> & Hs)%string_inv. exists s. split; [done|].
  apply List.Forall_cons_iff in Hs as [Hs _]. by apply test_prefixed.
Qed.
Lemma hash32_parse s : hash32 s → safeParse Hash32Schema (JStr s) = Some (JStr s).
Proof.
  intros Hs. unfold Hash32Schema, hexBytes. rewrite sp_string. cbn [forallb str_check].
  apply test_prefixed in Hs. unfold hex_re. change (32 * 2)%nat with 64%nat.
  by rewrite Hs.
Qed.

Lemma index_inv v d :
  safeParse (ZNumber [NIsInt; NNonnegative]) v = Some d →
  ∃ z, d = JNum (NInt z) ∧ index_ok z.
Proof.
  intros (n & -> & Hn)%number_inv.
  apply List.Forall_cons_iff in Hn as [H1 Hn].
  apply List.Forall_cons_iff in Hn as [H2 _].
  destruct n as [z| | | |]; try done. exists z. split; [done|].
  simpl in *. bool_simpl. unfold index_ok. lia.
Qed.
Lemma index_parse z :
  index_ok z → safeParse (ZNumber [NIsInt; NNonnegative]) (JNum (NInt z)) =
               Some (JNum (NInt z)).
Proof.
  intros [H1 H2]. rewrite sp_number. cbn [Number_isFinite andb forallb num_check num_lt].
  unfold Number_isSafeInteger. rewrite Z.abs_eq, (proj2 (Z.leb_le _ _)) by done.
  by rewrite (proj2 (Z.ltb_ge _ _)) by done.
Qed.

Lemma decimal_inv v d : safeParse decimalString v = Some d → ∃ s, d = JStr s ∧ decimal s.
Proof.
  intros (s & -> & Hs)%string_inv. apply List.Forall_cons_iff in Hs as [Hs _]. eauto.
Qed.
Lemma decimal_parse s : decimal s → safeParse decimalString (JStr s) = Some (JStr s).
Proof.
  intros Hs. unfold decimalString. rewrite sp_string. cbn [forallb str_check].
  by rewrite Hs.
Qed.
Lemma base64url_inv v d :
  safeParse base64url v = Some d → ∃ s, d = JStr s ∧ base64url_text s.
Proof.
  intros (s & -> & Hs)%string_inv. apply List.Forall_cons_iff in Hs as [_ Hs].
  apply List.Forall_cons_iff in Hs as [Hs _]. exists s. split; [done|].
  by apply test_lang, lang_plus_cls_iff in Hs.
Qed.
Lemma base64url_parse s : base64url_text s → safeParse base64url (JStr s) = Some (JStr s).
Proof.
  intros Hs. unfold base64url. rewrite sp_string. cbn [forallb str_check].
  rewrite (proj2 (test_lang BASE64URL s)) by by apply lang_plus_cls_iff.
  by destruct Hs, s.
Qed.
Lemma public_key_inv v d :
  safeParse PublicKeySchema v = Some d → ∃ s, d = JStr s ∧ public_key_hex s.
Proof.
  intros (s & -> & Hs)%string_inv. exists s. split; [done|].
  apply List.Forall_cons_iff in Hs as [Hs _]. by apply test_prefixed.
Qed.
Lemma public_key_parse s :
  public_key_hex s → safeParse PublicKeySchema (JStr s) = Some (JStr s).
Proof.
  intros Hs. unfold PublicKeySchema. rewrite sp_string. cbn [forallb str_check].
  apply test_prefixed in Hs. unfold hex_re. by rewrite Hs.
Qed.
Lemma lock_args_inv v d :
  safeParse AccountLockArgsSchema v = Some d → ∃ s, d = JStr s ∧ lock_args_hex s.
Proof.
  intros (s & -> & Hs)%string_inv. exists s. split; [done|].
  apply List.Forall_cons_iff in Hs as [Hs _]. by apply test_prefixed.
Qed.
Lemma lock_args_parse s :
  lock_args_hex s → safeParse AccountLockArgsSchema (JStr s) = Some (JStr s).
Proof.
  intros Hs. unfold AccountLockArgsSchema. rewrite sp_string. cbn [forallb str_check].
  apply test_prefixed in Hs. unfold hex_re. by rewrite Hs.
Qed.
End typing.

(** [sp_inv] takes a successful parse apart down to the leaves. *)
Ltac sp_leaf :=
  let s := fresh "s" in let Hs := fresh "Hs" in
  match goal with
  | H : safeParse Hash32Schema _ = Some _ |- _ => apply hash32_inv in H as (s & -> & Hs)
  | H : safeParse decimalString _ = Some _ |- _ => apply decimal_inv in H as (s & -> & Hs)
  | H : safeParse base64url _ = Some _ |- _ => apply base64url_inv in H as (s & -> & Hs)
  | H : safeParse PublicKeySchema _ = Some _ |- _ =>
      apply public_key_inv in H as (s & -> & Hs)
  | H : safeParse AccountLockArgsSchema _ = Some _ |- _ =>
      apply lock_args_inv in H as (s & -> & Hs)
  | H : safeParse (ZNumber [NIsInt; NNonnegative]) _ = Some _ |- _ =>
      apply index_inv in H as (s & -> & Hs)
  end.
Ltac sp_inv := repeat first [sp_leaf | sp_inv_step].

Create HintDb schema discriminated.
#[export] Hint Rewrite @hash32_parse @decimal_parse @base64url_parse @public_key_parse
  @lock_args_parse @index_parse using assumption : schema.

(** [sp_eval] runs the parser on the encoding of a record. *)
Ltac sp_eval :=
  repeat first
    [ progress autorewrite with schema
    | rewrite sp_object
    | rewrite sp_refine | rewrite sp_lit_str | rewrite sp_lit_num
    | rewrite sp_lit_bool | rewrite sp_nullable | rewrite sp_boolean
    | progress cbn -[safeParse test str_len Z.leb OutPointSchema outpoint_val
        artifact_schema artifact_val] ].

Section records.
Context {zod : Zod} {zod_laws : ZodLaws}.

Lemma artifact_inv name v d :
  safeParse (artifact_schema name) v = Some d →
  artifact_val (artifact_of d) = d ∧ artifact_wf name (artifact_of d).
Proof.
  unfold artifact_schema. intros H. sp_inv. split; [done|]. by constructor.
Qed.
Lemma artifact_parse name a :
  artifact_wf name a →
  safeParse (artifact_schema name) (artifact_val a) = Some (artifact_val a).
Proof.
  destruct a. intros []; simpl in *; subst. unfold artifact_schema, artifact_val.
  sp_eval. by rewrite String.eqb_refl.
Qed.

Lemma deployment_schema_eq : DeploymentManifestSchema = ZObject [
  ("schema_version", ZLitNum 1); ("network", ZLitStr "testnet");
  ("published", ZLitBool true); ("hash_type", ZLitStr "data2");
  ("note", ZOptional (ZString [SMax 500]));
  ("artifacts", ZObject [("account_lock", artifact_schema "account_lock");
                         ("verifier_p256", artifact_schema "verifier_p256")] true)] true.
Proof. reflexivity. Qed.

Lemma artifact_record name v d :
  safeParse (artifact_schema name) v = Some d →
  ∃ a, d = artifact_val a ∧ artifact_wf name a.
Proof. intros [<- Hwf]%artifact_inv. eauto. Qed.

Lemma artifact_of_val a : artifact_of (artifact_val a) = a.
Proof. by destruct a. Qed.
Lemma deployment_of_val m : deployment_of (deployment_val m) = m.
Proof. by destruct m as [???? [] [] []]. Qed.
Lemma outpoint_of_val o : outpoint_of (outpoint_val o) = o.
Proof. by destruct o. Qed.
Lemma account_of_val m : account_of (account_val m) = m.
Proof. by destruct m as [??????? [] [] ?]. Qed.
Lemma passkey_of_val p : passkey_of (passkey_val p) = p.
Proof. by destruct p. Qed.
Lemma request_of_val r : request_of (request_val r) = r.
Proof. by destruct r. Qed.
Lemma receipt_of_val r : receipt_of (receipt_val r) = r.
Proof. by destruct r. Qed.

(** A parse produces the encoding of a well-formed record, and the encoding of
    a well-formed record parses to itself. *)
Lemma deployment_record v d :
  is_json v = true → safeParse DeploymentManifestSchema v = Some d →
  ∃ m, d = deployment_val m ∧ deployment_wf m.
Proof.
  rewrite deployment_schema_eq. intros Hjson H. sp_inv.
  all: repeat match goal with
    | H : safeParse (artifact_schema _) _ = Some _ |- _ =>
        let a := fresh "a" in apply artifact_record in H as (a & -> & ?)
    end.
  - by exists (Build_DeploymentManifest 1 "testnet" true "data2" None a0 a).
  - exfalso. subst. eapply is_json_assoc in Hjson; [|done]. done.
  - exists (Build_DeploymentManifest 1 "testnet" true "data2" (Some s) a0 a).
    split; [done|]. constructor; try done. intros ? [= <-].
    apply List.Forall_cons_iff in Hs as [Hs _]. by apply Nat.leb_le.
Qed.
Lemma deployment_parse m :
  deployment_wf m →
  safeParse DeploymentManifestSchema (deployment_val m) = Some (deployment_val m).
Proof.
  destruct m as [???? note a b]. intros [???? Hn ??]; simpl in *; subst.
  rewrite deployment_schema_eq. unfold deployment_val.
  destruct note as [s|]; sp_eval; rewrite ?artifact_parse by done; [|done].
  rewrite sp_optional, sp_string. cbn [forallb str_check].
  by rewrite (proj2 (Nat.leb_le _ _)) by auto.
Qed.

Lemma outpoint_record v d :
  safeParse OutPointSchema v = Some d → ∃ o, d = outpoint_val o ∧ outpoint_wf o.
Proof.
  unfold OutPointSchema, z_strict, z_object. intros H. sp_inv.
  match goal with |- ∃ o, JObj [(_, JStr ?s); (_, JNum (NInt ?i))] = _ ∧ _ =>
    by exists (Build_ManifestOutPoint s i) end.
Qed.
Lemma outpoint_parse o :
  outpoint_wf o → safeParse OutPointSchema (outpoint_val o) = Some (outpoint_val o).
Proof.
  destruct o. intros []; simpl in *. unfold OutPointSchema, outpoint_val. by sp_eval.
Qed.

Lemma state_bytes_inv v d :
  safeParse (ZNumber [NIsInt; NPositive]) v = Some d →
  ∃ z, d = JNum (NInt z) ∧ 0 < z <= MAX_SAFE_INTEGER.
Proof.
  intros (n & -> & Hn)%number_inv.
  apply List.Forall_cons_iff in Hn as [H1 Hn].
  apply List.Forall_cons_iff in Hn as [H2 _].
  destruct n as [z| | | |]; try done. exists z. split; [done|].
  simpl in *. bool_simpl. lia.
Qed.
Lemma state_bytes_parse z :
  0 < z <= MAX_SAFE_INTEGER →
  safeParse (ZNumber [NIsInt; NPositive]) (JNum (NInt z)) = Some (JNum (NInt z)).
Proof.
  intros [H1 H2]. rewrite sp_number. cbn [Number_isFinite andb forallb num_check num_gt].
  unfold Number_isSafeInteger. rewrite Z.abs_eq, (proj2 (Z.leb_le _ _)) by lia.
  by rewrite (proj2 (Z.ltb_lt _ _)) by lia.
Qed.

#[local] Hint Rewrite outpoint_parse state_bytes_parse using assumption : schema.

Lemma account_record v d :
  safeParse AccountManifestSchema v = Some d → ∃ m, d = account_val m ∧ account_wf m.
Proof.
  unfold AccountManifestSchema, z_strict, z_object. intros H.
  repeat first
    [ match goal with
      | H : safeParse OutPointSchema _ = Some _ |- _ =>
          let o := fresh "o" in let Ho := fresh "Ho" in
          apply outpoint_record in H as (o & -> & Ho)
      | H : safeParse (ZNumber [NIsInt; NPositive]) _ = Some _ |- _ =>
          let n := fresh "n" in let Hn := fresh "Hn" in
          apply state_bytes_inv in H as (n & -> & Hn)
      end
    | sp_leaf | sp_inv_step ].
  match type of Href with args_contain_account_id (JObj ?fs) = true =>
    exists (account_of (JObj fs)) end.
  destruct o, o0. split; [done|]. constructor; try done.
  by apply String.eqb_eq.
Qed.
Lemma account_parse m :
  account_wf m → safeParse AccountManifestSchema (account_val m) = Some (account_val m).
Proof.
  destruct m. intros []; simpl in *; subst.
  unfold AccountManifestSchema, account_val, z_strict, z_object.
  rewrite sp_refine. sp_eval. rewrite mwf_binding0.
  by rewrite String.eqb_refl.
Qed.

Lemma passkey_record v d :
  safeParse PasskeyRecordSchema v = Some d → ∃ p, d = passkey_val p ∧ passkey_wf p.
Proof.
  unfold PasskeyRecordSchema, z_strict, z_object. intros H. sp_inv.
  match goal with |- ∃ o, ?v = _ ∧ _ => exists (passkey_of v) end.
  split; [done|]. constructor; try done.
  match goal with H : Forall _ [_] |- _ => by inversion H end.
Qed.
Lemma passkey_parse p :
  passkey_wf p → safeParse PasskeyRecordSchema (passkey_val p) = Some (passkey_val p).
Proof.
  destruct p. intros []; simpl in *; subst.
  unfold PasskeyRecordSchema, passkey_val, z_strict, z_object. sp_eval.
  rewrite sp_string. cbn [forallb str_check]. by rewrite pwf_created0.
Qed.

Lemma request_record v d :
  safeParse BootstrapRequestSchema v = Some d → ∃ r, d = request_val r ∧ request_wf r.
Proof.
  unfold BootstrapRequestSchema, z_strict, z_object. intros H. sp_inv.
  match goal with |- ∃ o, ?v = _ ∧ _ => exists (request_of v) end.
  split; [done|]. by split.
Qed.
Lemma request_parse r :
  request_wf r → safeParse BootstrapRequestSchema (request_val r) = Some (request_val r).
Proof.
  destruct r. intros []; simpl in *.
  unfold BootstrapRequestSchema, request_val, z_strict, z_object. by sp_eval.
Qed.

Definition receipt_schema (status : string) : schema := ZObject [
  ("txHash", Hash32Schema); ("explorerUrl", ZString [SUrl]);
  ("remainingCapacityShannons", decimalString); ("status", ZLitStr status)] true.

Lemma receipt_record status v d :
  safeParse (receipt_schema status) v = Some d →
  ∃ r, d = receipt_val r ∧ receipt_wf status r.
Proof.
  unfold receipt_schema. intros H. sp_inv.
  match goal with |- ∃ o, ?v = _ ∧ _ => exists (receipt_of v) end.
  split; [done|]. constructor; try done.
  match goal with H : Forall _ [_] |- _ => by inversion H end.
Qed.
Lemma receipt_parse status r :
  receipt_wf status r →
  safeParse (receipt_schema status) (receipt_val r) = Some (receipt_val r).
Proof.
  destruct r. intros []; simpl in *; subst. unfold receipt_schema, receipt_val. sp_eval.
  rewrite sp_string. cbn [forallb str_check]. rewrite rwf_url0. cbn.
  by rewrite String.eqb_refl.
Qed.
End records.
