(* ===== verification/Ccc.v ===== *)
(** * The chain library

    The program builds and hashes chain data through [@ckb-ccc/core]. Its data
    types are records of their public fields; its functions are the operations
    of the class [Ccc], and [CccLaws] states the documented behaviour the
    program relies on. [CccRef] gives an instance. *)

From S2P Require Import Prelude Js JsString Regex Bytes.
From Stdlib Require Import Ascii.

(** ** Data *)

Record Script := { codeHash : string; hashType : string; args : string }.
Record OutPoint := { op_txHash : string; op_index : Z }.
Record CellDep := { cd_outPoint : OutPoint; cd_depType : string }.
Record CellInput := { in_previousOutput : OutPoint; in_since : Z }.
Record CellOutput := { co_capacity : Z; co_lock : Script; co_type : option Script }.
Record Cell := { cell_outPoint : OutPoint; cell_cellOutput : CellOutput;
                 cell_outputData : string }.
Record Transaction := {
  tx_cellDeps : list CellDep; tx_inputs : list CellInput; tx_outputs : list CellOutput;
  tx_outputsData : list string; tx_witnesses : list string }.
Record WitnessArgs := { wa_lock : option string; wa_inputType : option string;
                        wa_outputType : option string }.

#[export] Instance Script_eq_dec : EqDecision Script.
Proof. solve_decision. Defined.
#[export] Instance OutPoint_eq_dec : EqDecision OutPoint.
Proof. solve_decision. Defined.
#[export] Instance CellDep_eq_dec : EqDecision CellDep.
Proof. solve_decision. Defined.
#[export] Instance CellInput_eq_dec : EqDecision CellInput.
Proof. solve_decision. Defined.
#[export] Instance CellOutput_eq_dec : EqDecision CellOutput.
Proof. solve_decision. Defined.
#[export] Instance Cell_eq_dec : EqDecision Cell.
Proof. solve_decision. Defined.
#[export] Instance Transaction_eq_dec : EqDecision Transaction.
Proof. solve_decision. Defined.
#[export] Instance WitnessArgs_eq_dec : EqDecision WitnessArgs.
Proof. solve_decision. Defined.

(** Hexadecimal text the library produces: [0x] and lowercase byte pairs. *)
Definition is_hex_text (s : string) : Prop := ∃ b, s = hexFromBytes b.
Definition opt_hex_text (o : option string) : Prop := ∀ s, o = Some s → is_hex_text s.
Definition hex_bytes_len (s : string) : Z := Z.of_nat ((str_len s - 2) / 2).

(** Serialized size of an optional byte string: nothing, or a length and the
    bytes. *)
Definition opt_size (o : option string) : Z :=
  match o with None => 0 | Some s => 4 + hex_bytes_len s end.
Definition wa_size (w : WitnessArgs) : Z :=
  16 + opt_size (wa_lock w) + opt_size (wa_inputType w) + opt_size (wa_outputType w).
Definition wa_ok (w : WitnessArgs) : Prop :=
  opt_hex_text (wa_lock w) ∧ opt_hex_text (wa_inputType w) ∧
  opt_hex_text (wa_outputType w) ∧ wa_size w < 2 ^ 32.

Definition HASH_TYPES : list string := ["type"; "data"; "data1"; "data2"].
Definition script_ok (s : Script) : Prop :=
  is_hex_text (codeHash s) ∧ is_hex_text (args s) ∧ hashType s ∈ HASH_TYPES.

(** The transaction without its witnesses: what its hash commits to. *)
Definition strip_witnesses (tx : Transaction) : Transaction := {|
  tx_cellDeps := tx_cellDeps tx; tx_inputs := tx_inputs tx; tx_outputs := tx_outputs tx;
  tx_outputsData := tx_outputsData tx; tx_witnesses := [] |}.

(** ** Operations *)

Class Ccc := {
  (** the chain's default hash: 32 bytes *)
  ckb_digest : bytes → bytes;
  hashCkb : bytes → string;
  hashCkb_hex : string → res string;
  bytesFrom : string → res bytes;
  hexFrom : bytes → string;
  hexFrom_hex : string → res string;
  WitnessArgs_from : WitnessArgs → res WitnessArgs;
  WitnessArgs_toBytes : WitnessArgs → bytes;
  WitnessArgs_fromBytes : bytes → res WitnessArgs;
  Script_from : Script → res Script;
  Script_hash : Script → string;
  Script_eq : Script → Script → bool;
  OutPoint_eq : OutPoint → OutPoint → bool;
  CellDep_from : CellDep → res CellDep;
  Transaction_from : Transaction → res Transaction;
  Transaction_clone : Transaction → Transaction;
  Transaction_hash : Transaction → string;
  estimateFee : Transaction → Z → Z;
  occupiedSize : CellOutput → Z;
  hashTypeId : CellInput → Z → string;
  Address_fromString : string → string → res Script;
}.

(** ** Documented behaviour *)

Class CccLaws `{Ccc} : Prop := {
  ckb_digest_len b : length (ckb_digest b) = 32%nat;
  hashCkb_spec b : hashCkb b = hexFromBytes (ckb_digest b);
  hashCkb_hex_spec s : hashCkb_hex s = hashCkb <$> bytesFrom s;
  bytesFrom_hex b : bytesFrom (hexFromBytes b) = Ok b;
  hexFrom_spec b : hexFrom b = hexFromBytes b;
  hexFrom_hex_spec b : hexFrom_hex (hexFromBytes b) = Ok (hexFromBytes b);
  WitnessArgs_from_ok w : wa_ok w → WitnessArgs_from w = Ok w;
  WitnessArgs_size w : wa_ok w → len (WitnessArgs_toBytes w) = wa_size w;
  WitnessArgs_roundtrip w : wa_ok w → WitnessArgs_fromBytes (WitnessArgs_toBytes w) = Ok w;
  WitnessArgs_parsed b w : WitnessArgs_fromBytes b = Ok w → wa_ok w;
  Script_from_ok s : script_ok s → Script_from s = Ok s;
  Script_hash_spec s : ∃ b, length b = 32%nat ∧ Script_hash s = hexFromBytes b;
  Script_eq_spec a b : Script_eq a b = true ↔ a = b;
  OutPoint_eq_spec a b : OutPoint_eq a b = true ↔ a = b;
  CellDep_from_ok d :
    is_hex_text (op_txHash (cd_outPoint d)) → 0 <= op_index (cd_outPoint d) →
    cd_depType d = "code" → CellDep_from d = Ok d;
  Transaction_from_ok tx :
    Forall (λ o, 0 < co_capacity o) (tx_outputs tx) →
    Forall is_hex_text (tx_outputsData tx) → Forall is_hex_text (tx_witnesses tx) →
    Transaction_from tx = Ok tx;
  Transaction_clone_spec tx : Transaction_clone tx = tx;
  Transaction_hash_spec tx : ∃ b, length b = 32%nat ∧ Transaction_hash tx = hexFromBytes b;
  Transaction_hash_witnesses tx :
    Transaction_hash tx = Transaction_hash (strip_witnesses tx);
  hashTypeId_spec i k : ∃ b, length b = 32%nat ∧ hashTypeId i k = hexFromBytes b;
}.

Section ccc_lemmas.
Context {ccc : Ccc} {ccc_laws : CccLaws}.

Lemma hex_bytes_len_of b : hex_bytes_len (hexFromBytes b) = len b.
Proof.
  unfold hex_bytes_len, len. rewrite hexFromBytes_len.
  replace (2 + 2 * length b - 2)%nat with (length b * 2)%nat by lia.
  by rewrite Nat.div_mul by lia.
Qed.

Lemma is_hex_text_of b : is_hex_text (hexFromBytes b).
Proof. by exists b. Qed.
Lemma is_hex_text_0x : is_hex_text "0x".
Proof. by exists []. Qed.

Lemma hashCkb_bytes b : bytesFrom (hashCkb b) = Ok (ckb_digest b).
Proof. by rewrite hashCkb_spec, bytesFrom_hex. Qed.
Lemma len_digest b : len (ckb_digest b) = 32.
Proof. unfold len. by rewrite ckb_digest_len. Qed.

Lemma Script_eq_refl s : Script_eq s s = true.
Proof. by apply Script_eq_spec. Qed.
Lemma OutPoint_eq_refl o : OutPoint_eq o o = true.
Proof. by apply OutPoint_eq_spec. Qed.

Lemma Transaction_hash_bytes tx :
  ∃ b, length b = 32%nat ∧ Transaction_hash tx = hexFromBytes b ∧
       bytesFrom (Transaction_hash tx) = Ok b.
Proof.
  destruct (Transaction_hash_spec tx) as (b & Hl & Hb). exists b.
  rewrite Hb. by rewrite bytesFrom_hex.
Qed.

(** Two transactions that differ in their witnesses only have one hash. *)
Lemma Transaction_hash_strip tx tx' :
  strip_witnesses tx = strip_witnesses tx' → Transaction_hash tx = Transaction_hash tx'.
Proof.
  intros H. by rewrite Transaction_hash_witnesses, H, <- Transaction_hash_witnesses.
Qed.
End ccc_lemmas.
#[export] Hint Resolve is_hex_text_of is_hex_text_0x Script_eq_refl OutPoint_eq_refl : js.
