(* ===== verification/Blake2b.v ===== *)
(** * BLAKE2b-256 with the chain's personalisation

    The concrete hash of the reference instance of [Ccc]: with it the model can
    be run on the repository's own test vectors. Nothing is proved about it
    except its length. *)

From S2P Require Import Prelude Js JsString.

Definition MASK64 : Z := 2 ^ 64 - 1.
Definition add64 (a b : Z) : Z := Z.land (a + b) MASK64.
Definition rotr64 (a : Z) (n : Z) : Z :=
  Z.lor (Z.shiftr a n) (Z.land (Z.shiftl a (64 - n)) MASK64).

Definition IV : list Z := [
  0x6a09e667f3bcc908; 0xbb67ae8584caa73b; 0x3c6ef372fe94f82b; 0xa54ff53a5f1d36f1;
  0x510e527fade682d1; 0x9b05688c2b3e6c1f; 0x1f83d9abfb41bd6b; 0x5be0cd19137e2179].

Definition SIGMA : list (list nat) := [
  [0; 1; 2; 3; 4; 5; 6; 7; 8; 9; 10; 11; 12; 13; 14; 15];
  [14; 10; 4; 8; 9; 15; 13; 6; 1; 12; 0; 2; 11; 7; 5; 3];
  [11; 8; 12; 0; 5; 2; 15; 13; 10; 14; 3; 6; 7; 1; 9; 4];
  [7; 9; 3; 1; 13; 12; 11; 14; 2; 6; 5; 10; 4; 0; 15; 8];
  [9; 0; 5; 7; 2; 4; 10; 15; 14; 1; 11; 12; 6; 8; 3; 13];
  [2; 12; 6; 10; 0; 11; 8; 3; 4; 13; 7; 5; 15; 14; 1; 9];
  [12; 5; 1; 15; 14; 13; 4; 10; 0; 7; 6; 3; 9; 2; 8; 11];
  [13; 11; 7; 14; 12; 1; 3; 9; 5; 0; 15; 4; 8; 6; 2; 10];
  [6; 15; 14; 9; 11; 3; 0; 8; 12; 2; 13; 7; 1; 4; 10; 5];
  [10; 2; 8; 4; 7; 6; 1; 5; 15; 11; 9; 14; 3; 12; 13; 0];
  [0; 1; 2; 3; 4; 5; 6; 7; 8; 9; 10; 11; 12; 13; 14; 15];
  [14; 10; 4; 8; 9; 15; 13; 6; 1; 12; 0; 2; 11; 7; 5; 3]]%nat.

Definition wd (l : list Z) (i : nat) : Z := nth i l 0.

Definition mix (v : list Z) (a b c d : nat) (x y : Z) : list Z :=
  let va := add64 (add64 (wd v a) (wd v b)) x in
  let vd := rotr64 (Z.lxor (wd v d) va) 32 in
  let vc := add64 (wd v c) vd in
  let vb := rotr64 (Z.lxor (wd v b) vc) 24 in
  let va := add64 (add64 va vb) y in
  let vd := rotr64 (Z.lxor vd va) 16 in
  let vc := add64 vc vd in
  let vb := rotr64 (Z.lxor vb vc) 63 in
  <[a := va]> (<[b := vb]> (<[c := vc]> (<[d := vd]> v))).

Definition round (m : list Z) (v : list Z) (s : list nat) : list Z :=
  let k i := wd m (nth i s 0%nat) in
  let v := mix v 0 4 8 12 (k 0%nat) (k 1%nat) in
  let v := mix v 1 5 9 13 (k 2%nat) (k 3%nat) in
  let v := mix v 2 6 10 14 (k 4%nat) (k 5%nat) in
  let v := mix v 3 7 11 15 (k 6%nat) (k 7%nat) in
  let v := mix v 0 5 10 15 (k 8%nat) (k 9%nat) in
  let v := mix v 1 6 11 12 (k 10%nat) (k 11%nat) in
  let v := mix v 2 7 8 13 (k 12%nat) (k 13%nat) in
  mix v 3 4 9 14 (k 14%nat) (k 15%nat).

Fixpoint words (n : nat) (bs : bytes) : list Z :=
  match n with O => [] | S n' => le_value (take 8 bs) :: words n' (drop 8 bs) end.

Definition compress (h : list Z) (block : bytes) (t : Z) (last : bool) : list Z :=
  let m := words 16 block in
  let v := h ++ IV in
  let v := <[12%nat := Z.lxor (wd v 12) (Z.land t MASK64)]> v in
  let v := if last then <[14%nat := Z.lxor (wd v 14) MASK64]> v else v in
  let v := foldl (round m) v SIGMA in
  (λ i, Z.lxor (wd h i) (Z.lxor (wd v i) (wd v (i + 8)))) <$> seq 0 8.

(** The message is consumed in blocks of 128 bytes, the last one padded. *)
Fixpoint absorb (fuel : nat) (h : list Z) (msg : bytes) (t : Z) : list Z :=
  match fuel with
  | O => h
  | S fuel' =>
      if (length msg <=? 128)%nat
      then compress h (msg ++ zeros (128 - length msg)) (t + len msg) true
      else absorb fuel' (compress h (take 128 msg) (t + 128) false) (drop 128 msg) (t + 128)
  end.

Definition PERSONAL : bytes := utf8_encode "ckb-default-hash".
Definition PARAM : list Z := [
  0x01010020; 0; 0; 0; 0; 0;
  le_value (take 8 PERSONAL); le_value (drop 8 PERSONAL)].
Definition H0 : list Z := zip_with Z.lxor IV PARAM.

Definition blake2b (msg : bytes) : bytes :=
  let h := absorb (S (length msg / 128)) H0 msg 0 in
  concat (le_bytes 8 <$> (wd h <$> seq 0 4)).

Lemma blake2b_len msg : length (blake2b msg) = 32%nat.
Proof. unfold blake2b. simpl. reflexivity. Qed.
