(* ===== verification/Sha256.v ===== *)
(** * SHA-256

    The hash of the platform's cryptography, as specified by FIPS 180-4, for concrete
    runs and for the constants the client compares with. *)

From S2P Require Import Prelude Js.

Definition add32 (a b : Z) : Z := (a + b) mod 2 ^ 32.
Definition rotr32 (x : Z) (n : Z) : Z :=
  Z.lor (Z.shiftr x n) (Z.land (Z.shiftl x (32 - n)) (2 ^ 32 - 1)).
Definition not32 (x : Z) : Z := Z.lxor x (2 ^ 32 - 1).

(** The constants are the first 32 bits of the fractional parts of the cube and square
    roots of the first primes. *)
Definition divides (n d : nat) : bool := (n mod d =? 0)%nat.
Definition is_prime (n : nat) : bool := negb (existsb (divides n) (seq 2 (n - 2))).
Definition primes_to (n : nat) : list Z := Z.of_nat <$> List.filter is_prime (seq 2 n).
(** The cube root, rounded down, from its bits [bit], [bit - 1], ... on. *)
Fixpoint cube_root (bit : nat) (root n : Z) : Z :=
  let larger := root + 2 ^ Z.of_nat bit in
  let root := if larger * larger * larger <=? n then larger else root in
  match bit with O => root | S bit' => cube_root bit' root n end.
Definition SHA_K : list Z :=
  Eval vm_compute in (λ p, cube_root 40 0 (p * 2 ^ 96) mod 2 ^ 32) <$> primes_to 310.
Definition SHA_H : list Z :=
  Eval vm_compute in (λ p, Z.sqrt (p * 2 ^ 64) mod 2 ^ 32) <$> primes_to 18.
Example SHA_constants :
  length SHA_K = 64%nat ∧ head SHA_K = Some 0x428a2f98 ∧ list.last SHA_K = Some 0xc67178f2 ∧
  length SHA_H = 8%nat ∧ head SHA_H = Some 0x6a09e667 ∧ list.last SHA_H = Some 0x5be0cd19.
Proof. vm_compute. by repeat split. Qed.

(** The message schedule, most recent word first. *)
Definition sha_word (w : list Z) : Z :=
  let s0 x := Z.lxor (Z.lxor (rotr32 x 7) (rotr32 x 18)) (Z.shiftr x 3) in
  let s1 x := Z.lxor (Z.lxor (rotr32 x 17) (rotr32 x 19)) (Z.shiftr x 10) in
  let at_ i := nth i w 0 in
  add32 (add32 (s1 (at_ 1%nat)) (at_ 6%nat)) (add32 (s0 (at_ 14%nat)) (at_ 15%nat)).
Fixpoint sha_schedule (n : nat) (w : list Z) : list Z :=
  match n with O => w | S n' => sha_schedule n' (sha_word w :: w) end.

Definition sha_round (s : list Z) (kw : Z) : list Z :=
  match s with
  | [a; b; c; d; e; f; g; h] =>
      let S1 := Z.lxor (Z.lxor (rotr32 e 6) (rotr32 e 11)) (rotr32 e 25) in
      let ch := Z.lxor (Z.land e f) (Z.land (not32 e) g) in
      let t1 := add32 (add32 (add32 h S1) ch) kw in
      let S0 := Z.lxor (Z.lxor (rotr32 a 2) (rotr32 a 13)) (rotr32 a 22) in
      let maj := Z.lxor (Z.lxor (Z.land a b) (Z.land a c)) (Z.land b c) in
      [add32 t1 (add32 S0 maj); a; b; c; add32 d t1; e; f; g]
  | _ => s
  end.

Definition sha_block (h : list Z) (words : list Z) : list Z :=
  let w := reverse (sha_schedule 48 (reverse words)) in
  zip_with add32 h (foldl sha_round h (zip_with add32 SHA_K w)).

Definition be_value (b : bytes) : Z := foldl (λ n x, 256 * n + Z_of_byte x) 0 b.
Fixpoint be_words (n : nat) (b : bytes) : list Z :=
  match n with O => [] | S n' => be_value (take 4 b) :: be_words n' (drop 4 b) end.
Fixpoint sha_blocks (n : nat) (h : list Z) (b : bytes) : list Z :=
  match n with
  | O => h
  | S n' => sha_blocks n' (sha_block h (be_words 16 b)) (drop 64 b)
  end.

Definition be_bytes (n : nat) (z : Z) : bytes := reverse (le_bytes n z).
(** The message, a one bit, zeros up to 56 modulo 64, and the length in bits. *)
Definition sha_pad (b : bytes) : bytes :=
  let k := Z.to_nat ((55 - len b) mod 64) in
  b ++ [x80] ++ replicate k x00 ++ be_bytes 8 (8 * len b).
Definition sha256_ref (b : bytes) : bytes :=
  let m := sha_pad b in concat (be_bytes 4 <$> sha_blocks (length m / 64) SHA_H m).
