(* ===== verification/CccRef.v ===== *)
(** * A concrete chain library

    An instance of [Ccc] with the chain's real hash and serialization formats:
    the theorems' hypotheses hold for it, and the test vectors of the
    repository can be recomputed with it. Address parsing is a stand-in that
    maps every address with the right prefix to one fixed lock. *)

From S2P Require Import Prelude Js JsString Regex Bytes Ccc Blake2b.
From Stdlib Require Import Ascii.

(** ** Serialization formats *)

Definition hex_text_bytes (s : string) : bytes :=
  match bytesFromHex s with Ok b => b | Throw _ => [] end.

Definition u32b (z : Z) : bytes := le_bytes 4 z.

Fixpoint offsets (start : Z) (fields : list bytes) : bytes :=
  match fields with
  | [] => []
  | f :: fs => u32b start ++ offsets (start + len f) fs
  end.
(** A table or dynamic vector: total size, one offset per field, the fields. *)
Definition table (fields : list bytes) : bytes :=
  let header := 4 + 4 * len fields in
  u32b (header + len (concat fields)) ++ offsets header fields ++ concat fields.
Definition fixvec (items : list bytes) : bytes := u32b (len items) ++ concat items.
Definition bytes_item (b : bytes) : bytes := u32b (len b) ++ b.
Definition opt_item (o : option string) : bytes :=
  match o with None => [] | Some s => bytes_item (hex_text_bytes s) end.

Definition wa_encode (w : WitnessArgs) : bytes :=
  table [opt_item (wa_lock w); opt_item (wa_inputType w); opt_item (wa_outputType w)].

Definition opt_decode (b : bytes) : option (option string) :=
  match b with
  | [] => Some None
  | _ =>
      if (4 <=? length b)%nat && (le_value (take 4 b) =? len b - 4)
      then Some (Some (hexFromBytes (drop 4 b))) else None
  end.
Definition wa_decode (b : bytes) : option WitnessArgs :=
  let at4 i := le_value (subarray b i (i + 4)) in
  let n := Z.to_nat (at4 0%nat) in
  let o1 := Z.to_nat (at4 4%nat) in
  let o2 := Z.to_nat (at4 8%nat) in
  let o3 := Z.to_nat (at4 12%nat) in
  if (16 <=? length b)%nat && (n =? length b)%nat && (o1 =? 16)%nat &&
     (o1 <=? o2)%nat && (o2 <=? o3)%nat && (o3 <=? n)%nat
  then match opt_decode (subarray b o1 o2), opt_decode (subarray b o2 o3),
             opt_decode (subarray b o3 n) with
       | Some l, Some i, Some o => Some (Build_WitnessArgs l i o)
       | _, _, _ => None
       end
  else None.

Definition hash_type_byte (t : string) : Z :=
  if String.eqb t "type" then 1 else if String.eqb t "data1" then 2
  else if String.eqb t "data2" then 4 else 0.
Definition script_bytes (s : Script) : bytes :=
  table [hex_text_bytes (codeHash s); [byte_of_Z (hash_type_byte (hashType s))];
         bytes_item (hex_text_bytes (args s))].
Definition outpoint_bytes (o : OutPoint) : bytes :=
  hex_text_bytes (op_txHash o) ++ u32b (op_index o).
Definition celldep_bytes (d : CellDep) : bytes :=
  outpoint_bytes (cd_outPoint d) ++
  [byte_of_Z (if String.eqb (cd_depType d) "code" then 0 else 1)].
Definition input_bytes (i : CellInput) : bytes :=
  le_bytes 8 (in_since i) ++ outpoint_bytes (in_previousOutput i).
Definition output_bytes (o : CellOutput) : bytes :=
  table [le_bytes 8 (co_capacity o); script_bytes (co_lock o);
         match co_type o with None => [] | Some s => script_bytes s end].
Definition raw_tx_bytes (tx : Transaction) : bytes :=
  table [u32b 0; fixvec (celldep_bytes <$> tx_cellDeps tx); fixvec [];
         fixvec (input_bytes <$> tx_inputs tx); table (output_bytes <$> tx_outputs tx);
         table ((bytes_item ∘ hex_text_bytes) <$> tx_outputsData tx)].
Definition tx_bytes (tx : Transaction) : bytes :=
  table [raw_tx_bytes tx; table ((bytes_item ∘ hex_text_bytes) <$> tx_witnesses tx)].

Definition script_size (s : Script) : Z := 33 + hex_bytes_len (args s).

Definition SECP_LOCK : Script := {|
  codeHash := "0x9bd7e06f3ecf4be0f2fcd2188b23f1b9fcc88e5d4b65a8637b17723bbda3cce8";
  hashType := "type"; args := "0x36c329ed630d6ce750712a477543672adab57f4c" |}.

#[export] Instance ccc_ref : Ccc := {|
  ckb_digest := blake2b;
  hashCkb := λ b, hexFromBytes (blake2b b);
  hashCkb_hex := λ s,
    b ← (if String.eqb s "0x" then Ok [] else bytesFromHex s);
    Ok (hexFromBytes (blake2b b));
  bytesFrom := λ s, if String.eqb s "0x" then Ok [] else bytesFromHex s;
  hexFrom := hexFromBytes;
  hexFrom_hex := λ s,
    b ← (if String.eqb s "0x" then Ok [] else bytesFromHex s); Ok (hexFromBytes b);
  WitnessArgs_from := Ok;
  WitnessArgs_toBytes := wa_encode;
  WitnessArgs_fromBytes := λ b, from_option_or (Error "malformed table") (wa_decode b);
  Script_from := λ s, Ok s;
  Script_hash := λ s, hexFromBytes (blake2b (script_bytes s));
  Script_eq := λ a b, bool_decide (a = b);
  OutPoint_eq := λ a b, bool_decide (a = b);
  CellDep_from := Ok;
  Transaction_from := Ok;
  Transaction_clone := id;
  Transaction_hash := λ tx, hexFromBytes (blake2b (raw_tx_bytes tx));
  estimateFee := λ tx rate, ((len (tx_bytes tx) + 4) * rate + 999) / 1000;
  occupiedSize := λ o, 8 + script_size (co_lock o) +
    match co_type o with None => 0 | Some s => script_size s end;
  hashTypeId := λ i k, hexFromBytes (blake2b (input_bytes i ++ le_bytes 8 k));
  Address_fromString := λ a prefix,
    if startsWith prefix a then Ok SECP_LOCK else Throw (Error "unknown address prefix");
|}.

(** ** It satisfies the interface *)

Lemma ref_bytesFrom b :
  (if String.eqb (hexFromBytes b) "0x" then Ok [] else bytesFromHex (hexFromBytes b)) = Ok b.
Proof.
  destruct b as [|x b]; [done|].
  destruct (String.eqb_spec (hexFromBytes (x :: b)) "0x") as [H|_].
  - by apply (hexFromBytes_inj (x :: b) []) in H.
  - by apply bytesFromHex_of_bytes.
Qed.

Lemma hex_text_bytes_of b : hex_text_bytes (hexFromBytes b) = b.
Proof.
  destruct b; [done|]. unfold hex_text_bytes. by rewrite bytesFromHex_of_bytes.
Qed.

Lemma len_offsets s fs : len (offsets s fs) = 4 * len fs.
Proof.
  revert s. induction fs as [|f fs IH]; intros s; [done|]. cbn [offsets].
  unfold u32b. rewrite len_app, len_le_bytes, IH, len_cons. lia.
Qed.

Lemma len_table fs : len (table fs) = 4 + 4 * len fs + len (concat fs).
Proof. unfold table, u32b. rewrite !len_app, len_le_bytes, len_offsets. lia. Qed.

Lemma len_opt_item o : opt_hex_text o → len (opt_item o) = opt_size o.
Proof.
  destruct o as [s|]; [|done]. intros H. destruct (H s eq_refl) as [b ->].
  unfold opt_item, bytes_item, u32b, opt_size.
  by rewrite len_app, len_le_bytes, hex_text_bytes_of, hex_bytes_len_of.
Qed.

Lemma len_wa_encode w : wa_ok w → len (wa_encode w) = wa_size w.
Proof.
  intros (Hl & Hi & Ho & _). unfold wa_encode, wa_size. rewrite len_table.
  cbn [concat]. rewrite !len_app, !len_opt_item by done. unfold len. simpl. lia.
Qed.

Lemma opt_decode_item o :
  opt_hex_text o → opt_size o < 2 ^ 32 → opt_decode (opt_item o) = Some o.
Proof.
  destruct o as [s|]; [|done]. intros H Hs. destruct (H s eq_refl) as [b ->].
  unfold opt_size in Hs. rewrite hex_bytes_len_of in Hs.
  unfold opt_item, bytes_item. rewrite hex_text_bytes_of.
  pose proof (len_nonneg b).
  assert (Hlen : length (u32b (len b) ++ b) = (4 + length b)%nat) by done.
  unfold opt_decode. destruct (u32b (len b) ++ b) as [|x l] eqn:E; [done|].
  rewrite <- E in *. rewrite Hlen, (proj2 (Nat.leb_le _ _)) by lia. cbn [andb].
  rewrite take_app_le, take_ge by done. unfold u32b at 1.
  rewrite le_value_bytes, Z.mod_small by (simpl; lia).
  rewrite len_app. unfold u32b at 1. rewrite len_le_bytes, (proj2 (Z.eqb_eq _ _)) by lia.
  by rewrite (drop_app_length' (u32b (len b)) b 4).
Qed.

Lemma opt_decode_inv b o :
  opt_decode b = Some o → opt_hex_text o ∧ opt_size o = len b.
Proof.
  unfold opt_decode. destruct b as [|x b]; [intros [= <-]; split; [by intros ?|done]|].
  destruct (_ && _) eqn:E; [|done]. apply andb_true_iff in E as [E1%Nat.leb_le _].
  intros [= <-]. split; [intros s [= <-]; eauto with js|].
  unfold opt_size. rewrite hex_bytes_len_of. unfold len. rewrite length_drop. simpl length in *. lia.
Qed.

Lemma subarray_app pre x post a b :
  length pre = a → b = (a + length x)%nat → subarray (pre ++ x ++ post) a b = x.
Proof.
  intros <- ->. unfold subarray. rewrite drop_app_length.
  replace (length pre + length x - length pre)%nat with (length x) by lia.
  apply take_app_length.
Qed.

Lemma opt_size_nonneg o : 0 <= opt_size o.
Proof. destruct o; simpl; unfold hex_bytes_len; lia. Qed.

Lemma le_value_u32 z : 0 <= z < 2 ^ 32 → le_value (u32b z) = z.
Proof. intros H. unfold u32b. rewrite le_value_bytes. by apply Z.mod_small. Qed.

Lemma wa_decode_encode w : wa_ok w → wa_decode (wa_encode w) = Some w.
Proof.
  intros Hw. pose proof (len_wa_encode w Hw) as Hlen.
  destruct Hw as (Hl & Hi & Ho & Hsz). unfold wa_size in Hsz, Hlen.
  pose proof (len_opt_item _ Hl) as Ll. pose proof (len_opt_item _ Hi) as Li.
  pose proof (len_opt_item _ Ho) as Lo.
  pose proof (opt_size_nonneg (wa_lock w)). pose proof (opt_size_nonneg (wa_inputType w)).
  pose proof (opt_size_nonneg (wa_outputType w)).
  set (l := opt_item (wa_lock w)) in *. set (i := opt_item (wa_inputType w)) in *.
  set (o := opt_item (wa_outputType w)) in *.
  set (nl := opt_size (wa_lock w)) in *. set (ni := opt_size (wa_inputType w)) in *.
  set (no := opt_size (wa_outputType w)) in *.
  set (total := 16 + nl + ni + no) in *.
  assert (He : wa_encode w = u32b total ++ u32b 16 ++ u32b (16 + nl) ++
    u32b (16 + nl + ni) ++ l ++ i ++ o).
  { unfold wa_encode, table. fold l i o. change (4 + 4 * len [l; i; o]) with 16.
    cbn [offsets concat]. rewrite !app_nil_r, <- !app_assoc. rewrite Ll, Li.
    replace (16 + len (l ++ i ++ o)) with total; [done|].
    rewrite !len_app, Ll, Li, Lo. unfold total. lia. }
  set (bs := wa_encode w) in *.
  assert (Hl32 : ∀ z, length (u32b z) = 4%nat) by (intros; apply length_le_bytes).
  assert (Hll : length l = Z.to_nat nl) by (unfold len in Ll; lia).
  assert (Hli : length i = Z.to_nat ni) by (unfold len in Li; lia).
  assert (Hlo : length o = Z.to_nat no) by (unfold len in Lo; lia).
  assert (Hlb : length bs = Z.to_nat total) by (unfold len in Hlen; lia).
  assert (A0 : subarray bs 0 4 = u32b total) by (rewrite He; by apply (subarray_app [])).
  assert (A1 : subarray bs 4 8 = u32b 16) by (rewrite He; by apply subarray_app).
  assert (A2 : subarray bs 8 12 = u32b (16 + nl)).
  { rewrite He. rewrite (app_assoc (u32b total)). by apply subarray_app. }
  assert (A3 : subarray bs 12 16 = u32b (16 + nl + ni)).
  { rewrite He. rewrite (app_assoc (u32b total)), (app_assoc (u32b total ++ _)).
    by apply subarray_app. }
  assert (B : subarray bs 16 (Z.to_nat (16 + nl)) = l ∧
    subarray bs (Z.to_nat (16 + nl)) (Z.to_nat (16 + nl + ni)) = i ∧
    subarray bs (Z.to_nat (16 + nl + ni)) (Z.to_nat total) = o).
  { rewrite He.
    rewrite (app_assoc (u32b total)), (app_assoc (u32b total ++ _)),
      (app_assoc ((u32b total ++ _) ++ _)). set (hd := ((u32b total ++ _) ++ _) ++ _).
    assert (Hhd : length hd = 16%nat) by by unfold hd; rewrite !length_app, !Hl32.
    split_and!.
    - apply subarray_app; lia.
    - rewrite (app_assoc hd). apply subarray_app; rewrite ?length_app; lia.
    - rewrite (app_assoc hd), (app_assoc (hd ++ l)), <- (app_nil_r o) at 1.
      apply subarray_app; rewrite ?length_app; simpl; lia. }
  destruct B as (B1 & B2 & B3).
  unfold wa_decode. change (0 + 4)%nat with 4%nat. change (4 + 4)%nat with 8%nat.
  change (8 + 4)%nat with 12%nat. change (12 + 4)%nat with 16%nat.
  rewrite A0, A1, A2, A3, !le_value_u32 by lia. rewrite Hlb.
  change (Z.to_nat 16) with 16%nat. rewrite B1, B2, B3.
  rewrite !(proj2 (Nat.leb_le _ _)) by lia. rewrite !Nat.eqb_refl. cbn [andb].
  unfold l, i, o. rewrite !opt_decode_item by (done || lia). by destruct w.
Qed.

Lemma wa_decode_inv b w : wa_decode b = Some w → wa_ok w.
Proof.
  unfold wa_decode. change (0 + 4)%nat with 4%nat.
  pose proof (le_value_range (subarray b 0 4)) as Hr.
  assert (Hs : len (subarray b 0 4) <= 4).
  { unfold len, subarray. rewrite length_take. lia. }
  assert (Hn : le_value (subarray b 0 4) < 2 ^ 32).
  { eapply Z.lt_le_trans; [apply Hr|]. apply (Z.pow_le_mono_r 256 _ 4); lia. }
  revert Hn. generalize (le_value (subarray b 0 4)) as n.
  generalize (Z.to_nat (le_value (subarray b 4 (4 + 4)))) as o1.
  generalize (Z.to_nat (le_value (subarray b 8 (8 + 4)))) as o2.
  generalize (Z.to_nat (le_value (subarray b 12 (12 + 4)))) as o3.
  intros o3 o2 o1 n Hn. destruct (_ && _) eqn:E; [|done].
  rewrite !andb_true_iff, !Nat.leb_le, !Nat.eqb_eq in E.
  destruct E as (((((E1 & E2) & E3) & E4) & E5) & E6).
  destruct (opt_decode (subarray b o1 o2)) as [l|] eqn:D1; [|done].
  destruct (opt_decode (subarray b o2 o3)) as [i|] eqn:D2; [|done].
  destruct (opt_decode (subarray b o3 _)) as [o|] eqn:D3; [|done].
  intros [= <-].
  apply opt_decode_inv in D1 as [? D1], D2 as [? D2], D3 as [? D3].
  repeat split; try done. unfold wa_size. simpl. rewrite D1, D2, D3.
  unfold len, subarray. rewrite !length_take, !length_drop. lia.
Qed.

Lemma ref_hash_spec b : ∃ d, length d = 32%nat ∧ hexFromBytes (blake2b b) = hexFromBytes d.
Proof. eauto using blake2b_len. Qed.

#[export] Instance ccc_ref_laws : CccLaws.
Proof.
  constructor; intros; simpl; try done.
  - apply ref_bytesFrom.
  - by rewrite ref_bytesFrom.
  - by apply len_wa_encode.
  - by rewrite wa_decode_encode.
  - apply from_option_or_Ok in H. by eapply wa_decode_inv.
  - apply ref_hash_spec.
  - apply bool_decide_eq_true.
  - apply bool_decide_eq_true.
  - apply ref_hash_spec.
  - apply ref_hash_spec.
Qed.
