(* ===== verification/Wire.v ===== *)
(** * On-chain parsers ([crates/protocol/src/wire.rs], [contracts/verifier-p256])

    The byte formats as the contracts read them: what the encoders and the
    state checks of the client have to agree with. A slice or an index outside
    its buffer panics, which is a third outcome beside success and error. *)

From S2P Require Import Prelude Js JsString.

Inductive ProtocolError :=
  | InvalidArgs | InvalidState | InvalidWitness | StateNotFound | DuplicateState
  | StateConsumedOnSpend | InvalidTransition | InvalidSequence | ThresholdUnsatisfied
  | InvalidCapability | InvalidVerifierRef | VerifierFailure | UnsupportedVersion
  | UnsupportedAlgorithm | RecoveryLocked | InvalidRequest | InvalidProof
  | InvalidOperation | UnsatisfiableThreshold | LengthOverflow.

Inductive outcome (E A : Type) := Good (a : A) | Bad (e : E) | Panic.
Arguments Good {E A} a.
Arguments Bad {E A} e.
Arguments Panic {E A}.

#[export] Instance outcome_ret {E} : MRet (outcome E) := λ A, Good.
#[export] Instance outcome_bind {E} : MBind (outcome E) := λ A B f m,
  match m with Good a => f a | Bad e => Bad e | Panic => Panic end.

Definition err_if {E} (c : bool) (e : E) : outcome E unit := if c then Bad e else Good tt.
Definition map_err {E E' A} (e : E') (m : outcome E A) : outcome E' A :=
  match m with Good a => Good a | Bad _ => Bad e | Panic => Panic end.

(** [usize] arithmetic and slices. *)
Definition USIZE_MAX : Z := 2 ^ 64 - 1.
Definition checked_add (a b : Z) : option Z := if a + b <=? USIZE_MAX then Some (a + b) else None.
Definition range {E} (data : bytes) (a b : Z) : outcome E bytes :=
  if (a <=? b) && (b <=? len data) then Good (subarray data (Z.to_nat a) (Z.to_nat b))
  else Panic.
Definition index {E} (data : bytes) (i : Z) : outcome E Z :=
  match at_ data (Z.to_nat i) with Some v => Good v | None => Panic end.
Definition checked_end (offset l total : Z) : outcome ProtocolError Z :=
  match checked_add offset l with
  | Some e => if e <=? total then Good e else Bad LengthOverflow
  | None => Bad LengthOverflow
  end.

Definition le_u16 (b : bytes) : outcome ProtocolError Z :=
  if negb (len b =? 2) then Bad InvalidState else Good (le_value b).
Definition le_u32 (b : bytes) : outcome ProtocolError Z :=
  if negb (len b =? 4) then Bad InvalidWitness else Good (le_value b).
Definition le_u64 (b : bytes) : outcome ProtocolError Z :=
  if negb (len b =? 8) then Bad InvalidState else Good (le_value b).

(** ** Constants ([crates/protocol/src/constants.rs]) *)

Definition ACCOUNT_STATE_MAGIC : bytes := utf8_encode "CKAS".
Definition ACCOUNT_WITNESS_MAGIC : bytes := utf8_encode "CKAW".
Definition ACCOUNT_STATE_HEADER_LEN : Z := 32.
Definition ACCOUNT_STATE_MAX_LEN : Z := 16384.
Definition AUTHENTICATOR_MAX_COUNT : Z := 16.
Definition ACCOUNT_WITNESS_HEADER_LEN : Z := 16.
Definition ACCOUNT_WITNESS_MAX_LOCK_LEN : Z := 131072.
Definition CAP_SPEND : Z := 1.
Definition CAP_ROTATE : Z := 2.
Definition CAP_RECOVERY : Z := 4.
Definition CAP_KNOWN_MASK : Z := 15.
Definition STATE_FLAG_RECOVERY_ENABLED : Z := 1.
Definition STATE_FLAGS_KNOWN_MASK : Z := 3.

Definition is_supported_algorithm (algorithm_id : Z) : bool :=
  existsb (Z.eqb algorithm_id) [0x0001; 0x0101; 0x0102; 0x0103; 0x0201].

(** ** Account state *)

Record StateHeader := {
  sh_flags : Z; sh_sequence : Z; sh_spend_threshold : Z; sh_rotate_threshold : Z;
  sh_recovery_threshold : Z; sh_authenticator_count : Z; sh_recovery_since : Z }.

(** A bit pattern has no bit outside a 16-bit (or narrower) mask. *)
Definition outside_mask (v mask : Z) : bool := negb (Z.ldiff v mask =? 0).

Definition parse_state_header (data : bytes) : outcome ProtocolError StateHeader :=
  err_if ((len data <? ACCOUNT_STATE_HEADER_LEN) || (len data >? ACCOUNT_STATE_MAX_LEN))
    InvalidState;;
  magic ← range data 0 4;
  err_if (negb (bool_decide (magic = ACCOUNT_STATE_MAGIC))) InvalidState;;
  version ← index data 4;
  err_if (negb (version =? 1)) UnsupportedVersion;;
  flags ← index data 5;
  err_if (outside_mask flags STATE_FLAGS_KNOWN_MASK) InvalidState;;
  header_len ← (b ← range data 6 8; le_u16 b);
  err_if (negb (header_len =? ACCOUNT_STATE_HEADER_LEN)) InvalidState;;
  reserved ← index data 23;
  err_if (negb (reserved =? 0)) InvalidState;;
  count ← index data 22;
  err_if ((count =? 0) || (count >? AUTHENTICATOR_MAX_COUNT)) InvalidState;;
  sequence ← (b ← range data 8 16; le_u64 b);
  spend ← (b ← range data 16 18; le_u16 b);
  rotate ← (b ← range data 18 20; le_u16 b);
  recovery ← (b ← range data 20 22; le_u16 b);
  since ← (b ← range data 24 32; le_u64 b);
  Good {| sh_flags := flags; sh_sequence := sequence; sh_spend_threshold := spend;
          sh_rotate_threshold := rotate; sh_recovery_threshold := recovery;
          sh_authenticator_count := count; sh_recovery_since := since |}.

Record AuthenticatorEntry := {
  ae_slot : Z; ae_algorithm_id : Z; ae_capabilities : Z; ae_weight : Z;
  ae_verifier_hash_type : Z; ae_verifier_abi : Z; ae_verifier_code_hash : bytes;
  ae_key_id : bytes; ae_aux : bytes }.

Definition parse_authenticator (state : bytes) (off : Z) (prev_slot : option Z)
    : outcome ProtocolError (AuthenticatorEntry * Z) :=
  let total := len state in
  map_err InvalidState (checked_end off 48 total);;
  entry_len ← (b ← range state off (off + 2); le_u16 b);
  slot ← (b ← range state (off + 2) (off + 4); le_u16 b);
  algorithm_id ← (b ← range state (off + 4) (off + 6); le_u16 b);
  capabilities ← (b ← range state (off + 6) (off + 8); le_u16 b);
  weight ← (b ← range state (off + 8) (off + 10); le_u16 b);
  hash_type ← index state (off + 10);
  abi ← index state (off + 11);
  code_hash ← range state (off + 12) (off + 44);
  key_len ← (b ← range state (off + 44) (off + 46); le_u16 b);
  aux_len ← (b ← range state (off + 46) (off + 48); le_u16 b);
  err_if (negb (entry_len =? 48 + key_len + aux_len)) InvalidState;;
  map_err InvalidState (checked_end off entry_len total);;
  err_if (match prev_slot with Some p => slot <=? p | None => false end) InvalidState;;
  err_if ((weight =? 0) || outside_mask capabilities CAP_KNOWN_MASK) InvalidState;;
  err_if ((hash_type >? 1) || negb (abi =? 1)) InvalidVerifierRef;;
  let key_start := off + 48 in
  let aux_start := key_start + key_len in
  key_id ← range state key_start aux_start;
  aux ← range state aux_start (off + entry_len);
  Good ({| ae_slot := slot; ae_algorithm_id := algorithm_id;
           ae_capabilities := capabilities; ae_weight := weight;
           ae_verifier_hash_type := hash_type; ae_verifier_abi := abi;
           ae_verifier_code_hash := code_hash; ae_key_id := key_id; ae_aux := aux |},
        off + entry_len).

Section parse_authenticators.
Context {S : Type} (f : S → AuthenticatorEntry → outcome ProtocolError S).

Fixpoint parse_authenticators_loop (n : nat) (state : bytes) (off : Z)
    (prev_slot : option Z) (s : S) : outcome ProtocolError S :=
  match n with
  | O => if negb (off =? len state) then Bad InvalidState else Good s
  | Datatypes.S n' =>
      '(entry, off') ← parse_authenticator state off prev_slot;
      s' ← f s entry;
      parse_authenticators_loop n' state off' (Some (ae_slot entry)) s'
  end.
Definition parse_authenticators (state : bytes) (header : StateHeader) (s : S) :=
  parse_authenticators_loop (Z.to_nat (sh_authenticator_count header)) state
    ACCOUNT_STATE_HEADER_LEN None s.
End parse_authenticators.

Record StateSummary := { ss_spend : Z; ss_rotate : Z; ss_recovery : Z }.

Definition add_weight (caps cap weight total : Z) : outcome ProtocolError Z :=
  if negb (Z.land caps cap =? 0)
  then if total + weight <=? 2 ^ 32 - 1 then Good (total + weight) else Bad LengthOverflow
  else Good total.

Definition summarise (s : StateSummary) (entry : AuthenticatorEntry)
    : outcome ProtocolError StateSummary :=
  err_if (negb (is_supported_algorithm (ae_algorithm_id entry))) UnsupportedAlgorithm;;
  err_if (negb (len (ae_key_id entry) =? 32) || (len (ae_aux entry) =? 0)) InvalidState;;
  sp ← add_weight (ae_capabilities entry) CAP_SPEND (ae_weight entry) (ss_spend s);
  ro ← add_weight (ae_capabilities entry) CAP_ROTATE (ae_weight entry) (ss_rotate s);
  re ← add_weight (ae_capabilities entry) CAP_RECOVERY (ae_weight entry) (ss_recovery s);
  Good {| ss_spend := sp; ss_rotate := ro; ss_recovery := re |}.

Definition validate_state (state : bytes) : outcome ProtocolError (StateHeader * StateSummary) :=
  header ← parse_state_header state;
  summary ← parse_authenticators summarise state header
    {| ss_spend := 0; ss_rotate := 0; ss_recovery := 0 |};
  err_if ((sh_spend_threshold header =? 0) || (sh_rotate_threshold header =? 0) ||
          (sh_spend_threshold header >? ss_spend summary) ||
          (sh_rotate_threshold header >? ss_rotate summary)) UnsatisfiableThreshold;;
  (if negb (Z.land (sh_flags header) STATE_FLAG_RECOVERY_ENABLED =? 0)
   then err_if ((sh_recovery_threshold header =? 0) ||
                (sh_recovery_threshold header >? ss_recovery summary)) UnsatisfiableThreshold
   else err_if (negb (sh_recovery_threshold header =? 0) ||
                negb (sh_recovery_since header =? 0)) InvalidState);;
  Good (header, summary).

(** ** Account witness *)

Record AccountWitnessHeader := { wh_operation : Z; wh_proof_count : Z; wh_state_sequence : Z }.

Definition parse_witness_header (data : bytes) : outcome ProtocolError AccountWitnessHeader :=
  err_if ((len data <? ACCOUNT_WITNESS_HEADER_LEN) ||
          (len data >? ACCOUNT_WITNESS_MAX_LOCK_LEN)) InvalidWitness;;
  magic ← range data 0 4;
  version ← index data 4;
  reserved ← index data 7;
  err_if (negb (bool_decide (magic = ACCOUNT_WITNESS_MAGIC)) || negb (version =? 1) ||
          negb (reserved =? 0)) InvalidWitness;;
  operation ← index data 5;
  err_if (negb (existsb (Z.eqb operation) [1; 2; 3])) InvalidWitness;;
  count ← index data 6;
  sequence ← map_err InvalidWitness (b ← range data 8 16; le_u64 b);
  Good {| wh_operation := operation; wh_proof_count := count;
          wh_state_sequence := sequence |}.

Section parse_proofs.
Context {S : Type} (f : S → Z → bytes → outcome ProtocolError S).

Fixpoint parse_proofs_loop (n : nat) (data : bytes) (off : Z) (prev : option Z) (s : S)
    : outcome ProtocolError S :=
  match n with
  | O => if negb (off =? len data) then Bad InvalidWitness else Good s
  | Datatypes.S n' =>
      map_err InvalidWitness (checked_end off 8 (len data));;
      slot ← map_err InvalidWitness (b ← range data off (off + 2); le_u16 b);
      r2 ← index data (off + 2);
      r3 ← index data (off + 3);
      err_if (negb (r2 =? 0) || negb (r3 =? 0)) InvalidWitness;;
      l ← (b ← range data (off + 4) (off + 8); le_u32 b);
      payload ← match checked_add off 8 with Some p => Good p | None => Bad InvalidWitness end;
      end_ ← map_err InvalidWitness (checked_end payload l (len data));
      err_if (l =? 0) InvalidWitness;;
      err_if (match prev with Some p => slot <=? p | None => false end) InvalidWitness;;
      proof ← range data payload end_;
      s' ← f s slot proof;
      parse_proofs_loop n' data end_ (Some slot) s'
  end.
Definition parse_proofs (data : bytes) (header : AccountWitnessHeader) (s : S) :=
  parse_proofs_loop (Z.to_nat (wh_proof_count header)) data ACCOUNT_WITNESS_HEADER_LEN None s.
End parse_proofs.

(** The proofs of a witness, in order. *)
Definition collect (acc : list (Z * bytes)) (slot : Z) (proof : bytes)
    : outcome ProtocolError (list (Z * bytes)) := Good (acc ++ [(slot, proof)]).

(** ** Passkey proof ([parse_proof] of [contracts/verifier-p256/src/main.rs]) *)

Record PasskeyProof := {
  pp_public_key : bytes; pp_origin : bytes; pp_authenticator_data : bytes;
  pp_client_data_json : bytes; pp_signature : bytes }.

Definition MALFORMED_PROOF : Z := 7.

Definition take_ (data : bytes) (offset l : Z) : outcome Z (bytes * Z) :=
  match checked_add offset l with
  | None => Bad MALFORMED_PROOF
  | Some end_ =>
      if (offset <=? end_) && (end_ <=? len data)
      then Good (subarray data (Z.to_nat offset) (Z.to_nat end_), end_)
      else Bad MALFORMED_PROOF
  end.
Definition take_u16 (data : bytes) (offset : Z) : outcome Z (Z * Z) :=
  '(b, offset) ← take_ data offset 2; Good (le_value b, offset).

Definition parse_proof (data : bytes) : outcome Z PasskeyProof :=
  '(public_key, offset) ← take_ data 0 65;
  '(ol, offset) ← take_ data offset 1;
  '(origin, offset) ← take_ data offset (le_value ol);
  '(al, offset) ← take_u16 data offset;
  '(authenticator_data, offset) ← take_ data offset al;
  '(cl, offset) ← take_u16 data offset;
  '(client_data_json, offset) ← take_ data offset cl;
  '(sl, offset) ← take_u16 data offset;
  '(signature, offset) ← take_ data offset sl;
  err_if (negb (offset =? len data) || (len origin =? 0) ||
          (len authenticator_data <? 37) || (len client_data_json =? 0) ||
          (len signature =? 0)) MALFORMED_PROOF;;
  Good {| pp_public_key := public_key; pp_origin := origin;
          pp_authenticator_data := authenticator_data;
          pp_client_data_json := client_data_json; pp_signature := signature |}.

(** ** Reading past a known prefix *)

Lemma range_app {E} pre x post a b :
  len pre = a → b = a + len x → @range E (pre ++ x ++ post) a b = Good x.
Proof.
  intros <- ->. unfold range. pose proof (len_nonneg pre). pose proof (len_nonneg x).
  pose proof (len_nonneg post). rewrite !len_app.
  rewrite !(proj2 (Z.leb_le _ _)) by lia. cbn [andb]. f_equal. unfold subarray, len.
  rewrite <- Nat2Z.inj_add, !Nat2Z.id, drop_app_length.
  replace (length pre + length x - length pre)%nat with (length x) by lia.
  apply take_app_length.
Qed.

Lemma index_app {E} pre x post i :
  len pre = i → @index E (pre ++ x :: post) i = Good (Z_of_byte x).
Proof.
  intros <-. unfold index, at_, len. by rewrite Nat2Z.id, list_lookup_middle.
Qed.

Lemma take_app pre x post o l :
  len pre = o → len x = l → len (pre ++ x ++ post) <= USIZE_MAX →
  take_ (pre ++ x ++ post) o l = Good (x, o + l).
Proof.
  intros Ho Hx Hmax. unfold take_, checked_add.
  pose proof (len_nonneg pre). pose proof (len_nonneg x). pose proof (len_nonneg post).
  rewrite !len_app in *. rewrite (proj2 (Z.leb_le _ _)) by lia.
  rewrite !(proj2 (Z.leb_le _ _)) by lia. cbn [andb]. do 2 f_equal.
  unfold subarray, len in *. subst.
  rewrite <- Nat2Z.inj_add, !Nat2Z.id, drop_app_length.
  replace (length pre + length x - length pre)%nat with (length x) by lia.
  apply take_app_length.
Qed.

(** ** What a successful read says of the buffer *)

Lemma split_at (data : bytes) a b :
  0 <= a → a <= b → b <= len data →
  data = take (Z.to_nat a) data ++ subarray data (Z.to_nat a) (Z.to_nat b) ++
         drop (Z.to_nat b) data ∧
  len (subarray data (Z.to_nat a) (Z.to_nat b)) = b - a.
Proof.
  unfold len, subarray. intros Ha Hab Hb. split.
  - rewrite <- (take_drop (Z.to_nat a) data) at 1. f_equal.
    rewrite <- (take_drop (Z.to_nat b - Z.to_nat a) (drop (Z.to_nat a) data)) at 1.
    f_equal. rewrite drop_drop. f_equal. lia.
  - rewrite length_take, length_drop. lia.
Qed.

Lemma subarray_inv {pre rest : bytes} e :
  len pre <= e → e <= len (pre ++ rest) →
  ∃ rest', rest = subarray (pre ++ rest) (Z.to_nat (len pre)) (Z.to_nat e) ++ rest' ∧
    len (subarray (pre ++ rest) (Z.to_nat (len pre)) (Z.to_nat e)) = e - len pre.
Proof.
  intros H1 H2. destruct (split_at (pre ++ rest) (len pre) e) as [H3 H4];
    [apply len_nonneg|done|done|].
  exists (drop (Z.to_nat e) (pre ++ rest)). split; [|done].
  unfold len in H3. rewrite Nat2Z.id, take_app_length in H3.
  apply app_inv_head in H3. unfold len. by rewrite Nat2Z.id.
Qed.

Lemma range_inv {E} pre rest e x :
  @range E (pre ++ rest) (len pre) e = Good x →
  ∃ rest', rest = x ++ rest' ∧ len x = e - len pre.
Proof.
  unfold range. destruct (_ && _) eqn:Hc; [|done]. bool_simpl. intros [= <-].
  by apply subarray_inv.
Qed.

Lemma index_at_inv {E} pre rest i z :
  len pre = i → @index E (pre ++ rest) i = Good z →
  ∃ b rest', rest = b :: rest' ∧ Z_of_byte b = z.
Proof.
  intros <-. unfold index, at_, len. rewrite Nat2Z.id.
  rewrite lookup_app_r, Nat.sub_diag by done.
  destruct rest as [|b rest]; [done|]. intros [= <-]. eauto.
Qed.

Lemma take_inv pre rest l x e :
  0 <= l → take_ (pre ++ rest) (len pre) l = Good (x, e) →
  ∃ rest', rest = x ++ rest' ∧ len x = l ∧ e = len (pre ++ x).
Proof.
  intros Hl. unfold take_, checked_add. destruct (_ <=? _); [|done].
  destruct (_ && _) eqn:Hc; [|done]. bool_simpl. intros [= Hx <-].
  destruct (@subarray_inv pre rest (len pre + l)) as (rest' & Hr & Hn); [lia..|].
  rewrite Hx in *. exists rest'. rewrite len_app. repeat split; (done || lia).
Qed.

Lemma outcome_bind_Good {E A B} (m : outcome E A) (f : A → outcome E B) b :
  (m ≫= f) = Good b ↔ ∃ a, m = Good a ∧ f a = Good b.
Proof. destruct m; simpl; naive_solver. Qed.
Lemma err_if_Good {E} c (e : E) u : err_if c e = Good u ↔ c = false.
Proof. destruct c, u; simpl; naive_solver. Qed.
Lemma map_err_Good {E E' A} (e : E') (m : outcome E A) a :
  map_err e m = Good a ↔ m = Good a.
Proof. destruct m; simpl; naive_solver. Qed.

(** Take a successful chain of reads apart into its steps. *)
Ltac inv_good_step :=
  match goal with
  | H : mbind _ _ = Good _ |- _ =>
      apply outcome_bind_Good in H; let x := fresh "v" in
      destruct H as (x & ? & H); cbv beta in H
  | H : err_if _ _ = Good _ |- _ => apply err_if_Good in H
  | H : map_err _ _ = Good _ |- _ => apply map_err_Good in H
  | H : Good _ = Good _ |- _ => injection H; clear H; intros
  | H : Bad _ = Good _ |- _ => discriminate H
  | H : (let '(_, _) := ?p in _) = Good _ |- _ => destruct p
  end.
Ltac inv_good := repeat (inv_good_step; try subst).
