(* ===== verification/Protocol.v ===== *)
(** * Protocol codec ([demo/src/shared/protocol.ts])

    The witness and proof encoders, the group sighash and the authorization
    digest. The theorems relate the encoders to the on-chain parsers of [Wire]
    and state what a digest commits to, up to an explicit hash collision. *)

From S2P Require Import Prelude Js JsString Bytes Ccc CccRef Wire.

Definition ACCOUNT_WITNESS_VERSION : Z := 1.
Definition AUTH_DOMAIN : bytes := utf8_encode "CKB_ACCOUNT_LOCK_V1".
(** The client's own copies of the witness limits. *)
Definition TS_ACCOUNT_WITNESS_MAGIC : bytes := byte_of_Z <$> [0x43; 0x4b; 0x41; 0x57].
Definition TS_ACCOUNT_WITNESS_MAX_LOCK_LEN : Z := 131072.
Definition TS_AUTHENTICATOR_MAX_COUNT : Z := 16.

Record P256ProofInput := {
  pi_publicKey : bytes; pi_origin : bytes; pi_authenticatorData : bytes;
  pi_clientDataJson : bytes; pi_signature : bytes }.

Record Proof_ := { pr_slot : number; pr_bytes : bytes }.

Record AuthorizationInput := {
  ai_operation : Z; ai_accountId : bytes; ai_sequence : Z; ai_state : bytes;
  ai_groupSighash : bytes }.

Definition requireOperation (operation : Z) : res unit :=
  throw_if (negb (operation =? 1) && negb (operation =? 2) && negb (operation =? 3))
    (RangeError "operation").

Definition requireLength (bs : bytes) (l : Z) (label : string) : res unit :=
  throw_if (negb (len bs =? l)) (RangeError label).

Definition encodeP256Proof (input : P256ProofInput) : res bytes :=
  throw_if (negb (len (pi_publicKey input) =? 65) || negb (at_is (pi_publicKey input) 0 0x04))
    (TypeError "P-256 public key must be uncompressed SEC1");;
  throw_if ((len (pi_origin input) =? 0) || (len (pi_origin input) >? 0xff))
    (RangeError "origin length");;
  throw_if (len (pi_authenticatorData input) <? 37)
    (RangeError "authenticator data length");;
  throw_if ((len (pi_clientDataJson input) =? 0) || (len (pi_signature input) =? 0))
    (RangeError "empty P-256 proof field");;
  authenticator_len ← u16le (NInt (len (pi_authenticatorData input)));
  client_len ← u16le (NInt (len (pi_clientDataJson input)));
  signature_len ← u16le (NInt (len (pi_signature input)));
  bytesConcat [
    pi_publicKey input;
    [byte_of_Z (len (pi_origin input))];
    pi_origin input;
    authenticator_len;
    pi_authenticatorData input;
    client_len;
    pi_clientDataJson input;
    signature_len;
    pi_signature input].

(** The loop over the proofs, with [previousSlot] and [encodedProofs]. *)
Fixpoint encode_proofs (proofs : list Proof_) (previousSlot : Z) (encodedProofs : list bytes)
    : res (list bytes) :=
  match proofs with
  | [] => Ok encodedProofs
  | proof :: proofs' =>
      throw_if (negb (Number_isInteger (pr_slot proof)) || num_lt (pr_slot proof) 0 ||
                num_gt (pr_slot proof) 0xffff) (RangeError "proof slot");;
      throw_if (num_le (pr_slot proof) previousSlot)
        (TypeError "proof slots must be unique and ascending");;
      throw_if (len (pr_bytes proof) =? 0) (RangeError "empty proof");;
      slot ← u16le (pr_slot proof);
      proof_len ← u32le (NInt (len (pr_bytes proof)));
      encoded ← bytesConcat [slot; [x00; x00]; proof_len; pr_bytes proof];
      encode_proofs proofs' (num_Z (pr_slot proof)) (encodedProofs ++ [encoded])
  end.

Definition encodeAccountWitness (operation sequence : Z) (proofs : list Proof_) : res bytes :=
  requireOperation operation;;
  throw_if (len proofs >? TS_AUTHENTICATOR_MAX_COUNT) (RangeError "proof count");;
  encodedProofs ← encode_proofs proofs (-1) [];
  sequence_bytes ← u64le sequence;
  encoded ← bytesConcat ([
    TS_ACCOUNT_WITNESS_MAGIC;
    byte_of_Z <$> [ACCOUNT_WITNESS_VERSION; operation; len proofs; 0];
    sequence_bytes] ++ encodedProofs);
  throw_if (len encoded >? TS_ACCOUNT_WITNESS_MAX_LOCK_LEN) (RangeError "AccountWitnessV1 length");;
  Ok encoded.

Definition lengthPrefixed (witness : bytes) : res bytes :=
  l ← u64le (len witness); bytesConcat [l; witness].

Section chain.
Context {ccc : Ccc}.

Definition ckbHash (data : bytes) : res bytes := bytesFrom (hashCkb data).

(** The first group witness with its lock replaced by present, empty bytes. *)
Definition canonicalWitness (firstBytes : bytes) : res bytes :=
  first ← WitnessArgs_fromBytes firstBytes;
  canonical ← WitnessArgs_from {|
    wa_lock := Some "0x"; wa_inputType := wa_inputType first;
    wa_outputType := wa_outputType first |};
  Ok (WitnessArgs_toBytes canonical).

Definition groupSighash (txHash : bytes) (groupWitnesses extraWitnesses : list bytes)
    : res bytes :=
  requireLength txHash 32 "transaction hash";;
  firstBytes ← from_option_or (RangeError "missing group witness") (head groupWitnesses);
  canonical ← canonicalWitness firstBytes;
  prefixed ← lengthPrefixed canonical;
  rest ← mapM_res lengthPrefixed (tail groupWitnesses);
  extra ← mapM_res lengthPrefixed extraWitnesses;
  preimage ← bytesConcat ([txHash; prefixed] ++ rest ++ extra);
  ckbHash preimage.

Definition authorizationDigest (input : AuthorizationInput) : res bytes :=
  requireOperation (ai_operation input);;
  requireLength (ai_accountId input) 32 "account ID";;
  requireLength (ai_groupSighash input) 32 "group sighash";;
  sequence ← u64le (ai_sequence input);
  state_hash ← ckbHash (ai_state input);
  preimage ← bytesConcat [
    AUTH_DOMAIN;
    [byte_of_Z (ai_operation input)];
    ai_accountId input;
    sequence;
    state_hash;
    ai_groupSighash input];
  ckbHash preimage.

Definition packAccountWitness (witness : bytes) : res bytes :=
  w ← WitnessArgs_from {| wa_lock := Some (hexFromBytes witness); wa_inputType := None;
                          wa_outputType := None |};
  Ok (WitnessArgs_toBytes w).

Definition unpackAccountWitness (witnessArgs : bytes) : res bytes :=
  w ← WitnessArgs_fromBytes witnessArgs;
  lock ← from_option_or (TypeError "WitnessArgs lock is absent") (wa_lock w);
  hex ← hexFrom_hex lock;
  bytesFrom hex.
End chain.

(** ** Layouts *)

Definition p256_input_ok (i : P256ProofInput) : Prop :=
  len (pi_publicKey i) = 65 ∧ at_ (pi_publicKey i) 0 = Some 4 ∧
  1 <= len (pi_origin i) <= 255 ∧ 37 <= len (pi_authenticatorData i) <= 65535 ∧
  1 <= len (pi_clientDataJson i) <= 65535 ∧ 1 <= len (pi_signature i) <= 65535.

Definition p256_layout (i : P256ProofInput) : bytes :=
  pi_publicKey i ++ [byte_of_Z (len (pi_origin i))] ++ pi_origin i ++
  le_bytes 2 (len (pi_authenticatorData i)) ++ pi_authenticatorData i ++
  le_bytes 2 (len (pi_clientDataJson i)) ++ pi_clientDataJson i ++
  le_bytes 2 (len (pi_signature i)) ++ pi_signature i.

Definition as_proof (p : Z * bytes) : Proof_ := {| pr_slot := NInt p.1; pr_bytes := p.2 |}.
Definition proof_layout (p : Z * bytes) : bytes :=
  le_bytes 2 p.1 ++ [x00; x00] ++ le_bytes 4 (len p.2) ++ p.2.
Definition witness_header (operation sequence count : Z) : bytes :=
  ACCOUNT_WITNESS_MAGIC ++ [x01; byte_of_Z operation; byte_of_Z count; x00] ++
  le_bytes 8 sequence.
Definition witness_layout (operation sequence : Z) (ps : list (Z * bytes)) : bytes :=
  witness_header operation sequence (len ps) ++ concat (proof_layout <$> ps).

(** Slots above [prev], strictly ascending, with non-empty payloads. *)
Fixpoint proofs_ok (prev : Z) (ps : list (Z * bytes)) : Prop :=
  match ps with
  | [] => True
  | (s, b) :: ps' =>
      (prev < s ∧ 0 <= s <= 0xffff) ∧ 1 <= len b <= 0xffffffff ∧ proofs_ok s ps'
  end.

Definition operation_ok (o : Z) : Prop := o = 1 ∨ o = 2 ∨ o = 3.

Definition witness_ok (operation sequence : Z) (ps : list (Z * bytes)) : Prop :=
  operation_ok operation ∧ len ps <= 16 ∧ proofs_ok (-1) ps ∧ 0 <= sequence < 2 ^ 64 ∧
  len (witness_layout operation sequence ps) <= 131072.

Lemma requireOperation_Ok o u : requireOperation o = Ok u ↔ operation_ok o.
Proof.
  unfold requireOperation, operation_ok. rewrite throw_if_Ok.
  destruct (Z.eqb_spec o 1), (Z.eqb_spec o 2), (Z.eqb_spec o 3); simpl; naive_solver.
Qed.

Lemma requireLength_Ok bs l label u : requireLength bs l label = Ok u ↔ len bs = l.
Proof.
  unfold requireLength. rewrite throw_if_Ok, negb_false_iff. apply Z.eqb_eq.
Qed.

Lemma at_is_true bs i k : at_is bs i k = true ↔ at_ bs i = Some k.
Proof. unfold at_is. apply bool_decide_eq_true. Qed.

(** Short encodings always fit. *)
Lemma bytesConcat_short parts n :
  len (concat parts) <= n → n <= MAX_SAFE_INTEGER → bytesConcat parts = Ok (concat parts).
Proof. intros. apply bytesConcat_spec. lia. Qed.

Lemma encodeP256Proof_iff i bs :
  encodeP256Proof i = Ok bs ↔ p256_input_ok i ∧ bs = p256_layout i.
Proof.
  assert (Hlay : ∀ a b c, concat [pi_publicKey i; [byte_of_Z (len (pi_origin i))];
      pi_origin i; a; pi_authenticatorData i; b; pi_clientDataJson i; c;
      pi_signature i] = pi_publicKey i ++ [byte_of_Z (len (pi_origin i))] ++
      pi_origin i ++ a ++ pi_authenticatorData i ++ b ++ pi_clientDataJson i ++ c ++
      pi_signature i).
  { intros. cbn [concat]. by rewrite app_nil_r. }
  unfold encodeP256Proof, p256_input_ok, p256_layout. split.
  - intros H. inv_res. bool_simpl.
    repeat match goal with
      | H : u16le (NInt _) = Ok _ |- _ => apply u16le_Ok in H as [? ->]
      | H : at_is _ _ _ = true |- _ => apply at_is_true in H
      | H : bytesConcat _ = Ok _ |- _ => apply bytesConcat_Ok in H; subst
      end.
    pose proof (len_nonneg (pi_origin i)). split; [|by rewrite Hlay].
    pose proof (len_nonneg (pi_clientDataJson i)). pose proof (len_nonneg (pi_signature i)).
    repeat split; try done; lia.
  - intros ((H1 & H2 & H3 & H4 & H5 & H6) & ->).
    rewrite H1, (proj2 (at_is_true _ _ _) H2). pass_guards.
    rewrite !u16le_spec, !(proj2 (Z.leb_le 0 _)), !(proj2 (Z.leb_le _ 0xffff)) by lia.
    cbn [andb mbind res_bind]. rewrite bytesConcat_spec; [by rewrite Hlay|].
    rewrite Hlay. autorewrite with js. unfold MAX_SAFE_INTEGER. lia.
Qed.

(** ** The encoders' domains *)

Lemma proof_layout_len p : len (proof_layout p) = 8 + len p.2.
Proof. unfold proof_layout. autorewrite with js. lia. Qed.

Lemma proofs_ok_weaken p q ps : p <= q → proofs_ok q ps → proofs_ok p ps.
Proof. destruct ps as [|[s b] ps]; simpl; [done|]. intuition lia. Qed.

Lemma encode_proof_step proof prev proofs acc out :
  encode_proofs (proof :: proofs) prev acc = Ok out ↔
  ∃ s b, proof = as_proof (s, b) ∧ prev < s ∧ 0 <= s <= 0xffff ∧ 1 <= len b <= 0xffffffff ∧
    encode_proofs proofs s (acc ++ [proof_layout (s, b)]) = Ok out.
Proof.
  assert (Hc : ∀ s b, concat [le_bytes 2 s; [x00; x00]; le_bytes 4 (len b); b] =
    proof_layout (s, b)) by (intros; cbn [concat]; by rewrite app_nil_r).
  destruct proof as [n b]. cbn [encode_proofs pr_slot pr_bytes]. split.
  - intros H. inv_res. bool_simpl. destruct n as [s| | | |]; try discriminate.
    cbn [num_lt num_gt num_le num_Z] in *. bool_simpl.
    repeat match goal with
      | H : u16le (NInt _) = Ok _ |- _ => apply u16le_Ok in H as [? ->]
      | H : u32le (NInt _) = Ok _ |- _ => apply u32le_Ok in H as [? ->]
      | H : bytesConcat _ = Ok _ |- _ => apply bytesConcat_Ok in H; subst
      end.
    pose proof (len_nonneg b).
    exists s, b. rewrite Hc in *. repeat split; try done; lia.
  - intros (s & b' & [= -> ->] & Hp & Hs & Hb & H).
    cbn [num_lt num_gt num_le num_Z Number_isInteger negb orb]. pass_guards.
    rewrite u16le_spec, u32le_spec, !(proj2 (Z.leb_le _ _)) by lia.
    cbn [andb mbind res_bind]. rewrite bytesConcat_spec; [by rewrite Hc|].
    rewrite Hc, proof_layout_len. unfold MAX_SAFE_INTEGER. simpl. lia.
Qed.

Lemma encode_proofs_iff proofs prev acc out :
  encode_proofs proofs prev acc = Ok out ↔
  ∃ ps, proofs = as_proof <$> ps ∧ proofs_ok prev ps ∧ out = acc ++ (proof_layout <$> ps).
Proof.
  revert prev acc. induction proofs as [|proof proofs IH]; intros prev acc.
  - cbn [encode_proofs]. split.
    + intros [= <-]. exists []. by rewrite app_nil_r.
    + intros ([|] & H & _ & ->); [by rewrite app_nil_r | done].
  - rewrite encode_proof_step. setoid_rewrite IH. split.
    + intros (s & b & -> & ? & ? & ? & ps & -> & Hok & ->). exists ((s, b) :: ps).
      simpl. rewrite <- app_assoc. repeat split; (done || lia).
    + intros ([|[s b] ps] & H & Hok & ->); [done|]. injection H as -> ->.
      destruct Hok as ((? & ?) & ? & Hok). exists s, b. repeat (split; [done || lia|]).
      exists ps. by rewrite <- app_assoc.
Qed.

Lemma magic_eq : TS_ACCOUNT_WITNESS_MAGIC = ACCOUNT_WITNESS_MAGIC.
Proof. reflexivity. Qed.

(** The encoder succeeds exactly on the witnesses of the specification, with the
    layout of the specification. *)
Lemma encodeAccountWitness_iff operation sequence proofs bs :
  encodeAccountWitness operation sequence proofs = Ok bs ↔
  ∃ ps, proofs = as_proof <$> ps ∧ witness_ok operation sequence ps ∧
    bs = witness_layout operation sequence ps.
Proof.
  assert (Hc : ∀ ps, concat ([TS_ACCOUNT_WITNESS_MAGIC;
      byte_of_Z <$> [ACCOUNT_WITNESS_VERSION; operation; len (as_proof <$> ps); 0];
      le_bytes 8 sequence] ++ (proof_layout <$> ps)) =
      witness_layout operation sequence ps).
  { intros ps. unfold witness_layout, witness_header, len. rewrite length_fmap.
    cbn [concat app fmap list_fmap]. rewrite magic_eq, <- !app_assoc. done. }
  unfold encodeAccountWitness, witness_ok. split.
  - intros H. inv_res. bool_simpl.
    repeat match goal with
      | H : requireOperation _ = Ok _ |- _ => apply requireOperation_Ok in H
      | H : encode_proofs _ _ _ = Ok _ |- _ =>
          apply encode_proofs_iff in H as (ps & -> & Hps & ->)
      | H : u64le _ = Ok _ |- _ => apply u64le_Ok in H as [? ->]
      | H : bytesConcat _ = Ok _ |- _ => apply bytesConcat_Ok in H; subst
      end.
    rewrite app_nil_l, Hc in *. exists ps.
    unfold TS_ACCOUNT_WITNESS_MAX_LOCK_LEN, TS_AUTHENTICATOR_MAX_COUNT in *.
    assert (len (as_proof <$> ps) = len ps) by (unfold len; by rewrite length_fmap).
    repeat split; try done; lia.
  - intros (ps & -> & (Hop & Hn & Hps & Hs & Hlen) & ->).
    rewrite (proj2 (requireOperation_Ok _ tt)) by done. cbn [mbind res_bind].
    assert (len (as_proof <$> ps) = len ps) by (unfold len; by rewrite length_fmap).
    unfold TS_AUTHENTICATOR_MAX_COUNT, TS_ACCOUNT_WITNESS_MAX_LOCK_LEN. pass_guard.
    rewrite (proj2 (encode_proofs_iff _ _ _ _)) by eauto. cbn [mbind res_bind].
    rewrite u64le_spec, (proj2 (Z.leb_le _ _)), (proj2 (Z.ltb_lt _ _)) by lia.
    cbn [andb mbind res_bind]. rewrite app_nil_l, bytesConcat_spec, Hc.
    + cbn [mbind res_bind]. by pass_guards.
    + rewrite Hc. unfold MAX_SAFE_INTEGER. lia.
Qed.
