(* ===== verification/Codec.v ===== *)
(** * The proof and witness codecs against the on-chain parsers

    The encoders of [Protocol] and the parsers of [Wire] are inverse to each
    other: a proof or a witness is encoded exactly when the contracts decode
    the bytes to it. *)

From S2P Require Import Prelude Js JsString Bytes Wire Protocol.

(** ** Passkey proofs *)

Definition passkey_proof (i : P256ProofInput) : PasskeyProof := {|
  pp_public_key := pi_publicKey i; pp_origin := pi_origin i;
  pp_authenticator_data := pi_authenticatorData i;
  pp_client_data_json := pi_clientDataJson i; pp_signature := pi_signature i |}.

Lemma le_value_small n v : 0 <= v < 256 ^ Z.of_nat n → le_value (le_bytes n v) = v.
Proof. intros H. by rewrite le_value_bytes, Z.mod_small. Qed.

Lemma le_bytes_of x n : len x = Z.of_nat n → x = le_bytes n (le_value x).
Proof. unfold len. intros H. assert (length x = n) as <- by lia. by rewrite le_bytes_value. Qed.

Lemma le_value_one b : le_value [byte_of_Z b] = b mod 256.
Proof. cbn [le_value]. rewrite Z_of_byte_of_Z. lia. Qed.

(** One read past a prefix [pre] already consumed. *)
Lemma take_step pre x post l :
  len x = l → len (pre ++ x ++ post) <= USIZE_MAX →
  take_ (pre ++ x ++ post) (len pre) l = Good (x, len (pre ++ x)).
Proof. intros Hx Hmax. rewrite len_app, Hx. by apply take_app. Qed.

Lemma take_u16_step pre v post :
  0 <= v <= 65535 → len (pre ++ le_bytes 2 v ++ post) <= USIZE_MAX →
  take_u16 (pre ++ le_bytes 2 v ++ post) (len pre) = Good (v, len (pre ++ le_bytes 2 v)).
Proof.
  intros Hv Hmax. unfold take_u16. rewrite take_step by (done || by rewrite len_le_bytes).
  cbn [mbind outcome_bind]. by rewrite le_value_small by (simpl; lia).
Qed.

Lemma take_u16_inv pre rest v e :
  take_u16 (pre ++ rest) (len pre) = Good (v, e) →
  ∃ rest', rest = le_bytes 2 v ++ rest' ∧ 0 <= v <= 65535 ∧ e = len (pre ++ le_bytes 2 v).
Proof.
  unfold take_u16. intros H. apply outcome_bind_Good in H as ([x o] & H & [= <- <-]).
  apply take_inv in H as (rest' & -> & Hl & ->); [|lia].
  rewrite <- (le_bytes_of x 2) by done. exists rest'.
  pose proof (le_value_range x) as Hr. rewrite Hl in Hr. change (256 ^ 2) with 65536 in Hr.
  repeat split; (done || lia).
Qed.

(** The same reads with the buffer kept abstract: [E] says what is left of it. *)
Lemma take_at {L pre x post l} (E : L = pre ++ x ++ post) :
  len L <= USIZE_MAX → len x = l → take_ L (len pre) l = Good (x, len (pre ++ x)).
Proof. intros. subst L. by apply take_step. Qed.
Lemma take_u16_at {L pre v post} (E : L = pre ++ le_bytes 2 v ++ post) :
  len L <= USIZE_MAX → 0 <= v <= 65535 →
  take_u16 L (len pre) = Good (v, len (pre ++ le_bytes 2 v)).
Proof. intros. subst L. by apply take_u16_step. Qed.

Lemma shift_app {L pre x post : bytes} : L = pre ++ x ++ post → L = (pre ++ x) ++ post.
Proof. by rewrite app_assoc. Qed.

Ltac read_next E :=
  first [ rewrite (take_u16_at E) by (done || lia)
        | rewrite (take_at E) by (done || (rewrite ?le_value_one, ?Z.mod_small; lia)) ];
  cbn [mbind outcome_bind];
  apply shift_app in E.

Lemma parse_proof_layout i :
  p256_input_ok i → parse_proof (p256_layout i) = Good (passkey_proof i).
Proof.
  intros (H1 & _ & H3 & H4 & H5 & H6). destruct i as [k o a c s]. cbn in *.
  unfold p256_layout, parse_proof, passkey_proof. cbn [pi_publicKey pi_origin
    pi_authenticatorData pi_clientDataJson pi_signature].
  set (L := k ++ _). assert (HL : len L <= USIZE_MAX).
  { unfold L, USIZE_MAX. autorewrite with js. lia. }
  assert (E : L = [] ++ k ++ [byte_of_Z (len o)] ++ o ++ le_bytes 2 (len a) ++ a ++
    le_bytes 2 (len c) ++ c ++ le_bytes 2 (len s) ++ s ++ []) by (by rewrite app_nil_r).
  clearbody L. change (take_ L 0 65) with (take_ L (len (@nil byte)) 65).
  do 9 read_next E. rewrite app_nil_r in E.
  rewrite <- E, Z.eqb_refl. cbn [negb orb].
  rewrite !(proj2 (Z.eqb_neq _ 0)), (proj2 (Z.ltb_ge _ 37)) by lia. done.
Qed.

Definition proof_input (p : PasskeyProof) : P256ProofInput := {|
  pi_publicKey := pp_public_key p; pi_origin := pp_origin p;
  pi_authenticatorData := pp_authenticator_data p;
  pi_clientDataJson := pp_client_data_json p; pi_signature := pp_signature p |}.

Lemma passkey_proof_inj i j : passkey_proof i = passkey_proof j → i = j.
Proof. destruct i, j. by intros [= -> -> -> -> ->]. Qed.

(** A read of a variable-length field whose length was read just before. *)
Ltac inv_read :=
  match goal with
  | H : take_ (?pre ++ ?rest) (len ?pre) _ = Good (?x, _) |- _ =>
      let r := fresh "rest" in
      apply take_inv in H as (r & -> & ? & ->);
        [rewrite (app_assoc pre x r) in *
        |first [lia | match goal with |- 0 <= le_value ?b => apply le_value_range end]]
  | H : take_u16 (?pre ++ ?rest) (len ?pre) = Good (?v, _) |- _ =>
      let r := fresh "rest" in
      apply take_u16_inv in H as (r & -> & ? & ->);
      rewrite (app_assoc pre (le_bytes 2 v) r) in *
  end.

Lemma parse_proof_inv bs p :
  parse_proof bs = Good p → at_ (pp_public_key p) 0 = Some 4 →
  p256_input_ok (proof_input p) ∧ bs = p256_layout (proof_input p).
Proof.
  unfold parse_proof. intros H Hkey. change bs with ([] ++ bs) in H.
  change (take_ ([] ++ bs) 0 65) with (take_ ([] ++ bs) (len (@nil byte)) 65) in H.
  inv_good. repeat inv_read. cbn in Hkey. bool_simpl.
  match goal with H : len _ = len (_ ++ ?r) |- _ =>
    rewrite (len_app _ r) in H; assert (r = []) as -> by (apply len_zero; lia) end.
  assert (Hl0 : l0 = [byte_of_Z (len l1)]).
  { rewrite (le_bytes_of l0 1) at 1 by done. cbn [le_bytes]. congruence. }
  pose proof (len_nonneg l1). pose proof (le_value_range l0) as Hr. rewrite H0 in Hr.
  change (256 ^ 1) with 256 in Hr.
  unfold p256_input_ok, p256_layout. cbn [proof_input pp_public_key pi_publicKey pp_origin
    pi_origin pp_authenticator_data pi_authenticatorData pp_client_data_json
    pi_clientDataJson pp_signature pi_signature].
  split; [repeat split; (done || lia)|]. rewrite app_nil_r, Hl0. congruence.
Qed.

(** C9 — Passkey proof codec: [encodeP256Proof] produces [bs] exactly when the
    on-chain verifier's [parse_proof] reads from [bs] the very fields that were
    encoded and the key starts with the uncompressed-point tag 4. So every proof
    the client encodes is read back field by field, every decodable byte string is
    the encoding of its fields, and the encoder refuses everything else. *)
Theorem p256_proof_codec (i : P256ProofInput) (bs : bytes) :
  encodeP256Proof i = Ok bs ↔
  parse_proof bs = Good (passkey_proof i) ∧ at_ (pi_publicKey i) 0 = Some 4.
Proof.
  rewrite encodeP256Proof_iff. split.
  - intros [Hok ->]. split; [by apply parse_proof_layout | apply Hok].
  - intros [Hp Hk]. destruct (parse_proof_inv _ _ Hp Hk) as [Hok ->].
    by destruct i.
Qed.

(** ** Account witnesses *)

Lemma checked_end_Good o l total e :
  total <= USIZE_MAX → checked_end o l total = Good e ↔ e = o + l ∧ o + l <= total.
Proof.
  intros Ht. unfold checked_end, checked_add. destruct (Z.leb_spec (o + l) USIZE_MAX).
  - destruct (Z.leb_spec (o + l) total); naive_solver lia.
  - naive_solver lia.
Qed.

Lemma eight_bytes (rest : bytes) :
  8 <= len rest →
  ∃ b0 b1 b2 b3 b4 b5 b6 b7 rest', rest = [b0; b1; b2; b3; b4; b5; b6; b7] ++ rest'.
Proof.
  intros H. do 8 (destruct rest as [|? rest]; [unfold len in H; simpl in H; lia|]).
  by repeat eexists.
Qed.

Lemma le_bytes2 b0 b1 : le_bytes 2 (le_value [b0; b1]) = [b0; b1].
Proof. apply (le_bytes_value [b0; b1]). Qed.
Lemma le_bytes4 b0 b1 b2 b3 : le_bytes 4 (le_value [b0; b1; b2; b3]) = [b0; b1; b2; b3].
Proof. apply (le_bytes_value [b0; b1; b2; b3]). Qed.
Lemma Z_of_byte_zero b : Z_of_byte b = 0 → b = x00.
Proof. intros H. by apply Z_of_byte_inj. Qed.

(** The eight header bytes of a proof, read one field at a time. *)
Lemma header_reads {E} pre b0 b1 b2 b3 b4 b5 b6 b7 rest :
  let data := pre ++ [b0; b1; b2; b3; b4; b5; b6; b7] ++ rest in
  @range E data (len pre) (len pre + 2) = Good [b0; b1] ∧
  @index E data (len pre + 2) = Good (Z_of_byte b2) ∧
  @index E data (len pre + 3) = Good (Z_of_byte b3) ∧
  @range E data (len pre + 4) (len pre + 8) = Good [b4; b5; b6; b7].
Proof.
  cbv zeta. split; [|split; [|split]].
  - by apply (range_app pre [b0; b1]).
  - rewrite (app_assoc pre [b0; b1; b2; b3; b4; b5; b6; b7]).
    change [b0; b1; b2; b3; b4; b5; b6; b7] with ([b0; b1] ++ b2 :: [b3; b4; b5; b6; b7]).
    rewrite app_assoc, <- (app_assoc (pre ++ [b0; b1])). apply index_app.
    by rewrite len_app.
  - rewrite (app_assoc pre [b0; b1; b2; b3; b4; b5; b6; b7]).
    change [b0; b1; b2; b3; b4; b5; b6; b7] with ([b0; b1; b2] ++ b3 :: [b4; b5; b6; b7]).
    rewrite app_assoc, <- (app_assoc (pre ++ [b0; b1; b2])). apply index_app.
    by rewrite len_app.
  - rewrite (app_assoc pre [b0; b1; b2; b3; b4; b5; b6; b7]).
    change [b0; b1; b2; b3; b4; b5; b6; b7] with ([b0; b1; b2; b3] ++ [b4; b5; b6; b7]).
    rewrite app_assoc, <- (app_assoc (pre ++ [b0; b1; b2; b3])). apply range_app.
    + by rewrite len_app.
    + change (len [b4; b5; b6; b7]) with 4. lia.
Qed.

Lemma proof_layout_bytes b0 b1 b4 b5 b6 b7 payload :
  le_value [b4; b5; b6; b7] = len payload →
  proof_layout (le_value [b0; b1], payload) =
    [b0; b1; x00; x00; b4; b5; b6; b7] ++ payload.
Proof. intros H. unfold proof_layout. cbn [fst snd]. by rewrite le_bytes2, <- H, le_bytes4. Qed.

Lemma bytes_of_layout s (payload : bytes) :
  0 <= s <= 0xffff → 1 <= len payload <= 0xffffffff →
  ∃ b0 b1 b4 b5 b6 b7, s = le_value [b0; b1] ∧ len payload = le_value [b4; b5; b6; b7].
Proof.
  intros. exists (byte_of_Z s), (byte_of_Z (s / 256)). do 4 eexists. split.
  - symmetry. apply (le_value_small 2). simpl; lia.
  - symmetry. apply (le_value_small 4). simpl; lia.
Qed.

Lemma checked_add_Some a b : a + b <= USIZE_MAX → checked_add a b = Some (a + b).
Proof. intros H. unfold checked_add. by rewrite (proj2 (Z.leb_le _ _)). Qed.

Lemma le_u16_Good x v : le_u16 x = Good v ↔ len x = 2 ∧ v = le_value x.
Proof. unfold le_u16. destruct (Z.eqb_spec (len x) 2); simpl; naive_solver. Qed.
Lemma le_u32_Good x v : le_u32 x = Good v ↔ len x = 4 ∧ v = le_value x.
Proof. unfold le_u32. destruct (Z.eqb_spec (len x) 4); simpl; naive_solver. Qed.
Lemma le_u64_Good x v : le_u64 x = Good v ↔ len x = 8 ∧ v = le_value x.
Proof. unfold le_u64. destruct (Z.eqb_spec (len x) 8); simpl; naive_solver. Qed.

(** One iteration of the proof loop consumes the layout of one proof. *)
Lemma parse_proofs_step_inv n pre rest prev acc ps :
  len (pre ++ rest) <= USIZE_MAX →
  parse_proofs_loop collect (S n) (pre ++ rest) (len pre) prev acc = Good ps →
  ∃ s b rest', rest = proof_layout (s, b) ++ rest' ∧ default (-1) prev < s ∧
    0 <= s <= 0xffff ∧ 1 <= len b <= 0xffffffff ∧
    parse_proofs_loop collect n ((pre ++ proof_layout (s, b)) ++ rest')
      (len (pre ++ proof_layout (s, b))) (Some s) (acc ++ [(s, b)]) = Good ps.
Proof.
  intros Hmax. cbn [parse_proofs_loop]. intros H. apply outcome_bind_Good in H as (e & He & H).
  apply map_err_Good, checked_end_Good in He as [-> He]; [|done].
  rewrite len_app in He.
  destruct (eight_bytes rest) as (b0&b1&b2&b3&b4&b5&b6&b7&rest'&->); [lia|].
  destruct (@header_reads ProtocolError pre b0 b1 b2 b3 b4 b5 b6 b7 rest')
    as (R1 & R2 & R3 & R4).
  rewrite R1, R2, R3, R4, checked_add_Some in H by (rewrite len_app in Hmax; lia).
  rewrite app_assoc in H. change (len pre + 8) with (len pre + len [b0;b1;b2;b3;b4;b5;b6;b7]) in H.
  rewrite <- (len_app pre) in H. clear R1 R2 R3 R4 He.
  inv_good. bool_simpl.
  match goal with H : range _ _ _ = Good _ |- _ =>
    apply range_inv in H as (rest & -> & Hlen) end.
  match goal with H : checked_end _ _ _ = Good _ |- _ =>
    apply checked_end_Good in H as [-> _]; [|by rewrite <- app_assoc] end.
  match goal with H : le_u16 _ = Good _ |- _ => apply le_u16_Good in H as [_ ->] end.
  match goal with H : le_u32 _ = Good _ |- _ => apply le_u32_Good in H as [_ ->] end.
  match goal with H : collect _ _ _ = Good _ |- _ => injection H as <- end.
  apply Z_of_byte_zero in H1 as ->. apply Z_of_byte_zero in H2 as ->.
  change (Z_of_byte b0 + 256 * (Z_of_byte b1 + 256 * 0)) with (le_value [b0; b1]) in H.
  assert (Hl : le_value [b4; b5; b6; b7] = len v8) by lia.
  pose proof (le_value_range [b0; b1]) as Hs. pose proof (le_value_range [b4; b5; b6; b7]) as Hb.
  change (256 ^ len [b0; b1]) with 65536 in Hs.
  change (256 ^ len [b4; b5; b6; b7]) with 4294967296 in Hb.
  exists (le_value [b0; b1]), v8, rest.
  rewrite (proof_layout_bytes b0 b1 b4 b5 b6 b7), <- app_assoc by done.
  split; [done|]. split; [destruct prev; cbn [default]; bool_simpl; unfold id; lia|].
  split; [lia|]. split; [lia|].
  rewrite Hl, <- len_app in H. by rewrite !app_assoc in *.
Qed.

Lemma parse_proofs_step n pre s b rest' prev acc :
  len (pre ++ proof_layout (s, b) ++ rest') <= USIZE_MAX →
  default (-1) prev < s → 0 <= s <= 0xffff → 1 <= len b <= 0xffffffff →
  parse_proofs_loop collect (S n) (pre ++ proof_layout (s, b) ++ rest') (len pre) prev acc =
  parse_proofs_loop collect n ((pre ++ proof_layout (s, b)) ++ rest')
      (len (pre ++ proof_layout (s, b))) (Some s) (acc ++ [(s, b)]).
Proof.
  intros Hmax Hp Hs Hb. cbn [parse_proofs_loop].
  destruct (bytes_of_layout s b Hs Hb) as (b0&b1&b4&b5&b6&b7&->&Hl).
  rewrite (proof_layout_bytes b0 b1 b4 b5 b6 b7) in * by done.
  rewrite <- (app_assoc _ b rest') in *.
  destruct (@header_reads ProtocolError pre b0 b1 x00 x00 b4 b5 b6 b7 (b ++ rest'))
    as (R1 & R2 & R3 & R4).
  set (data := pre ++ _) in *.
  rewrite (proj2 (checked_end_Good _ _ (len data) (len pre + 8) Hmax)).
  2: { split; [done|]. unfold data. rewrite !len_app. pose proof (len_nonneg (b ++ rest')).
       rewrite len_app in *. change (len [b0; b1; x00; x00; b4; b5; b6; b7]) with 8. lia. }
  cbn [mbind outcome_bind map_err]. rewrite R1, R2, R3, R4.
  cbn [mbind outcome_bind].
  rewrite (proj2 (le_u16_Good _ (le_value [b0; b1]))) by done. cbn [mbind outcome_bind map_err].
  change (Z_of_byte x00) with 0. cbn [err_if negb orb Z.eqb mbind outcome_bind].
  rewrite (proj2 (le_u32_Good _ (len b))) by done. cbn [mbind outcome_bind map_err err_if].
  assert (Hd : len data = len pre + 8 + len b + len rest').
  { unfold data. rewrite !len_app. change (len [b0; b1; x00; x00; b4; b5; b6; b7]) with 8. lia. }
  pose proof (len_nonneg rest').
  rewrite checked_add_Some by lia. cbn [mbind outcome_bind].
  rewrite (proj2 (checked_end_Good _ _ _ _ Hmax)) by (split; [done | lia]).
  cbn [mbind outcome_bind map_err].
  rewrite !(proj2 (err_if_Good _ _ tt)) by (destruct prev; cbn in *; unfold id in *; lia).
  cbn [mbind outcome_bind].
  assert (Hr : range data (len pre + 8) (len pre + 8 + len b) = @Good ProtocolError _ b).
  { unfold data. rewrite (app_assoc pre). apply range_app; [by rewrite len_app | done]. }
  rewrite Hr. cbn [mbind outcome_bind collect]. unfold data. rewrite !len_app, <- !app_assoc.
  f_equal. change (len [b0; b1; x00; x00; b4; b5; b6; b7]) with 8. lia.
Qed.

(** A successful run of the proof loop read the layouts of the proofs it returns,
    in ascending slot order, up to the end of the buffer; and it succeeds on
    them. *)
Lemma parse_proofs_run n pre rest prev acc ps :
  len (pre ++ rest) <= USIZE_MAX →
  parse_proofs_loop collect n (pre ++ rest) (len pre) prev acc = Good ps ↔
  ∃ qs, n = length qs ∧ ps = acc ++ qs ∧ rest = concat (proof_layout <$> qs) ∧
    proofs_ok (default (-1) prev) qs.
Proof.
  revert pre rest prev acc. induction n as [|n IH]; intros pre rest prev acc Hmax.
  - cbn [parse_proofs_loop]. rewrite len_app. split.
    + intros H. destruct (negb _) eqn:E; [done|]. bool_simpl. injection H as <-.
      assert (rest = []) as -> by (apply len_zero; lia).
      exists []. by rewrite app_nil_r.
    + intros ([|] & Hn & -> & -> & _); [|done]. rewrite app_nil_r.
      cbn. by rewrite Z.add_0_r, Z.eqb_refl.
  - split.
    + intros H. apply parse_proofs_step_inv in H as (s & b & rest' & -> & Hp & Hs & Hb & H); [|done].
      rewrite app_assoc in Hmax. apply IH in H as (qs & -> & -> & -> & Hqs); [|done].
      exists ((s, b) :: qs). rewrite <- app_assoc. cbn. done.
    + intros ([|[s b] qs] & Hn & -> & -> & Hok); [done|]. destruct Hok as ([Hp Hs] & Hb & Hok).
      cbn [fmap list_fmap concat] in *. rewrite parse_proofs_step by done.
      rewrite app_assoc in Hmax. apply IH; [done|]. exists qs.
      injection Hn as ->. by rewrite <- app_assoc.
Qed.

Lemma witness_header_len o s n : len (witness_header o s n) = 16.
Proof. unfold witness_header. rewrite !len_app, len_le_bytes. reflexivity. Qed.

Lemma operation_exists o : existsb (Z.eqb o) [1; 2; 3] = true ↔ operation_ok o.
Proof.
  unfold operation_ok. cbn. rewrite !orb_true_iff, !Z.eqb_eq. intuition congruence.
Qed.

Lemma sixteen_bytes (data : bytes) :
  16 <= len data →
  ∃ m v o c r s rest, data = m ++ [v; o; c; r] ++ s ++ rest ∧ len m = 4 ∧ len s = 8.
Proof.
  intros H. do 16 (destruct data as [|? data]; [unfold len in H; simpl in H; lia|]).
  match goal with |- context [?a :: ?b :: ?c :: ?d :: ?e :: ?f :: ?g :: ?h :: ?rest] =>
    exists [a; b; c; d], e, f, g, h end.
  match goal with |- context [?a :: ?b :: ?c :: ?d :: ?e :: ?f :: ?g :: ?h :: data] =>
    exists [a; b; c; d; e; f; g; h], data end.
  done.
Qed.

Lemma parse_header_reads m v o c r s rest :
  len m = 4 → len s = 8 →
  let data := m ++ [v; o; c; r] ++ s ++ rest in
  parse_witness_header data =
    if (16 <=? len data) && (len data <=? 131072) && bool_decide (m = ACCOUNT_WITNESS_MAGIC) &&
       (Z_of_byte v =? 1) && (Z_of_byte r =? 0) &&
       existsb (Z.eqb (Z_of_byte o)) [1; 2; 3]
    then Good {| wh_operation := Z_of_byte o; wh_proof_count := Z_of_byte c;
                 wh_state_sequence := le_value s |}
    else Bad InvalidWitness.
Proof.
  intros Hm Hs data. unfold parse_witness_header.
  assert (R0 : range data 0 4 = @Good ProtocolError _ m) by by apply (range_app [] m).
  assert (I4 : index data 4 = @Good ProtocolError _ (Z_of_byte v))
    by by apply (index_app m v ([o; c; r] ++ s ++ rest)).
  assert (I5 : index data 5 = @Good ProtocolError _ (Z_of_byte o)).
  { unfold data. change (m ++ [v; o; c; r] ++ s ++ rest) with (m ++ [v] ++ o :: [c; r] ++ s ++ rest).
    rewrite app_assoc. apply index_app. rewrite len_app, Hm. done. }
  assert (I6 : index data 6 = @Good ProtocolError _ (Z_of_byte c)).
  { unfold data. change (m ++ [v; o; c; r] ++ s ++ rest) with (m ++ [v; o] ++ c :: [r] ++ s ++ rest).
    rewrite app_assoc. apply index_app. rewrite len_app, Hm. done. }
  assert (I7 : index data 7 = @Good ProtocolError _ (Z_of_byte r)).
  { unfold data. change (m ++ [v; o; c; r] ++ s ++ rest) with (m ++ [v; o; c] ++ r :: s ++ rest).
    rewrite app_assoc. apply index_app. rewrite len_app, Hm. done. }
  assert (R8 : range data 8 16 = @Good ProtocolError _ s).
  { unfold data. rewrite (app_assoc m). apply range_app; [|lia]. by rewrite len_app, Hm. }
  rewrite R0, I4, I5, I6, I7, R8. clearbody data. cbn [mbind outcome_bind].
  rewrite (proj2 (le_u64_Good _ (le_value s))) by done. cbn [map_err mbind outcome_bind].
  unfold ACCOUNT_WITNESS_HEADER_LEN, ACCOUNT_WITNESS_MAX_LOCK_LEN.
  rewrite Z.gtb_ltb, (Z.leb_antisym (len data)), (Z.leb_antisym 131072).
  destruct (len data <? 16), (131072 <? len data); try done. cbn [orb err_if andb negb mbind outcome_bind].
  destruct (bool_decide _), (Z_of_byte v =? 1), (Z_of_byte r =? 0); try done.
  cbn [negb orb err_if andb mbind outcome_bind].
  by destruct (existsb _ _).
Qed.

Definition witness_facts (o s n : Z) : AccountWitnessHeader :=
  {| wh_operation := o; wh_proof_count := n; wh_state_sequence := s |}.

Lemma parse_witness_header_layout o s n rest :
  operation_ok o → 0 <= s < 2 ^ 64 → 0 <= n <= 16 →
  16 + len rest <= 131072 →
  parse_witness_header (witness_header o s n ++ rest) = Good (witness_facts o s n).
Proof.
  intros Ho Hs Hn Hl. unfold witness_header. rewrite <- !app_assoc.
  rewrite parse_header_reads by (done || apply len_le_bytes).
  rewrite !len_app, len_le_bytes. change (len ACCOUNT_WITNESS_MAGIC) with 4.
  change (len [x01; byte_of_Z o; byte_of_Z n; x00]) with 4. pose proof (len_nonneg rest).
  rewrite !(proj2 (Z.leb_le _ _)), bool_decide_eq_true_2 by (done || lia).
  cbn [andb]. rewrite !Z_of_byte_of_Z, !Z.mod_small by (unfold operation_ok in Ho; lia).
  change (Z_of_byte x01 =? 1) with true. change (Z_of_byte x00 =? 0) with true.
  rewrite (proj2 (operation_exists o)) by done. cbn [andb].
  by rewrite le_value_small.
Qed.

Lemma parse_witness_header_inv bs o s n :
  parse_witness_header bs = Good (witness_facts o s n) →
  operation_ok o ∧ 0 <= s < 2 ^ 64 ∧ 0 <= n < 256 ∧ len bs <= 131072 ∧
  ∃ rest, bs = witness_header o s n ++ rest.
Proof.
  intros H. destruct (decide (16 <= len bs)) as [Hl|Hl].
  2: { unfold parse_witness_header, ACCOUNT_WITNESS_HEADER_LEN in H.
       rewrite (proj2 (Z.ltb_lt _ _)) in H by lia. done. }
  destruct (sixteen_bytes bs Hl) as (m & v & o' & c & r & s' & rest & -> & Hm & Hs).
  rewrite parse_header_reads in H by done. destruct (_ && _) eqn:E; [|done].
  bool_simpl. injection H as <- <- <-. subst m.
  rewrite (Z_of_byte_zero r) by done.
  assert (v = x01) as -> by (by apply Z_of_byte_inj).
  pose proof (le_value_range s') as Hr. rewrite Hs in Hr. change (256 ^ 8) with (2 ^ 64) in Hr.
  split; [by apply operation_exists|]. split; [done|]. split; [apply Z_of_byte_range|].
  split; [done|]. exists rest. unfold witness_header.
  rewrite !byte_of_Z_of_byte, <- (le_bytes_of s' 8), <- !app_assoc by done. done.
Qed.

(** C10 — Account witness codec: [encodeAccountWitness] produces [bs] exactly when
    every proof has an integer slot, there are at most 16 of them, and the on-chain
    parser reads from [bs] the header (operation, sequence, number of proofs) and
    then, in order, the very proofs that were encoded. In particular the encoder
    rejects duplicate or descending slots, empty proofs, unknown operations,
    sequences outside 64 bits and witnesses above the size limit, because the
    parser does. *)
Theorem account_witness_codec (operation sequence : Z) (proofs : list Proof_) (bs : bytes) :
  encodeAccountWitness operation sequence proofs = Ok bs ↔
  ∃ ps, proofs = as_proof <$> ps ∧ len ps <= 16 ∧
    parse_witness_header bs = Good (witness_facts operation sequence (len ps)) ∧
    parse_proofs collect bs (witness_facts operation sequence (len ps)) [] = Good ps.
Proof.
  rewrite encodeAccountWitness_iff.
  unfold parse_proofs, witness_layout, ACCOUNT_WITNESS_HEADER_LEN. split.
  - intros (ps & -> & (Hop & Hn & Hps & Hs & Hlen) & ->). exists ps. pose proof (len_nonneg ps).
    unfold witness_layout in Hlen. pose proof Hlen as Hlen'. rewrite len_app, witness_header_len in Hlen'.
    split; [done|]. split; [done|]. split; [by apply parse_witness_header_layout|].
    rewrite <- (witness_header_len operation sequence (len ps)).
    apply parse_proofs_run; [unfold USIZE_MAX; lia|]. exists ps. unfold len. cbn. by rewrite Nat2Z.id.
  - intros (ps & -> & Hn & Hh & Hp). exists ps. split; [done|].
    apply parse_witness_header_inv in Hh as (Ho & Hs & Hc & Hl & rest & ->).
    rewrite <- (witness_header_len operation sequence (len ps)) in Hp.
    apply parse_proofs_run in Hp as (qs & _ & -> & -> & Hok); [|unfold USIZE_MAX; lia].
    done.
Qed.
