(* ===== verification/Digest.v ===== *)
(** * What the digests commit to

    The group sighash and the authorization digest of [Protocol] as hashes of
    explicit preimages, the injectivity of those preimages, and the packing of the
    account witness into the chain's witness container. *)

From S2P Require Import Prelude Js JsString Bytes Wire Ccc CccRef Protocol.

Definition auth_preimage (state_hash : bytes) (i : AuthorizationInput) : bytes :=
  AUTH_DOMAIN ++ [byte_of_Z (ai_operation i)] ++ ai_accountId i ++
  le_bytes 8 (ai_sequence i) ++ state_hash ++ ai_groupSighash i.

Definition auth_ok (i : AuthorizationInput) : Prop :=
  operation_ok (ai_operation i) ∧ len (ai_accountId i) = 32 ∧
  0 <= ai_sequence i < 2 ^ 64 ∧ len (ai_groupSighash i) = 32.

(** A witness behind its length. *)
Definition framed (w : bytes) : bytes := le_bytes 8 (len w) ++ w.
Definition sighash_preimage (txHash canonical : bytes) (others : list bytes) : bytes :=
  txHash ++ concat (framed <$> canonical :: others).

(** Two different inputs with one hash. *)
Definition hash_collision `{Ccc} (a b : bytes) : Prop :=
  a ≠ b ∧ ckb_digest a = ckb_digest b.

Lemma app_inj_len {A} (a a' b b' : list A) :
  len a = len a' → a ++ b = a' ++ b' → a = a' ∧ b = b'.
Proof. unfold len. intros Hl H. apply app_inj_1 in H; [done | lia]. Qed.

Lemma lengthPrefixed_spec w :
  len w < MAX_SAFE_INTEGER - 8 → lengthPrefixed w = Ok (framed w).
Proof.
  intros H. unfold lengthPrefixed, framed. pose proof (len_nonneg w).
  unfold MAX_SAFE_INTEGER in *.
  rewrite u64le_spec, (proj2 (Z.leb_le _ _)), (proj2 (Z.ltb_lt _ _)) by lia.
  cbn [andb mbind res_bind]. rewrite bytesConcat_spec; cbn [concat]; rewrite app_nil_r; [done|].
  rewrite len_app, len_le_bytes. unfold MAX_SAFE_INTEGER. lia.
Qed.

Lemma lengthPrefixed_Ok w f : lengthPrefixed w = Ok f → f = framed w ∧ len w < 2 ^ 64.
Proof.
  unfold lengthPrefixed. intros H. inv_res.
  match goal with H : u64le _ = Ok _ |- _ => apply u64le_Ok in H as [? ->] end.
  match goal with H : bytesConcat _ = Ok _ |- _ => apply bytesConcat_Ok in H as -> end.
  cbn [concat]. rewrite app_nil_r. split; [done | lia].
Qed.

Lemma framed_prefix_inj a b r r' :
  len a < 2 ^ 64 → len b < 2 ^ 64 → framed a ++ r = framed b ++ r' → a = b ∧ r = r'.
Proof.
  intros Ha Hb. unfold framed. rewrite <- !app_assoc. intros H.
  pose proof (len_nonneg a). pose proof (len_nonneg b).
  apply app_inj_len in H as [Hl H]; [|by rewrite !len_le_bytes].
  apply (le_bytes_inj 8) in Hl; [|done..]. by apply app_inj_len in H.
Qed.

Lemma concat_framed_inj ws ws' :
  Forall (λ w : bytes, len w < 2 ^ 64) ws → Forall (λ w : bytes, len w < 2 ^ 64) ws' →
  concat (framed <$> ws) = concat (framed <$> ws') → ws = ws'.
Proof.
  intros Hw. revert ws'. induction Hw as [|w ws Hlw Hw IH]; intros ws' Hw' H.
  - by destruct Hw'.
  - destruct Hw' as [|w' ws' Hlw' Hw']; [done|].
    cbn [fmap list_fmap concat] in H. apply framed_prefix_inj in H as [-> H]; [|done..].
    f_equal. by apply IH.
Qed.

Lemma framed_sizes l m :
  32 + len (concat (framed <$> l)) <= 32 + m → Forall (λ w : bytes, len w <= m - 8) l.
Proof.
  intros H. assert (Hl : len (concat (framed <$> l)) <= m) by lia. clear H.
  induction l as [|w l IH]; constructor;
    rewrite fmap_cons in Hl; cbn [concat] in Hl; rewrite len_app in Hl.
  - unfold framed in Hl at 1. rewrite len_app, len_le_bytes in Hl.
    pose proof (len_nonneg (concat (framed <$> l))). lia.
  - apply IH. pose proof (len_nonneg (framed w)). lia.
Qed.

Lemma operation_byte_inj o o' :
  operation_ok o → operation_ok o' → byte_of_Z o = byte_of_Z o' → o = o'.
Proof.
  intros Ho Ho' H. apply (f_equal Z_of_byte) in H. rewrite !Z_of_byte_of_Z in H.
  unfold operation_ok in *. rewrite !Z.mod_small in H by lia. done.
Qed.

Lemma auth_preimage_inj s s' i j :
  auth_ok i → auth_ok j → len s = 32 → len s' = 32 →
  auth_preimage s i = auth_preimage s' j →
  s = s' ∧ ai_operation i = ai_operation j ∧ ai_accountId i = ai_accountId j ∧
  ai_sequence i = ai_sequence j ∧ ai_groupSighash i = ai_groupSighash j.
Proof.
  intros (Ho & Ha & Hs & Hg) (Ho' & Ha' & Hs' & Hg') Hl Hl' H. unfold auth_preimage in H.
  apply app_inj_len in H as [_ H]; [|done].
  apply app_inj_len in H as [Hop H]; [|done]. injection Hop as Hop.
  apply app_inj_len in H as [Hid H]; [|lia].
  apply app_inj_len in H as [Hseq H]; [|by rewrite !len_le_bytes].
  apply app_inj_len in H as [-> H]; [|lia].
  apply (le_bytes_inj 8) in Hseq; [|done..].
  apply operation_byte_inj in Hop; done.
Qed.

Section digests.
Context {ccc : Ccc} {ccc_laws : CccLaws}.

Lemma ckbHash_spec b : ckbHash b = Ok (ckb_digest b).
Proof. apply hashCkb_bytes. Qed.

Lemma auth_preimage_len i b :
  auth_ok i → len (auth_preimage (ckb_digest b) i) = 124.
Proof.
  intros (_ & Ha & _ & Hg). unfold auth_preimage.
  rewrite !len_app, len_le_bytes, len_digest, Ha, Hg. reflexivity.
Qed.

(** The digest succeeds exactly on well-formed inputs, with the hash of the
    preimage. *)
Lemma authorizationDigest_iff i d :
  authorizationDigest i = Ok d ↔
  auth_ok i ∧ d = ckb_digest (auth_preimage (ckb_digest (ai_state i)) i).
Proof.
  unfold authorizationDigest, auth_ok.
  assert (Hc : ∀ q h, concat [AUTH_DOMAIN; [byte_of_Z (ai_operation i)]; ai_accountId i; q; h;
    ai_groupSighash i] = AUTH_DOMAIN ++ [byte_of_Z (ai_operation i)] ++ ai_accountId i ++
    q ++ h ++ ai_groupSighash i) by (intros; cbn [concat]; by rewrite app_nil_r).
  split.
  - intros H. inv_res. rewrite ckbHash_spec in *. inv_res.
    repeat match goal with
      | H : requireOperation _ = Ok _ |- _ => apply requireOperation_Ok in H
      | H : requireLength _ _ _ = Ok _ |- _ => apply requireLength_Ok in H
      | H : u64le _ = Ok _ |- _ => apply u64le_Ok in H as [? ->]
      | H : bytesConcat _ = Ok _ |- _ => apply bytesConcat_Ok in H as ->
      end.
    by rewrite Hc.
  - intros [(Ho & Ha & Hs & Hg) ->].
    rewrite (proj2 (requireOperation_Ok _ tt)), !(proj2 (requireLength_Ok _ _ _ tt)) by done.
    cbn [mbind res_bind].
    rewrite u64le_spec, (proj2 (Z.leb_le _ _)), (proj2 (Z.ltb_lt _ _)) by lia.
    cbn [andb mbind res_bind]. rewrite ckbHash_spec. cbn [mbind res_bind].
    rewrite bytesConcat_spec, Hc; cbn [mbind res_bind].
    + by rewrite ckbHash_spec.
    + rewrite Hc. change (len (auth_preimage (ckb_digest (ai_state i)) i) <= MAX_SAFE_INTEGER).
      by rewrite auth_preimage_len by done.
Qed.

(** C18 — Authorization binding: two inputs with the same authorization digest are
    equal field by field (operation, account, sequence, state, group sighash),
    unless one of two explicit pairs is a collision of the chain's hash: the two
    states, or the two digest preimages. A signature over the digest therefore
    authorizes one operation, on one state, at one sequence, in one transaction. *)
Theorem authorization_digest_binds (i j : AuthorizationInput) (d : bytes) :
  authorizationDigest i = Ok d → authorizationDigest j = Ok d →
  i = j ∨ hash_collision (ai_state i) (ai_state j) ∨
  hash_collision (auth_preimage (ckb_digest (ai_state i)) i)
                 (auth_preimage (ckb_digest (ai_state j)) j).
Proof.
  intros [Hi ->]%authorizationDigest_iff [Hj Hd]%authorizationDigest_iff.
  destruct (decide (auth_preimage (ckb_digest (ai_state i)) i =
                    auth_preimage (ckb_digest (ai_state j)) j)) as [E|E]; [|by right; right].
  apply auth_preimage_inj in E as (Hs & Ho & Ha & Hq & Hg); try done; try apply len_digest.
  destruct (decide (ai_state i = ai_state j)) as [Es|Es]; [|by right; left].
  left. destruct i, j. cbn in *. congruence.
Qed.

(** ** Group sighash *)

Definition canonical_of (w : WitnessArgs) : WitnessArgs := {|
  wa_lock := Some "0x"; wa_inputType := wa_inputType w; wa_outputType := wa_outputType w |}.

Lemma mapM_framed_Ok ws fs :
  mapM_res lengthPrefixed ws = Ok fs →
  fs = framed <$> ws ∧ Forall (λ w : bytes, len w < 2 ^ 64) ws.
Proof.
  intros H%mapM_res_Ok. induction H as [|w f ws fs Hf _ [-> IH]]; [done|].
  apply lengthPrefixed_Ok in Hf as [-> Hw]. split; [done | by constructor].
Qed.

Lemma mapM_framed ws :
  Forall (λ w : bytes, len w < MAX_SAFE_INTEGER - 8) ws →
  mapM_res lengthPrefixed ws = Ok (framed <$> ws).
Proof.
  induction 1 as [|w ws Hw _ IH]; [done|]. cbn [mapM_res fmap list_fmap].
  rewrite lengthPrefixed_spec by done. cbn [mbind res_bind]. by rewrite IH.
Qed.

Lemma sighash_preimage_concat t c rest extra :
  concat ([t; framed c] ++ (framed <$> rest) ++ (framed <$> extra)) =
  sighash_preimage t c (rest ++ extra).
Proof. unfold sighash_preimage. cbn. by rewrite fmap_app. Qed.

Lemma groupSighash_inv t ws extra d :
  groupSighash t ws extra = Ok d →
  ∃ first rest c, ws = first :: rest ∧ len t = 32 ∧ canonicalWitness first = Ok c ∧
    Forall (λ w : bytes, len w < 2 ^ 64) (c :: rest ++ extra) ∧
    d = ckb_digest (sighash_preimage t c (rest ++ extra)).
Proof.
  unfold groupSighash. intros H. inv_res. rewrite ckbHash_spec in *. inv_res.
  repeat match goal with
    | H : requireLength _ _ _ = Ok _ |- _ => apply requireLength_Ok in H
    | H : mapM_res _ _ = Ok _ |- _ => apply mapM_framed_Ok in H as [-> ?]
    | H : lengthPrefixed _ = Ok _ |- _ => apply lengthPrefixed_Ok in H as [-> ?]
    | H : bytesConcat _ = Ok _ |- _ => apply bytesConcat_Ok in H as ->
    end.
  destruct ws as [|first rest]; [done|]. cbn [head tail] in *. simplify_eq.
  exists v0, rest, v1. rewrite sighash_preimage_concat.
  repeat split; try done. constructor; [done|]. by apply Forall_app.
Qed.

Lemma groupSighash_spec t first rest extra c :
  len t = 32 → canonicalWitness first = Ok c →
  len (sighash_preimage t c (rest ++ extra)) <= MAX_SAFE_INTEGER →
  groupSighash t (first :: rest) extra =
    Ok (ckb_digest (sighash_preimage t c (rest ++ extra))).
Proof.
  intros Ht Hc Hl. assert (Hall : Forall (λ w : bytes, len w < MAX_SAFE_INTEGER - 8)
    (c :: rest ++ extra)).
  { unfold sighash_preimage in Hl. rewrite len_app, Ht in Hl.
    assert (Hl' : 32 + len (concat (framed <$> c :: rest ++ extra)) <=
      32 + (MAX_SAFE_INTEGER - 32)) by lia.
    apply framed_sizes in Hl'. revert Hl'. apply Forall_impl. intros. simpl in *. lia. }
  apply List.Forall_cons_iff in Hall as [Hc' [Hr He]%Forall_app].
  unfold groupSighash. rewrite (proj2 (requireLength_Ok _ _ _ tt)) by done.
  cbn [head from_option_or mbind res_bind tail]. rewrite Hc. cbn [mbind res_bind].
  rewrite lengthPrefixed_spec, !mapM_framed by done. cbn [mbind res_bind].
  rewrite bytesConcat_spec, sighash_preimage_concat.
  - apply ckbHash_spec.
  - by rewrite sighash_preimage_concat.
Qed.

(** The group sighash ignores the lock of the first group witness: replacing
    the placeholder by the signed account witness, or by anything else, leaves the
    message to sign unchanged. *)
Theorem group_sighash_ignores_lock (txHash : bytes) (lock lock' : option string)
    (input output : option string) (rest extra : list bytes) :
  wa_ok {| wa_lock := lock; wa_inputType := input; wa_outputType := output |} →
  wa_ok {| wa_lock := lock'; wa_inputType := input; wa_outputType := output |} →
  groupSighash txHash (WitnessArgs_toBytes {| wa_lock := lock; wa_inputType := input;
                                              wa_outputType := output |} :: rest) extra =
  groupSighash txHash (WitnessArgs_toBytes {| wa_lock := lock'; wa_inputType := input;
                                              wa_outputType := output |} :: rest) extra.
Proof.
  intros H H'. unfold groupSighash. cbn [head from_option_or mbind res_bind tail].
  unfold canonicalWitness. by rewrite !WitnessArgs_roundtrip.
Qed.

(** C19 — Sighash binding: two groups with the same sighash have the same
    transaction hash, the same first witness up to its lock, and the same further
    witnesses byte for byte, unless their explicit preimages collide under the
    chain's hash. The length prefixes leave no way to move bytes from one witness
    to the next. *)
Theorem group_sighash_binds (t t' : bytes) (ws ws' extra extra' : list bytes) (d : bytes) :
  groupSighash t ws extra = Ok d → groupSighash t' ws' extra' = Ok d →
  ∃ first first' rest rest' c c',
    ws = first :: rest ∧ ws' = first' :: rest' ∧
    canonicalWitness first = Ok c ∧ canonicalWitness first' = Ok c' ∧
    ((t = t' ∧ c = c' ∧ rest ++ extra = rest' ++ extra') ∨
     hash_collision (sighash_preimage t c (rest ++ extra))
                    (sighash_preimage t' c' (rest' ++ extra'))).
Proof.
  intros (f & r & c & -> & Ht & Hc & Hall & ->)%groupSighash_inv
         (f' & r' & c' & -> & Ht' & Hc' & Hall' & Hd)%groupSighash_inv.
  exists f, f', r, r', c, c'. repeat (split; [done|]).
  destruct (decide (sighash_preimage t c (r ++ extra) =
                    sighash_preimage t' c' (r' ++ extra'))) as [E|E]; [left|by right].
  unfold sighash_preimage in E. apply app_inj_len in E as [-> E]; [|lia].
  apply concat_framed_inj in E as [= -> ->]; done.
Qed.

(** ** Packing *)

Definition packed_witness (witness : bytes) : WitnessArgs := {|
  wa_lock := Some (hexFromBytes witness); wa_inputType := None; wa_outputType := None |}.

Lemma packed_witness_ok witness :
  len witness < 2 ^ 32 - 20 → wa_ok (packed_witness witness).
Proof.
  intros H. unfold wa_ok, wa_size, packed_witness. cbn [wa_lock wa_inputType wa_outputType].
  unfold opt_size. rewrite hex_bytes_len_of.
  split; [intros s [= <-]; apply is_hex_text_of|]. repeat (split; [done|]). lia.
Qed.

Lemma packAccountWitness_spec witness :
  len witness < 2 ^ 32 - 20 →
  packAccountWitness witness = Ok (WitnessArgs_toBytes (packed_witness witness)).
Proof.
  intros H. unfold packAccountWitness. fold (packed_witness witness).
  by rewrite WitnessArgs_from_ok by by apply packed_witness_ok.
Qed.

(** Witness packing: [packAccountWitness] succeeds on every account witness
    that fits the container's 32-bit sizes and [unpackAccountWitness] returns it
    unchanged. *)
Theorem account_witness_packing (witness : bytes) :
  len witness < 2 ^ 32 - 20 →
  (packed ← packAccountWitness witness; unpackAccountWitness packed) = Ok witness.
Proof.
  intros H. rewrite packAccountWitness_spec by done. cbn [mbind res_bind].
  unfold unpackAccountWitness. rewrite WitnessArgs_roundtrip by by apply packed_witness_ok.
  cbn [mbind res_bind wa_lock packed_witness from_option_or].
  rewrite hexFrom_hex_spec. apply bytesFrom_hex.
Qed.
End digests.
