(* ===== verification/Vectors.v ===== *)
(** * Test vectors ([vectors/frontend-v1.json])

    The vectors the repository generates from its contracts' code, checked against
    the model by computation, with the chain library's concrete instance. *)

From S2P Require Import Prelude Js JsString Bytes Ccc CccRef Wire Protocol Codec Digest.

Definition hx (s : string) : bytes := match bytesFromHex s with Ok b => b | _ => [] end.

Definition V_ACCOUNT_ID : string :=
  "0x8888888888888888888888888888888888888888888888888888888888888888".
Definition V_AUTHENTICATOR_DATA : string :=
  "0x49960de5880e8c687434170f6476605b8fe4aeb9a28632c7995cf3ba831d97630500000001".
Definition V_CLIENT_DATA_JSON : string :=
  "0x7b2274797065223a22776562617574686e2e676574222c226368616c6c656e6765223a22704b38596331646c69686d4e5a49415f4b52312d3874626c792d6343515a47306e574f7a59454630366b59222c226f726967696e223a22687474703a2f2f6c6f63616c686f73743a35313733222c2263726f73734f726967696e223a66616c73657d".
Definition V_ORIGIN : string :=
  "0x687474703a2f2f6c6f63616c686f73743a35313733".
Definition V_PUBLIC_KEY : string :=
  "0x0411111111111111111111111111111111111111111111111111111111111111111111111111111111111111111111111111111111111111111111111111111111".
Definition V_SIGNATURE : string :=
  "0x3006020101020101".
Definition V_TX_HASH : string :=
  "0x7777777777777777777777777777777777777777777777777777777777777777".
Definition V_ACCOUNT_WITNESS : string :=
  "0x434b41570101010000000000000000000000000010010000041111111111111111111111111111111111111111111111111111111111111111111111111111111111111111111111111111111111111111111111111111111115687474703a2f2f6c6f63616c686f73743a35313733250049960de5880e8c687434170f6476605b8fe4aeb9a28632c7995cf3ba831d9763050000000186007b2274797065223a22776562617574686e2e676574222c226368616c6c656e6765223a22704b38596331646c69686d4e5a49415f4b52312d3874626c792d6343515a47306e574f7a59454630366b59222c226f726967696e223a22687474703a2f2f6c6f63616c686f73743a35313733222c2263726f73734f726967696e223a66616c73657d08003006020101020101".
Definition V_AUTHORIZATION_DIGEST : string :=
  "0xa4af187357658a198d64803f291d7ef2d6e5cbe7024191b49d63b3604174ea46".
Definition V_GROUP_SIGHASH : string :=
  "0x5c22812cd7e332c9aada11b4e3debdda560fa829def2913f8518a692449e9b90".
Definition V_P256_PROOF : string :=
  "0x041111111111111111111111111111111111111111111111111111111111111111111111111111111111111111111111111111111111111111111111111111111115687474703a2f2f6c6f63616c686f73743a35313733250049960de5880e8c687434170f6476605b8fe4aeb9a28632c7995cf3ba831d9763050000000186007b2274797065223a22776562617574686e2e676574222c226368616c6c656e6765223a22704b38596331646c69686d4e5a49415f4b52312d3874626c792d6343515a47306e574f7a59454630366b59222c226f726967696e223a22687474703a2f2f6c6f63616c686f73743a35313733222c2263726f73734f726967696e223a66616c73657d08003006020101020101".
Definition V_PACKED_WITNESS_ARGS : string :=
  "0x3c010000100000003c0100003c01000028010000434b41570101010000000000000000000000000010010000041111111111111111111111111111111111111111111111111111111111111111111111111111111111111111111111111111111111111111111111111111111115687474703a2f2f6c6f63616c686f73743a35313733250049960de5880e8c687434170f6476605b8fe4aeb9a28632c7995cf3ba831d9763050000000186007b2274797065223a22776562617574686e2e676574222c226368616c6c656e6765223a22704b38596331646c69686d4e5a49415f4b52312d3874626c792d6343515a47306e574f7a59454630366b59222c226f726967696e223a22687474703a2f2f6c6f63616c686f73743a35313733222c2263726f73734f726967696e223a66616c73657d08003006020101020101".
Definition V_STATE : string :=
  "0x434b415301012000000000000000000001000100010001000000000000000000910000000100070001000001376a3e1bfefc57d63cff2e5d022283800fb6b5f014b5edac4be573d58a7b124a20004100d7ef93190b2298d3def2e6ecba04747ae5ca7ec7eb1a76e2138a588580440d640149960de5880e8c687434170f6476605b8fe4aeb9a28632c7995cf3ba831d97634e90ec8f9d9b8d5bd3877ac003797738ff48419fcf8f97821a875ea4671955b6".
Definition V_STATE_HASH : string :=
  "0x4e3f90101b74563217d05d285b0bc2ea5e3b94961455f18393931f3282faf201".

Definition vector_proof_input : P256ProofInput := {|
  pi_publicKey := hx V_PUBLIC_KEY; pi_origin := hx V_ORIGIN;
  pi_authenticatorData := hx V_AUTHENTICATOR_DATA;
  pi_clientDataJson := hx V_CLIENT_DATA_JSON; pi_signature := hx V_SIGNATURE |}.
Definition vector_proofs : list Proof_ := [as_proof (0, hx V_P256_PROOF)].
Definition vector_authorization : AuthorizationInput := {|
  ai_operation := 1; ai_accountId := hx V_ACCOUNT_ID; ai_sequence := 0;
  ai_state := hx V_STATE; ai_groupSighash := hx V_GROUP_SIGHASH |}.

(** The model reproduces the repository's frozen vectors, with the real hash
    and container formats: the proof bytes, the account witness, the packed witness,
    the state hash, the group sighash and the authorization digest. *)
Theorem frontend_vectors :
  (hexFromBytes <$> encodeP256Proof vector_proof_input) = Ok V_P256_PROOF ∧
  (hexFromBytes <$> encodeAccountWitness 1 0 vector_proofs) = Ok V_ACCOUNT_WITNESS ∧
  (hexFromBytes <$> packAccountWitness (hx V_ACCOUNT_WITNESS)) = Ok V_PACKED_WITNESS_ARGS ∧
  (hexFromBytes <$> ckbHash (hx V_STATE)) = Ok V_STATE_HASH ∧
  (hexFromBytes <$> groupSighash (hx V_TX_HASH) [hx V_PACKED_WITNESS_ARGS] []) =
    Ok V_GROUP_SIGHASH ∧
  (hexFromBytes <$> authorizationDigest vector_authorization) = Ok V_AUTHORIZATION_DIGEST.
Proof. repeat split; vm_compute; reflexivity. Qed.

(** Witnesses of the codec and digest theorems. *)

Lemma authorization_digest_binds_witness :
  ∃ d, authorizationDigest vector_authorization = Ok d ∧
    (vector_authorization = vector_authorization ∨
     hash_collision (ai_state vector_authorization) (ai_state vector_authorization) ∨
     hash_collision
       (auth_preimage (ckb_digest (ai_state vector_authorization)) vector_authorization)
       (auth_preimage (ckb_digest (ai_state vector_authorization)) vector_authorization)).
Proof.
  assert (H : authorizationDigest vector_authorization =
    Ok (ckb_digest (auth_preimage (ckb_digest (ai_state vector_authorization))
                                  vector_authorization))).
  { apply authorizationDigest_iff. split; [|reflexivity]. unfold auth_ok, operation_ok.
    split; [by left|]. vm_compute. repeat split; discriminate || reflexivity. }
  eexists. split; [exact H|]. exact (authorization_digest_binds _ _ _ H H).
Defined.

Lemma group_sighash_ignores_lock_witness :
  wa_ok (packed_witness (hx V_ACCOUNT_WITNESS)) ∧
  groupSighash (hx V_TX_HASH)
    [WitnessArgs_toBytes (packed_witness (hx V_ACCOUNT_WITNESS))] [] =
  groupSighash (hx V_TX_HASH)
    [WitnessArgs_toBytes (packed_witness [])] [].
Proof.
  assert (H1 : wa_ok (packed_witness (hx V_ACCOUNT_WITNESS)))
    by (apply packed_witness_ok; vm_compute; reflexivity).
  assert (H2 : wa_ok (packed_witness [])) by (apply packed_witness_ok; vm_compute; reflexivity).
  split; [exact H1|].
  exact (group_sighash_ignores_lock (hx V_TX_HASH) _ _ None None [] [] H1 H2).
Defined.

Lemma group_sighash_binds_witness :
  ∃ d, groupSighash (hx V_TX_HASH) [WitnessArgs_toBytes (packed_witness [])] [] = Ok d ∧
  ∃ first first' rest rest' c c',
    [WitnessArgs_toBytes (packed_witness [])] = first :: rest ∧
    [WitnessArgs_toBytes (packed_witness [])] = first' :: rest' ∧
    canonicalWitness first = Ok c ∧ canonicalWitness first' = Ok c' ∧
    ((hx V_TX_HASH = hx V_TX_HASH ∧ c = c' ∧ rest ++ [] = rest' ++ []) ∨
     hash_collision (sighash_preimage (hx V_TX_HASH) c (rest ++ []))
                    (sighash_preimage (hx V_TX_HASH) c' (rest' ++ []))).
Proof.
  assert (Hc : canonicalWitness (WitnessArgs_toBytes (packed_witness [])) =
    Ok (WitnessArgs_toBytes (packed_witness []))) by (vm_compute; reflexivity).
  assert (H := groupSighash_spec (hx V_TX_HASH)
    (WitnessArgs_toBytes (packed_witness [])) [] [] _ ltac:(vm_compute; reflexivity) Hc
    ltac:(vm_compute; discriminate)).
  eexists. split; [exact H|].
  exact (group_sighash_binds _ _ _ _ _ _ _ H H).
Defined.

Lemma account_witness_packing_witness :
  len (hx V_ACCOUNT_WITNESS) < 2 ^ 32 - 20 ∧
  (packed ← packAccountWitness (hx V_ACCOUNT_WITNESS); unpackAccountWitness packed) =
  Ok (hx V_ACCOUNT_WITNESS).
Proof.
  assert (H : len (hx V_ACCOUNT_WITNESS) < 2 ^ 32 - 20) by (vm_compute; reflexivity).
  split; [exact H|]. exact (account_witness_packing _ H).
Defined.
