(* ===== verification/Manifests.v ===== *)
(** * Manifest validation ([demo/src/shared/manifests.ts])

    From untrusted JSON to a verified deployment and a verified account: the two
    validators, what each accepts, and what the scripts they hand on contain. *)

From S2P Require Import Prelude Js JsString Regex Bytes Zod Constants Schemas Ccc CccRef.

Definition TYPE_ID_CODE_HASH : string :=
  "0x00000000000000000000000000000000000000000000000000545950455f4944".

Record VerifiedDeployment := {
  vd_manifest : DeploymentManifest; accountLockCode : Script; verifierP256Code : Script;
  accountLockDep : CellDep; verifierP256Dep : CellDep }.

Record VerifiedAccount := {
  va_manifest : AccountManifest; va_deployment : VerifiedDeployment;
  accountLock : Script; stateType : Script; stateDep : CellDep }.

Definition invalidManifest (label : string) : exn :=
  TypeError (label +:+ " manifest is invalid").

Section manifests.
Context {zod : Zod} {ccc : Ccc}.

Definition validateDeployment (value : jsval) : res VerifiedDeployment :=
  data ← from_option_or (invalidManifest "Deployment")
           (safeParse DeploymentManifestSchema value);
  let manifest := deployment_of data in
  accountLockCode ← Script_from {|
    codeHash := da_dataHash (dm_account_lock manifest);
    hashType := da_hashType (dm_account_lock manifest); args := "0x" |};
  verifierP256Code ← Script_from {|
    codeHash := da_dataHash (dm_verifier_p256 manifest);
    hashType := da_hashType (dm_verifier_p256 manifest); args := "0x" |};
  accountLockDep ← CellDep_from {|
    cd_outPoint := {| op_txHash := da_txHash (dm_account_lock manifest);
                      op_index := da_index (dm_account_lock manifest) |};
    cd_depType := "code" |};
  verifierP256Dep ← CellDep_from {|
    cd_outPoint := {| op_txHash := da_txHash (dm_verifier_p256 manifest);
                      op_index := da_index (dm_verifier_p256 manifest) |};
    cd_depType := "code" |};
  Ok {| vd_manifest := manifest; accountLockCode := accountLockCode;
        verifierP256Code := verifierP256Code; accountLockDep := accountLockDep;
        verifierP256Dep := verifierP256Dep |}.

Definition validateAccount (value : jsval) (deployment : VerifiedDeployment)
    : res VerifiedAccount :=
  data ← from_option_or (invalidManifest "Account")
           (safeParse AccountManifestSchema value);
  let manifest := account_of data in
  throw_if (negb (String.eqb (am_code_hash manifest)
                             (codeHash (accountLockCode deployment))))
    (TypeError "Account manifest does not match the verified deployment");;
  throw_if (negb (mo_index (am_state_out_point manifest) =? 0) ||
            negb (mo_index (am_asset_out_point manifest) =? 1) ||
            negb (String.eqb (mo_tx_hash (am_state_out_point manifest))
                             (mo_tx_hash (am_asset_out_point manifest))))
    (TypeError "Account manifest has invalid bootstrap outpoints");;
  accountLock ← Script_from {|
    codeHash := am_code_hash manifest; hashType := am_hash_type manifest;
    args := am_args manifest |};
  let expectedArgs := "0x01" +:+ str_drop 2 (am_account_id manifest) in
  throw_if (negb (String.eqb (args accountLock) expectedArgs))
    (TypeError "AccountLock args do not bind the account ID");;
  stateType ← Script_from {|
    codeHash := TYPE_ID_CODE_HASH; hashType := "type"; args := am_type_id_args manifest |};
  throw_if (negb (String.eqb (Script_hash stateType) (am_account_id manifest)))
    (TypeError "Type ID script hash does not match the account ID");;
  stateDep ← CellDep_from {|
    cd_outPoint := {| op_txHash := mo_tx_hash (am_state_out_point manifest);
                      op_index := mo_index (am_state_out_point manifest) |};
    cd_depType := "code" |};
  Ok {| va_manifest := manifest; va_deployment := deployment; accountLock := accountLock;
        stateType := stateType; stateDep := stateDep |}.
End manifests.

(** ** What validated values are *)

Definition artifact_script (a : DeploymentArtifact) : Script :=
  {| codeHash := da_dataHash a; hashType := "data2"; args := "0x" |}.
Definition code_dep (txHash : string) (index : Z) : CellDep := {|
  cd_outPoint := {| op_txHash := txHash; op_index := index |}; cd_depType := "code" |}.

Definition deployment_result (m : DeploymentManifest) : VerifiedDeployment := {|
  vd_manifest := m;
  accountLockCode := artifact_script (dm_account_lock m);
  verifierP256Code := artifact_script (dm_verifier_p256 m);
  accountLockDep := code_dep (da_txHash (dm_account_lock m)) (da_index (dm_account_lock m));
  verifierP256Dep := code_dep (da_txHash (dm_verifier_p256 m)) (da_index (dm_verifier_p256 m)) |}.

Definition state_type_script (typeIdArgs : string) : Script :=
  {| codeHash := TYPE_ID_CODE_HASH; hashType := "type"; args := typeIdArgs |}.

Definition account_result (m : AccountManifest) (d : VerifiedDeployment) : VerifiedAccount := {|
  va_manifest := m; va_deployment := d;
  accountLock := {| codeHash := am_code_hash m; hashType := "data2"; args := am_args m |};
  stateType := state_type_script (am_type_id_args m);
  stateDep := code_dep (mo_tx_hash (am_state_out_point m)) 0 |}.

(** What ties an account to a deployment and to the chain's type identifier. *)
Record account_bound `{Ccc} (m : AccountManifest) (d : VerifiedDeployment) : Prop := {
  ab_code : am_code_hash m = codeHash (accountLockCode d);
  ab_state_index : mo_index (am_state_out_point m) = 0;
  ab_asset_index : mo_index (am_asset_out_point m) = 1;
  ab_same_tx : mo_tx_hash (am_state_out_point m) = mo_tx_hash (am_asset_out_point m);
  ab_args : am_args m = "0x01" +:+ str_drop 2 (am_account_id m);
  ab_type_id : Script_hash (state_type_script (am_type_id_args m)) = am_account_id m }.

Lemma hash32_iff s : hash32 s ↔ ∃ b, length b = 32%nat ∧ s = hexFromBytes b.
Proof. apply (prefixed_hex [] 32). Qed.
Lemma public_key_iff s :
  public_key_hex s ↔ ∃ b, length b = 64%nat ∧ s = hexFromBytes (x04 :: b).
Proof. apply (prefixed_hex [x04] 64). Qed.
Lemma lock_args_iff s :
  lock_args_hex s ↔ ∃ b, length b = 32%nat ∧ s = hexFromBytes (x01 :: b).
Proof. apply (prefixed_hex [x01] 32). Qed.

Lemma hash32_hex_text s : hash32 s → is_hex_text s.
Proof. intros (b & _ & ->)%hash32_iff. by exists b. Qed.
Lemma lock_args_hex_text s : lock_args_hex s → is_hex_text s.
Proof. intros (b & _ & ->)%lock_args_iff. eexists; reflexivity. Qed.
Lemma type_id_hex_text : is_hex_text TYPE_ID_CODE_HASH.
Proof. apply hash32_hex_text, test_prefixed. vm_compute. reflexivity. Qed.
#[export] Hint Resolve hash32_hex_text lock_args_hex_text type_id_hex_text : js.

(** The lock arguments are the version byte followed by the account identifier. *)
Lemma lock_args_bind m :
  account_wf m → am_args m = "0x01" +:+ str_drop 2 (am_account_id m).
Proof.
  intros H. destruct (proj1 (lock_args_iff _) (mwf_args _ H)) as (b & _ & Hb).
  rewrite <- (mwf_binding _ H), Hb, hexFromBytes_digits. reflexivity.
Qed.

Section validation.
Context {zod : Zod} {zod_laws : ZodLaws} {ccc : Ccc} {ccc_laws : CccLaws}.

Lemma script_from_code s t a :
  is_hex_text s → is_hex_text a → t ∈ HASH_TYPES →
  Script_from {| codeHash := s; hashType := t; args := a |} =
  Ok {| codeHash := s; hashType := t; args := a |}.
Proof. intros. by apply Script_from_ok. Qed.

Lemma celldep_from_code h i :
  hash32 h → 0 <= i → CellDep_from (code_dep h i) = Ok (code_dep h i).
Proof. intros. apply CellDep_from_ok; [by apply hash32_hex_text|done|done]. Qed.

Lemma data2_type : "data2" ∈ HASH_TYPES.
Proof. unfold HASH_TYPES. apply list_elem_of_In. simpl. tauto. Qed.
Lemma type_type : "type" ∈ HASH_TYPES.
Proof. unfold HASH_TYPES. apply list_elem_of_In. simpl. tauto. Qed.

Lemma validateDeployment_val v m :
  safeParse DeploymentManifestSchema v = Some (deployment_val m) → deployment_wf m →
  validateDeployment v = Ok (deployment_result m).
Proof.
  intros Hp Hwf. unfold validateDeployment. rewrite Hp. cbn [from_option_or mbind res_bind].
  rewrite deployment_of_val. destruct Hwf as [_ _ _ _ _ [_ Hd Ht Htx Hi _] [_ Hd' Ht' Htx' Hi' _]].
  rewrite Ht, Ht', !script_from_code by (apply data2_type || eauto with js).
  cbn [mbind res_bind]. unfold index_ok in *.
  fold (code_dep (da_txHash (dm_account_lock m)) (da_index (dm_account_lock m))).
  fold (code_dep (da_txHash (dm_verifier_p256 m)) (da_index (dm_verifier_p256 m))).
  rewrite !celldep_from_code by (done || lia). done.
Qed.

Lemma validateDeployment_inv v d :
  is_json v = true → validateDeployment v = Ok d →
  ∃ m, safeParse DeploymentManifestSchema v = Some (deployment_val m) ∧
    deployment_wf m ∧ d = deployment_result m.
Proof.
  intros Hj H. pose proof H as H'. unfold validateDeployment in H'.
  apply bind_Ok_iff in H' as (x & Hx & _). apply from_option_or_Ok in Hx.
  destruct (deployment_record _ _ Hj Hx) as (m & -> & Hwf).
  exists m. rewrite (validateDeployment_val _ m) in H by done. by injection H as <-.
Qed.

(** Deployment validation, exactly: a JSON value is accepted when, and only
    when, the schema reads a manifest of the testnet format from it; the scripts
    and dependencies handed on are then the published artifacts of that manifest
    (no library conversion can fail or change them), and the manifest itself is a
    value that validates to the same result. *)
Theorem validate_deployment_exact (v : jsval) (d : VerifiedDeployment) :
  is_json v = true →
  validateDeployment v = Ok d ↔
  ∃ m, safeParse DeploymentManifestSchema v = Some (deployment_val m) ∧
    deployment_wf m ∧ d = deployment_result m ∧
    validateDeployment (deployment_val m) = Ok d.
Proof.
  intros Hj. split.
  - intros (m & Hp & Hwf & ->)%validateDeployment_inv; [|done]. exists m.
    repeat (split; [done|]). apply validateDeployment_val; [by apply deployment_parse | done].
  - intros (m & Hp & Hwf & -> & _). by apply validateDeployment_val.
Qed.

Lemma validateAccount_val v m d :
  safeParse AccountManifestSchema v = Some (account_val m) →
  account_wf m → account_bound m d → validateAccount v d = Ok (account_result m d).
Proof.
  intros Hp Hwf [Hc Hs Ha Ht Hargs Hid]. unfold validateAccount. rewrite Hp.
  cbn [from_option_or mbind res_bind]. rewrite account_of_val.
  rewrite <- Hc, Hs, Ha, <- Ht, !String.eqb_refl. cbn [throw_if negb orb Z.eqb mbind res_bind Pos.eqb].
  rewrite (mwf_hash_type _ Hwf).
  rewrite (script_from_code (am_code_hash m)) by (apply data2_type || (destruct Hwf; eauto with js)).
  cbn [mbind res_bind args]. rewrite <- Hargs, String.eqb_refl. cbn [throw_if negb mbind res_bind].
  rewrite (script_from_code TYPE_ID_CODE_HASH) by (apply type_type || (destruct Hwf; eauto with js)).
  cbn [mbind res_bind]. fold (state_type_script (am_type_id_args m)).
  rewrite Hid, String.eqb_refl. cbn [throw_if negb mbind res_bind].
  fold (code_dep (mo_tx_hash (am_state_out_point m)) 0).
  rewrite celldep_from_code; [done | apply (mwf_state_out_point _ Hwf) | done].
Qed.

Lemma validateAccount_inv v d a :
  validateAccount v d = Ok a →
  ∃ m, safeParse AccountManifestSchema v = Some (account_val m) ∧
    account_wf m ∧ account_bound m d ∧ a = account_result m d.
Proof.
  intros H. pose proof H as H'. unfold validateAccount in H'.
  apply bind_Ok_iff in H' as (x & Hx & H'). apply from_option_or_Ok in Hx.
  destruct (account_record _ _ Hx) as (m & -> & Hwf). rewrite account_of_val in H'.
  rewrite (mwf_hash_type _ Hwf) in H'.
  rewrite !script_from_code in H'
    by (apply data2_type || apply type_type || (destruct Hwf; eauto with js)).
  assert (Hb : account_bound m d).
  { inv_res. cbn [mbind res_bind args] in *. bool_simpl. by constructor. }
  exists m. rewrite (validateAccount_val _ m) in H by done. by injection H as <-.
Qed.

(** Account validation, exactly: a value is accepted against a verified
    deployment when, and only when, the schema reads an account manifest from it
    that uses the deployment's lock code, places the state at output 0 and the
    asset at output 1 of one transaction, has lock arguments that bind the account
    identifier, and has an identifier that is the hash of its Type ID script. The
    scripts of the result are determined by that manifest. *)
Theorem validate_account_exact (v : jsval) (d : VerifiedDeployment) (a : VerifiedAccount) :
  validateAccount v d = Ok a ↔
  ∃ m, safeParse AccountManifestSchema v = Some (account_val m) ∧
    account_wf m ∧ account_bound m d ∧ a = account_result m d ∧
    validateAccount (account_val m) d = Ok a.
Proof.
  split.
  - intros (m & Hp & Hwf & Hb & ->)%validateAccount_inv. exists m.
    repeat (split; [done|]). apply validateAccount_val; [by apply account_parse|done..].
  - intros (m & Hp & Hwf & Hb & -> & _). by apply validateAccount_val.
Qed.
End validation.
