(* ===== verification/State.v ===== *)
(** * Live account state ([parseAccountState] of [demo/src/client/chain.ts])

    The client's reader of the account state, the exact byte layout it accepts,
    and the agreement of that layout with the on-chain validator of [Wire]. *)

From S2P Require Import Prelude Js JsString Bytes Ccc Wire Schemas Manifests.

Definition STATE_HEADER_BYTES : Z := 32.
Definition STATE_ENTRY_BYTES_WITHOUT_VARIABLE_DATA : Z := 48.
Definition STATE_MAGIC : string := "CKAS".
Definition EXPECTED_RP_ID_HASH : string :=
  "49960de5880e8c687434170f6476605b8fe4aeb9a28632c7995cf3ba831d9763".
Definition EXPECTED_ORIGIN_HASH : string :=
  "4e90ec8f9d9b8d5bd3877ac003797738ff48419fcf8f97821a875ea4671955b6".

Record ParsedState := { ps_sequence : Z; ps_keyId : bytes }.

(** [e !== k] where evaluating [e] may throw. *)
Definition differs (m : res Z) (k : Z) : res bool := v ← m; Ok (negb (v =? k)).
Definition byte_differs (data : bytes) (i : nat) (k : Z) : res bool :=
  Ok (negb (at_is data i k)).
(** [if (c1 || c2 || ...) throw e;] *)
Definition throw_if_any (l : list (res bool)) (e : exn) : res unit :=
  c ← foldr or_else (Ok false) l; throw_if c e.

Definition parseAccountState (dataHex : string) (account : VerifiedAccount)
    : res ParsedState :=
  data ← bytesFromHex dataHex;
  throw_if (negb (len data =? am_state_bytes (va_manifest account)) ||
            (len data <? STATE_HEADER_BYTES))
    (TypeError "Live account state data length does not match the manifest");;
  throw_if (negb (bool_decide (text_decode (subarray data 0 4) = str_codes STATE_MAGIC)) ||
            negb (at_is data 4 1))
    (TypeError "Live account state data has an unsupported header");;
  throw_if_any [
    byte_differs data 5 1;
    differs (getUint16 data 6) STATE_HEADER_BYTES;
    differs (getUint16 data 16) 1;
    differs (getUint16 data 18) 1;
    differs (getUint16 data 20) 1;
    byte_differs data 22 1;
    byte_differs data 23 0;
    differs (getBigUint64 data 24) 0]
    (TypeError "Live account state data does not match the supported account profile");;
  entryLength ← getUint16 data 32;
  keyIdLength ← getUint16 data 76;
  auxLength ← getUint16 data 78;
  throw_if_any [
    Ok (negb (entryLength =? len data - STATE_HEADER_BYTES));
    Ok (negb (entryLength =? STATE_ENTRY_BYTES_WITHOUT_VARIABLE_DATA + keyIdLength + auxLength));
    differs (getUint16 data 34) 0;
    differs (getUint16 data 36) 1;
    differs (getUint16 data 38) 7;
    differs (getUint16 data 40) 1;
    byte_differs data 42 0;
    byte_differs data 43 1;
    Ok (negb (keyIdLength =? 32));
    Ok (negb (auxLength =? 65))]
    (TypeError "Live account state authenticator is not the supported P-256 profile");;
  let verifierCodeHash := hexFromBytes (subarray data 44 76) in
  throw_if (negb (String.eqb verifierCodeHash
                    (codeHash (verifierP256Code (va_deployment account)))))
    (TypeError "Live account state verifier does not match the deployment");;
  let keyIdStart := 80%nat in
  let auxStart := (keyIdStart + Z.to_nat keyIdLength)%nat in
  let expectedAux := "01" +:+ EXPECTED_RP_ID_HASH +:+ EXPECTED_ORIGIN_HASH in
  throw_if (negb (String.eqb (str_drop 2 (hexFromBytes (subarray data auxStart (length data))))
                             expectedAux))
    (TypeError "Live account state data has an unexpected WebAuthn binding");;
  sequence ← getBigUint64 data 8;
  Ok {| ps_sequence := sequence; ps_keyId := subarray data keyIdStart auxStart |}.

(** ** The accepted layout *)

Definition hex_bytes (s : string) : bytes :=
  match bytesFromHex s with Ok b => b | Throw _ => [] end.

Definition EXPECTED_AUX : bytes :=
  x01 :: hex_bytes ("0x" +:+ EXPECTED_RP_ID_HASH) ++ hex_bytes ("0x" +:+ EXPECTED_ORIGIN_HASH).

(** The fields of a one-key account state: header, then one P-256 entry. *)
Definition state_fields (verifier : bytes) (sequence : Z) (keyId : bytes) : list bytes := [
  utf8_encode STATE_MAGIC; [x01]; [x01]; le_bytes 2 32; le_bytes 8 sequence;
  le_bytes 2 1; le_bytes 2 1; le_bytes 2 1; [x01]; [x00]; le_bytes 8 0;
  le_bytes 2 145; le_bytes 2 0; le_bytes 2 1; le_bytes 2 7; le_bytes 2 1; [x00]; [x01];
  verifier; le_bytes 2 32; le_bytes 2 65; keyId; EXPECTED_AUX].
Definition state_layout (verifier : bytes) (sequence : Z) (keyId : bytes) : bytes :=
  concat (state_fields verifier sequence keyId).
Definition STATE_WIDTHS : list nat :=
  [4; 1; 1; 2; 8; 2; 2; 2; 1; 1; 8; 2; 2; 2; 2; 2; 1; 1; 32; 2; 2; 32; 65]%nat.

(** ** Fields of a buffer *)

Fixpoint segments (data : bytes) (off : nat) (ws : list nat) : list bytes :=
  match ws with
  | [] => []
  | w :: ws' => subarray data off (off + w) :: segments data (off + w) ws'
  end.

Lemma segments_concat data off ws :
  (off + sum_list ws = length data)%nat → concat (segments data off ws) = drop off data.
Proof.
  revert off. induction ws as [|w ws IH]; intros off H; cbn [segments concat sum_list] in *.
  - cbn in H. rewrite drop_ge by lia. done.
  - rewrite IH by (cbn in H; lia). unfold subarray.
    replace (off + w - off)%nat with w by lia.
    rewrite <- (take_drop w (drop off data)) at 2. f_equal. by rewrite drop_drop.
Qed.

Lemma segments_of_concat pre fs :
  segments (pre ++ concat fs) (length pre) (length <$> fs) = fs.
Proof.
  revert pre. induction fs as [|f fs IH]; intros pre; [done|].
  cbn [fmap list_fmap segments concat]. f_equal.
  - unfold subarray. replace (length pre + length f - length pre)%nat with (length f) by lia.
    by rewrite drop_app_length, take_app_length.
  - rewrite app_assoc, <- length_app. apply IH.
Qed.

(** A buffer is the concatenation of given fields exactly when it has their total
    width and each field at its place. *)
Lemma concat_iff_segments data fs :
  data = concat fs ↔
  length data = sum_list (length <$> fs) ∧ segments data 0 (length <$> fs) = fs.
Proof.
  split.
  - intros ->. split; [|by apply (segments_of_concat [])].
    induction fs as [|f fs IH]; [done|]. cbn. by rewrite length_app, IH.
  - intros [Hl Hs]. rewrite <- Hs, segments_concat by (rewrite Hl; done). done.
Qed.

Lemma view_get_ok n data off :
  (off + n ≤ length data)%nat →
  view_get n data off = Ok (le_value (subarray data off (off + n))).
Proof. intros H. unfold view_get. by rewrite (proj2 (Nat.leb_le _ _)). Qed.

Lemma view_get_Ok n data off v :
  view_get n data off = Ok v →
  (off + n ≤ length data)%nat ∧ v = le_value (subarray data off (off + n)).
Proof.
  unfold view_get. destruct (_ <=? _)%nat eqn:E; [|done]. apply Nat.leb_le in E.
  by intros [= <-].
Qed.

Lemma length_subarray data a b : (b ≤ length data)%nat → length (subarray data a b) = (b - a)%nat.
Proof. intros. unfold subarray. rewrite length_take, length_drop. lia. Qed.

Lemma subarray_le n data off v :
  (off + n ≤ length data)%nat → le_value (subarray data off (off + n)) = v →
  subarray data off (off + n) = le_bytes n v.
Proof.
  intros Hl <-. assert (Hn := length_subarray data off (off + n) Hl).
  rewrite <- (le_bytes_value (subarray data off (off + n))) at 1. f_equal. lia.
Qed.

Lemma at_is_segment data i k :
  at_is data i k = true ↔ ∃ b, Z_of_byte b = k ∧ subarray data i (i + 1) = [b].
Proof.
  unfold at_is, at_, subarray. rewrite bool_decide_eq_true.
  replace (i + 1 - i)%nat with 1%nat by lia. split.
  - intros (b & Hb & Hk)%fmap_Some. exists b. split; [done|].
    by rewrite (drop_S _ _ _ Hb).
  - intros (b & <- & H). destruct (drop i data) as [|b' l] eqn:E; [done|].
    injection H as ->. apply fmap_Some. exists b. split; [|done].
    rewrite <- (Nat.add_0_r i), <- lookup_drop, E. done.
Qed.

Lemma or_else_list_false l :
  foldr or_else (Ok false) l = Ok false ↔ Forall (eq (Ok false)) l.
Proof.
  induction l as [|x l IH]; cbn [foldr]; [by split; [constructor|]|].
  rewrite or_else_Ok_false, IH, List.Forall_cons_iff. naive_solver.
Qed.

Lemma throw_if_any_Ok l e u : throw_if_any l e = Ok u ↔ Forall (eq (Ok false)) l.
Proof.
  unfold throw_if_any. rewrite bind_Ok_iff, <- or_else_list_false. split.
  - intros (c & -> & H). by apply throw_if_Ok in H as ->.
  - intros ->. exists false. by destruct u.
Qed.

Lemma differs_false m k : Ok false = differs m k ↔ m = Ok k.
Proof.
  unfold differs. destruct m as [v|]; cbn; [|done].
  destruct (Z.eqb_spec v k); naive_solver.
Qed.
Lemma byte_differs_false data i k : Ok false = byte_differs data i k ↔ at_is data i k = true.
Proof. unfold byte_differs. destruct (at_is _ _ _); naive_solver. Qed.

Lemma str_drop_0x s : str_drop 2 ("0x" +:+ s) = s.
Proof. done. Qed.

Lemma hex_text_is bs s :
  str_drop 2 (hexFromBytes bs) = s ↔ hexFromBytes bs = "0x" +:+ s.
Proof.
  rewrite hexFromBytes_digits, str_drop_0x. split; [by intros -> | by intros H%str_app_inv_l].
Qed.

Lemma expected_aux_text :
  hexFromBytes EXPECTED_AUX = "0x" +:+ "01" +:+ EXPECTED_RP_ID_HASH +:+ EXPECTED_ORIGIN_HASH.
Proof. vm_compute. reflexivity. Qed.

Lemma aux_is bs :
  str_drop 2 (hexFromBytes bs) = "01" +:+ EXPECTED_RP_ID_HASH +:+ EXPECTED_ORIGIN_HASH ↔
  bs = EXPECTED_AUX.
Proof.
  rewrite hex_text_is, <- expected_aux_text. split; [apply hexFromBytes_inj | by intros ->].
Qed.

Lemma magic_is bs : length bs = 4%nat →
  text_decode bs = str_codes STATE_MAGIC ↔ bs = utf8_encode STATE_MAGIC.
Proof.
  intros H. apply text_decode_ascii; [done|]. repeat constructor; vm_compute; reflexivity.
Qed.

Lemma state_layout_length v s k :
  length v = 32%nat → length k = 32%nat → length (state_layout v s k) = 177%nat.
Proof.
  intros Hv Hk. unfold state_layout, state_fields. cbn [concat].
  rewrite !length_app, !length_le_bytes, Hv, Hk. reflexivity.
Qed.

(** [data] is the layout exactly when its segments are the fields. *)
Lemma layout_iff_segments data v s k :
  length v = 32%nat → length k = 32%nat →
  data = state_layout v s k ↔
  length data = 177%nat ∧ segments data 0 STATE_WIDTHS = state_fields v s k.
Proof.
  intros Hv Hk. unfold state_layout. rewrite concat_iff_segments.
  assert (length <$> state_fields v s k = STATE_WIDTHS) as ->; [|done].
  unfold state_fields. cbn [fmap list_fmap]. by rewrite Hv, Hk.
Qed.

Record state_accepted (a : VerifiedAccount) (v : bytes) (p : ParsedState) : Prop := {
  sa_verifier_len : length v = 32%nat;
  sa_verifier : codeHash (verifierP256Code (va_deployment a)) = hexFromBytes v;
  sa_size : am_state_bytes (va_manifest a) = 177;
  sa_sequence : 0 <= ps_sequence p < 2 ^ 64;
  sa_key : length (ps_keyId p) = 32%nat }.

Lemma cons_eq {A} (x y : A) l k : x = y → l = k → x :: l = y :: k.
Proof. congruence. Qed.

Lemma at_is_byte data i k :
  at_is data i k = true → 0 <= k < 256 → subarray data i (i + 1) = [byte_of_Z k].
Proof.
  intros (b & <- & H)%at_is_segment _. by rewrite byte_of_Z_of_byte.
Qed.

(** Close a goal on one field with the read of that field. *)
Ltac field_fact :=
  match goal with
  | H : at_is ?d ?i _ = true |- subarray ?d ?i _ = [_] => by apply (at_is_byte d i _ H)
  | H : ?k = le_value (subarray ?d ?o (?o + ?n)) |- subarray ?d ?o _ = _ =>
      apply (subarray_le n d o k); [lia | by rewrite <- H]
  end.

Lemma parseAccountState_inv hex a p :
  parseAccountState hex a = Ok p →
  ∃ v, state_accepted a v p ∧
    hex = hexFromBytes (state_layout v (ps_sequence p) (ps_keyId p)).
Proof.
  unfold parseAccountState. intros H. inv_res. bool_simpl.
  repeat match goal with
    | H : throw_if_any _ _ = Ok _ |- _ => apply throw_if_any_Ok in H
    | H : Forall _ (_ :: _) |- _ => apply List.Forall_cons_iff in H as [? H]
    | H : Ok false = differs _ _ |- _ => apply differs_false in H
    | H : Ok false = byte_differs _ _ _ |- _ => apply byte_differs_false in H
    | H : Ok _ = Ok _ |- _ => injection H as H; symmetry in H
    | H : getUint16 _ _ = Ok _ |- _ => apply view_get_Ok in H as [??]
    | H : getBigUint64 _ _ = Ok _ |- _ => apply view_get_Ok in H as [??]
    | H : bytesFromHex _ = Ok _ |- _ => apply bytesFromHex_iff in H as [? ->]
    end.
  bool_simpl. unfold STATE_HEADER_BYTES, STATE_ENTRY_BYTES_WITHOUT_VARIABLE_DATA in *.
  assert (Hlen : length v = 177%nat) by (unfold len in *; lia).
  assert (E4 : v4 = 32) by done. assert (E5 : v5 = 65) by done. rewrite E4, E5 in *.
  match goal with H : str_drop 2 _ = _ |- _ => apply aux_is in H end.
  match goal with H : text_decode _ = _ |- _ =>
    apply magic_is in H; [|apply length_subarray; lia] end.
  cbn [ps_sequence ps_keyId].
  assert (Hk : length (subarray v 80 (80 + Z.to_nat 32)) = 32%nat)
    by (rewrite length_subarray by (simpl; lia); simpl; lia).
  assert (Hv : length (subarray v 44 76) = 32%nat) by (rewrite length_subarray; lia).
  exists (subarray v 44 76). split.
  - constructor; [done|done|unfold len in *; lia| |exact Hk].
    cbn [ps_sequence]. subst v9. pose proof (le_value_range (subarray v 8 (8 + 8))) as Hr.
    unfold len in Hr. by rewrite length_subarray in Hr by lia.
  - f_equal. apply layout_iff_segments; [done..|]. split; [done|].
    unfold STATE_WIDTHS, state_fields. cbn [segments].
    repeat (apply cons_eq; [first [done | reflexivity | field_fact | idtac]|]); [..|done].
    + apply (subarray_le 2 v 32); lia.
    + rewrite <- H9, Hlen. reflexivity.
Qed.

(** Reads of the layout. *)
Section reads.
Context (v : bytes) (s : Z) (k : bytes) (Hv : length v = 32%nat) (Hk : length k = 32%nat)
        (Hs : 0 <= s < 2 ^ 64).
Let data := state_layout v s k.

Lemma layout_segments : segments data 0 STATE_WIDTHS = state_fields v s k.
Proof. by apply layout_iff_segments. Qed.
Lemma layout_len : len data = 177.
Proof. unfold len, data. by rewrite state_layout_length. Qed.

(** Field [n] of the layout sits between two offsets. *)
Definition spans (n a b : nat) : Prop :=
  (n < 23)%nat ∧ a = sum_list (take n STATE_WIDTHS) ∧ b = sum_list (take (S n) STATE_WIDTHS).

Lemma layout_field n a b :
  spans n a b → Some (subarray data a b) = state_fields v s k !! n.
Proof.
  intros (Hn & -> & ->). rewrite <- layout_segments.
  do 23 (destruct n as [|n]; [reflexivity|]). lia.
Qed.

Lemma spans_bound n a b : spans n a b → (a <= b <= 177)%nat.
Proof. intros (Hn & -> & ->). do 23 (destruct n as [|n]; [simpl; lia|]). lia. Qed.

Lemma layout_length : length data = 177%nat.
Proof. by apply state_layout_length. Qed.

Lemma field_range {E} n a b f :
  spans n (Z.to_nat a) (Z.to_nat b) → 0 <= a → 0 <= b → state_fields v s k !! n = Some f →
  @range E data a b = Good f.
Proof.
  intros Ho Ha Hb Hf. unfold range. rewrite layout_len.
  pose proof (spans_bound _ _ _ Ho). rewrite !(proj2 (Z.leb_le _ _)) by lia.
  rewrite <- (layout_field _ _ _ Ho) in Hf. by injection Hf as <-.
Qed.

Lemma field_at n i b :
  spans n i (i + 1) → state_fields v s k !! n = Some [b] →
  at_is data i (Z_of_byte b) = true.
Proof.
  intros Ho Hf. rewrite <- (layout_field _ _ _ Ho) in Hf. injection Hf as Hf.
  apply at_is_segment. eauto.
Qed.

Lemma field_at_value n i z :
  spans n i (i + 1) → 0 <= z < 256 → state_fields v s k !! n = Some [byte_of_Z z] →
  at_is data i z = true.
Proof.
  intros Ho Hz Hf. rewrite <- (Z.mod_small z 256), <- Z_of_byte_of_Z by done.
  by apply (field_at n).
Qed.

Lemma field_index {E} n i b :
  spans n (Z.to_nat i) (Z.to_nat i + 1) → state_fields v s k !! n = Some [b] →
  @index E data i = Good (Z_of_byte b).
Proof.
  intros Ho Hf. unfold index. pose proof (field_at _ _ _ Ho Hf) as Hat.
  apply bool_decide_eq_true in Hat. by rewrite Hat.
Qed.

Lemma field_get n w a z :
  spans n a (a + w) → state_fields v s k !! n = Some (le_bytes w z) →
  0 <= z < 256 ^ Z.of_nat w → view_get w data a = Ok z.
Proof.
  intros Ho Hf Hz. pose proof (spans_bound _ _ _ Ho).
  rewrite <- (layout_field _ _ _ Ho) in Hf. injection Hf as Hf.
  rewrite view_get_ok, Hf by (rewrite layout_length; lia).
  by rewrite le_value_bytes, Z.mod_small.
Qed.
End reads.

Ltac spans := split; [lia|]; split; reflexivity.

(** Close a boolean read of the layout. *)
Ltac field_ok n :=
  lazymatch goal with
  | |- _ = differs (_ (state_layout ?v ?s ?k) _) _ =>
      apply differs_false; apply (field_get v s k ltac:(assumption) ltac:(assumption) n);
        [spans|reflexivity|simpl; lia]
  | |- _ = byte_differs (state_layout ?v ?s ?k) _ _ =>
      apply byte_differs_false;
      apply (field_at_value v s k ltac:(assumption) ltac:(assumption) n);
        [spans|lia|reflexivity]
  end.

Lemma parseAccountState_layout a v p :
  state_accepted a v p →
  parseAccountState (hexFromBytes (state_layout v (ps_sequence p) (ps_keyId p))) a = Ok p.
Proof.
  intros [Hv Hver Hsize Hs Hk]. destruct p as [s k]. cbn [ps_sequence ps_keyId] in *.
  pose proof (layout_length v s k Hv Hk) as Hl.
  assert (Hf := layout_field v s k Hv Hk).
  unfold parseAccountState. rewrite bytesFromHex_of_bytes by (intros E; by rewrite E in Hl).
  cbn [mbind res_bind]. rewrite (layout_len v s k Hv Hk), Hsize.
  unfold STATE_HEADER_BYTES. do 2 pass_guard.
  rewrite (proj2 (throw_if_any_Ok _ _ tt)).
  2: { constructor; [field_ok 2%nat|]. constructor; [field_ok 3%nat|].
       constructor; [field_ok 5%nat|]. constructor; [field_ok 6%nat|].
       constructor; [field_ok 7%nat|]. constructor; [field_ok 8%nat|].
       constructor; [field_ok 9%nat|]. constructor; [field_ok 10%nat|]. constructor. }
  cbn [mbind res_bind]. unfold getUint16.
  rewrite (field_get v s k Hv Hk 11 2 32 145), (field_get v s k Hv Hk 19 2 76 32),
    (field_get v s k Hv Hk 20 2 78 65) by (spans || done).
  cbn [mbind res_bind].
  rewrite (proj2 (throw_if_any_Ok _ _ tt)).
  2: { do 2 (constructor; [reflexivity|]). constructor; [field_ok 12%nat|].
       constructor; [field_ok 13%nat|]. constructor; [field_ok 14%nat|].
       constructor; [field_ok 15%nat|]. constructor; [field_ok 16%nat|].
       constructor; [field_ok 17%nat|]. do 2 (constructor; [reflexivity|]). constructor. }
  cbn [mbind res_bind].
  assert (H := Hf 18%nat 44%nat 76%nat ltac:(spans)). injection H as ->.
  rewrite Hver, String.eqb_refl. cbn [negb throw_if mbind res_bind]. rewrite Hl.
  assert (H := Hf 22%nat 112%nat 177%nat ltac:(spans)). injection H as H.
  change (80 + Z.to_nat 32)%nat with 112%nat. rewrite H, (proj2 (aux_is _) eq_refl).
  rewrite String.eqb_refl. cbn [negb throw_if mbind res_bind]. unfold getBigUint64.
  rewrite (field_get v s k Hv Hk 4 8 8 s) by (spans || done). cbn [mbind res_bind].
  assert (H' := Hf 21%nat 80%nat 112%nat ltac:(spans)). injection H' as ->. done.
Qed.

(** ** Agreement with the on-chain validator *)

Definition one_key_header (s : Z) : StateHeader := {|
  sh_flags := 1; sh_sequence := s; sh_spend_threshold := 1; sh_rotate_threshold := 1;
  sh_recovery_threshold := 1; sh_authenticator_count := 1; sh_recovery_since := 0 |}.
Definition one_key_entry (v k : bytes) : AuthenticatorEntry := {|
  ae_slot := 0; ae_algorithm_id := 1; ae_capabilities := 7; ae_weight := 1;
  ae_verifier_hash_type := 0; ae_verifier_abi := 1; ae_verifier_code_hash := v;
  ae_key_id := k; ae_aux := EXPECTED_AUX |}.

Section on_chain.
Context (v : bytes) (s : Z) (k : bytes) (Hv : length v = 32%nat) (Hk : length k = 32%nat)
        (Hs : 0 <= s < 2 ^ 64).

Lemma read_u16 n a b z :
  spans n (Z.to_nat a) (Z.to_nat b) → 0 <= a → 0 <= b →
  state_fields v s k !! n = Some (le_bytes 2 z) → 0 <= z < 2 ^ 16 →
  (x ← range (state_layout v s k) a b; le_u16 x) = Good z.
Proof.
  intros Ho Ha Hb Hf Hz. rewrite (field_range v s k Hv Hk n a b _ Ho Ha Hb Hf).
  cbn [mbind outcome_bind]. unfold le_u16. rewrite len_le_bytes. cbn [negb Z.eqb Z.of_nat].
  change (Z.pos (Pos.of_succ_nat 1) =? 2) with true. cbn [negb].
  by rewrite le_value_bytes, Z.mod_small.
Qed.

Lemma read_u64 n a b z :
  spans n (Z.to_nat a) (Z.to_nat b) → 0 <= a → 0 <= b →
  state_fields v s k !! n = Some (le_bytes 8 z) → 0 <= z < 2 ^ 64 →
  (x ← range (state_layout v s k) a b; le_u64 x) = Good z.
Proof.
  intros Ho Ha Hb Hf Hz. rewrite (field_range v s k Hv Hk n a b _ Ho Ha Hb Hf).
  cbn [mbind outcome_bind]. unfold le_u64. rewrite len_le_bytes.
  change (Z.of_nat 8 =? 8) with true. cbn [negb].
  by rewrite le_value_bytes, Z.mod_small.
Qed.

(** Take the first step of a chain of on-chain reads. *)
Ltac good_guard :=
  lazymatch goal with
  | |- mbind _ (err_if ?c ?e) = _ => change (err_if c e) with (@Good ProtocolError _ tt)
  end; cbn [mbind outcome_bind].

Lemma parse_state_header_layout :
  parse_state_header (state_layout v s k) = Good (one_key_header s).
Proof.
  unfold parse_state_header. rewrite (layout_len v s k Hv Hk).
  good_guard. rewrite (field_range v s k Hv Hk 0 0 4 _ ltac:(spans)) by (lia || reflexivity).
  cbn [mbind outcome_bind]. good_guard.
  rewrite (field_index v s k Hv Hk 1 4 x01) by (spans || done). cbn [mbind outcome_bind].
  good_guard.
  rewrite (field_index v s k Hv Hk 2 5 x01) by (spans || done). cbn [mbind outcome_bind].
  good_guard. rewrite (read_u16 3 6 8 32) by (spans || done). cbn [mbind outcome_bind].
  good_guard.
  rewrite (field_index v s k Hv Hk 9 23 x00) by (spans || done). cbn [mbind outcome_bind].
  good_guard.
  rewrite (field_index v s k Hv Hk 8 22 x01) by (spans || done). cbn [mbind outcome_bind].
  good_guard.
  rewrite (read_u64 4 8 16 s), (read_u16 5 16 18 1), (read_u16 6 18 20 1),
    (read_u16 7 20 22 1), (read_u64 10 24 32 0) by (spans || done).
  reflexivity.
Qed.

Lemma parse_authenticator_layout :
  parse_authenticator (state_layout v s k) 32 None = Good (one_key_entry v k, 177).
Proof.
  unfold parse_authenticator. rewrite (layout_len v s k Hv Hk).
  change (map_err InvalidState (checked_end 32 48 177)) with (@Good ProtocolError _ 80).
  cbn [mbind outcome_bind].
  rewrite (read_u16 11 32 (32 + 2) 145), (read_u16 12 (32 + 2) (32 + 4) 0),
    (read_u16 13 (32 + 4) (32 + 6) 1), (read_u16 14 (32 + 6) (32 + 8) 7),
    (read_u16 15 (32 + 8) (32 + 10) 1) by (spans || done).
  cbn [mbind outcome_bind].
  rewrite (field_index v s k Hv Hk 16 (32 + 10) x00),
    (field_index v s k Hv Hk 17 (32 + 11) x01) by (spans || done).
  cbn [mbind outcome_bind].
  rewrite (field_range v s k Hv Hk 18 (32 + 12) (32 + 44) v) by (spans || done).
  cbn [mbind outcome_bind].
  rewrite (read_u16 19 (32 + 44) (32 + 46) 32), (read_u16 20 (32 + 46) (32 + 48) 65)
    by (spans || done).
  cbn [mbind outcome_bind]. good_guard.
  change (map_err InvalidState (checked_end 32 145 177)) with (@Good ProtocolError _ 177).
  cbn [mbind outcome_bind]. do 3 good_guard.
  rewrite (field_range v s k Hv Hk 21 (32 + 48) (32 + 48 + 32) k) by (spans || done).
  cbn [mbind outcome_bind].
  rewrite (field_range v s k Hv Hk 22 (32 + 48 + 32) (32 + 145) EXPECTED_AUX)
    by (spans || done).
  reflexivity.
Qed.

Lemma validate_state_layout :
  validate_state (state_layout v s k) =
    Good (one_key_header s, {| ss_spend := 1; ss_rotate := 1; ss_recovery := 1 |}).
Proof.
  unfold validate_state. rewrite parse_state_header_layout. cbn [mbind outcome_bind].
  unfold parse_authenticators, ACCOUNT_STATE_HEADER_LEN.
  change (Z.to_nat (sh_authenticator_count (one_key_header s))) with 1%nat.
  cbn [parse_authenticators_loop]. rewrite parse_authenticator_layout.
  cbn [mbind outcome_bind].
  assert (Hsum : ∀ t, summarise t (one_key_entry v k) =
    (sp ← add_weight 7 CAP_SPEND 1 (ss_spend t);
     ro ← add_weight 7 CAP_ROTATE 1 (ss_rotate t);
     re ← add_weight 7 CAP_RECOVERY 1 (ss_recovery t);
     Good {| ss_spend := sp; ss_rotate := ro; ss_recovery := re |})).
  { intros t. unfold summarise, one_key_entry. cbn [ae_algorithm_id ae_key_id ae_aux
      ae_capabilities ae_weight]. unfold len at 1. rewrite Hk. reflexivity. }
  rewrite Hsum, (layout_len v s k Hv Hk). reflexivity.
Qed.
End on_chain.

(** C15 — State reading, exactly: the client accepts live state data when, and only
    when, it is the 177-byte layout of a one-key account with the deployment's
    verifier, the site's WebAuthn binding and some sequence and key, and it then
    returns that sequence and key. *)
Theorem parse_account_state_exact (dataHex : string) (a : VerifiedAccount) (p : ParsedState) :
  parseAccountState dataHex a = Ok p ↔
  ∃ v, state_accepted a v p ∧
    dataHex = hexFromBytes (state_layout v (ps_sequence p) (ps_keyId p)).
Proof.
  split; [apply parseAccountState_inv|]. intros (v & Hv & ->).
  by apply parseAccountState_layout.
Qed.

(** C16 — Agreement with the contract: state data the client accepts passes the
    on-chain validator, which reads the same sequence and a single P-256
    authenticator with the client's key that alone meets every threshold. So the
    client never builds a spend for a state the lock would refuse as malformed. *)
Theorem accepted_state_is_valid_on_chain (dataHex : string) (a : VerifiedAccount)
    (p : ParsedState) :
  parseAccountState dataHex a = Ok p →
  ∃ data v, bytesFromHex dataHex = Ok data ∧
    validate_state data = Good (one_key_header (ps_sequence p),
                                {| ss_spend := 1; ss_rotate := 1; ss_recovery := 1 |}) ∧
    parse_authenticator data 32 None = Good (one_key_entry v (ps_keyId p), len data) ∧
    codeHash (verifierP256Code (va_deployment a)) = hexFromBytes v.
Proof.
  intros (v & [Hv Hver Hsize Hs Hk] & ->)%parseAccountState_inv.
  exists (state_layout v (ps_sequence p) (ps_keyId p)), v.
  assert (Hl := state_layout_length v (ps_sequence p) (ps_keyId p) Hv Hk).
  split; [apply bytesFromHex_of_bytes; intros E; by rewrite E in Hl|].
  rewrite (layout_len _ _ _ Hv Hk).
  split; [by apply validate_state_layout|]. split; [by apply parse_authenticator_layout | done].
Qed.
