(* ===== verification/Base64.v ===== *)
(** * Base64 ([btoa], [atob]) and its URL form

    The browser functions on strings of code units below 256, and the URL-safe
    encoder and canonical decoder of [demo/src/client/passkey.ts] (the encoder is
    repeated in [demo/src/client/chain.ts]), proved inverse to each other. *)

From S2P Require Import Prelude Js JsString Regex Schemas.
From Stdlib Require Import Ascii.

(** ** [btoa] *)

Definition b64_char (z : Z) : ascii :=
  if z <? 26 then chr (65 + z) else if z <? 52 then chr (71 + z)
  else if z <? 62 then chr (z - 4) else if z =? 62 then "+"%char else "/"%char.
Definition b64_value (c : ascii) : option Z :=
  let n := code c in
  if (65 <=? n) && (n <=? 90) then Some (n - 65)
  else if (97 <=? n) && (n <=? 122) then Some (n - 71)
  else if (48 <=? n) && (n <=? 57) then Some (n + 4)
  else if n =? 43 then Some 62 else if n =? 47 then Some 63 else None.

Fixpoint btoa_codes (l : list Z) : string :=
  match l with
  | [] => ""
  | [a] => String (b64_char (a / 4)) (String (b64_char (a mod 4 * 16)) "==")
  | [a; b] => String (b64_char (a / 4)) (String (b64_char (a mod 4 * 16 + b / 16))
                (String (b64_char (b mod 16 * 4)) "="))
  | a :: b :: c :: l' =>
      String (b64_char (a / 4)) (String (b64_char (a mod 4 * 16 + b / 16))
        (String (b64_char (b mod 16 * 4 + c / 64)) (String (b64_char (c mod 64))
          (btoa_codes l'))))
  end.
Definition btoa (binary : string) : string := btoa_codes (str_codes binary).

(** ** [atob] *)

Definition is_space (c : ascii) : bool :=
  existsb (Z.eqb (code c)) [9; 10; 12; 13; 32].
Fixpoint str_filter (p : ascii → bool) (s : string) : string :=
  match s with
  | EmptyString => ""
  | String c s' => if p c then String c (str_filter p s') else str_filter p s'
  end.
(** [s] without a trailing [c]. *)
Definition drop_last (c : ascii) (s : string) : string :=
  match str_len s with
  | O => s
  | S n => if String.eqb (str_drop n s) (String c "") then str_take n s else s
  end.
Fixpoint b64_values (s : string) : option (list Z) :=
  match s with
  | EmptyString => Some []
  | String c s' =>
      match b64_value c, b64_values s' with
      | Some v, Some vs => Some (v :: vs)
      | _, _ => None
      end
  end.
(** Bits left over at the end are discarded. *)
Fixpoint b64_unpack (l : list Z) : list Z :=
  match l with
  | a :: b :: c :: d :: l' =>
      (a * 4 + b / 16) :: (b mod 16 * 16 + c / 4) :: (c mod 4 * 64 + d) :: b64_unpack l'
  | [a; b; c] => [a * 4 + b / 16; b mod 16 * 16 + c / 4]
  | [a; b] => [a * 4 + b / 16]
  | _ => []
  end.
Definition InvalidCharacterError : exn := Exn (CDOMException "InvalidCharacterError") "".
Definition str_of_codes (l : list Z) : string := String.string_of_list_ascii (chr <$> l).
Definition atob (s : string) : res string :=
  let s := str_filter (λ c, negb (is_space c)) s in
  let s := if (str_len s mod 4 =? 0)%nat then drop_last "=" (drop_last "=" s) else s in
  throw_if (str_len s mod 4 =? 1)%nat InvalidCharacterError;;
  vs ← from_option_or InvalidCharacterError (b64_values s);
  Ok (str_of_codes (b64_unpack vs)).

(** ** The URL form *)

(** [String.fromCharCode] of every byte, and back. *)
Definition binary_string (bs : bytes) : string := str_of_codes (Z_of_byte <$> bs).
Definition bytes_of_binary (s : string) : bytes := byte_of_Z <$> str_codes s.

(** [s.replace(/=+$/, "")]. *)
Fixpoint strip_trailing (c : ascii) (s : string) : string :=
  match s with
  | EmptyString => ""
  | String d s' =>
      let r := strip_trailing c s' in
      if String.eqb r "" && Ascii.eqb d c then "" else String d r
  end.

Definition base64urlEncode (bs : bytes) : string :=
  strip_trailing "=" (replaceAll "/" "_" (replaceAll "+" "-" (btoa (binary_string bs)))).

Definition PasskeyProtocolError (m : string) : exn := Exn CPasskeyProtocol m.
Definition NOT_CANONICAL : exn := PasskeyProtocolError "Credential ID is not canonical base64url".

(** The handler of the [catch] clause throws the same error for every failure. *)
Definition base64urlDecode (value : string) : res bytes :=
  throw_if (negb (test BASE64URL value)) NOT_CANONICAL;;
  let padded := padEnd ((str_len value + 3) / 4 * 4) "="
                  (replaceAll "_" "/" (replaceAll "-" "+" value)) in
  match (binary ← atob padded;
         let decoded := bytes_of_binary binary in
         throw_if ((len decoded =? 0) || negb (String.eqb (base64urlEncode decoded) value))
           (Error "non-canonical");;
         Ok decoded) with
  | Ok decoded => Ok decoded
  | Throw _ => Throw NOT_CANONICAL
  end.

Example base64url_example :
  base64urlEncode (utf8_encode "any carnal pleas>?") = "YW55IGNhcm5hbCBwbGVhcz4_" ∧
  base64urlDecode "YW55IGNhcm5hbCBwbGVhcw" = Ok (utf8_encode "any carnal pleas") ∧
  base64urlDecode "YW55IGNhcm5hbCBwbGVhcx" = Throw NOT_CANONICAL.
Proof. vm_compute. done. Qed.

(** ** Sextets *)

Fixpoint sextets (l : list Z) : list Z :=
  match l with
  | [] => []
  | [a] => [a / 4; a mod 4 * 16]
  | [a; b] => [a / 4; a mod 4 * 16 + b / 16; b mod 16 * 4]
  | a :: b :: c :: l' =>
      a / 4 :: a mod 4 * 16 + b / 16 :: b mod 16 * 4 + c / 64 :: c mod 64 :: sextets l'
  end.
Definition url_char (z : Z) : ascii :=
  let c := b64_char z in
  if Ascii.eqb c "+" then "-"%char else if Ascii.eqb c "/" then "_"%char else c.
Notation text l := (String.string_of_list_ascii l).
Definition equals (n : nat) : string := str_repeat n "=".
Definition padding (n : nat) : nat := ((4 - n mod 4) mod 4)%nat.
Definition octet (z : Z) : Prop := 0 <= z < 256.
Definition sextet (z : Z) : Prop := 0 <= z < 64.

(** Induction by groups of three. *)
Lemma list_ind3 {A} (P : list A → Prop) :
  P [] → (∀ a, P [a]) → (∀ a b, P [a; b]) →
  (∀ a b c l, P l → P (a :: b :: c :: l)) → ∀ l, P l.
Proof.
  intros H0 H1 H2 H3. fix IH 1. intros [|a [|b [|c l]]];
    [exact H0|exact (H1 a)|exact (H2 a b)|exact (H3 a b c l (IH l))].
Qed.

Lemma sextets_ok l : Forall octet l → Forall sextet (sextets l).
Proof.
  unfold octet, sextet. induction l as [|a|a b|a b c l IH] using list_ind3; intros H;
    rewrite ?List.Forall_cons_iff in H; cbn [sextets].
  - constructor.
  - repeat constructor; Z.div_mod_to_equations; lia.
  - repeat constructor; Z.div_mod_to_equations; lia.
  - do 4 (constructor; [Z.div_mod_to_equations; lia|]). apply IH. tauto.
Qed.

Lemma unpack_sextets l : Forall octet l → b64_unpack (sextets l) = l.
Proof.
  unfold octet. induction l as [|a|a b|a b c l IH] using list_ind3; intros H;
    rewrite ?List.Forall_cons_iff in H; cbn [sextets b64_unpack]; [done|..];
    try (rewrite IH by tauto); repeat f_equal; Z.div_mod_to_equations; lia.
Qed.

Lemma padding_add n : padding (4 + n) = padding n.
Proof.
  unfold padding. f_equal. f_equal. replace (4 + n)%nat with (n + 1 * 4)%nat by lia.
  by rewrite Nat.Div0.mod_add.
Qed.

Lemma btoa_codes_sextets l :
  btoa_codes l = text (b64_char <$> sextets l) +:+ equals (padding (length (sextets l))).
Proof.
  induction l as [|a|a b|a b c l IH] using list_ind3; [done..|].
  cbn [btoa_codes sextets fmap list_fmap String.string_of_list_ascii length]. rewrite IH.
  cbn [String.append]. by rewrite <- padding_add.
Qed.

Lemma sextet_facts z : sextet z →
  b64_value (b64_char z) = Some z ∧ Ascii.eqb (b64_char z) "=" = false ∧
  Ascii.eqb (url_char z) "=" = false ∧ is_base64url (url_char z) = true ∧
  is_space (b64_char z) = false ∧
  (let c := url_char z in
   let c := if Ascii.eqb c "-" then "+"%char else c in
   if Ascii.eqb c "_" then "/"%char else c) = b64_char z.
Proof.
  intros Hz. assert (H : Forall (λ z, b64_value (b64_char z) = Some z ∧
    Ascii.eqb (b64_char z) "=" = false ∧
    Ascii.eqb (url_char z) "=" = false ∧ is_base64url (url_char z) = true ∧
    is_space (b64_char z) = false ∧
    (let c := url_char z in
     let c := if Ascii.eqb c "-" then "+"%char else c in
     if Ascii.eqb c "_" then "/"%char else c) = b64_char z) (seqZ 0 64)).
  { repeat constructor. }
  rewrite Forall_forall in H. apply H, list_elem_of_In, elem_of_seqZ. unfold sextet in Hz. lia.
Qed.

Lemma text_app a b : text (a ++ b) = text a +:+ text b.
Proof. induction a; simpl; [done | by rewrite IHa]. Qed.
Lemma str_len_text l : str_len (text l) = length l.
Proof. unfold str_len. induction l; simpl; congruence. Qed.
Lemma str_map_text f l : str_map f (text l) = text (f <$> l).
Proof. induction l as [|c l IH]; cbn; [done|]. by rewrite IH. Qed.
Lemma str_map_app f a b : str_map f (a +:+ b) = str_map f a +:+ str_map f b.
Proof. induction a; simpl; congruence. Qed.
Lemma equals_text n : equals n = text (replicate n "="%char).
Proof. induction n; simpl; [done|]. unfold equals in *. simpl. by rewrite IHn. Qed.

Lemma strip_trailing_equals n : strip_trailing "=" (equals n) = "".
Proof. induction n; [done|]. cbn. unfold equals in *. by rewrite IHn. Qed.

Lemma strip_text l n :
  Forall (λ c, Ascii.eqb c "=" = false) l →
  strip_trailing "=" (text l +:+ equals n) = text l.
Proof.
  induction 1 as [|c l Hc _ IH]; cbn; [apply strip_trailing_equals|].
  rewrite IH, Hc. by rewrite andb_false_r.
Qed.

Lemma map_sextets {A} (f g : Z → A) l :
  Forall sextet l → (∀ z, sextet z → f z = g z) → f <$> l = g <$> l.
Proof. intros Hl Hfg. induction Hl; cbn; [done|]. by rewrite Hfg, <- IHHl. Qed.

Lemma sextets_Forall {A} (P : A → Prop) (f : Z → A) l :
  Forall sextet l → (∀ z, sextet z → P (f z)) → Forall P (f <$> l).
Proof. intros Hl Hf. induction Hl; cbn; constructor; auto. Qed.

Definition url_text (bs : bytes) : string := text (url_char <$> sextets (Z_of_byte <$> bs)).

Lemma str_codes_text l : Forall octet l → str_codes (str_of_codes l) = l.
Proof.
  unfold str_codes, str_of_codes. intros Hl.
  rewrite String.list_ascii_of_string_of_list_ascii.
  induction Hl as [|z l Hz _ IH]; cbn; [done|]. by rewrite code_chr, IH by apply Hz.
Qed.
Lemma octets bs : Forall octet (Z_of_byte <$> bs).
Proof. induction bs; constructor; [apply Z_of_byte_range | done]. Qed.

(** The encoder writes the URL characters of the sextets, without padding. *)
Lemma base64urlEncode_text bs : base64urlEncode bs = url_text bs.
Proof.
  unfold base64urlEncode, btoa, binary_string. rewrite str_codes_text by apply octets.
  rewrite btoa_codes_sextets. unfold replaceAll. rewrite !str_map_app, !str_map_text.
  assert (Hpad : ∀ f n, f "="%char = "="%char → str_map f (equals n) = equals n).
  { intros f n Hf. rewrite equals_text, str_map_text. f_equal.
    induction n; cbn; [done|]. by rewrite Hf, IHn. }
  rewrite !Hpad by done. rewrite <- !list_fmap_compose.
  assert (Hs := sextets_ok _ (octets bs)).
  rewrite (map_sextets _ url_char) by
    (done || (intros z _; unfold url_char, compose; cbn;
              destruct (Ascii.eqb (b64_char z) "+"); done)).
  apply strip_text, sextets_Forall; [done|]. intros z Hz. apply (sextet_facts z Hz).
Qed.

Lemma str_filter_text p l :
  Forall (λ c, p c = true) l → str_filter p (text l) = text l.
Proof. induction 1 as [|c l Hc _ IH]; cbn; [done|]. by rewrite Hc, IH. Qed.

Lemma b64_values_text l : Forall sextet l → b64_values (text (b64_char <$> l)) = Some l.
Proof.
  induction 1 as [|z l Hz _ IH]; cbn; [done|].
  destruct (sextet_facts z Hz) as (-> & _). by rewrite IH.
Qed.

Lemma drop_last_snoc l c : drop_last c (text (l ++ [c])) = text l.
Proof.
  unfold drop_last. rewrite str_len_text, length_app, Nat.add_1_r, text_app.
  rewrite <- (str_len_text l), str_drop_app, str_take_app.
  change (text [c]) with (String c ""). by rewrite String.eqb_refl.
Qed.

Lemma drop_last_other l c :
  Forall (λ d, Ascii.eqb d c = false) l → drop_last c (text l) = text l.
Proof.
  intros Hl. unfold drop_last. rewrite str_len_text.
  destruct l as [|d l _] using rev_ind; [done|].
  rewrite length_app, Nat.add_1_r, text_app. apply Forall_app in Hl as [_ Hd].
  rewrite <- (str_len_text l), str_drop_app. change (text [d]) with (String d "").
  apply List.Forall_cons_iff in Hd as [Hd _].
  destruct (String.eqb_spec (String d "") (String c "")) as [[= ->]|_]; [|done].
  by rewrite Ascii.eqb_refl in Hd.
Qed.

Lemma length_sextets_mod l : (length (sextets l) mod 4 ≠ 1)%nat.
Proof.
  induction l as [|a|a b|a b c l IH] using list_ind3; try done. cbn [sextets length].
  replace (S (S (S (S (length (sextets l)))))) with (length (sextets l) + 1 * 4)%nat by lia.
  by rewrite Nat.Div0.mod_add.
Qed.

(** Padding brings the text to a multiple of four and is removed again. *)
Lemma drop_padding l :
  Forall (λ d, Ascii.eqb d "=" = false) l → (length l mod 4 ≠ 1)%nat →
  drop_last "=" (drop_last "=" (text l +:+ equals (padding (length l)))) = text l.
Proof.
  intros Hl Hm. rewrite equals_text, <- text_app. unfold padding.
  assert (Hb := Nat.mod_upper_bound (length l) 4 ltac:(lia)).
  destruct (length l mod 4)%nat as [|[|[|[|]]]]; try lia; cbn [Nat.sub Nat.modulo Nat.divmod snd
    replicate].
  - rewrite app_nil_r, !drop_last_other by (rewrite ?drop_last_other; done). done.
  - change ["="%char; "="%char] with (["="%char] ++ ["="%char]).
    rewrite app_assoc. change (4 - 2)%nat with 2%nat. by rewrite !drop_last_snoc.
  - rewrite drop_last_snoc. by rewrite drop_last_other.
Qed.

Lemma padded_length n : ((n + padding n) mod 4 = 0)%nat.
Proof.
  unfold padding. assert (H := Nat.div_mod_eq n 4).
  assert (Hb := Nat.mod_upper_bound n 4 ltac:(lia)).
  destruct (n mod 4)%nat as [|[|[|[|]]]] eqn:E; try lia.
  - change (n + _)%nat with (n + 0)%nat. replace (n + 0)%nat with (n / 4 * 4)%nat by lia.
    apply Nat.Div0.mod_mul.
  - change (n + _)%nat with (n + 3)%nat. replace (n + 3)%nat with ((n / 4 + 1) * 4)%nat by lia.
    apply Nat.Div0.mod_mul.
  - change (n + _)%nat with (n + 2)%nat. replace (n + 2)%nat with ((n / 4 + 1) * 4)%nat by lia.
    apply Nat.Div0.mod_mul.
  - change (n + _)%nat with (n + 1)%nat. replace (n + 1)%nat with ((n / 4 + 1) * 4)%nat by lia.
    apply Nat.Div0.mod_mul.
Qed.

Lemma ceil_padding n : ((n + 3) / 4 * 4 - n = if decide (n mod 4 = 1) then 3 else padding n)%nat.
Proof.
  unfold padding. assert (H := Nat.div_mod_eq n 4).
  assert (Hb := Nat.mod_upper_bound n 4 ltac:(lia)).
  set (q := (n / 4)%nat) in *. assert (Hq : ((n + 3) / 4 = (q * 4 + (n mod 4 + 3)) / 4)%nat).
  { f_equal. lia. }
  rewrite Hq, Nat.div_add_l by lia.
  destruct (n mod 4)%nat as [|[|[|[|]]]]; try lia.
  - change ((0 + 3) / 4)%nat with 0%nat. rewrite decide_False by done.
    change ((4 - 0) mod 4)%nat with 0%nat. lia.
  - change ((1 + 3) / 4)%nat with 1%nat. rewrite decide_True by done. lia.
  - change ((2 + 3) / 4)%nat with 1%nat. rewrite decide_False by done.
    change ((4 - 2) mod 4)%nat with 2%nat. lia.
  - change ((3 + 3) / 4)%nat with 1%nat. rewrite decide_False by done.
    change ((4 - 3) mod 4)%nat with 1%nat. lia.
Qed.

(** The decoder undoes the padding and the alphabet. *)
Lemma atob_url bs :
  atob (padEnd ((str_len (url_text bs) + 3) / 4 * 4) "="
          (replaceAll "_" "/" (replaceAll "-" "+" (url_text bs)))) = Ok (binary_string bs).
Proof.
  unfold url_text. set (l := sextets (Z_of_byte <$> bs)).
  assert (Hs : Forall sextet l) by apply sextets_ok, octets.
  assert (Hm : (length l mod 4 ≠ 1)%nat) by apply length_sextets_mod.
  unfold replaceAll. rewrite !str_map_text, <- !list_fmap_compose.
  rewrite (map_sextets (_ ∘ _ ∘ url_char) b64_char) by
    (done || (intros z Hz; apply (sextet_facts z Hz))).
  unfold padEnd. rewrite !str_len_text, !length_fmap, ceil_padding, decide_False by done.
  fold (equals (padding (length l))). unfold atob.
  assert (Hall : text (b64_char <$> l) +:+ equals (padding (length l)) =
    text ((b64_char <$> l) ++ replicate (padding (length l)) "="%char))
    by by rewrite text_app, equals_text.
  rewrite Hall, str_filter_text.
  2: { apply Forall_app. split; [|by apply Forall_replicate].
       apply sextets_Forall; [done|]. intros z Hz.
       destruct (sextet_facts z Hz) as (_ & _ & _ & _ & -> & _). done. }
  rewrite str_len_text, length_app, length_fmap, length_replicate, padded_length. cbn [Nat.eqb].
  rewrite <- Hall, <- (length_fmap b64_char l), drop_padding.
  2: { apply sextets_Forall; [done|]. intros z Hz. apply (sextet_facts z Hz). }
  2: by rewrite length_fmap.
  rewrite str_len_text, length_fmap, (proj2 (Nat.eqb_neq _ _)) by done.
  cbn [throw_if mbind res_bind]. rewrite b64_values_text by done.
  cbn [from_option_or mbind res_bind]. unfold l. rewrite unpack_sextets by apply octets.
  reflexivity.
Qed.

Lemma bytes_of_binary_string bs : bytes_of_binary (binary_string bs) = bs.
Proof.
  unfold bytes_of_binary, binary_string. rewrite str_codes_text by apply octets.
  induction bs as [|b bs IH]; cbn; [done|]. by rewrite byte_of_Z_of_byte, IH.
Qed.

Lemma url_text_base64url bs : bs ≠ [] → base64url_text (url_text bs).
Proof.
  intros Hne. split.
  - destruct bs as [|a [|b [|c bs]]]; done.
  - assert (Hs := sextets_ok _ (octets bs)). unfold url_text.
    induction Hs as [|z l Hz _ IH]; cbn; [done|].
    destruct (sextet_facts z Hz) as (_ & _ & _ & -> & _). done.
Qed.

Lemma base64urlDecode_iff (s : string) (bs : bytes) :
  base64urlDecode s = Ok bs ↔ bs ≠ [] ∧ s = base64urlEncode bs.
Proof.
  split.
  - unfold base64urlDecode. intros H. inv_res.
    match type of H with match ?m with _ => _ end = _ => destruct m as [d|e] eqn:E end; [|done].
    injection H as ->. inv_res. bool_simpl. split; [|done]. intros Hd. by rewrite Hd in *.
  - intros [Hne ->]. rewrite base64urlEncode_text. unfold base64urlDecode.
    destruct (url_text_base64url bs Hne) as [Ht1 Ht2].
    rewrite (proj2 (test_lang BASE64URL _)) by by apply lang_plus_cls_iff.
    cbn [negb throw_if mbind res_bind]. rewrite atob_url. cbn [mbind res_bind].
    rewrite bytes_of_binary_string, base64urlEncode_text, String.eqb_refl.
    rewrite (proj2 (Z.eqb_neq _ _)) by (intros H%len_zero; done). done.
Qed.

(** Credential identifiers: decoding accepts a string exactly when it is the
    unpadded URL-safe base64 encoding of a non-empty byte string, and returns those
    bytes. So encoding then decoding is the identity, and no two accepted strings
    stand for one credential. *)
Theorem base64url_exact (s : string) (bs : bytes) :
  base64urlDecode s = Ok bs ↔ bs ≠ [] ∧ s = base64urlEncode bs.
Proof. apply base64urlDecode_iff. Qed.
