(* ===== verification/Effects.v ===== *)
(** * Effectful code

    Asynchronous and stateful code runs in a state-passing monad with exceptions:
    the environment (network, disk, browser) has an abstract state, and every call
    into it is recorded in a log, so that theorems can state what was called, how
    often and in which order. *)

From S2P Require Import Prelude.

Section eff.
Context {W Ev : Type}.

Record world := World { w_env : W; w_log : list Ev }.

Definition eff (A : Type) : Type := world → res A * world.

#[export] Instance eff_ret : MRet eff := λ A a w, (Ok a, w).
#[export] Instance eff_bind : MBind eff := λ A B f m w,
  match m w with
  | (Ok a, w') => f a w'
  | (Throw e, w') => (Throw e, w')
  end.

(** Pure code that may throw. *)
Definition lift {A} (m : res A) : eff A := λ w, (m, w).

(** A call into the environment: recorded, then performed. *)
Definition call {A} (ev : Ev) (f : W → res A * W) : eff A := λ w,
  let '(r, e) := f (w_env w) in (r, World e (w_log w ++ [ev])).

(** [try { m } catch (e) { h }]. *)
Definition catch {A} (m : eff A) (h : exn → eff A) : eff A := λ w,
  match m w with
  | (Ok a, w') => (Ok a, w')
  | (Throw e, w') => h e w'
  end.

(** [try { m } finally { k }] for a [k] that does not throw. *)
Definition finally {A} (m : eff A) (k : world → world) : eff A := λ w,
  let '(r, w') := m w in (r, k w').

Fixpoint mapM_eff {A B} (f : A → eff B) (l : list A) : eff (list B) :=
  match l with
  | [] => mret []
  | x :: l' => y ← f x; ys ← mapM_eff f l'; mret (y :: ys)
  end.

(** [l.forEach(f)] with awaits. *)
Fixpoint iter_eff {A} (f : A → eff unit) (l : list A) : eff unit :=
  match l with
  | [] => mret tt
  | x :: l' => f x;; iter_eff f l'
  end.

(** ** Runs *)

Lemma eff_bind_Ok {A B} (m : eff A) (f : A → eff B) w b w' :
  (m ≫= f) w = (Ok b, w') ↔ ∃ a w1, m w = (Ok a, w1) ∧ f a w1 = (Ok b, w').
Proof.
  unfold mbind, eff_bind. destruct (m w) as [[a|e] w1]; naive_solver.
Qed.

Lemma eff_bind_Throw {A B} (m : eff A) (f : A → eff B) w e w' :
  (m ≫= f) w = (Throw e, w') ↔
  m w = (Throw e, w') ∨ ∃ a w1, m w = (Ok a, w1) ∧ f a w1 = (Throw e, w').
Proof.
  unfold mbind, eff_bind. destruct (m w) as [[a|e'] w1]; naive_solver.
Qed.

Lemma eff_bind_cases {A B} (m : eff A) (f : A → eff B) w r w' :
  (m ≫= f) w = (r, w') →
  (∃ e, m w = (Throw e, w') ∧ r = Throw e) ∨
  (∃ a w1, m w = (Ok a, w1) ∧ f a w1 = (r, w')).
Proof.
  unfold mbind, eff_bind. destruct (m w) as [[a|e] w1]; [eauto|].
  intros [= <- <-]. eauto.
Qed.

Lemma lift_run {A} (m : res A) w r w' : lift m w = (r, w') ↔ r = m ∧ w' = w.
Proof. unfold lift. naive_solver. Qed.

Lemma call_run {A} ev (f : W → res A * W) w r w' :
  call ev f w = (r, w') ↔
  f (w_env w) = (r, w_env w') ∧ w_log w' = w_log w ++ [ev].
Proof.
  unfold call. destruct (f (w_env w)) as [r0 e0]. split.
  - intros [= <- <-]. done.
  - intros [[= -> ->] H]. destruct w'. cbn in *. by subst.
Qed.

(** Code that only appends to the log. *)
Definition extends (w w' : world) : Prop := ∃ l, w_log w' = w_log w ++ l.
Lemma extends_refl w : extends w w.
Proof. exists []. by rewrite app_nil_r. Qed.
Lemma extends_trans w1 w2 w3 : extends w1 w2 → extends w2 w3 → extends w1 w3.
Proof. intros [l1 H1] [l2 H2]. exists (l1 ++ l2). by rewrite H2, H1, app_assoc. Qed.
End eff.
Arguments world : clear implicits.
Arguments World {W Ev}.
Arguments eff : clear implicits.

(** Split a successful run into its steps. *)
Ltac inv_run_step :=
  match goal with
  | H : mbind _ _ _ = (Ok _, _) |- _ =>
      apply eff_bind_Ok in H; let x := fresh "v" in let w := fresh "w" in
      destruct H as (x & w & ? & H); cbv beta in H
  | H : lift _ _ = (_, _) |- _ => apply lift_run in H as [? ?]
  | H : (let '(_, _) := ?p in _) _ = (Ok _, _) |- _ => destruct p
  | H : mret _ _ = (_, _) |- _ => unfold mret, eff_ret in H
  | H : (_, _) = (_, _) |- _ => injection H; clear H; intros
  | H : Ok _ = throw_if _ _ |- _ => symmetry in H
  | H : Ok _ = from_option_or _ _ |- _ => symmetry in H
  end.
Ltac inv_run := repeat (inv_run_step; try subst).

(** Follow a run of any outcome: the failure of its first step, or the rest. *)
Ltac run_step H :=
  apply eff_bind_cases in H;
  let e := fresh "e" in let a := fresh "v" in let w1 := fresh "w" in let Hm := fresh "Hm" in
  destruct H as [(e & Hm & ->)|(a & w1 & Hm & H)];
  first [ apply lift_run in Hm as [Hm ->]
        | let Hl := fresh "Hl" in apply call_run in Hm as [Hm Hl] | idtac ].

(** Collect the log of a run, up to the current state, as one list. *)
Ltac log_eq :=
  repeat match goal with H : w_log ?x = _ |- w_log ?x = _ => rewrite H
                       | H : w_log ?x = _ |- context [w_log ?x ++ _] => rewrite H end;
  rewrite <- ?app_assoc; cbn [app];
  first [reflexivity | symmetry; apply app_nil_r].
