(* ===== verification/Json.v ===== *)
(** * JSON text

    [JSON.parse] after the fatal UTF-8 decoder, as an interface: a partial function
    from bytes to values, about which the development assumes nothing. [json_ref] is
    a parser for texts of code units below 128, for concrete runs. *)

From S2P Require Import Prelude Js JsString Zod.
From Stdlib Require Import Ascii.

Class Json := {
  (** [JSON.parse(new TextDecoder("utf-8", { fatal: true }).decode(bytes))] *)
  json_parse_utf8 : bytes → option jsval;
  (** [JSON.parse(buffer.toString("utf8"))] *)
  json_parse_buffer : bytes → option jsval;
  (** [JSON.parse(text)] *)
  json_parse : string → option jsval }.

Definition is_ws (c : ascii) : bool := existsb (Z.eqb (code c)) [9; 10; 13; 32].
Fixpoint skip_ws (s : string) : string :=
  match s with String c s' => if is_ws c then skip_ws s' else s | EmptyString => "" end.

(** The rest of a string literal, after its opening quote. *)
Definition QUOTE : ascii := chr 34.
Definition BACKSLASH : ascii := chr 92.
Definition escaped (c : ascii) : option ascii :=
  if Ascii.eqb c QUOTE || Ascii.eqb c BACKSLASH || Ascii.eqb c "/" then Some c
  else if Ascii.eqb c "n" then Some (chr 10) else if Ascii.eqb c "t" then Some (chr 9)
  else if Ascii.eqb c "r" then Some (chr 13) else if Ascii.eqb c "b" then Some (chr 8)
  else if Ascii.eqb c "f" then Some (chr 12) else None.
(** Four hexadecimal digits; a code unit from 256 on is outside the model's strings. *)
Definition hex_digit (c : ascii) : option Z :=
  match digit_value c with Some d => if d <? 16 then Some d else None | None => None end.
Definition code_unit (a b c d : ascii) : option ascii :=
  match hex_digit a, hex_digit b, hex_digit c, hex_digit d with
  | Some a, Some b, Some c, Some d =>
      if (a =? 0) && (b =? 0) then Some (chr (16 * c + d)) else None
  | _, _, _, _ => None
  end.
Fixpoint string_body (s : string) : option (string * string) :=
  match s with
  | EmptyString => None
  | String c s' =>
      if Ascii.eqb c QUOTE then Some ("", s')
      else if code c <? 32 then None
      else if Ascii.eqb c BACKSLASH then
        match s' with
        | String "u" (String h1 (String h2 (String h3 (String h4 s'')))) =>
            match code_unit h1 h2 h3 h4, string_body s'' with
            | Some x, Some (t, r) => Some (String x t, r)
            | _, _ => None
            end
        | String d s'' =>
            match escaped d, string_body s'' with
            | Some x, Some (t, r) => Some (String x t, r)
            | _, _ => None
            end
        | EmptyString => None
        end
      else match string_body s' with Some (t, r) => Some (String c t, r) | None => None end
  end.

Fixpoint digits (s : string) (acc : Z) : Z * string :=
  match s with
  | String c s' =>
      if (48 <=? code c) && (code c <=? 57) then digits s' (acc * 10 + (code c - 48))
      else (acc, s)
  | EmptyString => (acc, "")
  end.
(** An integer without leading zeros. *)
Definition integer (s : string) : option (Z * string) :=
  match s with
  | String c s' =>
      if Ascii.eqb c "0" then Some (0, s')
      else if (49 <=? code c) && (code c <=? 57) then Some (digits s 0) else None
  | EmptyString => None
  end.

Definition literal (w : string) (v : jsval) (s : string) : option (jsval * string) :=
  if startsWith w s then Some (v, str_drop (str_len w) s) else None.

Fixpoint value (fuel : nat) (s : string) : option (jsval * string) :=
  match fuel with
  | O => None
  | S fuel' =>
      match skip_ws s with
      | EmptyString => None
      | String c s' =>
          if Ascii.eqb c QUOTE then
            match string_body s' with Some (t, r) => Some (JStr t, r) | None => None end
          else if Ascii.eqb c "{" then
            match skip_ws s' with
            | String "}" r => Some (JObj [], r)
            | _ => members fuel' s' []
            end
          else if Ascii.eqb c "[" then
            match skip_ws s' with
            | String "]" r => Some (JArr [], r)
            | _ => elements fuel' s' []
            end
          else if Ascii.eqb c "t" then literal "true" (JBool true) (skip_ws s)
          else if Ascii.eqb c "f" then literal "false" (JBool false) (skip_ws s)
          else if Ascii.eqb c "n" then literal "null" JNull (skip_ws s)
          else if Ascii.eqb c "-" then
            match integer s' with Some (z, r) => Some (JNum (NInt (- z)), r) | None => None end
          else match integer (skip_ws s) with
               | Some (z, r) => Some (JNum (NInt z), r) | None => None end
      end
  end
with members (fuel : nat) (s : string) (acc : list (string * jsval)) : option (jsval * string) :=
  match fuel with
  | O => None
  | S fuel' =>
      match skip_ws s with
      | String q s' =>
          if Ascii.eqb q QUOTE then
            match string_body s' with
            | Some (k, r) =>
                match skip_ws r with
                | String ":" r =>
                    match value fuel' r with
                    | Some (v, r) =>
                        let acc := override acc (k, v) in
                        match skip_ws r with
                        | String "," r => members fuel' r acc
                        | String "}" r => Some (JObj acc, r)
                        | _ => None
                        end
                    | None => None
                    end
                | _ => None
                end
            | None => None
            end
          else None
      | EmptyString => None
      end
  end
with elements (fuel : nat) (s : string) (acc : list jsval) : option (jsval * string) :=
  match fuel with
  | O => None
  | S fuel' =>
      match value fuel' s with
      | Some (v, r) =>
          match skip_ws r with
          | String "," r => elements fuel' r (acc ++ [v])
          | String "]" r => Some (JArr (acc ++ [v]), r)
          | _ => None
          end
      | None => None
      end
  end.

(** Every step of the parser consumes a character or descends once per level. *)
Definition json_text (s : string) : option jsval :=
  match value (2 * str_len s + 2) s with
  | Some (v, r) => if String.eqb (skip_ws r) "" then Some v else None
  | None => None
  end.

Definition ascii_json (bs : bytes) : option jsval :=
  if forallb (λ b, Z_of_byte b <? 128) bs
  then json_text (String.string_of_list_ascii (chr <$> (Z_of_byte <$> bs))) else None.
#[export] Instance json_ref : Json := {|
  json_parse_utf8 := ascii_json; json_parse_buffer := ascii_json; json_parse := json_text |}.

(** ** [JSON.stringify] *)

Definition escape_char (c : ascii) : string :=
  if Ascii.eqb c QUOTE || Ascii.eqb c BACKSLASH then String BACKSLASH (String c "")
  else if code c <? 32 then
    String BACKSLASH
      (if code c =? 8 then "b" else if code c =? 9 then "t" else if code c =? 10 then "n"
       else if code c =? 12 then "f" else if code c =? 13 then "r"
       else "u00" +:+ padStart 2 "0" (to_radix 16 (code c)))
  else String c "".
Fixpoint escape (s : string) : string :=
  match s with EmptyString => "" | String c s' => escape_char c +:+ escape s' end.
Definition quote (s : string) : string := String QUOTE (escape s) +:+ String QUOTE "".

Definition number_json (n : number) : string :=
  match n with NNaN | NPosInf | NNegInf => "null" | _ => number_text n end.

(** [JSON.stringify(v, null, indent)]: members on lines of their own when [indent] is
    positive. *)
Definition newline (indent depth : nat) : string :=
  match indent with O => "" | _ => String (chr 10) (str_repeat (indent * depth) " ") end.
Definition colon (indent : nat) : string := match indent with O => ":" | _ => ": " end.
Definition enclose (l r : string) (indent depth : nat) (items : list string) : string :=
  match items with
  | [] => l +:+ r
  | _ => l +:+ newline indent (S depth) +:+
         String.concat ("," +:+ newline indent (S depth)) items +:+ newline indent depth +:+ r
  end.
(** Members that are [undefined] are left out. *)
Fixpoint stringify (indent depth : nat) (v : jsval) : string :=
  match v with
  | JUndef | JNull => "null"
  | JBool b => if b then "true" else "false"
  | JNum n => number_json n
  | JStr s => quote s
  | JArr l => enclose "[" "]" indent depth (stringify indent (S depth) <$> l)
  | JObj fs => enclose "{" "}" indent depth
      (omap (λ kv, match kv.2 with
                   | JUndef => None
                   | _ => Some (quote kv.1 +:+ colon indent +:+ stringify indent (S depth) kv.2)
                   end) fs)
  end.
Definition JSON_stringify (v : jsval) : string := stringify 0 0 v.
Definition JSON_stringify_pretty (v : jsval) : string := stringify 2 0 v.

Definition stringify_sample : jsval := JObj [
  ("a", JNum (NInt (-12))); ("b", JArr [JStr (String QUOTE "x"); JNull; JBool true]);
  ("c", JUndef); ("d", JObj []); ("e", JStr "/+=")].
Example stringify_parses :
  json_text (JSON_stringify stringify_sample) = json_text (JSON_stringify_pretty stringify_sample) ∧
  json_text (JSON_stringify stringify_sample) = Some (JObj [
    ("a", JNum (NInt (-12))); ("b", JArr [JStr (String QUOTE "x"); JNull; JBool true]);
    ("d", JObj []); ("e", JStr "/+=")]).
Proof. vm_compute. done. Qed.
