(* ===== verification/JsonLaws.v ===== *)
(** * Printing and reading JSON

    [JSON.parse] inverts [JSON.stringify], compact or indented, on the values the
    program exchanges: an interface law for the components that store and send JSON,
    proved for the reference parser. *)

From S2P Require Import Prelude Js JsString Zod Json.
From Stdlib Require Import Ascii.

(** Values that survive a round trip: no [undefined], integers in the safe range, and
    objects whose keys are distinct and not array indices (which an object reorders). *)
Definition ordinary_key (k : string) : bool :=
  negb (str_all (λ c, (48 <=? code c) && (code c <=? 57)) k).
Fixpoint distinct_keys {A} (fs : list (string * A)) : bool :=
  match fs with
  | [] => true
  | (k, _) :: fs' => match assoc k fs' with Some _ => false | None => distinct_keys fs' end
  end.
Fixpoint json_plain (v : jsval) : bool :=
  match v with
  | JUndef => false
  | JNull | JBool _ | JStr _ => true
  | JNum (NInt z) => Z.abs z <=? MAX_SAFE_INTEGER
  | JNum _ => false
  | JArr l => forallb json_plain l
  | JObj fs => distinct_keys fs &&
      forallb (λ kv, match kv with (k, v) => ordinary_key k && json_plain v end) fs
  end.

Definition is_ascii (c : ascii) : bool := code c <? 128.

Class JsonLaws `{Json} : Prop := {
  json_parse_compact v : json_plain v = true → json_parse (JSON_stringify v) = Some v;
  json_parse_line v : json_plain v = true →
    json_parse (JSON_stringify v +:+ String (chr 10) "") = Some v;
  json_parse_pretty v : json_plain v = true →
    json_parse (JSON_stringify_pretty v +:+ String (chr 10) "") = Some v;
  json_parse_ascii s : str_all is_ascii s = true →
    json_parse_buffer (utf8_encode s) = json_parse s }.

(** ** Lexical elements *)

Lemma skip_ws_app ws s : str_all is_ws ws = true → skip_ws (ws +:+ s) = skip_ws s.
Proof.
  induction ws as [|c ws IH]; [done|]. simpl. intros [Hc H]%andb_true_iff.
  rewrite Hc. by apply IH.
Qed.

Lemma newline_ws i d : str_all is_ws (newline i d) = true.
Proof.
  destruct i as [|i]; [done|]. unfold newline. cbn [str_all].
  generalize (S i * d)%nat. intros n. induction n; [done|]. done.
Qed.
Lemma colon_ws i : ∃ ws, colon i = ":" +:+ ws ∧ str_all is_ws ws = true.
Proof. destruct i; [by exists ""|by exists " "]. Qed.

Lemma string_body_char c t :
  string_body (escape_char c +:+ t) =
    match string_body t with Some (x, r) => Some (String c x, r) | None => None end.
Proof. destruct c as [[] [] [] [] [] [] [] []]; reflexivity. Qed.

Lemma string_body_escape s rest :
  string_body (escape s +:+ String QUOTE rest) = Some (s, rest).
Proof.
  induction s as [|c s IH]; [done|]. cbn [escape].
  by rewrite str_app_assoc, string_body_char, IH.
Qed.

(** ** Integers *)

Definition is_dec (c : ascii) : bool := (48 <=? code c) && (code c <=? 57).
Definition delimited (s : string) : bool :=
  match s with EmptyString => true | String c _ => negb (is_dec c) end.

Lemma digit_char_dec d : 0 <= d < 10 → code (digit_char d) = 48 + d.
Proof.
  intros H. unfold digit_char. rewrite (proj2 (Z.ltb_lt _ _)) by lia.
  rewrite code_chr by lia. done.
Qed.

Lemma digits_delimited s a : delimited s = true → digits s a = (a, s).
Proof. destruct s as [|c s]; [done|]. cbn. unfold is_dec. by intros ->%negb_true_iff. Qed.

Lemma digits_digit d s a : 0 <= d < 10 → digits (String (digit_char d) s) a = digits s (a * 10 + d).
Proof.
  intros H. cbn [digits]. rewrite digit_char_dec by done.
  rewrite !(proj2 (Z.leb_le _ _)) by lia. cbn [andb]. do 2 f_equal. lia.
Qed.

Lemma radix_digits_app fuel z a b :
  radix_digits fuel 10 z (a +:+ b) = radix_digits fuel 10 z a +:+ b.
Proof.
  revert z a. induction fuel as [|fuel IH]; intros z a; [done|]. cbn [radix_digits].
  destruct (z / 10 =? 0); [done|]. apply (IH (z / 10) (String _ a)).
Qed.

Lemma radix_digits_read fuel z acc a :
  0 <= z < 10 ^ Z.of_nat fuel → (0 < fuel)%nat →
  ∃ k : Z, 0 <= k ∧ digits (radix_digits fuel 10 z acc) a = digits acc (a * 10 ^ k + z).
Proof.
  revert z acc a. induction fuel as [|fuel IH]; intros z acc a Hz Hf; [lia|].
  rewrite Nat2Z.inj_succ, Z.pow_succ_r in Hz by lia.
  pose proof (Z.mod_pos_bound z 10 ltac:(lia)) as Hm.
  pose proof (Z.div_mod z 10 ltac:(lia)) as Hdm.
  cbn [radix_digits]. destruct (z / 10 =? 0) eqn:E; bool_simpl.
  - exists 1. split; [lia|]. rewrite digits_digit by lia. f_equal. lia.
  - destruct (IH (z / 10) (String (digit_char (z mod 10)) acc) a) as (k & Hk & ->);
      [lia|destruct fuel; [simpl in Hz; lia|lia]|].
    exists (Z.succ k). split; [lia|]. rewrite digits_digit by lia. f_equal.
    rewrite Z.pow_succ_r by lia. lia.
Qed.

Lemma radix_digits_head fuel z acc :
  0 < z < 10 ^ Z.of_nat fuel → (0 < fuel)%nat →
  ∃ d s, 1 <= d < 10 ∧ radix_digits fuel 10 z acc = String (digit_char d) s.
Proof.
  revert z acc. induction fuel as [|fuel IH]; intros z acc Hz Hf; [lia|].
  rewrite Nat2Z.inj_succ, Z.pow_succ_r in Hz by lia.
  pose proof (Z.mod_pos_bound z 10 ltac:(lia)) as Hm.
  pose proof (Z.div_mod z 10 ltac:(lia)) as Hdm.
  cbn [radix_digits]. destruct (z / 10 =? 0) eqn:E; bool_simpl.
  - eexists _, _. split; [|done]. lia.
  - apply IH; [lia|destruct fuel; [simpl in Hz; lia|lia]].
Qed.

Lemma dec_fuel z : 0 <= z → z < 10 ^ Z.of_nat (S (Z.to_nat (Z.log2 z))).
Proof.
  intros Hz. apply Z.lt_le_trans with (2 ^ Z.of_nat (S (Z.to_nat (Z.log2 z)))).
  - rewrite Nat2Z.inj_succ, Z2Nat.id by apply Z.log2_nonneg.
    destruct (decide (z = 0)) as [->|]; [done|]. apply Z.log2_spec. lia.
  - apply Z.pow_le_mono_l. lia.
Qed.

(** A printed natural number is a digit that reads back; the digit is zero only alone. *)
Lemma dec_shape z rest : 0 <= z → delimited rest = true →
  ∃ c s, dec z +:+ rest = String c s ∧ is_dec c = true ∧
    integer (dec z +:+ rest) = Some (z, rest).
Proof.
  intros Hz Hr. pose proof (dec_fuel z Hz) as Hf. unfold dec, to_radix.
  rewrite (proj2 (Z.ltb_ge z 0)) by done. rewrite <- radix_digits_app. change ("" +:+ rest) with rest.
  destruct (decide (z = 0)) as [->|Hnz].
  { exists "0"%char, rest. done. }
  set (n := S (Z.to_nat (Z.log2 z))) in *.
  destruct (radix_digits_head n z rest ltac:(split; lia) ltac:(lia)) as (d & s & Hd & E).
  destruct (radix_digits_read n z rest 0 ltac:(split; lia) ltac:(lia)) as (k & _ & Hread).
  exists (digit_char d), s. split; [done|].
  assert (Hc := digit_char_dec d ltac:(lia)). unfold is_dec.
  split; [rewrite Hc; lia|]. rewrite E in *. unfold integer.
  destruct (Ascii.eqb_spec (digit_char d) "0") as [E0|_].
  { rewrite E0 in Hc. change (48 = 48 + d) in Hc. lia. }
  rewrite Hc. assert ((49 <=? 48 + d) && (48 + d <=? 57) = true) as -> by lia.
  rewrite Hread, digits_delimited by done. reflexivity.
Qed.

(** ** Values *)

Section jsval_ind.
Variable P : jsval → Prop.
Hypothesis Hu : P JUndef.
Hypothesis Hn : P JNull.
Hypothesis Hb : ∀ b, P (JBool b).
Hypothesis Hz : ∀ n, P (JNum n).
Hypothesis Hs : ∀ s, P (JStr s).
Hypothesis Ha : ∀ l, Forall P l → P (JArr l).
Hypothesis Ho : ∀ fs, Forall (λ kv, P kv.2) fs → P (JObj fs).

Fixpoint jsval_nested_ind (v : jsval) : P v :=
  match v with
  | JUndef => Hu
  | JNull => Hn
  | JBool b => Hb b
  | JNum n => Hz n
  | JStr s => Hs s
  | JArr l => Ha l ((fix all l : Forall P l :=
      match l with [] => Forall_nil_2 _ | v :: l' => Forall_cons_2 _ v l' (jsval_nested_ind v) (all l') end) l)
  | JObj fs => Ho fs ((fix all fs : Forall (λ kv, P kv.2) fs :=
      match fs with
      | [] => Forall_nil_2 _
      | kv :: fs' => Forall_cons_2 _ kv fs' (jsval_nested_ind kv.2) (all fs')
      end) fs)
  end.
End jsval_ind.

(** Descents of the parser through a value. *)
Fixpoint weight (v : jsval) : nat :=
  match v with
  | JArr l => S (sum_list_with (λ v, S (weight v)) l)
  | JObj fs => S (sum_list_with (λ kv, match kv with (_, v) => S (weight v) end) fs)
  | _ => 1
  end.

Section printed.
Context (i : nat).

(** A member and an element, printed at some depth. *)
Definition member_text (depth : nat) (kv : string * jsval) : string :=
  quote kv.1 +:+ colon i +:+ stringify i depth kv.2.
(** The printed items up to the closing bracket. *)
Fixpoint items_text {A} (item : A → string) (depth : nat) (l : list A) (close : string) : string :=
  match l with
  | [] => close
  | [x] => item x +:+ newline i depth +:+ close
  | x :: l' => item x +:+ "," +:+ newline i (S depth) +:+ items_text item depth l' close
  end.

Lemma concat_items {A} (item : A → string) depth x l tail :
  String.concat ("," +:+ newline i (S depth)) (item <$> x :: l) +:+ newline i depth +:+ tail =
  items_text item depth (x :: l) tail.
Proof.
  revert x. induction l as [|y l IH]; intros x; [done|].
  change (String.concat ?sep (item <$> x :: y :: l)) with
    (item x +:+ sep +:+ String.concat sep (item <$> y :: l)).
  rewrite !str_app_assoc, IH. reflexivity.
Qed.

Lemma enclose_text {A} (item : A → string) l depth open_ close rest :
  enclose open_ close i depth (item <$> l) +:+ rest =
  open_ +:+ match l with
            | [] => close +:+ rest
            | _ => newline i (S depth) +:+ items_text item depth l (close +:+ rest)
            end.
Proof.
  destruct l as [|x l]; unfold enclose; cbn [fmap list_fmap]; rewrite !str_app_assoc; [done|].
  do 2 f_equal. apply (concat_items item depth x l).
Qed.

Lemma plain_members depth fs :
  forallb (λ kv, match kv with (k, v) => ordinary_key k && json_plain v end) fs = true →
  omap (λ kv, match kv.2 with
              | JUndef => None
              | _ => Some (quote kv.1 +:+ colon i +:+ stringify i depth kv.2)
              end) fs = member_text depth <$> fs.
Proof.
  induction fs as [|[k v] fs IH]; [done|]. cbn [forallb]. intros [[_ Hv]%andb_true_iff H]%andb_true_iff.
  cbn [fmap list_fmap]. rewrite <- IH by done. by destruct v.
Qed.

Lemma newline_delimited depth close :
  delimited close = true → delimited (newline i depth +:+ close) = true.
Proof. by destruct i. Qed.

(** What reads back when it is followed by a delimiter. *)
Definition reads (v : jsval) : Prop :=
  json_plain v = true → ∀ depth rest fuel, delimited rest = true → (weight v <= fuel)%nat →
  value fuel (stringify i depth v +:+ rest) = Some (v, rest).

Lemma assoc_app {A} k (a b : list (string * A)) :
  assoc k (a ++ b) = match assoc k a with Some v => Some v | None => assoc k b end.
Proof. induction a as [|[k' v] a IH]; cbn; [done|]. by destruct (String.eqb k k'). Qed.

Lemma override_new (acc : list (string * jsval)) k v :
  assoc k acc = None → override acc (k, v) = acc ++ [(k, v)].
Proof. unfold override. cbn. by intros ->. Qed.

Lemma value_ws fuel ws s : str_all is_ws ws = true → value fuel (ws +:+ s) = value fuel s.
Proof. intros H. destruct fuel; [done|]. cbn [value]. by rewrite skip_ws_app. Qed.

Lemma assoc_None_not_in {A} k (v : A) l : assoc k l = None → (k, v) ∉ l.
Proof.
  induction l as [|[k' v'] l IH]; cbn; [intros _; apply not_elem_of_nil|].
  destruct (String.eqb_spec k k') as [->|Hne]; [done|]. intros H.
  apply not_elem_of_cons. split; [by intros [= <- _]|by apply IH].
Qed.

Lemma members_step fuel ws k v tail acc :
  str_all is_ws ws = true → reads v → json_plain v = true → (weight v <= fuel)%nat →
  delimited tail = true → ∀ depth,
  members (S fuel) (ws +:+ member_text depth (k, v) +:+ tail) acc =
    match skip_ws tail with
    | String "," r => members fuel r (override acc (k, v))
    | String "}" r => Some (JObj (override acc (k, v)), r)
    | _ => None
    end.
Proof.
  intros Hws Hv Hp Hf Ht depth. unfold member_text. cbn [members fst snd].
  rewrite skip_ws_app by done. unfold quote.
  rewrite !str_app_assoc. cbn [String.app skip_ws].
  change (is_ws QUOTE) with false. cbv iota. rewrite Ascii.eqb_refl, string_body_escape.
  destruct (colon_ws i) as (cw & -> & Hcw). rewrite str_app_assoc.
  cbn [String.app skip_ws]. change (is_ws ":") with false. cbv iota.
  by rewrite value_ws, (Hv Hp depth tail fuel Ht Hf).
Qed.

Lemma elements_step fuel ws v tail acc :
  str_all is_ws ws = true → reads v → json_plain v = true → (weight v <= fuel)%nat →
  delimited tail = true → ∀ depth,
  elements (S fuel) (ws +:+ stringify i depth v +:+ tail) acc =
    match skip_ws tail with
    | String "," r => elements fuel r (acc ++ [v])
    | String "]" r => Some (JArr (acc ++ [v]), r)
    | _ => None
    end.
Proof.
  intros Hws Hv Hp Hf Ht depth. cbn [elements].
  by rewrite value_ws, (Hv Hp depth tail fuel Ht Hf).
Qed.

Definition fields_weight (fs : list (string * jsval)) : nat :=
  sum_list_with (λ kv, match kv with (_, v) => S (weight v) end) fs.
Definition list_weight (l : list jsval) : nat := sum_list_with (λ v, S (weight v)) l.

Lemma members_read depth fs : Forall (λ kv, reads kv.2) fs → ∀ fuel ws acc rest,
  fs ≠ [] → str_all is_ws ws = true → distinct_keys fs = true →
  (∀ k v, (k, v) ∈ fs → assoc k acc = None) →
  forallb (λ kv, match kv with (k, v) => ordinary_key k && json_plain v end) fs = true →
  (fields_weight fs <= fuel)%nat →
  members fuel (ws +:+ items_text (member_text (S depth)) depth fs ("}" +:+ rest)) acc =
    Some (JObj (acc ++ fs), rest).
Proof.
  induction 1 as [|[k v] fs Hv _ IH]; intros fuel ws acc rest Hne Hws Hd Hacc Hp Hf; [done|].
  cbn [forallb] in Hp. apply andb_true_iff in Hp as [[_ Hpv]%andb_true_iff Hp].
  cbn [distinct_keys] in Hd. destruct (assoc k fs) eqn:Hk; [done|].
  unfold fields_weight in Hf. cbn [sum_list_with] in Hf.
  destruct fuel as [|fuel]; [lia|].
  assert (Hnew : override acc (k, v) = acc ++ [(k, v)])
    by (apply override_new, (Hacc k v); by left).
  destruct fs as [|kv fs].
  - cbn [items_text]. rewrite members_step; [|done..|lia|by apply newline_delimited].
    rewrite skip_ws_app by apply newline_ws. cbn [String.app skip_ws].
    change (is_ws "}") with false. cbv iota. by rewrite Hnew.
  - change (items_text ?it depth ((k, v) :: kv :: fs) ?c) with
      (it (k, v) +:+ "," +:+ newline i (S depth) +:+ items_text it depth (kv :: fs) c).
    rewrite members_step by (done || lia). cbn [String.app skip_ws].
    change (is_ws ",") with false. cbv iota. rewrite Hnew.
    change (String "}" rest) with ("}" +:+ rest).
    rewrite IH; [|done|apply newline_ws|done| |done|unfold fields_weight; lia].
    + by rewrite <- app_assoc.
    + intros k' v' Hin. rewrite assoc_app, (Hacc k' v') by (by right). cbn.
      destruct (String.eqb_spec k' k) as [->|]; [|done].
      exfalso. by eapply assoc_None_not_in.
Qed.

Lemma elements_read depth l : Forall reads l → ∀ fuel ws acc rest,
  l ≠ [] → str_all is_ws ws = true → forallb json_plain l = true →
  (list_weight l <= fuel)%nat →
  elements fuel (ws +:+ items_text (stringify i (S depth)) depth l ("]" +:+ rest)) acc =
    Some (JArr (acc ++ l), rest).
Proof.
  induction 1 as [|v l Hv _ IH]; intros fuel ws acc rest Hne Hws Hp Hf; [done|].
  cbn [forallb] in Hp. apply andb_true_iff in Hp as [Hpv Hp].
  unfold list_weight in Hf. cbn [sum_list_with] in Hf. destruct fuel as [|fuel]; [lia|].
  destruct l as [|v' l].
  - cbn [items_text]. rewrite elements_step; [|done..|lia|by apply newline_delimited].
    rewrite skip_ws_app by apply newline_ws. reflexivity.
  - change (items_text ?it depth (v :: v' :: l) ?c) with
      (it v +:+ "," +:+ newline i (S depth) +:+ items_text it depth (v' :: l) c).
    rewrite elements_step by (done || lia). cbn [String.app skip_ws].
    change (is_ws ",") with false. cbv iota.
    change (String "]" rest) with ("]" +:+ rest).
    rewrite IH; [by rewrite <- app_assoc|done|apply newline_ws|done|unfold list_weight; lia].
Qed.

Lemma dec_head z : 0 <= z → ∃ c s, dec z = String c s ∧ is_dec c = true.
Proof.
  intros Hz. destruct (dec_shape z "" Hz eq_refl) as (c & s & E & Hc & _).
  rewrite str_app_nil_r in E. eauto.
Qed.
Lemma is_dec_plain c : is_dec c = true →
  is_ws c = false ∧ Ascii.eqb c "]" = false ∧ Ascii.eqb c QUOTE = false ∧
  Ascii.eqb c "{" = false ∧ Ascii.eqb c "[" = false ∧ Ascii.eqb c "t" = false ∧
  Ascii.eqb c "f" = false ∧ Ascii.eqb c "n" = false ∧ Ascii.eqb c "-" = false.
Proof. destruct c as [[] [] [] [] [] [] [] []]; try done; intros H; discriminate H. Qed.

(** The first character of a printed value is not the closing bracket. *)
Lemma stringify_head d v rest :
  json_plain v = true → ∃ c s, stringify i d v +:+ rest = String c s ∧
    is_ws c = false ∧ Ascii.eqb c "]" = false.
Proof.
  destruct v as [| |[]|n|s|l|fs]; cbn [json_plain stringify]; try done;
    try (intros; eexists _, _; split; [reflexivity|done]).
  - destruct n as [z| | | |]; try done. cbn [number_json number_text]. intros _.
    destruct (Z.ltb_spec z 0) as [Hz|Hz].
    + unfold dec, to_radix. rewrite (proj2 (Z.ltb_lt z 0)) by done.
      eexists _, _. split; [reflexivity|done].
    + destruct (dec_head z Hz) as (c & t & -> & Hc). apply is_dec_plain in Hc as (? & ? & _).
      eexists _, _. split; [reflexivity|done].
  - intros _. unfold enclose. destruct (stringify i (S d) <$> l); eexists _, _; by split.
  - intros _. unfold enclose. destruct (omap _ fs); eexists _, _; by split.
Qed.

Lemma reads_number z : reads (JNum (NInt z)).
Proof.
  intros _ depth rest [|fuel] Hr Hf; [cbn in Hf; lia|].
  cbn [stringify number_json number_text].
  destruct (Z.ltb_spec z 0) as [Hz|Hz].
  - assert (dec z = "-" +:+ dec (- z)) as ->.
    { unfold dec, to_radix. rewrite (proj2 (Z.ltb_lt z 0)), (proj2 (Z.ltb_ge (- z) 0)) by lia.
      done. }
    destruct (dec_shape (- z) rest ltac:(lia) Hr) as (c & s & _ & _ & Hi).
    rewrite str_app_assoc. cbn [value String.app skip_ws].
    change (is_ws "-") with false. cbv iota beta. cbn [Ascii.eqb Bool.eqb QUOTE].
    rewrite Hi. cbn. by rewrite Z.opp_involutive.
  - destruct (dec_shape z rest Hz Hr) as (c & s & E & Hc & Hi).
    cbn [value]. rewrite E in *. cbn [skip_ws].
    destruct (is_dec_plain c Hc) as (-> & _ & -> & -> & -> & -> & -> & -> & ->). cbv iota.
    by rewrite Hi.
Qed.

Lemma reads_all v : reads v.
Proof.
  induction v as [| |b|n|s|l IH|fs IH] using jsval_nested_ind.
  - done.
  - intros _ depth rest [|fuel] _ Hf; [cbn in Hf; lia|]. reflexivity.
  - intros _ depth rest [|fuel] _ Hf; [cbn in Hf; lia|]. by destruct b.
  - destruct n; try done. apply reads_number.
  - intros _ depth rest [|fuel] _ Hf; [cbn in Hf; lia|]. cbn [stringify]. unfold quote.
    rewrite !str_app_assoc. cbn [String.app value skip_ws]. change (is_ws QUOTE) with false.
    cbv iota. by rewrite Ascii.eqb_refl, string_body_escape.
  - intros Hp depth rest [|fuel] _ Hf; cbn [json_plain weight] in *; [lia|].
    cbn [stringify]. rewrite enclose_text. destruct l as [|v l]; [reflexivity|].
    pose proof (elements_read depth (v :: l) IH fuel _ [] rest ltac:(done) (newline_ws i (S depth))
      Hp ltac:(unfold list_weight; lia)) as He.
    cbn [forallb] in Hp. apply andb_true_iff in Hp as [Hpv _].
    assert (∃ c s, items_text (stringify i (S depth)) depth (v :: l) ("]" +:+ rest) = String c s ∧
      is_ws c = false ∧ Ascii.eqb c "]" = false) as (c & s & E & Hws & Hc)
      by (destruct l; apply stringify_head, Hpv).
    assert (Hsk : skip_ws (newline i (S depth) +:+
        items_text (stringify i (S depth)) depth (v :: l) ("]" +:+ rest)) = String c s)
      by (rewrite skip_ws_app, E by apply newline_ws; cbn [skip_ws]; by rewrite Hws).
    revert He Hsk. generalize (newline i (S depth) +:+
      items_text (stringify i (S depth)) depth (v :: l) ("]" +:+ rest)).
    intros text He Hsk.
    cbn [String.app value skip_ws]. change (is_ws "[") with false. cbv iota.
    change (Ascii.eqb "[" QUOTE) with false. change (Ascii.eqb "[" "{") with false.
    change (Ascii.eqb "[" "[") with true. cbv iota.
    rewrite Hsk.
    destruct (Ascii.eqb_spec c "]") as [|Hne]; [done|].
    by destruct c as [[] [] [] [] [] [] [] []].
  - intros Hp depth rest [|fuel] _ Hf; cbn [json_plain weight] in *; [lia|].
    apply andb_true_iff in Hp as [Hd Hp].
    cbn [stringify]. rewrite plain_members, enclose_text by done.
    destruct fs as [|kv fs]; [reflexivity|].
    pose proof (members_read depth (kv :: fs) IH fuel _ [] rest ltac:(done) (newline_ws i (S depth))
      Hd ltac:(done) Hp ltac:(unfold fields_weight; lia)) as He.
    assert (∃ s, skip_ws (newline i (S depth) +:+
        items_text (member_text (S depth)) depth (kv :: fs) ("}" +:+ rest)) = String QUOTE s)
      as (s & Hsk)
      by (rewrite skip_ws_app by apply newline_ws; destruct fs; eexists; reflexivity).
    revert He Hsk. generalize (newline i (S depth) +:+
      items_text (member_text (S depth)) depth (kv :: fs) ("}" +:+ rest)).
    intros text He Hsk.
    cbn [String.app value skip_ws]. change (is_ws "{") with false. cbv iota.
    change (Ascii.eqb "{" QUOTE) with false. change (Ascii.eqb "{" "{") with true. cbv iota.
    by rewrite Hsk.
Qed.
End printed.

(** ** The whole text *)

Lemma quote_len s : (2 <= str_len (quote s))%nat.
Proof. unfold quote. cbn [str_len String.length]. rewrite str_len_app. cbn. lia. Qed.

(** Every item is preceded by a bracket or a comma. *)
Lemma enclose_len i d l r items :
  (str_len l + str_len r + sum_list_with (λ x, S (str_len x)) items <=
   S (str_len (enclose l r i d items)))%nat.
Proof.
  unfold enclose. destruct items as [|x items]; [rewrite str_len_app; cbn; lia|].
  rewrite !str_len_app.
  assert (∀ sep y, (1 <= str_len sep →
    sum_list_with (λ x, S (str_len x)) (y :: items) <=
    S (str_len (String.concat sep (y :: items))))%nat) as H;
    [|assert (1 <= str_len ("," +:+ newline i (S d)))%nat as Hs by (rewrite str_len_app; cbn; lia);
      specialize (H _ x Hs); lia].
  clear. intros sep. induction items as [|z items IH]; intros y Hs; [cbn [sum_list_with String.concat]; lia|].
  change (String.concat sep (y :: z :: items)) with (y +:+ sep +:+ String.concat sep (z :: items)).
  rewrite !str_len_app. specialize (IH z Hs). cbn [sum_list_with] in *. lia.
Qed.

Lemma weight_len i v : json_plain v = true → ∀ d, (weight v <= str_len (stringify i d v))%nat.
Proof.
  induction v as [| |b|n|s|l IH|fs IH] using jsval_nested_ind; intros Hp d; try done.
  - cbn. lia.
  - destruct b; cbn; lia.
  - destruct (stringify_head i d (JNum n) "" Hp) as (c & s & E & _).
    rewrite str_app_nil_r in E. rewrite E. cbn. lia.
  - pose proof (quote_len s). cbn [weight stringify]. lia.
  - cbn [weight stringify json_plain] in *.
    pose proof (enclose_len i d "[" "]" (stringify i (S d) <$> l)) as He. cbn [str_len String.length] in He.
    assert (Hs : (sum_list_with (λ v, S (weight v)) l <=
      sum_list_with (λ x, S (str_len x)) (stringify i (S d) <$> l))%nat); [clear He|lia].
    induction IH as [|v l Hv _ IHl]; cbn [sum_list_with fmap list_fmap forallb] in *; [lia|].
    apply andb_true_iff in Hp as [Hv' Hp]. specialize (Hv Hv' (S d)). specialize (IHl Hp). lia.
  - cbn [weight stringify json_plain] in *. apply andb_true_iff in Hp as [_ Hp].
    rewrite plain_members by done.
    pose proof (enclose_len i d "{" "}" (member_text i (S d) <$> fs)) as He. cbn [str_len String.length] in He.
    assert (Hs : (sum_list_with (λ kv, match kv with (_, v) => S (weight v) end) fs <=
      sum_list_with (λ x, S (str_len x)) (member_text i (S d) <$> fs))%nat); [clear He|lia].
    induction IH as [|[k v] fs Hv _ IHl]; cbn [sum_list_with fmap list_fmap forallb] in *; [lia|].
    apply andb_true_iff in Hp as [[_ Hv']%andb_true_iff Hp].
    specialize (Hv Hv' (S d)). specialize (IHl Hp).
    unfold member_text at 1. rewrite !str_len_app. cbn [fst snd] in *. lia.
Qed.

Lemma json_text_stringify i v ws :
  json_plain v = true → str_all is_ws ws = true → delimited ws = true →
  json_text (stringify i 0%nat v +:+ ws) = Some v.
Proof.
  intros Hp Hws Hd. unfold json_text.
  rewrite (reads_all i v Hp 0%nat ws); [|done|].
  - rewrite <- (str_app_nil_r ws), skip_ws_app by done. done.
  - pose proof (weight_len i v Hp 0%nat). rewrite str_len_app. lia.
Qed.

Lemma is_ascii_codes s : str_all is_ascii s = true → Forall (λ c, c < 128) (str_codes s).
Proof.
  induction s as [|c s IH]; [constructor|]. cbn [str_all]. intros [Hc Hs]%andb_true_iff.
  unfold is_ascii in Hc. bool_simpl. constructor; [lia|auto].
Qed.

Lemma ascii_json_text s : str_all is_ascii s = true → ascii_json (utf8_encode s) = json_text s.
Proof.
  intros H%is_ascii_codes. pose proof (utf8_encode_ascii s H) as He. unfold ascii_json.
  rewrite He, (proj2 (forallb_forall _ _)).
  - f_equal. clear. induction s as [|c s IH]; [done|].
    change (String (chr (code c)) (String.string_of_list_ascii (chr <$> str_codes s)) = String c s).
    rewrite chr_code. by f_equal.
  - intros b Hb. apply Z.ltb_lt. rewrite <- He, Forall_fmap, Forall_forall in H.
    exact (H b Hb).
Qed.

#[export] Instance json_ref_laws : JsonLaws.
Proof.
  constructor; [..|exact ascii_json_text];
    intros v Hv; unfold json_parse, json_ref, JSON_stringify, JSON_stringify_pretty.
  - rewrite <- (str_app_nil_r (stringify _ _ _)). by apply json_text_stringify.
  - by apply json_text_stringify.
  - by apply json_text_stringify.
Qed.

(** ** What the parser returns is JSON *)

Definition all_json (acc : list (string * jsval)) : bool := forallb (λ kv, is_json kv.2) acc.
Lemma override_json acc k v :
  all_json acc = true → is_json v = true → all_json (override acc (k, v)) = true.
Proof.
  intros Ha Hv. unfold override. cbn [fst]. destruct (assoc k acc).
  - unfold all_json in *. apply forallb_forall. intros p Hp.
    apply list_elem_of_In, list_elem_of_fmap in Hp as (q & -> & Hq).
    destruct (String.eqb _ _); [done|].
    by apply (proj1 (forallb_forall _ _) Ha), list_elem_of_In.
  - unfold all_json in *. rewrite forallb_app, Ha. cbn. by rewrite Hv.
Qed.

(** The characters the parser looks for, one match at a time. *)
Section marks.
Context {A : Type} (f g : string → option A) (d : option A) (x : A).
Lemma colon_mark t :
  match t with String ":" r => f r | _ => None end = Some x → ∃ r, f r = Some x.
Proof. destruct t as [|[[] [] [] [] [] [] [] []] r]; try done; eauto. Qed.
Lemma object_mark t :
  match t with String "," r => f r | String "}" r => g r | _ => None end = Some x →
  ∃ r, f r = Some x ∨ g r = Some x.
Proof. destruct t as [|[[] [] [] [] [] [] [] []] r]; try done; eauto. Qed.
Lemma array_mark t :
  match t with String "," r => f r | String "]" r => g r | _ => None end = Some x →
  ∃ r, f r = Some x ∨ g r = Some x.
Proof. destruct t as [|[[] [] [] [] [] [] [] []] r]; try done; eauto. Qed.
Lemma empty_object_mark t :
  match t with String "}" r => g r | _ => d end = Some x → (∃ r, g r = Some x) ∨ d = Some x.
Proof. destruct t as [|[[] [] [] [] [] [] [] []] r]; eauto. Qed.
Lemma empty_array_mark t :
  match t with String "]" r => g r | _ => d end = Some x → (∃ r, g r = Some x) ∨ d = Some x.
Proof. destruct t as [|[[] [] [] [] [] [] [] []] r]; eauto. Qed.
End marks.

Lemma parsed_json fuel :
  (∀ s v r, value fuel s = Some (v, r) → is_json v = true) ∧
  (∀ s acc v r, all_json acc = true → members fuel s acc = Some (v, r) → is_json v = true) ∧
  (∀ s acc v r, forallb is_json acc = true → elements fuel s acc = Some (v, r) → is_json v = true).
Proof.
  induction fuel as [|fuel (IHv & IHm & IHe)]; [done|]. split; [|split].
  - intros s v r. cbn [value]. destruct (skip_ws s) as [|c s']; [done|]. unfold literal.
    destruct (Ascii.eqb c QUOTE); [destruct (string_body s') as [[]|]; first [by intros [= <- _]|done]|].
    destruct (Ascii.eqb c "{").
    { intros [(? & [= <- _])|H]%empty_object_mark; [done|]. exact (IHm _ [] _ _ eq_refl H). }
    destruct (Ascii.eqb c "[").
    { intros [(? & [= <- _])|H]%empty_array_mark; [done|]. exact (IHe _ [] _ _ eq_refl H). }
    destruct (Ascii.eqb c "t"); [destruct (startsWith _ _); first [by intros [= <- _]|done]|].
    destruct (Ascii.eqb c "f"); [destruct (startsWith _ _); first [by intros [= <- _]|done]|].
    destruct (Ascii.eqb c "n"); [destruct (startsWith _ _); first [by intros [= <- _]|done]|].
    destruct (Ascii.eqb c "-"); destruct (integer _) as [[]|]; first [by intros [= <- _]|done].
  - intros s acc v r Ha. cbn [members]. destruct (skip_ws s) as [|q s']; [done|].
    destruct (Ascii.eqb q QUOTE); [|done]. destruct (string_body s') as [[k r1]|]; [|done].
    intros (r2 & H)%colon_mark. destruct (value fuel r2) as [[x r3]|] eqn:Ev; [|done].
    apply IHv in Ev. apply object_mark in H as (r4 & [H|H]).
    + eapply IHm; [|exact H]. by apply override_json.
    + injection H as <- _. by apply (override_json acc).
  - intros s acc v r Ha. cbn [elements]. destruct (value fuel s) as [[x r3]|] eqn:Ev; [|done].
    apply IHv in Ev.
    assert (Hacc : forallb is_json (acc ++ [x]) = true)
      by (rewrite forallb_app, Ha; cbn; by rewrite Ev).
    intros (r4 & [H|H])%array_mark; [by eapply IHe|by injection H as <- _].
Qed.

Lemma json_text_json s v : json_text s = Some v → is_json v = true.
Proof.
  unfold json_text. destruct (value _ s) as [[x r]|] eqn:E; [|done].
  destruct (String.eqb _ _); [|done]. intros [= <-]. exact (proj1 (parsed_json _) _ _ _ E).
Qed.
