(* ===== verification/Storage.v ===== *)
(** * Local storage ([demo/src/client/storage.ts])

    The passkey record kept by the browser: what is saved can be loaded, and what
    cannot be read as a record is removed. *)

From S2P Require Import Prelude Js JsString Regex Bytes Zod Constants Schemas.
From S2P Require Import Effects Json JsonLaws.
From stdpp Require Import gmap.

Definition PASSKEY_STORAGE_KEY : string := "ckb-passkey-demo.passkey.v1".

Inductive storage_event :=
  | GetItem (key : string)
  | SetItem (key value : string)
  | RemoveItem (key : string).

(** The [Storage] interface; every operation may throw. *)
Class Storage (W : Type) := {
  getItem : string → W → res (option string) * W;
  setItem : string → string → W → res unit * W;
  removeItem : string → W → res unit * W }.

(** Its contents: reading changes nothing, a failed write or removal neither. *)
Class StorageLaws {W} `{Storage W} := {
  items : W → gmap string string;
  getItem_items k w r w' : getItem k w = (r, w') →
    items w' = items w ∧ ∀ o, r = Ok o → o = items w !! k;
  setItem_items k v w r w' : setItem k v w = (r, w') →
    items w' = match r with Ok _ => <[k := v]> (items w) | Throw _ => items w end;
  removeItem_items k w r w' : removeItem k w = (r, w') →
    items w' = match r with Ok _ => delete k (items w) | Throw _ => items w end }.

(** A store that never fails. *)
#[export] Instance map_storage : Storage (gmap string string) := {|
  getItem k m := (Ok (m !! k), m);
  setItem k v m := (Ok tt, <[k := v]> m);
  removeItem k m := (Ok tt, delete k m) |}.
#[export] Instance map_storage_laws : StorageLaws.
Proof.
  refine {| items := λ m, m |}; cbn; intros; simplify_eq; [by split; [|intros ? [=]]|done..].
Defined.

Section storage.
Context {W : Type} {zod : Zod} {json : Json} {storage : Storage W}.
Notation M := (eff W storage_event).

Definition loadPasskeyRecord : M (option PasskeyRecord) :=
  serialized ← call (GetItem PASSKEY_STORAGE_KEY) (getItem PASSKEY_STORAGE_KEY);
  match serialized with
  | None => mret None
  | Some text =>
      match (value ← from_option_or (Exn CSyntaxError "") (json_parse text);
             zparse PasskeyRecordSchema value) with
      | Ok record => mret (Some (passkey_of record))
      | Throw _ =>
          call (RemoveItem PASSKEY_STORAGE_KEY) (removeItem PASSKEY_STORAGE_KEY);;
          mret None
      end
  end.

Definition savePasskeyRecord (record : jsval) : M unit :=
  verified ← lift (zparse PasskeyRecordSchema record);
  let text := JSON_stringify verified in
  call (SetItem PASSKEY_STORAGE_KEY text) (setItem PASSKEY_STORAGE_KEY text).
End storage.

Section round_trip.
Context {W : Type} {zod : Zod} {zod_laws : ZodLaws} {json : Json} {json_laws : JsonLaws}.
Context {storage : Storage W} {storage_laws : StorageLaws}.
Notation world := (world W storage_event).

Lemma passkey_plain p : passkey_wf p → json_plain (passkey_val p) = true.
Proof. intros [Hv _ _ _ _ _ _]. cbn. by rewrite Hv. Qed.

(** What a load finds, and what it leaves. *)
Inductive loaded (w w' : world) : res (option PasskeyRecord) → list storage_event → Prop :=
  | load_absent :
      items (w_env w) !! PASSKEY_STORAGE_KEY = None → items (w_env w') = items (w_env w) →
      loaded w w' (Ok None) [GetItem PASSKEY_STORAGE_KEY]
  | load_record text v p :
      items (w_env w) !! PASSKEY_STORAGE_KEY = Some text → json_parse text = Some v →
      safeParse PasskeyRecordSchema v = Some (passkey_val p) → passkey_wf p →
      items (w_env w') = items (w_env w) →
      loaded w w' (Ok (Some p)) [GetItem PASSKEY_STORAGE_KEY]
  | load_unreadable text r :
      items (w_env w) !! PASSKEY_STORAGE_KEY = Some text →
      (∀ v, json_parse text = Some v → safeParse PasskeyRecordSchema v = None) →
      items (w_env w') = match r with
                         | Ok _ => delete PASSKEY_STORAGE_KEY (items (w_env w))
                         | Throw _ => items (w_env w)
                         end →
      (∀ o, r = Ok o → o = None) →
      loaded w w' r [GetItem PASSKEY_STORAGE_KEY; RemoveItem PASSKEY_STORAGE_KEY]
  | load_failed e :
      items (w_env w') = items (w_env w) →
      loaded w w' (Throw e) [GetItem PASSKEY_STORAGE_KEY].

Lemma load_run w r w' :
  loadPasskeyRecord w = (r, w') → ∃ l, w_log w' = w_log w ++ l ∧ loaded w w' r l.
Proof.
  unfold loadPasskeyRecord. intros H. run_step H.
  { eexists. split; [exact Hl|]. apply getItem_items in Hm as [Hi _]. by apply load_failed. }
  apply getItem_items in Hm as [Hi Hg]. specialize (Hg v eq_refl). destruct v as [text|].
  2: { unfold mret, eff_ret in H. injection H as <- <-. eexists. split; [exact Hl|].
       apply load_absent; [done|exact Hi]. }
  destruct (json_parse text) as [v|] eqn:Ej; cbn [from_option_or mbind res_bind] in H.
  - unfold zparse in H. destruct (safeParse PasskeyRecordSchema v) as [d|] eqn:Es;
      cbn [from_option_or] in H.
    + unfold mret, eff_ret in H. injection H as <- <-. eexists. split; [exact Hl|].
      destruct (passkey_record _ _ Es) as (p & -> & Hwf). rewrite passkey_of_val.
      by eapply load_record.
    + run_step H; apply removeItem_items in Hm;
        [|unfold mret, eff_ret in H; injection H as <- <-];
        (eexists; split; [rewrite Hl0, Hl, <- app_assoc; reflexivity|]; cbn [app];
         eapply load_unreadable;
           [done|intros v' Hv'; congruence|by rewrite Hm, Hi|by intros ? [=]]).
  - run_step H; apply removeItem_items in Hm;
      [|unfold mret, eff_ret in H; injection H as <- <-];
      (eexists; split; [rewrite Hl0, Hl, <- app_assoc; reflexivity|]; cbn [app];
       eapply load_unreadable;
         [done|intros v' Hv'; congruence|by rewrite Hm, Hi|by intros ? [=]]).
Qed.

Lemma save_run record (w w' : world) (r : res unit) :
  savePasskeyRecord record w = (r, w') →
  (safeParse PasskeyRecordSchema record = None ∧ w' = w ∧ ∃ e, r = Throw e) ∨
  (∃ p, safeParse PasskeyRecordSchema record = Some (passkey_val p) ∧ passkey_wf p ∧
    w_log w' = w_log w ++ [SetItem PASSKEY_STORAGE_KEY (JSON_stringify (passkey_val p))] ∧
    (∀ k, k ≠ PASSKEY_STORAGE_KEY → items (w_env w') !! k = items (w_env w) !! k) ∧
    ∀ u (w1 w2 : world) r2,
      r = Ok u → items (w_env w1) = items (w_env w') → loadPasskeyRecord w1 = (r2, w2) →
      items (w_env w2) = items (w_env w1) ∧ ∀ o, r2 = Ok o → o = Some p).
Proof.
  unfold savePasskeyRecord. intros H. run_step H.
  { unfold zparse in Hm. left. destruct (safeParse _ _); cbn in Hm; [done|eauto]. }
  right. unfold zparse in Hm. destruct (safeParse _ _) as [d|] eqn:Es; cbn in Hm; [|done].
  injection Hm as ->. destruct (passkey_record _ _ Es) as (p & -> & Hwf).
  apply call_run in H as [H Hl]. apply setItem_items in H. exists p.
  split; [done|]. split; [done|]. split; [done|]. split.
  - intros k Hk. rewrite H. destruct r; [by rewrite lookup_insert_ne|done].
  - intros u w1 w2 r2 -> Hi Hload. apply load_run in Hload as (l & _ & Hload).
    assert (Hkey : items (w_env w1) !! PASSKEY_STORAGE_KEY = Some (JSON_stringify (passkey_val p)))
      by (rewrite Hi, H; apply lookup_insert_eq).
    assert (Hp : json_parse (JSON_stringify (passkey_val p)) = Some (passkey_val p))
      by (apply json_parse_compact, passkey_plain, Hwf).
    destruct Hload as [Hn _|text v q Ht Hv Hs _ Hk|text r3 Ht Hbad _ _|e Hk].
    + congruence.
    + split; [done|]. intros o [= <-].
      assert (text = JSON_stringify (passkey_val p)) as -> by congruence.
      rewrite Hp in Hv. injection Hv as <-. rewrite passkey_parse in Hs by done.
      assert (E : passkey_val q = passkey_val p) by congruence.
      f_equal. by rewrite <- (passkey_of_val q), E, passkey_of_val.
    + assert (text = JSON_stringify (passkey_val p)) as -> by congruence.
      specialize (Hbad _ Hp). by rewrite passkey_parse in Hbad.
    + split; [done|]. by intros o [=].
Qed.
(** The stored passkey: a save either refuses a value that is no passkey record and
    touches nothing, or writes one item; after a successful save every load that can read
    the storage returns the saved record and leaves the storage as it is. A load returns
    only well-formed records, removes the item when it is not one, and touches no other
    item. *)
Theorem stored_passkey :
  (∀ record (w w' : world) r, savePasskeyRecord record w = (r, w') →
    (safeParse PasskeyRecordSchema record = None ∧ w' = w ∧ ∃ e, r = Throw e) ∨
    (∃ p, safeParse PasskeyRecordSchema record = Some (passkey_val p) ∧ passkey_wf p ∧
      w_log w' = w_log w ++ [SetItem PASSKEY_STORAGE_KEY (JSON_stringify (passkey_val p))] ∧
      (∀ k, k ≠ PASSKEY_STORAGE_KEY → items (w_env w') !! k = items (w_env w) !! k) ∧
      ∀ u (w1 w2 : world) r2,
        r = Ok u → items (w_env w1) = items (w_env w') → loadPasskeyRecord w1 = (r2, w2) →
        items (w_env w2) = items (w_env w1) ∧ ∀ o, r2 = Ok o → o = Some p)) ∧
  (∀ (w w' : world) r, loadPasskeyRecord w = (r, w') →
    ∃ l, w_log w' = w_log w ++ l ∧ loaded w w' r l).
Proof. split; [exact save_run|]. intros w w' r. apply load_run. Qed.
End round_trip.
