(* ===== verification/Chain.v ===== *)
(** * Spending ([demo/src/client/chain.ts])

    Discovery of the account's live cells, preparation of the spend and of the
    message the passkey signs, finalization, submission and confirmation. The chain
    client is an interface whose calls run in the monad of [Effects]. *)

From S2P Require Import Prelude Js JsString Regex Bytes Zod Constants Schemas Base64.
From S2P Require Import Effects Json Ccc CccRef Wire Protocol Manifests State.

Definition MAX_AUTHENTICATOR_DATA_BYTES : Z := 1024.
Definition MAX_CLIENT_DATA_BYTES : Z := 2048.
Definition MAX_DER_SIGNATURE_BYTES : Z := 72.
Definition MIN_AUTHENTICATOR_DATA_BYTES : Z := 37.

(** ** The client *)

Inductive chain_event :=
  | EGetCellLive (outPoint : OutPoint) (withData includeTxPool : bool)
  | EFindCellsByLock (lock : Script) (type : option Script) (withData : bool)
                     (order : string) (limit : Z)
  | ESendTransaction (tx : Transaction) (validator : string)
  | EWaitTransaction (txHash : string) (confirmations timeout : Z).

(** [findCellsByLock] yields finitely many cells and then ends or throws;
    [waitTransaction] tells whether a response came back. *)
Class SpendClient (W : Type) := {
  addressPrefix : string;
  getCellLive : OutPoint → bool → bool → W → res (option Cell) * W;
  findCellsByLock : Script → option Script → bool → string → Z → W →
    (list Cell * option exn) * W;
  sendTransaction : Transaction → string → W → res string * W;
  waitTransaction : string → Z → Z → W → res bool * W;
}.

Record SpendReview := {
  inputCapacityShannons : string; transferCapacityShannons : string;
  changeCapacityShannons : string; feeShannons : string; sr_funderAddress : string;
  inputOutPoint : string * Z; dependencies : list (string * string * Z) }.

Record PreparedSpend := {
  transaction : Transaction; ps_authorizationDigest : bytes; review : SpendReview;
  maxWitnessBytes : Z; sequence : Z; ps_credentialId : string; ps_publicKey : string;
  accountId : string; stateData : string }.

Record AssertionMaterial := {
  as_credentialId : string; as_authenticatorData : bytes; as_clientDataJson : bytes;
  as_signature : bytes }.

Definition manifest_outpoint (o : ManifestOutPoint) : OutPoint :=
  {| op_txHash := mo_tx_hash o; op_index := mo_index o |}.

(** Replace the capacity of the second output; replace the first witness. *)
Definition set_capacity (c : Z) (o : CellOutput) : CellOutput :=
  {| co_capacity := c; co_lock := co_lock o; co_type := co_type o |}.
Definition set_change (c : Z) (tx : Transaction) : Transaction := {|
  tx_cellDeps := tx_cellDeps tx; tx_inputs := tx_inputs tx;
  tx_outputs := alter (set_capacity c) 1%nat (tx_outputs tx);
  tx_outputsData := tx_outputsData tx; tx_witnesses := tx_witnesses tx |}.
(** [witnesses[0] = w], which extends an empty array. *)
Definition set_first_witness (w : string) (tx : Transaction) : Transaction := {|
  tx_cellDeps := tx_cellDeps tx; tx_inputs := tx_inputs tx; tx_outputs := tx_outputs tx;
  tx_outputsData := tx_outputsData tx; tx_witnesses := w :: tail (tx_witnesses tx) |}.

Section chain.
Context {W : Type} {zod : Zod} {ccc : Ccc} {json : Json} {client : SpendClient W}.
Notation M := (eff W chain_event).

Definition call_getCellLive (o : OutPoint) : M (option Cell) :=
  call (EGetCellLive o true true) (getCellLive o true true).
Definition call_send (tx : Transaction) : M string :=
  call (ESendTransaction tx "passthrough") (sendTransaction tx "passthrough").
Definition call_wait (txHash : string) : M bool :=
  call (EWaitTransaction txHash 0 300000) (waitTransaction txHash 0 300000).
(** The generator's cells, with the error it ends in, if any. *)
Definition call_find (lock : Script) : M (list Cell * option exn) :=
  call (EFindCellsByLock lock None true "asc" 3)
    (λ w, let '(r, w') := findCellsByLock lock None true "asc" 3 w in (Ok r, w')).

Definition sameOutPoint (cell : Cell) (value : ManifestOutPoint) : bool :=
  OutPoint_eq (cell_outPoint cell) (manifest_outpoint value).

Definition verifyStateCell (state : Cell) (account : VerifiedAccount) : res ParsedState :=
  throw_if (negb (sameOutPoint state (am_state_out_point (va_manifest account))))
    (TypeError "Live state outpoint does not match the account manifest");;
  throw_if (negb (Script_eq (co_lock (cell_cellOutput state)) (accountLock account)))
    (TypeError "Live state lock does not match AccountLock");;
  throw_if (match co_type (cell_cellOutput state) with
            | None => true
            | Some t => negb (Script_eq t (stateType account))
            end)
    (TypeError "Live state Type ID script does not match the account");;
  parseAccountState (cell_outputData state) account.

(** The [for await] loop over the scanned cells. *)
Fixpoint scan_assets (account : VerifiedAccount) (cells : list Cell) (failure : option exn)
    (assets : list Cell) : res (list Cell) :=
  match cells with
  | [] => match failure with Some e => Throw e | None => Ok assets end
  | cell :: cells' =>
      throw_if (negb (Script_eq (co_lock (cell_cellOutput cell)) (accountLock account)))
        (TypeError "Indexer returned a cell with a foreign lock");;
      if sameOutPoint cell (am_state_out_point (va_manifest account))
      then verifyStateCell cell account;; scan_assets account cells' failure assets
      else
        throw_if (bool_decide (co_type (cell_cellOutput cell) ≠ None))
          (TypeError "AccountLock scan returned a typed asset candidate");;
        throw_if (negb (String.eqb (cell_outputData cell) "0x"))
          (TypeError "AccountLock asset candidate contains data");;
        let assets := assets ++ [cell] in
        if len assets >? 1 then Ok assets else scan_assets account cells' failure assets
  end.

Definition discoverAccountCells (account : VerifiedAccount) : M (Cell * Cell) :=
  let manifest := va_manifest account in
  state ← call_getCellLive (manifest_outpoint (am_state_out_point manifest));
  state ← lift (from_option_or (TypeError "Account state cell is spent or unavailable") state);
  lift (verifyStateCell state account);;
  '(cells, failure) ← call_find (accountLock account);
  assets ← lift (scan_assets account cells failure []);
  lift (throw_if (negb (len assets =? 1))
    (TypeError "Expected exactly one AccountLock asset cell"));;
  asset ← lift (from_option_or (TypeError "") (head assets));
  lift (throw_if (negb (sameOutPoint asset (am_asset_out_point manifest)))
    (TypeError "Live asset outpoint does not match the account manifest"));;
  liveAsset ← call_getCellLive (manifest_outpoint (am_asset_out_point manifest));
  liveAsset ← lift (from_option_or
    (TypeError "AccountLock asset cell is spent or changed") liveAsset);
  lift (throw_if
    (negb (sameOutPoint liveAsset (am_asset_out_point manifest)) ||
     negb (Script_eq (co_lock (cell_cellOutput liveAsset)) (accountLock account)) ||
     bool_decide (co_type (cell_cellOutput liveAsset) ≠ None) ||
     negb (String.eqb (cell_outputData liveAsset) "0x") ||
     negb (co_capacity (cell_cellOutput liveAsset) =? co_capacity (cell_cellOutput asset)))
    (TypeError "AccountLock asset cell is spent or changed"));;
  mret (state, liveAsset).

Definition max_signature : bytes :=
  <[1%nat := byte_of_Z (MAX_DER_SIGNATURE_BYTES - 2)]>
    (<[0%nat := x30]> (zeros (Z.to_nat MAX_DER_SIGNATURE_BYTES))).

Definition spend_witness (sequence : Z) (input : P256ProofInput) : res bytes :=
  proof ← encodeP256Proof input;
  encoded ← encodeAccountWitness OP_SPEND sequence
              [{| pr_slot := NInt 0; pr_bytes := proof |}];
  packAccountWitness encoded.

Definition maximumWitness (publicKey : bytes) (sequence : Z) : res bytes :=
  spend_witness sequence {|
    pi_publicKey := publicKey;
    pi_origin := utf8_encode CLIENT_ORIGIN;
    pi_authenticatorData := zeros (Z.to_nat MAX_AUTHENTICATOR_DATA_BYTES);
    pi_clientDataJson := zeros (Z.to_nat MAX_CLIENT_DATA_BYTES);
    pi_signature := max_signature |}.

Definition ensureOccupiedCapacity (output : CellOutput) (label : string) : res unit :=
  let minimum := occupiedSize output * SHANNONS_PER_CKB in
  throw_if (co_capacity output <? minimum)
    (RangeError (label +:+ " output is below occupied capacity")).

(** The transaction literal of [prepareSpend]. *)
Definition spend_transaction (account : VerifiedAccount) (asset : Cell) (funderLock : Script)
    (placeholder : bytes) : Transaction := {|
  tx_cellDeps := [accountLockDep (va_deployment account);
                  verifierP256Dep (va_deployment account); stateDep account];
  tx_inputs := [{| in_previousOutput := cell_outPoint asset; in_since := 0 |}];
  tx_outputs := [
    {| co_capacity := TRANSFER_CAPACITY; co_lock := funderLock; co_type := None |};
    {| co_capacity := co_capacity (cell_cellOutput asset) - TRANSFER_CAPACITY;
       co_lock := accountLock account; co_type := None |}];
  tx_outputsData := ["0x"; "0x"];
  tx_witnesses := [hexFromBytes placeholder] |}.

Definition spend_review (account : VerifiedAccount) (asset : Cell) (funderAddress : string)
    (change fee : Z) : SpendReview :=
  let dep (d : CellDep) := (op_txHash (cd_outPoint d), op_index (cd_outPoint d)) in
  {| inputCapacityShannons := dec (co_capacity (cell_cellOutput asset));
     transferCapacityShannons := dec TRANSFER_CAPACITY;
     changeCapacityShannons := dec change;
     feeShannons := dec fee;
     sr_funderAddress := funderAddress;
     inputOutPoint := (op_txHash (cell_outPoint asset), op_index (cell_outPoint asset));
     dependencies := [
       ("account_lock", (dep (accountLockDep (va_deployment account))).1,
                        (dep (accountLockDep (va_deployment account))).2);
       ("verifier_p256", (dep (verifierP256Dep (va_deployment account))).1,
                         (dep (verifierP256Dep (va_deployment account))).2);
       ("account_state", (dep (stateDep account)).1, (dep (stateDep account)).2)] |}.

Definition INSUFFICIENT : exn :=
  RangeError "AccountLock asset cannot cover the fixed transfer and fee".

(** [prepareSpend] after discovery. *)
Definition build_spend (account : VerifiedAccount) (funderAddress : string)
    (passkey : PasskeyRecord) (publicKey : bytes) (state asset : Cell) : res PreparedSpend :=
  parsedState ← parseAccountState (cell_outputData state) account;
  throw_if (negb (String.eqb (hexFromBytes (ps_keyId parsedState)) (pk_keyId passkey)))
    (TypeError "Passkey does not match the live account state");;
  funderLock ← Address_fromString funderAddress addressPrefix;
  let inputCapacity := co_capacity (cell_cellOutput asset) in
  throw_if (inputCapacity <=? TRANSFER_CAPACITY) INSUFFICIENT;;
  placeholder ← maximumWitness publicKey (ps_sequence parsedState);
  transaction ← Transaction_from (spend_transaction account asset funderLock placeholder);
  let fee := estimateFee transaction FEE_RATE in
  let change := inputCapacity - TRANSFER_CAPACITY - fee in
  throw_if (change <=? 0) INSUFFICIENT;;
  let transaction := set_change change transaction in
  out0 ← from_option_or (TypeError "") (tx_outputs transaction !! 0%nat);
  out1 ← from_option_or (TypeError "") (tx_outputs transaction !! 1%nat);
  ensureOccupiedCapacity out0 "Transfer";;
  ensureOccupiedCapacity out1 "Change";;
  txHash ← bytesFrom (Transaction_hash transaction);
  witness0 ← from_option_or (TypeError "") (tx_witnesses transaction !! 0%nat);
  firstWitness ← bytesFrom witness0;
  canonicalGroupSighash ← groupSighash txHash [firstWitness] [];
  account_id ← bytesFromHex (am_account_id (va_manifest account));
  state_bytes ← bytesFromHex (cell_outputData state);
  digest ← authorizationDigest {|
    ai_operation := OP_SPEND; ai_accountId := account_id;
    ai_sequence := ps_sequence parsedState; ai_state := state_bytes;
    ai_groupSighash := canonicalGroupSighash |};
  Ok {| transaction := transaction; ps_authorizationDigest := digest;
        review := spend_review account asset funderAddress change fee;
        maxWitnessBytes := len placeholder; sequence := ps_sequence parsedState;
        ps_credentialId := pk_credentialId passkey; ps_publicKey := pk_publicKey passkey;
        accountId := am_account_id (va_manifest account);
        stateData := cell_outputData state |}.

Definition prepareSpend (account : VerifiedAccount) (funderAddress : string)
    (passkeyValue : jsval) : M PreparedSpend :=
  parsed ← lift (zparse PasskeyRecordSchema passkeyValue);
  let passkey := passkey_of parsed in
  publicKey ← lift (bytesFromHex (pk_publicKey passkey));
  keyHash ← lift (ckbHash publicKey);
  lift (throw_if (negb (String.eqb (hexFromBytes keyHash) (pk_keyId passkey)))
    (TypeError "Stored passkey key ID does not match its public key"));;
  '(state, asset) ← discoverAccountCells account;
  lift (build_spend account funderAddress passkey publicKey state asset).

(** ** Finalization *)

Definition validateClientData (prepared : PreparedSpend) (bs : bytes) : res unit :=
  value ← from_option_or (TypeError "Assertion client data is not valid UTF-8 JSON")
            (json_parse_utf8 bs);
  throw_if (negb (is_object value)) (TypeError "Assertion client data is malformed");;
  throw_if
    (negb (is_str (prop value "type") "webauthn.get") ||
     negb (is_str (prop value "challenge")
                  (base64urlEncode (ps_authorizationDigest prepared))) ||
     negb (is_str (prop value "origin") CLIENT_ORIGIN) ||
     (negb (is_undef (prop value "crossOrigin")) &&
      negb (is_bool (prop value "crossOrigin") false)))
    (TypeError "Assertion client data does not authorize this transaction").

Definition validateDerSignature (signature : bytes) : res unit :=
  throw_if ((len signature <? 8) || (len signature >? MAX_DER_SIGNATURE_BYTES) ||
            negb (at_is signature 0 0x30) || negb (at_is signature 1 (len signature - 2)))
    (TypeError "Assertion signature is not bounded P-256 DER").

Definition finalizeSpend (prepared : PreparedSpend) (passkeyValue : jsval)
    (assertion : AssertionMaterial) : res Transaction :=
  parsed ← zparse PasskeyRecordSchema passkeyValue;
  let passkey := passkey_of parsed in
  throw_if (negb (String.eqb (as_credentialId assertion) (ps_credentialId prepared)) ||
            negb (String.eqb (pk_credentialId passkey) (ps_credentialId prepared)) ||
            negb (String.eqb (pk_publicKey passkey) (ps_publicKey prepared)))
    (TypeError "Assertion credential does not match the prepared spend");;
  throw_if ((len (as_authenticatorData assertion) <? MIN_AUTHENTICATOR_DATA_BYTES) ||
            (len (as_authenticatorData assertion) >? MAX_AUTHENTICATOR_DATA_BYTES))
    (RangeError "Assertion authenticator data is outside supported bounds");;
  throw_if ((len (as_clientDataJson assertion) =? 0) ||
            (len (as_clientDataJson assertion) >? MAX_CLIENT_DATA_BYTES))
    (RangeError "Assertion client data is outside supported bounds");;
  validateDerSignature (as_signature assertion);;
  validateClientData prepared (as_clientDataJson assertion);;
  publicKey ← bytesFromHex (pk_publicKey passkey);
  witness ← spend_witness (sequence prepared) {|
    pi_publicKey := publicKey;
    pi_origin := utf8_encode CLIENT_ORIGIN;
    pi_authenticatorData := as_authenticatorData assertion;
    pi_clientDataJson := as_clientDataJson assertion;
    pi_signature := as_signature assertion |};
  throw_if (len witness >? maxWitnessBytes prepared)
    (RangeError "Assertion witness exceeds the prepared fee reservation");;
  let finalized := set_first_witness (hexFromBytes witness)
                     (Transaction_clone (transaction prepared)) in
  throw_if (negb (String.eqb (Transaction_hash finalized)
                             (Transaction_hash (transaction prepared))))
    (TypeError "Finalizing the witness changed raw transaction fields");;
  Ok finalized.

(** ** Submission and confirmation *)

Definition submitted_value (txHash remaining status : string) : jsval := JObj [
  ("status", JStr status); ("txHash", JStr txHash);
  ("explorerUrl", JStr (EXPLORER_URL +:+ txHash));
  ("remainingCapacityShannons", JStr remaining)].

Definition submitSpend (tx : Transaction) : M Receipt :=
  lift (throw_if (negb (len (tx_outputs tx) =? 2) || negb (len (tx_outputsData tx) =? 2))
    (TypeError "Spend transaction has an unexpected output shape"));;
  txHash ← call_send tx;
  out1 ← lift (from_option_or (TypeError "") (tx_outputs tx !! 1%nat));
  receipt ← lift (zparse SubmittedReceiptSchema
                    (submitted_value txHash (dec (co_capacity out1)) "submitted"));
  mret (receipt_of receipt).

Definition isConfirmationTimeout (error : exn) : bool :=
  match exn_class error with
  | CLibrary name => String.eqb name "ErrorClientWaitTransactionTimeout"
  | _ => false
  end.

(** [{ ...submitted, status }]. *)
Definition with_status (r : Receipt) (status : string) : Receipt := {|
  rc_txHash := rc_txHash r; rc_explorerUrl := rc_explorerUrl r;
  rc_remainingCapacityShannons := rc_remainingCapacityShannons r; rc_status := status |}.

(** The outcome of the [try] block of [confirmSpend]: [false] on a timeout. *)
Definition wait_committed (txHash : string) : M bool :=
  catch
    (response ← call_wait txHash;
     lift (throw_if (negb response)
       (TypeError "Committed transaction response is unavailable"));;
     mret true)
    (λ error, if isConfirmationTimeout error then mret false else lift (Throw error)).

Definition confirmSpend (submittedValue : jsval) : M Receipt :=
  parsed ← lift (zparse SubmittedReceiptSchema submittedValue);
  let submitted := receipt_of parsed in
  committed ← wait_committed (rc_txHash submitted);
  if committed : bool then
    change ← call_getCellLive {| op_txHash := rc_txHash submitted; op_index := 1 |};
    lift (throw_if
      (match change with
       | None => true
       | Some cell =>
           bool_decide (co_type (cell_cellOutput cell) ≠ None) ||
           negb (String.eqb (cell_outputData cell) "0x") ||
           negb (String.eqb (dec (co_capacity (cell_cellOutput cell)))
                            (rc_remainingCapacityShannons submitted))
       end)
      (TypeError "Committed AccountLock change could not be verified"));;
    receipt ← lift (zparse CommittedReceiptSchema
                      (receipt_val (with_status submitted "committed")));
    mret (receipt_of receipt)
  else
    receipt ← lift (zparse ConfirmationTimedOutReceiptSchema
                      (receipt_val (with_status submitted "confirmation_timeout")));
    mret (receipt_of receipt).
End chain.
