(* ===== verification/Spending.v ===== *)
(** * Correctness of spending

    What discovery returns, what a prepared spend commits to, that finalization
    keeps it, and that submission and confirmation call the chain as they must. *)

From S2P Require Import Prelude Js JsString Regex Bytes Zod Constants Schemas Base64.
From S2P Require Import Effects Json Ccc CccRef Wire Protocol Codec Digest Manifests.
From S2P Require Import State Chain.

(** A plain asset cell of the account, and its state cell. *)
Record asset_cell (a : VerifiedAccount) (c : Cell) : Prop := {
  ac_outPoint : cell_outPoint c = manifest_outpoint (am_asset_out_point (va_manifest a));
  ac_lock : co_lock (cell_cellOutput c) = accountLock a;
  ac_type : co_type (cell_cellOutput c) = None;
  ac_data : cell_outputData c = "0x" }.
Record state_cell (a : VerifiedAccount) (c : Cell) (p : ParsedState) : Prop := {
  sc_outPoint : cell_outPoint c = manifest_outpoint (am_state_out_point (va_manifest a));
  sc_lock : co_lock (cell_cellOutput c) = accountLock a;
  sc_type : co_type (cell_cellOutput c) = Some (stateType a);
  sc_data : parseAccountState (cell_outputData c) a = Ok p }.

Section discovery.
Context {W : Type} {zod : Zod} {ccc : Ccc} {ccc_laws : CccLaws} {client : SpendClient W}.
Notation M := (eff W chain_event).

Lemma sameOutPoint_true c o : sameOutPoint c o = true ↔ cell_outPoint c = manifest_outpoint o.
Proof. apply OutPoint_eq_spec. Qed.

Lemma verifyStateCell_iff c a p : verifyStateCell c a = Ok p ↔ state_cell a c p.
Proof.
  unfold verifyStateCell. split.
  - intros H. inv_res. bool_simpl.
    destruct (co_type (cell_cellOutput c)) as [t|] eqn:Et; [|done]. bool_simpl.
    constructor; [by apply sameOutPoint_true|by apply Script_eq_spec| |done].
    rewrite Et. f_equal. by apply Script_eq_spec.
  - intros [Ho Hl Ht Hd]. rewrite (proj2 (sameOutPoint_true _ _) Ho).
    rewrite Hl, Ht, !Script_eq_refl. cbn. done.
Qed.

(** What the scan has established when it stops. *)
Definition plain (a : VerifiedAccount) (c : Cell) : Prop :=
  co_lock (cell_cellOutput c) = accountLock a ∧ co_type (cell_cellOutput c) = None ∧
  cell_outputData c = "0x".

Definition not_state (a : VerifiedAccount) (c : Cell) : bool :=
  negb (sameOutPoint c (am_state_out_point (va_manifest a))).

Lemma scan_assets_inv a cells failure acc assets :
  scan_assets a cells failure acc = Ok assets → Forall (plain a) acc →
  Forall (plain a) assets ∧
  (len assets <= 1 → failure = None ∧
    assets = acc ++ filter (λ c, not_state a c = true) cells ∧
    Forall (λ c, co_lock (cell_cellOutput c) = accountLock a) cells).
Proof.
  revert acc. induction cells as [|c cells IH]; intros acc H Hacc; cbn [scan_assets] in H.
  - destruct failure; [done|]. injection H as <-. rewrite app_nil_r. done.
  - inv_res. bool_simpl.
    match goal with H : Script_eq _ _ = true |- _ => apply Script_eq_spec in H end.
    destruct (sameOutPoint c _) eqn:Es.
    + inv_res. apply IH in H as [Hp Hn]; [|done]. split; [done|]. intros Hle.
      destruct (Hn Hle) as (-> & -> & Hall). rewrite filter_cons_False; [auto|].
      unfold not_state. by rewrite Es.
    + inv_res. bool_simpl.
      assert (Hc : plain a c).
      { split; [done|]. split; [|done]. by destruct (co_type _); [exfalso|]; auto. }
      assert (Hacc' : Forall (plain a) (acc ++ [c])) by (apply Forall_app; auto).
      rewrite filter_cons_True by (unfold not_state; by rewrite Es).
      destruct (len (acc ++ [c]) >? 1) eqn:Egt.
      * injection H as <-. bool_simpl. split; [done|]. lia.
      * apply IH in H as [Hp Hn]; [|done]. split; [done|]. intros Hle.
        destruct (Hn Hle) as (-> & -> & Hall). rewrite <- app_assoc. auto.
Qed.

(** The calls discovery makes when it succeeds. *)
Definition discovery_log (a : VerifiedAccount) : list chain_event := [
  EGetCellLive (manifest_outpoint (am_state_out_point (va_manifest a))) true true;
  EFindCellsByLock (accountLock a) None true "asc" 3;
  EGetCellLive (manifest_outpoint (am_asset_out_point (va_manifest a))) true true].

(** What a successful discovery has established. *)
Record discovered (a : VerifiedAccount) (w w' : world W chain_event) (state asset : Cell)
    (p : ParsedState) : Prop := {
  d_state : state_cell a state p;
  d_asset : asset_cell a asset;
  d_log : w_log w' = w_log w ++ discovery_log a;
  d_live_state : ∃ e1 e2, getCellLive (manifest_outpoint
    (am_state_out_point (va_manifest a))) true true e1 = (Ok (Some state), e2);
  d_live_asset : ∃ e1 e2, getCellLive (manifest_outpoint
    (am_asset_out_point (va_manifest a))) true true e1 = (Ok (Some asset), e2);
  d_unique : ∃ cells scanned e1 e2,
    findCellsByLock (accountLock a) None true "asc" 3 e1 = ((cells, None), e2) ∧
    filter (λ c, not_state a c = true) cells = [scanned] ∧
    Forall (λ c, co_lock (cell_cellOutput c) = accountLock a) cells ∧
    cell_outPoint scanned = cell_outPoint asset ∧
    co_capacity (cell_cellOutput scanned) = co_capacity (cell_cellOutput asset) }.

Lemma discoverAccountCells_inv a w state asset w' :
  discoverAccountCells a w = (Ok (state, asset), w') →
  ∃ p, discovered a w w' state asset p.
Proof.
  unfold discoverAccountCells, call_getCellLive, call_find. intros H. inv_run.
  repeat match goal with
    | H : call _ _ _ = _ |- _ => apply call_run in H as [? ?]
    | H : Ok _ = verifyStateCell _ _ |- _ => symmetry in H; apply verifyStateCell_iff in H
    | H : Ok _ = scan_assets _ _ _ _ |- _ =>
        symmetry in H; apply scan_assets_inv in H as [Hplain Hscan]; [|constructor]
    end.
  inv_res. bool_simpl. destruct Hscan as (-> & Hf & Hlock); [lia|]. cbn [app] in Hf.
  repeat match goal with
    | H : sameOutPoint _ _ = true |- _ => apply sameOutPoint_true in H
    | H : Script_eq _ _ = true |- _ => apply Script_eq_spec in H
    end.
  exists v1. constructor; try done; eauto.
  - constructor; try done. by destruct (co_type _); [exfalso|]; auto.
  - unfold discovery_log.
    repeat match goal with H : w_log _ = _ |- _ => rewrite H; clear H end.
    by rewrite <- !app_assoc.
  - assert (Hv : v2 = [v4]).
    { destruct v2 as [|x [|y v2']]; cbn in *; [done|congruence|].
      rewrite !len_cons in *. pose proof (len_nonneg v2'). lia. }
    exists l, v4, (w_env w0), (w_env w3).
    destruct (findCellsByLock _ _ _ _ _ (w_env w0)) as [r e]. injection H3 as -> ->.
    split; [done|]. split; [congruence|]. split; [done|]. split; congruence.
Qed.

(** C8 — Cell discovery: what [discoverAccountCells] returns was reported live by
    the client at the outpoints of the manifest; the state cell carries the
    account's lock, its Type ID script and a supported state; the asset cell
    carries the account's lock, no type and no data; the scan of the account's
    lock listed only cells of that lock and exactly one cell besides the state,
    the asset, at the same capacity; and exactly three queries were made. *)
Theorem discovery_sound (a : VerifiedAccount) (w w' : world W chain_event)
    (state asset : Cell) :
  discoverAccountCells a w = (Ok (state, asset), w') →
  ∃ p, discovered a w w' state asset p.
Proof. apply discoverAccountCells_inv. Qed.
End discovery.

(** ** Witness sizes *)

Definition proof_size (i : P256ProofInput) : Z :=
  72 + len (pi_origin i) + len (pi_authenticatorData i) + len (pi_clientDataJson i) +
  len (pi_signature i).

Lemma p256_layout_len i : len (pi_publicKey i) = 65 → len (p256_layout i) = proof_size i.
Proof. intros H. unfold p256_layout, proof_size. autorewrite with js. lia. Qed.

(** The account witness of a spend with one proof, and its container. *)
Definition spend_lock (sequence : Z) (i : P256ProofInput) : bytes :=
  witness_layout OP_SPEND sequence [(0, p256_layout i)].

Lemma spend_lock_len s i :
  len (pi_publicKey i) = 65 → len (spend_lock s i) = 24 + proof_size i.
Proof.
  intros H. unfold spend_lock, witness_layout. rewrite len_app, witness_header_len.
  cbn [fmap list_fmap concat]. rewrite app_nil_r, proof_layout_len. cbn [snd].
  rewrite p256_layout_len by done. lia.
Qed.

Section witness.
Context {ccc : Ccc} {ccc_laws : CccLaws}.

Definition spend_container (s : Z) (i : P256ProofInput) : bytes :=
  WitnessArgs_toBytes (packed_witness (spend_lock s i)).

Lemma spend_lock_small s i : p256_input_ok i → len (spend_lock s i) < 2 ^ 32 - 20.
Proof.
  intros (H & _ & Ho & Ha & Hc & Hs). rewrite spend_lock_len by done.
  unfold proof_size. lia.
Qed.

Lemma spend_container_len s i :
  p256_input_ok i → len (spend_container s i) = 44 + proof_size i.
Proof.
  intros Hi. unfold spend_container.
  rewrite WitnessArgs_size by by apply packed_witness_ok, spend_lock_small.
  unfold wa_size, packed_witness. cbn [wa_lock wa_inputType wa_outputType opt_size].
  rewrite hex_bytes_len_of, spend_lock_len by apply Hi. lia.
Qed.

Lemma spend_witness_inv s i w :
  spend_witness s i = Ok w →
  p256_input_ok i ∧ 0 <= s < 2 ^ 64 ∧ w = spend_container s i.
Proof.
  unfold spend_witness. intros H. inv_res.
  match goal with H : encodeP256Proof _ = Ok _ |- _ =>
    apply encodeP256Proof_iff in H as [Hi ->] end.
  match goal with H : encodeAccountWitness _ _ _ = Ok _ |- _ =>
    apply encodeAccountWitness_iff in H as (ps & Hps & Hw & ->) end.
  destruct ps as [|[sl b] [|? ?]]; try discriminate Hps. injection Hps as <- <-.
  match goal with H : packAccountWitness _ = Ok _ |- _ =>
    rewrite packAccountWitness_spec in H by exact (spend_lock_small s i Hi);
    injection H as <- end.
  split; [done|]. split; [apply Hw | done].
Qed.

Lemma spend_witness_ok s i :
  p256_input_ok i → 0 <= s < 2 ^ 64 → proof_size i <= 131048 →
  spend_witness s i = Ok (spend_container s i).
Proof.
  intros Hi Hs Hsize. unfold spend_witness.
  rewrite (proj2 (encodeP256Proof_iff i _)) by done. cbn [mbind res_bind].
  assert (Hl := spend_lock_len s i (proj1 Hi)).
  rewrite (proj2 (encodeAccountWitness_iff OP_SPEND s _ (spend_lock s i))).
  { cbn [mbind res_bind]. by rewrite packAccountWitness_spec by by apply spend_lock_small. }
  exists [(0, p256_layout i)]. split; [done|]. split; [|done].
  assert (Hp := p256_layout_len i (proj1 Hi)).
  destruct Hi as (_ & _ & Ho & Ha & Hc & Hg).
  split; [by left|]. split; [done|]. split.
  { cbn. unfold proof_size in *. lia. }
  split; [done|]. change (witness_layout _ _ _) with (spend_lock s i). lia.
Qed.

Lemma unpack_spend s i :
  p256_input_ok i → unpackAccountWitness (spend_container s i) = Ok (spend_lock s i).
Proof.
  intros Hi. unfold unpackAccountWitness, spend_container.
  rewrite WitnessArgs_roundtrip by by apply packed_witness_ok, spend_lock_small.
  cbn [mbind res_bind wa_lock packed_witness from_option_or].
  rewrite hexFrom_hex_spec. apply bytesFrom_hex.
Qed.

(** The contract reads a spend lock back. *)
Lemma spend_lock_reads s i :
  p256_input_ok i → 0 <= s < 2 ^ 64 → proof_size i <= 131048 →
  parse_witness_header (spend_lock s i) = Good (witness_facts OP_SPEND s 1) ∧
  parse_proofs collect (spend_lock s i) (witness_facts OP_SPEND s 1) [] =
    Good [(0, p256_layout i)].
Proof.
  intros Hi Hs Hsize. assert (Hl := spend_lock_len s i (proj1 Hi)).
  assert (Hp := p256_layout_len i (proj1 Hi)).
  unfold spend_lock, witness_layout in *. rewrite len_app, witness_header_len in Hl.
  change (len [(0, p256_layout i)]) with 1 in *. split.
  - apply parse_witness_header_layout; [by left|done|lia|lia].
  - unfold parse_proofs, ACCOUNT_WITNESS_HEADER_LEN.
    rewrite <- (witness_header_len OP_SPEND s 1).
    apply parse_proofs_run; [rewrite len_app, witness_header_len; unfold USIZE_MAX; lia|].
    exists [(0, p256_layout i)]. split; [done|]. split; [done|]. split; [done|].
    destruct Hi as (_ & _ & Ho & Ha & Hc & Hg). unfold proof_size in *. cbn. lia.
Qed.

Lemma canonical_container s i :
  p256_input_ok i →
  canonicalWitness (spend_container s i) =
    (c ← WitnessArgs_from (canonical_of (packed_witness []));
     Ok (WitnessArgs_toBytes c)).
Proof.
  intros Hi. unfold canonicalWitness, spend_container.
  rewrite WitnessArgs_roundtrip by by apply packed_witness_ok, spend_lock_small. done.
Qed.
End witness.

(** ** Preparation *)

Section preparation.
Context {W : Type} {zod : Zod} {zod_laws : ZodLaws} {ccc : Ccc} {ccc_laws : CccLaws}
  {json : Json} {client : SpendClient W}.
Notation M := (eff W chain_event).

(** The message of a transaction with one account input, by the functions of [wire.ts];
    [Acceptance] proves that it is the one the lock computes. *)
Definition spend_message (accountId stateData : string) (sequence : Z) (tx : Transaction)
    : res bytes :=
  txHash ← bytesFrom (Transaction_hash tx);
  witness0 ← from_option_or (TypeError "") (tx_witnesses tx !! 0%nat);
  first ← bytesFrom witness0;
  sighash ← groupSighash txHash [first] [];
  id ← bytesFromHex accountId;
  state ← bytesFromHex stateData;
  authorizationDigest {| ai_operation := OP_SPEND; ai_accountId := id;
    ai_sequence := sequence; ai_state := state; ai_groupSighash := sighash |}.

Definition proof_input_of (publicKey : bytes) (a : AssertionMaterial) : P256ProofInput := {|
  pi_publicKey := publicKey; pi_origin := utf8_encode CLIENT_ORIGIN;
  pi_authenticatorData := as_authenticatorData a;
  pi_clientDataJson := as_clientDataJson a; pi_signature := as_signature a |}.

(** The largest assertion, for which fee and change are computed. *)
Definition max_assertion : AssertionMaterial := {|
  as_credentialId := ""; as_authenticatorData := zeros 1024;
  as_clientDataJson := zeros 2048; as_signature := max_signature |}.
Definition placeholder_of (publicKey : bytes) (s : Z) : bytes :=
  spend_container s (proof_input_of publicKey max_assertion).

Lemma maximumWitness_spec publicKey s :
  maximumWitness publicKey s = spend_witness s (proof_input_of publicKey max_assertion).
Proof. reflexivity. Qed.

Definition total_capacity (outputs : list CellOutput) : Z :=
  foldr (λ o n, co_capacity o + n) 0 outputs.

Record prepared (account : VerifiedAccount) (funderAddress : string) (passkey : PasskeyRecord)
    (publicKey : bytes) (state asset : Cell) (p : PreparedSpend) : Prop := {
  pr_parsed : parseAccountState (cell_outputData state) account =
    Ok {| ps_sequence := sequence p; ps_keyId := ckb_digest publicKey |};
  pr_funder : ∃ lock, Address_fromString funderAddress addressPrefix = Ok lock ∧
    let tx0 := spend_transaction account asset lock (placeholder_of publicKey (sequence p)) in
    let fee := estimateFee tx0 FEE_RATE in
    let change := co_capacity (cell_cellOutput asset) - TRANSFER_CAPACITY - fee in
    transaction p = set_change change tx0 ∧
    review p = spend_review account asset funderAddress change fee ∧
    0 < change ∧
    Forall (λ o, occupiedSize o * SHANNONS_PER_CKB <= co_capacity o)
      (tx_outputs (transaction p));
  pr_conserved : ∃ fee, feeShannons (review p) = dec fee ∧
    co_capacity (cell_cellOutput asset) = total_capacity (tx_outputs (transaction p)) + fee;
  pr_proof_ok : p256_input_ok (proof_input_of publicKey max_assertion);
  pr_sequence : 0 <= sequence p < 2 ^ 64;
  pr_message : spend_message (accountId p) (stateData p) (sequence p) (transaction p) =
    Ok (ps_authorizationDigest p);
  pr_max : maxWitnessBytes p = len (placeholder_of publicKey (sequence p));
  pr_ids : ps_credentialId p = pk_credentialId passkey ∧
    ps_publicKey p = pk_publicKey passkey ∧
    accountId p = am_account_id (va_manifest account) ∧
    stateData p = cell_outputData state;
  pr_covered : TRANSFER_CAPACITY < co_capacity (cell_cellOutput asset) }.

Lemma spend_transaction_from account asset lock ph :
  TRANSFER_CAPACITY < co_capacity (cell_cellOutput asset) →
  Transaction_from (spend_transaction account asset lock ph) =
    Ok (spend_transaction account asset lock ph).
Proof.
  intros Hcap. apply Transaction_from_ok; cbn [spend_transaction tx_outputs tx_outputsData
    tx_witnesses].
  - constructor; [done|]. constructor; [cbn [co_capacity]; lia | constructor].
  - constructor; [apply is_hex_text_0x|]. constructor; [apply is_hex_text_0x | constructor].
  - constructor; [apply is_hex_text_of | constructor].
Qed.

Lemma build_spend_inv account funderAddress passkey publicKey state asset p :
  pk_keyId passkey = hexFromBytes (ckb_digest publicKey) →
  build_spend account funderAddress passkey publicKey state asset = Ok p →
  prepared account funderAddress passkey publicKey state asset p.
Proof.
  intros Hkey. unfold build_spend. intros H.
  apply bind_Ok_iff in H as ([s k] & Hparse & H). cbn [ps_sequence ps_keyId] in H.
  apply bind_Ok_iff in H as (? & Hk & H). apply throw_if_Ok in Hk. bool_simpl.
  rewrite Hkey in Hk. apply hexFromBytes_inj in Hk as ->.
  apply bind_Ok_iff in H as (lock & Haddr & H).
  apply bind_Ok_iff in H as (? & Hcap & H). apply throw_if_Ok in Hcap. bool_simpl.
  apply bind_Ok_iff in H as (ph & Hph & H). rewrite maximumWitness_spec in Hph.
  apply spend_witness_inv in Hph as (Hi & Hs & ->).
  fold (placeholder_of publicKey s) in H.
  rewrite spend_transaction_from in H by done. cbn [mbind res_bind] in H.
  set (tx0 := spend_transaction account asset lock (placeholder_of publicKey s)) in *.
  set (change := co_capacity (cell_cellOutput asset) - TRANSFER_CAPACITY -
                 estimateFee tx0 FEE_RATE) in *.
  inv_res. unfold ensureOccupiedCapacity in *. inv_res. bool_simpl.
  constructor; cbn [sequence accountId stateData transaction ps_authorizationDigest review
    maxWitnessBytes ps_credentialId ps_publicKey]; try done.
  - exists lock. repeat (split; [done|]). cbn in *. simplify_eq. repeat constructor; done.
  - exists (estimateFee tx0 FEE_RATE). split; [done|]. cbn. unfold change. lia.
  - unfold spend_message.
    repeat match goal with
      | H : ?m = Ok _ |- context [mbind _ ?m] => rewrite H; cbn [mbind res_bind]
      | H : ?m = Some _ |- context [from_option_or _ ?m] =>
          rewrite H; cbn [from_option_or mbind res_bind]
      end. done.
Qed.

Lemma prepareSpend_inv account funderAddress passkeyValue w p w' :
  prepareSpend account funderAddress passkeyValue w = (Ok p, w') →
  ∃ passkey publicKey state asset parsed,
    safeParse PasskeyRecordSchema passkeyValue = Some (passkey_val passkey) ∧
    passkey_wf passkey ∧
    bytesFromHex (pk_publicKey passkey) = Ok publicKey ∧
    pk_keyId passkey = hexFromBytes (ckb_digest publicKey) ∧
    discovered account w w' state asset parsed ∧
    prepared account funderAddress passkey publicKey state asset p.
Proof.
  unfold prepareSpend. intros H. inv_run.
  match goal with H : Ok _ = zparse _ _ |- _ =>
    symmetry in H; apply from_option_or_Ok in H; rename H into Hparse end.
  destruct (passkey_record _ _ Hparse) as (passkey & -> & Hwf).
  rewrite !passkey_of_val in *. inv_res. bool_simpl. rewrite ckbHash_spec in *.
  match goal with H : discoverAccountCells _ _ = _ |- _ =>
    destruct (discoverAccountCells_inv _ _ _ _ _ H) as [parsed Hd] end.
  simplify_eq. exists passkey, v0, c, c0, parsed. repeat (split; [done|]).
  apply build_spend_inv; done.
Qed.

(** C5 — Preparation: a prepared spend comes from live cells of the account; it
    pays exactly the fixed transfer to the funder and everything else but the fee
    back to the account's lock, so no capacity is lost or created; both outputs
    cover their occupied capacity; the fee is the estimate for the transaction
    with the largest possible witness; and the prepared digest is the
    authorization digest of that transaction, as [groupSighash] and
    [authorizationDigest] give it for its one witness, of the account and of the live
    state, whose key is the stored passkey's. *)
Theorem prepare_spend_sound (account : VerifiedAccount) (funderAddress : string)
    (passkeyValue : jsval) (w w' : world W chain_event) (p : PreparedSpend) :
  prepareSpend account funderAddress passkeyValue w = (Ok p, w') →
  ∃ passkey publicKey state asset parsed,
    safeParse PasskeyRecordSchema passkeyValue = Some (passkey_val passkey) ∧
    passkey_wf passkey ∧
    bytesFromHex (pk_publicKey passkey) = Ok publicKey ∧
    pk_keyId passkey = hexFromBytes (ckb_digest publicKey) ∧
    discovered account w w' state asset parsed ∧
    prepared account funderAddress passkey publicKey state asset p.
Proof. apply prepareSpend_inv. Qed.

(** ** Finalization *)

(** What a finalized assertion satisfied. *)
Record assertion_ok (p : PreparedSpend) (a : AssertionMaterial) : Prop := {
  ao_authenticator : 37 <= len (as_authenticatorData a) <= 1024;
  ao_client : 1 <= len (as_clientDataJson a) <= 2048;
  ao_signature : 8 <= len (as_signature a) <= 72;
  ao_der : at_ (as_signature a) 0 = Some 0x30 ∧
           at_ (as_signature a) 1 = Some (len (as_signature a) - 2);
  ao_json : ∃ value, json_parse_utf8 (as_clientDataJson a) = Some value ∧
    prop value "type" = JStr "webauthn.get" ∧
    prop value "challenge" = JStr (base64urlEncode (ps_authorizationDigest p)) ∧
    prop value "origin" = JStr CLIENT_ORIGIN ∧
    (prop value "crossOrigin" = JUndef ∨ prop value "crossOrigin" = JBool false) }.

Lemma validateClientData_iff p bs u :
  validateClientData p bs = Ok u ↔
  ∃ value, json_parse_utf8 bs = Some value ∧
    prop value "type" = JStr "webauthn.get" ∧
    prop value "challenge" = JStr (base64urlEncode (ps_authorizationDigest p)) ∧
    prop value "origin" = JStr CLIENT_ORIGIN ∧
    (prop value "crossOrigin" = JUndef ∨ prop value "crossOrigin" = JBool false).
Proof.
  unfold validateClientData. split.
  - intros H. inv_res. bool_simpl. exists v. split; [done|].
    repeat match goal with H : is_str _ _ = true |- _ => apply is_str_true in H end.
    repeat (split; [done|]). destruct (prop v "crossOrigin") as [| |[]| | | |]; try done; auto.
  - intros (v & -> & Ht & Hc & Ho & Hx). cbn [from_option_or mbind res_bind].
    rewrite Ht, Hc, Ho. cbn [is_str]. rewrite !String.eqb_refl.
    assert (is_object v = true) as ->.
    { destruct v; cbn in Ht; done. }
    destruct u. cbn [negb orb throw_if mbind res_bind]. destruct Hx as [-> | ->]; done.
Qed.

Lemma finalizeSpend_inv p pv a tx :
  finalizeSpend p pv a = Ok tx →
  ∃ passkey publicKey,
    safeParse PasskeyRecordSchema pv = Some (passkey_val passkey) ∧
    as_credentialId a = ps_credentialId p ∧ pk_credentialId passkey = ps_credentialId p ∧
    pk_publicKey passkey = ps_publicKey p ∧ bytesFromHex (ps_publicKey p) = Ok publicKey ∧
    assertion_ok p a ∧ p256_input_ok (proof_input_of publicKey a) ∧
    0 <= sequence p < 2 ^ 64 ∧
    len (spend_container (sequence p) (proof_input_of publicKey a)) <= maxWitnessBytes p ∧
    tx = set_first_witness
           (hexFromBytes (spend_container (sequence p) (proof_input_of publicKey a)))
           (transaction p).
Proof.
  unfold finalizeSpend. intros H. apply bind_Ok_iff in H as (d & Hp & H).
  apply from_option_or_Ok in Hp. destruct (passkey_record _ _ Hp) as (passkey & -> & Hwf).
  rewrite passkey_of_val in H. unfold validateDerSignature in H. inv_res. bool_simpl.
  match goal with H : validateClientData _ _ = Ok _ |- _ =>
    apply validateClientData_iff in H end.
  match goal with H : spend_witness _ _ = Ok _ |- _ =>
    apply spend_witness_inv in H as (Hi & Hs & ->) end.
  rewrite Transaction_clone_spec in *. simplify_eq.
  repeat match goal with H : at_is _ _ _ = true |- _ => apply at_is_true in H end.
  unfold MIN_AUTHENTICATOR_DATA_BYTES, MAX_AUTHENTICATOR_DATA_BYTES, MAX_CLIENT_DATA_BYTES,
    MAX_DER_SIGNATURE_BYTES in *.
  match goal with H : bytesFromHex _ = Ok ?k |- _ => exists passkey, k end. split; [done|]. split; [done|]. split; [done|]. split; [done|].
  split; [congruence|]. pose proof (len_nonneg (as_clientDataJson a)).
  split; [constructor; try done; try lia|]. split; [done|]. split; [done|].
  split; [done|]. reflexivity.
Qed.

Lemma finalizeSpend_ok p pv a passkey publicKey :
  safeParse PasskeyRecordSchema pv = Some (passkey_val passkey) →
  as_credentialId a = ps_credentialId p → pk_credentialId passkey = ps_credentialId p →
  pk_publicKey passkey = ps_publicKey p → bytesFromHex (ps_publicKey p) = Ok publicKey →
  assertion_ok p a → p256_input_ok (proof_input_of publicKey a) →
  0 <= sequence p < 2 ^ 64 →
  len (spend_container (sequence p) (proof_input_of publicKey a)) <= maxWitnessBytes p →
  finalizeSpend p pv a = Ok (set_first_witness
    (hexFromBytes (spend_container (sequence p) (proof_input_of publicKey a)))
    (transaction p)).
Proof.
  intros Hp Hc1 Hc2 Hk Hb [Ha Hcl Hs [Hd0 Hd1] Hj] Hi Hq Hm.
  unfold finalizeSpend, zparse. rewrite Hp. cbn [from_option_or mbind res_bind].
  rewrite passkey_of_val, Hc1, Hc2, Hk, !String.eqb_refl. cbn [negb orb throw_if mbind res_bind].
  unfold MIN_AUTHENTICATOR_DATA_BYTES, MAX_AUTHENTICATOR_DATA_BYTES, MAX_CLIENT_DATA_BYTES.
  do 2 head_guard.
  unfold validateDerSignature, MAX_DER_SIGNATURE_BYTES.
  rewrite (proj2 (at_is_true _ _ _) Hd0), (proj2 (at_is_true _ _ _) Hd1).
  head_guard.
  rewrite (proj2 (validateClientData_iff _ _ tt)) by done. cbn [mbind res_bind].
  rewrite Hb. cbn [mbind res_bind]. fold (proof_input_of publicKey a).
  rewrite spend_witness_ok; [|done|done|].
  2: { unfold proof_size. cbn [proof_input_of pi_origin pi_authenticatorData pi_clientDataJson
         pi_signature]. change (len (utf8_encode CLIENT_ORIGIN)) with 21. lia. }
  cbn [mbind res_bind]. rewrite Transaction_clone_spec.
  head_guard.
  rewrite (Transaction_hash_strip (set_first_witness _ _) (transaction p)) by done.
  by rewrite String.eqb_refl.
Qed.

Lemma proof_input_ok publicKey a p :
  assertion_ok p a → p256_input_ok (proof_input_of publicKey max_assertion) →
  p256_input_ok (proof_input_of publicKey a).
Proof.
  intros [Ha Hc Hs _ _] (H1 & H2 & H3 & _). unfold p256_input_ok in *.
  cbn [proof_input_of pi_publicKey pi_origin pi_authenticatorData pi_clientDataJson
    pi_signature] in *. repeat (split; [done || lia|]). lia.
Qed.

(** The reservation covers every assertion within the bounds. *)
Lemma reservation_suffices publicKey s a p :
  assertion_ok p a → p256_input_ok (proof_input_of publicKey max_assertion) →
  len (spend_container s (proof_input_of publicKey a)) <= len (placeholder_of publicKey s).
Proof.
  intros Hok Hmax. unfold placeholder_of.
  rewrite !spend_container_len by (done || by eapply proof_input_ok).
  destruct Hok as [Ha Hc Hs _ _]. unfold proof_size.
  cbn [proof_input_of pi_origin pi_authenticatorData pi_clientDataJson pi_signature
    max_assertion as_authenticatorData as_clientDataJson as_signature].
  rewrite !len_zeros. change (len max_signature) with 72. lia.
Qed.

Lemma assertion_size p publicKey a :
  assertion_ok p a → proof_size (proof_input_of publicKey a) <= 131048.
Proof.
  intros [Ha Hc Hs _ _]. unfold proof_size.
  cbn [proof_input_of pi_origin pi_authenticatorData pi_clientDataJson pi_signature].
  change (len (utf8_encode CLIENT_ORIGIN)) with 21. lia.
Qed.

(** C4 — Finalization: a finalized transaction is the prepared one with its first
    witness replaced by a container, no larger than the reservation the fee was
    computed for, whose lock the contract reads as a spend at the prepared
    sequence with one proof in slot 0, the verifier reading from that proof the
    prepared public key, the site's origin and the assertion's three fields; and
    the assertion was made by the prepared credential over client data that names
    the prepared digest as its challenge. *)
Theorem finalize_spend_sound (p : PreparedSpend) (passkeyValue : jsval)
    (a : AssertionMaterial) (tx : Transaction) :
  finalizeSpend p passkeyValue a = Ok tx →
  ∃ publicKey packed lock proof,
    bytesFromHex (ps_publicKey p) = Ok publicKey ∧
    as_credentialId a = ps_credentialId p ∧ assertion_ok p a ∧
    tx = set_first_witness (hexFromBytes packed) (transaction p) ∧
    len packed <= maxWitnessBytes p ∧
    unpackAccountWitness packed = Ok lock ∧
    parse_witness_header lock = Good (witness_facts OP_SPEND (sequence p) 1) ∧
    parse_proofs collect lock (witness_facts OP_SPEND (sequence p) 1) [] =
      Good [(0, proof)] ∧
    parse_proof proof = Good (passkey_proof (proof_input_of publicKey a)).
Proof.
  intros (passkey & publicKey & _ & Hc1 & _ & _ & Hb & Hok & Hi & Hs & Hm & ->)%finalizeSpend_inv.
  set (i := proof_input_of publicKey a) in *.
  exists publicKey, (spend_container (sequence p) i), (spend_lock (sequence p) i), (p256_layout i).
  split; [done|]. split; [done|]. split; [done|]. split; [done|]. split; [done|].
  split; [by apply unpack_spend|].
  destruct (spend_lock_reads (sequence p) i) as [Hh Hp]; [done|done| |].
  { by apply (assertion_size p). }
  split; [done|]. split; [done|]. by apply parse_proof_layout.
Qed.

Lemma spend_message_witness id st s tx publicKey a b :
  p256_input_ok (proof_input_of publicKey a) → p256_input_ok (proof_input_of publicKey b) →
  spend_message id st s (set_first_witness
    (hexFromBytes (spend_container s (proof_input_of publicKey a))) tx) =
  spend_message id st s (set_first_witness
    (hexFromBytes (spend_container s (proof_input_of publicKey b))) tx).
Proof.
  intros Ha Hb. unfold spend_message.
  rewrite (Transaction_hash_strip (set_first_witness _ tx) tx) by done.
  rewrite (Transaction_hash_strip (set_first_witness _ tx) tx) by done.
  destruct (bytesFrom (Transaction_hash tx)) as [h|]; [|done].
  cbn [mbind res_bind set_first_witness tx_witnesses lookup list_lookup from_option_or].
  rewrite !bytesFrom_hex. cbn [mbind res_bind]. unfold groupSighash.
  cbn [head from_option_or mbind res_bind]. by rewrite !canonical_container.
Qed.

(** The message does not change when the witness replaces the reservation. *)
Lemma finalized_message (account : VerifiedAccount)
    (funderAddress : string) (passkeyValue passkeyValue' : jsval)
    (w w' : world W chain_event) (p : PreparedSpend) (a : AssertionMaterial)
    (tx : Transaction) :
  prepareSpend account funderAddress passkeyValue w = (Ok p, w') →
  finalizeSpend p passkeyValue' a = Ok tx →
  strip_witnesses tx = strip_witnesses (transaction p) ∧
  Transaction_hash tx = Transaction_hash (transaction p) ∧
  spend_message (accountId p) (stateData p) (sequence p) tx =
    Ok (ps_authorizationDigest p).
Proof.
  intros (passkey & pk & state & asset & _ & _ & _ & Hpk & _ & _ & Hp)%prepareSpend_inv
         (passkey' & pk' & _ & _ & _ & Heq & Hpk' & Hok & Hi & Hs & Hm & ->)%finalizeSpend_inv.
  assert (pk' = pk) as ->.
  { destruct (pr_ids _ _ _ _ _ _ _ Hp) as (_ & E & _). rewrite E in Hpk'. congruence. }
  split; [done|]. split; [by apply Transaction_hash_strip|].
  rewrite <- (pr_message _ _ _ _ _ _ _ Hp).
  destruct (pr_funder _ _ _ _ _ _ _ Hp) as (lock & _ & Htx & _). rewrite Htx.
  erewrite spend_message_witness; [|done|apply (pr_proof_ok _ _ _ _ _ _ _ Hp)]. reflexivity.
Qed.

(** C17 — No valid assertion is refused: after a successful preparation, any
    assertion of the prepared credential that is within the documented bounds and
    names the prepared digest finalizes; in particular the fee reservation covers
    it, so the overflow error of [finalizeSpend] cannot occur. *)
Theorem finalize_spend_complete (account : VerifiedAccount) (funderAddress : string)
    (passkeyValue : jsval) (w w' : world W chain_event) (p : PreparedSpend)
    (a : AssertionMaterial) :
  prepareSpend account funderAddress passkeyValue w = (Ok p, w') →
  as_credentialId a = ps_credentialId p → assertion_ok p a →
  ∃ tx, finalizeSpend p passkeyValue a = Ok tx.
Proof.
  intros (passkey & pk & state & asset & _ & Hparse & Hwf & Hpk & _ & _ & Hp)%prepareSpend_inv
    Hc Hok.
  destruct (pr_ids _ _ _ _ _ _ _ Hp) as (E1 & E2 & _ & _).
  eexists. apply (finalizeSpend_ok p passkeyValue a passkey pk); try done; try congruence.
  - eapply proof_input_ok; [done | apply (pr_proof_ok _ _ _ _ _ _ _ Hp)].
  - apply (pr_sequence _ _ _ _ _ _ _ Hp).
  - rewrite (pr_max _ _ _ _ _ _ _ Hp).
    eapply reservation_suffices; [done | apply (pr_proof_ok _ _ _ _ _ _ _ Hp)].
Qed.
End preparation.

(** ** Submission and confirmation *)

Section receipts.
Context {W : Type} {zod : Zod} {zod_laws : ZodLaws} {ccc : Ccc} {ccc_laws : CccLaws}
  {json : Json} {client : SpendClient W}.
Notation M := (eff W chain_event).

Lemma submitted_schema : SubmittedReceiptSchema = receipt_schema "submitted".
Proof. reflexivity. Qed.
Lemma committed_schema : CommittedReceiptSchema = receipt_schema "committed".
Proof. reflexivity. Qed.
Lemma timeout_schema :
  ConfirmationTimedOutReceiptSchema = receipt_schema "confirmation_timeout".
Proof. reflexivity. Qed.

Definition spend_shape (tx : Transaction) : Prop :=
  len (tx_outputs tx) = 2 ∧ len (tx_outputsData tx) = 2.

(** The receipt of a submission reads back the object it was parsed from. *)
Lemma submitted_receipt h rem d :
  safeParse SubmittedReceiptSchema (submitted_value h rem "submitted") = Some d →
  receipt_of d = {| rc_txHash := h; rc_explorerUrl := EXPLORER_URL +:+ h;
                    rc_remainingCapacityShannons := rem; rc_status := "submitted" |}.
Proof.
  rewrite submitted_schema. unfold receipt_schema, submitted_value. rewrite sp_object.
  cbn [forallb has_key assoc String.eqb Ascii.eqb Bool.eqb andb negb fst snd].
  cbn -[safeParse Hash32Schema decimalString].
  destruct (safeParse Hash32Schema (JStr h)) as [h'|] eqn:Eh; [|done].
  destruct (safeParse (ZString [SUrl]) _) as [u'|] eqn:Eu; [|done].
  destruct (safeParse decimalString (JStr rem)) as [r'|] eqn:Er; [|done].
  destruct (safeParse (ZLitStr "submitted") _) as [s'|] eqn:Es; [|done].
  intros [= <-].
  unfold Hash32Schema, decimalString, hexBytes in *. rewrite sp_string in Eh, Eu, Er.
  rewrite sp_lit_str in Es. cbn in Es. injection Es as <-.
  repeat match goal with H : (if ?c then _ else _) = Some _ |- _ =>
    destruct c; [injection H as <-|discriminate] end. reflexivity.
Qed.

(** C20 — Submission: [submitSpend] sends the transaction it was given exactly
    once, unless the shape check refuses it, in which case nothing is called. When
    it returns, the receipt names the hash the client returned and the capacity of
    the change output. A failure after the send (a client error or a hash the
    schema refuses) never sends again. *)
Theorem submit_sends_once (tx : Transaction) (w w' : world W chain_event) (r : res Receipt) :
  submitSpend tx w = (r, w') →
  (¬ spend_shape tx ∧ w' = w ∧
     r = Throw (TypeError "Spend transaction has an unexpected output shape")) ∨
  (spend_shape tx ∧ w_log w' = w_log w ++ [ESendTransaction tx "passthrough"] ∧
   ∀ receipt, r = Ok receipt →
     ∃ txHash change, sendTransaction tx "passthrough" (w_env w) = (Ok txHash, w_env w') ∧
       tx_outputs tx !! 1%nat = Some change ∧
       receipt = {| rc_txHash := txHash; rc_explorerUrl := EXPLORER_URL +:+ txHash;
                    rc_remainingCapacityShannons := dec (co_capacity change);
                    rc_status := "submitted" |}).
Proof.
  unfold submitSpend, spend_shape. intros H.
  destruct (decide (len (tx_outputs tx) = 2 ∧ len (tx_outputsData tx) = 2)) as [Hs|Hs].
  - right. split; [done|]. destruct Hs as [Hs1 Hs2]. rewrite Hs1, Hs2 in H.
    unfold mbind at 1, eff_bind at 1, lift at 1 in H. cbn [throw_if negb orb Z.eqb Pos.eqb] in H.
    unfold call_send, mbind at 1, eff_bind at 1 in H.
    destruct (call _ _ w) as [r1 w1] eqn:Ec. apply call_run in Ec as [Ec El].
    destruct r1 as [h|e]; [|by injection H as <- <-].
    destruct (tx_outputs tx !! 1%nat) as [o|] eqn:Eo.
    2: { cbn in H. injection H as <- <-. done. }
    unfold lift, mbind, eff_bind, zparse in H. cbn [from_option_or] in H.
    destruct (safeParse _ _) as [d|] eqn:Ed; cbn in H; injection H as <- <-; [|done].
    split; [done|]. intros rc [= <-]. exists h, o. split; [done|]. split; [done|].
    by apply submitted_receipt.
  - left. split; [done|].
    unfold mbind at 1, eff_bind at 1, lift at 1 in H.
    destruct (throw_if _ _) as [u|e] eqn:Et.
    + apply throw_if_Ok in Et. bool_simpl. tauto.
    + apply throw_if_Throw in Et as [_ ->]. by injection H as <- <-.
Qed.

(** The change cell of a confirmed spend. *)
Definition change_live (r : Receipt) (cell : Cell) : Prop :=
  co_type (cell_cellOutput cell) = None ∧ cell_outputData cell = "0x" ∧
  dec (co_capacity (cell_cellOutput cell)) = rc_remainingCapacityShannons r.

Inductive confirmation (r : Receipt) (e e' : W) : res Receipt → list chain_event → Prop :=
  | confirmed cell e1 :
      waitTransaction (rc_txHash r) 0 300000 e = (Ok true, e1) →
      getCellLive {| op_txHash := rc_txHash r; op_index := 1 |} true true e1 =
        (Ok (Some cell), e') →
      change_live r cell →
      confirmation r e e' (Ok (with_status r "committed"))
        [EWaitTransaction (rc_txHash r) 0 300000;
         EGetCellLive {| op_txHash := rc_txHash r; op_index := 1 |} true true]
  | timed_out error :
      waitTransaction (rc_txHash r) 0 300000 e = (Throw error, e') →
      isConfirmationTimeout error = true →
      confirmation r e e' (Ok (with_status r "confirmation_timeout"))
        [EWaitTransaction (rc_txHash r) 0 300000]
  | wait_failed error :
      waitTransaction (rc_txHash r) 0 300000 e = (Throw error, e') →
      isConfirmationTimeout error = false →
      confirmation r e e' (Throw error) [EWaitTransaction (rc_txHash r) 0 300000]
  | no_response :
      waitTransaction (rc_txHash r) 0 300000 e = (Ok false, e') →
      confirmation r e e'
        (Throw (TypeError "Committed transaction response is unavailable"))
        [EWaitTransaction (rc_txHash r) 0 300000]
  | check_failed error e1 result :
      waitTransaction (rc_txHash r) 0 300000 e = (Ok true, e1) →
      getCellLive {| op_txHash := rc_txHash r; op_index := 1 |} true true e1 = (result, e') →
      match result with
      | Throw e2 => error = e2
      | Ok cell => (∀ c, cell = Some c → ¬ change_live r c) ∧
          error = TypeError "Committed AccountLock change could not be verified"
      end →
      confirmation r e e' (Throw error)
        [EWaitTransaction (rc_txHash r) 0 300000;
         EGetCellLive {| op_txHash := rc_txHash r; op_index := 1 |} true true].

Lemma wait_committed_run h w r w' :
  wait_committed h w = (r, w') →
  w_log w' = w_log w ++ [EWaitTransaction h 0 300000] ∧
  match waitTransaction h 0 300000 (w_env w) with
  | (Ok true, e) => r = Ok true ∧ w_env w' = e
  | (Ok false, e) =>
      r = Throw (TypeError "Committed transaction response is unavailable") ∧ w_env w' = e
  | (Throw error, e) =>
      w_env w' = e ∧ r = if isConfirmationTimeout error then Ok false else Throw error
  end.
Proof.
  unfold wait_committed, catch, call_wait, mbind, eff_bind.
  destruct (call _ _ w) as [r1 w1] eqn:Ec. apply call_run in Ec as [-> El].
  destruct r1 as [[]|e]; cbn; [by intros [= <- <-]..|].
  destruct (isConfirmationTimeout e) eqn:Et; cbn; by intros [= <- <-].
Qed.

(** C21 — Confirmation: [confirmSpend] never sends. For a well-formed submitted
    receipt it either reports "committed", and then the wait returned and the
    change cell was reported live, untyped, empty and at the receipt's capacity;
    or it reports "confirmation_timeout", and then the wait failed by timing out;
    or it throws, because the wait failed otherwise or gave no response, or because
    the change cell could not be read or is not that cell. Both receipts keep the
    submitted hash, link and capacity. *)
Theorem confirm_spend_sound (submitted : Receipt) (w w' : world W chain_event)
    (r : res Receipt) :
  receipt_wf "submitted" submitted →
  confirmSpend (receipt_val submitted) w = (r, w') →
  ∃ l, w_log w' = w_log w ++ l ∧ confirmation submitted (w_env w) (w_env w') r l.
Proof.
  intros Hwf. unfold confirmSpend, zparse. rewrite submitted_schema, receipt_parse by done.
  unfold mbind at 1, eff_bind at 1, lift at 1. cbn [from_option_or].
  rewrite receipt_of_val. unfold mbind at 1, eff_bind at 1.
  destruct (wait_committed _ w) as [r1 w1] eqn:Ew.
  apply wait_committed_run in Ew as [El Ew].
  destruct (waitTransaction _ _ _ (w_env w)) as [[[]|e] e1] eqn:Hw.
  - destruct Ew as [-> He1].
    unfold call_getCellLive, mbind at 1, eff_bind at 1.
    destruct (call _ _ w1) as [r2 w2] eqn:Ec. apply call_run in Ec as [Ec El2].
    rewrite El, <- app_assoc in El2. rewrite He1 in Ec. destruct r2 as [cell|e].
    2: { intros [= <- <-]. eexists. split; [exact El2|]. by eapply check_failed. }
    unfold mbind at 1, eff_bind at 1, lift at 1.
    destruct (throw_if _ _) as [u|e] eqn:Et.
    2: { intros [= <- <-]. eexists. split; [exact El2|]. eapply check_failed; [done..|].
         apply throw_if_Throw in Et as [Et ->]. split; [|done].
         intros c -> (Ht & Hd & Hc). rewrite Ht, Hd, Hc, !String.eqb_refl in Et. done. }
    apply throw_if_Ok in Et. destruct cell as [cell|]; [|done]. bool_simpl.
    unfold lift, mbind, eff_bind. rewrite committed_schema.
    rewrite receipt_parse by (destruct Hwf; by constructor). cbn [from_option_or].
    rewrite receipt_of_val. intros [= <- <-].
    eexists. split; [exact El2|]. eapply confirmed; [done|done|].
    split; [|done]. by destruct (co_type _); [exfalso|]; auto.
  - destruct Ew as [-> He1]. intros [= <- <-]. eexists. split; [exact El|].
    rewrite <- He1 in Hw. by apply no_response.
  - destruct Ew as [He1 ->]. rewrite <- He1 in Hw.
    destruct (isConfirmationTimeout e) eqn:Et.
    2: { intros [= <- <-]. eexists. split; [exact El|]. by apply wait_failed. }
    unfold lift, mbind, eff_bind. rewrite timeout_schema.
    rewrite receipt_parse by (destruct Hwf; by constructor). cbn [from_option_or].
    rewrite receipt_of_val. intros [= <- <-].
    eexists. split; [exact El|]. by eapply timed_out.
Qed.
End receipts.
