(* ===== verification/Abi.v ===== *)
(** * The ABI between the lock and its verifiers ([crates/protocol/src/wire.rs])

    Lock arguments, capabilities and verifier requests as the contracts read them.
    A request is read exactly when it has the layout of the ABI, and no parser of
    the crate reads outside its buffer. *)

From S2P Require Import Prelude Js JsString Wire Codec.

(** ** Constants ([constants.rs]) *)

Definition ACCOUNT_LOCK_VERSION : Z := 1.
Definition ACCOUNT_LOCK_ARGS_LEN : Z := 33.
Definition VERIFIER_MAGIC : bytes := utf8_encode "CKVR".
Definition VERIFIER_ABI_V1 : Z := 1.
Definition VERIFIER_REQUEST_HEADER_LEN : Z := 96.
Definition VERIFIER_MAX_AUX_LEN : Z := 4096.
Definition VERIFIER_MAX_PROOF_LEN : Z := 65536.
Definition VERIFIER_MAX_REQUEST_LEN : Z := 69728.
Definition OP_SPEND : Z := 1.
Definition OP_ROTATE : Z := 2.
Definition OP_RECOVERY : Z := 3.
Definition ALG_P256_WEBAUTHN : Z := 0x0001.
Definition ALG_MLDSA65 : Z := 0x0102.
Definition ALG_SLHDSA : Z := 0x0201.
Definition PROFILE_V1 : Z := 1.

(** [o.ok_or(e)?] and [a.checked_add(b).ok_or(e)?] *)
Definition ok_or {E A} (e : E) (o : option A) : outcome E A :=
  match o with Some a => Good a | None => Bad e end.
Definition add_or {E} (e : E) (a b : Z) : outcome E Z := ok_or e (checked_add a b).

Lemma ok_or_Good {E A} (e : E) (o : option A) a : ok_or e o = Good a → o = Some a.
Proof. destruct o; naive_solver. Qed.
Lemma add_or_Good {E} (e : E) a b s : add_or e a b = Good s → s = a + b.
Proof. unfold add_or, checked_add. destruct (_ <=? _); naive_solver. Qed.
Lemma add_or_spec {E} (e : E) a b : a + b <= USIZE_MAX → add_or e a b = Good (a + b).
Proof. intros H. unfold add_or. by rewrite checked_add_Some. Qed.

(** ** Parsers *)

Definition capability_for_operation (operation : Z) : outcome ProtocolError Z :=
  if operation =? OP_SPEND then Good CAP_SPEND
  else if operation =? OP_ROTATE then Good CAP_ROTATE
  else if operation =? OP_RECOVERY then Good CAP_RECOVERY
  else Bad InvalidOperation.

Record AccountLockArgs := { la_version : Z; la_account_id : bytes }.

Definition AccountLockArgs_parse (data : bytes) : outcome ProtocolError AccountLockArgs :=
  err_if (negb (len data =? ACCOUNT_LOCK_ARGS_LEN)) InvalidArgs;;
  version ← index data 0;
  err_if (negb (version =? ACCOUNT_LOCK_VERSION)) UnsupportedVersion;;
  account_id ← range data 1 33;
  Good {| la_version := version; la_account_id := account_id |}.

Record VerifierRequest := {
  vr_algorithm_id : Z; vr_slot : Z; vr_operation : Z; vr_verifier_profile : Z;
  vr_authorization_digest : bytes; vr_key_id : bytes; vr_aux : bytes; vr_proof : bytes }.

(** [aux_end] and [total] of the request: sizes whose sum overflows are an error. *)
Definition request_sizes (aux_len proof_len : Z) : outcome ProtocolError (Z * Z) :=
  aux_end ← add_or LengthOverflow VERIFIER_REQUEST_HEADER_LEN aux_len;
  total ← add_or LengthOverflow aux_end proof_len;
  Good (aux_end, total).

Definition VerifierRequest_parse (data : bytes) : outcome ProtocolError VerifierRequest :=
  err_if ((len data <? VERIFIER_REQUEST_HEADER_LEN) || (len data >? VERIFIER_MAX_REQUEST_LEN))
    InvalidRequest;;
  magic ← range data 0 4;
  err_if (negb (bool_decide (magic = VERIFIER_MAGIC))) InvalidRequest;;
  abi ← index data 4;
  err_if (negb (abi =? VERIFIER_ABI_V1)) UnsupportedVersion;;
  reserved ← index data 5;
  header_len ← (b ← range data 6 8; le_u16 b);
  err_if (negb (reserved =? 0) || negb (header_len =? VERIFIER_REQUEST_HEADER_LEN))
    InvalidRequest;;
  algorithm_id ← (b ← range data 8 10; le_u16 b);
  slot ← (b ← range data 10 12; le_u16 b);
  operation ← index data 12;
  capability_for_operation operation;;
  r14 ← index data 14;
  r15 ← index data 15;
  tail ← range data 88 96;
  err_if (negb (r14 =? 0) || negb (r15 =? 0) ||
          existsb (λ byte, negb (Z_of_byte byte =? 0)) tail) InvalidRequest;;
  aux_len ← map_err InvalidRequest (b ← range data 80 84; le_u32 b);
  proof_len ← map_err InvalidRequest (b ← range data 84 88; le_u32 b);
  err_if ((aux_len >? VERIFIER_MAX_AUX_LEN) || (proof_len >? VERIFIER_MAX_PROOF_LEN))
    InvalidRequest;;
  '(aux_end, total) ← request_sizes aux_len proof_len;
  err_if (negb (total =? len data)) InvalidRequest;;
  profile ← index data 13;
  digest ← range data 16 48;
  key_id ← range data 48 80;
  aux ← range data VERIFIER_REQUEST_HEADER_LEN aux_end;
  proof ← range data aux_end total;
  Good {| vr_algorithm_id := algorithm_id; vr_slot := slot; vr_operation := operation;
          vr_verifier_profile := profile; vr_authorization_digest := digest;
          vr_key_id := key_id; vr_aux := aux; vr_proof := proof |}.

(** ** Reading the fields of a buffer *)

Section fields.
Context {E : Type}.

Lemma range_nth (fs : list bytes) n f a b :
  fs !! n = Some f → len (concat (take n fs)) = a → b = a + len f →
  @range E (concat fs) a b = Good f.
Proof.
  intros Hf Ha Hb. rewrite <- (take_drop_middle fs n f Hf), concat_app.
  by apply range_app.
Qed.
Lemma index_nth (fs : list bytes) n c i :
  fs !! n = Some [c] → len (concat (take n fs)) = i →
  @index E (concat fs) i = Good (Z_of_byte c).
Proof.
  intros Hf Hi. rewrite <- (take_drop_middle fs n [c] Hf), concat_app.
  by apply (index_app _ c).
Qed.
End fields.

(** A long enough buffer begins with fields of the given widths. *)
Lemma split_fields (ws : list nat) (data : bytes) :
  Z.of_nat (sum_list ws) <= len data →
  ∃ fs rest, data = concat (fs ++ [rest]) ∧ length <$> fs = ws.
Proof.
  revert data. induction ws as [|w ws IH]; intros data H.
  - exists [], data. cbn. by rewrite app_nil_r.
  - unfold len in H. cbn [sum_list_with] in H. unfold id in H at 1.
    destruct (IH (drop w data)) as (fs & rest & Hd & Hl).
    { unfold len. rewrite length_drop. lia. }
    exists (take w data :: fs), rest. cbn [app concat fmap list_fmap].
    rewrite <- Hd, take_drop, length_take, Hl. split; [done|]. f_equal. lia.
Qed.

(** ** Requests, exactly *)

Definition request_fields (r : VerifierRequest) : list bytes := [
  VERIFIER_MAGIC; [x01]; [x00]; le_bytes 2 VERIFIER_REQUEST_HEADER_LEN;
  le_bytes 2 (vr_algorithm_id r); le_bytes 2 (vr_slot r); [byte_of_Z (vr_operation r)];
  [byte_of_Z (vr_verifier_profile r)]; [x00]; [x00]; vr_authorization_digest r;
  vr_key_id r; le_bytes 4 (len (vr_aux r)); le_bytes 4 (len (vr_proof r)); zeros 8;
  vr_aux r; vr_proof r].
Definition request_layout (r : VerifierRequest) : bytes := concat (request_fields r).

Record request_ok (r : VerifierRequest) : Prop := {
  ro_algorithm : 0 <= vr_algorithm_id r < 2 ^ 16;
  ro_slot : 0 <= vr_slot r < 2 ^ 16;
  ro_operation : vr_operation r = 1 ∨ vr_operation r = 2 ∨ vr_operation r = 3;
  ro_profile : 0 <= vr_verifier_profile r < 256;
  ro_digest : len (vr_authorization_digest r) = 32;
  ro_key : len (vr_key_id r) = 32;
  ro_aux : len (vr_aux r) <= VERIFIER_MAX_AUX_LEN;
  ro_proof : len (vr_proof r) <= VERIFIER_MAX_PROOF_LEN }.

Lemma capability_Good o c :
  capability_for_operation o = Good c → o = 1 ∨ o = 2 ∨ o = 3.
Proof.
  unfold capability_for_operation, OP_SPEND, OP_ROTATE, OP_RECOVERY.
  destruct (Z.eqb_spec o 1), (Z.eqb_spec o 2), (Z.eqb_spec o 3); naive_solver.
Qed.
Lemma capability_total o :
  o = 1 ∨ o = 2 ∨ o = 3 → ∃ c, capability_for_operation o = Good c.
Proof. intros [-> | [-> | ->]]; eexists; reflexivity. Qed.

Lemma request_layout_len r :
  len (vr_authorization_digest r) = 32 → len (vr_key_id r) = 32 →
  len (request_layout r) = 96 + len (vr_aux r) + len (vr_proof r).
Proof.
  intros Hd Hk. unfold request_layout, request_fields. cbn [concat].
  rewrite !len_app, !len_le_bytes, Hd, Hk, len_zeros, len_nil.
  change (len VERIFIER_MAGIC) with 4. unfold len at 1 2 3 4 5 6. cbn [length]. lia.
Qed.

(** Offsets of fields whose lengths are known. *)
Ltac offset_of :=
  unfold len in *; cbn [request_fields take concat app]; unfold zeros;
  repeat (rewrite ?length_app, ?length_le_bytes, ?length_replicate; cbn [length]);
  change (length VERIFIER_MAGIC) with 4%nat; lia.

Lemma zeros_tail n : existsb (λ byte, negb (Z_of_byte byte =? 0)) (zeros n) = false.
Proof. induction n; [done|]. by cbn in *. Qed.
Lemma tail_zeros l :
  existsb (λ byte, negb (Z_of_byte byte =? 0)) l = false → l = zeros (length l).
Proof.
  induction l as [|b l IH]; [done|]. cbn. intros [Hb Hl]%orb_false_iff.
  bool_simpl. rewrite (Z_of_byte_zero b) by done. unfold zeros. cbn. f_equal. by apply IH.
Qed.

Lemma parse_request_layout r :
  request_ok r → VerifierRequest_parse (request_layout r) = Good r.
Proof.
  intros [Ha Hs Ho Hp Hd Hk Hx Hy].
  assert (Hl := request_layout_len r Hd Hk).
  pose proof (len_nonneg (vr_aux r)) as Hx0. pose proof (len_nonneg (vr_proof r)) as Hy0.
  unfold VERIFIER_MAX_AUX_LEN, VERIFIER_MAX_PROOF_LEN in *.
  destruct (capability_total _ Ho) as [c Hc].
  unfold VerifierRequest_parse, VERIFIER_REQUEST_HEADER_LEN, VERIFIER_MAX_REQUEST_LEN.
  rewrite (proj2 (err_if_Good _ _ tt)) by lia. cbn [mbind outcome_bind].
  unfold request_layout in *.
  rewrite (range_nth _ 0 VERIFIER_MAGIC 0 4), (index_nth _ 1 x01 4), (index_nth _ 2 x00 5),
    (range_nth _ 3 (le_bytes 2 96) 6 8), (range_nth _ 4 (le_bytes 2 (vr_algorithm_id r)) 8 10),
    (range_nth _ 5 (le_bytes 2 (vr_slot r)) 10 12),
    (index_nth _ 6 (byte_of_Z (vr_operation r)) 12),
    (index_nth _ 7 (byte_of_Z (vr_verifier_profile r)) 13),
    (index_nth _ 8 x00 14), (index_nth _ 9 x00 15),
    (range_nth _ 10 (vr_authorization_digest r) 16 48), (range_nth _ 11 (vr_key_id r) 48 80),
    (range_nth _ 12 (le_bytes 4 (len (vr_aux r))) 80 84),
    (range_nth _ 13 (le_bytes 4 (len (vr_proof r))) 84 88),
    (range_nth _ 14 (zeros 8) 88 96) by (done || offset_of).
  rewrite !Z_of_byte_of_Z, !(Z.mod_small _ 256) by lia.
  cbn [mbind outcome_bind].
  unfold le_u16, le_u32. rewrite !len_le_bytes.
  rewrite !le_value_small by (simpl; lia).
  rewrite zeros_tail, Hc.
  change (Z.of_nat 2 =? 2) with true. change (Z.of_nat 4 =? 4) with true.
  change (Z_of_byte x01 =? VERIFIER_ABI_V1) with true. change (Z_of_byte x00) with 0.
  rewrite bool_decide_eq_true_2 by done.
  cbn [mbind outcome_bind err_if negb orb Z.eqb Pos.eqb map_err].
  rewrite (proj2 (err_if_Good _ _ tt)) by (unfold VERIFIER_MAX_AUX_LEN, VERIFIER_MAX_PROOF_LEN; lia).
  cbn [mbind outcome_bind]. unfold request_sizes, VERIFIER_REQUEST_HEADER_LEN.
  do 2 (rewrite add_or_spec by (unfold USIZE_MAX; lia); cbn [mbind outcome_bind]).
  rewrite (proj2 (err_if_Good _ _ tt)) by lia. cbn [mbind outcome_bind].
  set (n := 96 + len (vr_aux r)).
  rewrite (range_nth _ 15 (vr_aux r) 96 n), (range_nth _ 16 (vr_proof r) n)
    by (done || (unfold n; offset_of)).
  cbn [mbind outcome_bind]. by destruct r.
Qed.

(** The fixed part of a request, field by field. *)
Definition REQUEST_WIDTHS : list nat := [4; 1; 1; 2; 2; 2; 1; 1; 1; 1; 32; 32; 4; 4; 8]%nat.

Lemma request_fields_of data :
  96 <= len data →
  ∃ (m : bytes) v z (h a s : bytes) o p z1 z2 (d k al pl t rest : bytes),
    data = concat [m; [v]; [z]; h; a; s; [o]; [p]; [z1]; [z2]; d; k; al; pl; t; rest] ∧
    len m = 4 ∧ len h = 2 ∧ len a = 2 ∧ len s = 2 ∧ len d = 32 ∧ len k = 32 ∧
    len al = 4 ∧ len pl = 4 ∧ len t = 8.
Proof.
  intros H. destruct (split_fields REQUEST_WIDTHS data) as (fs & rest & -> & Hl).
  { exact H. }
  do 15 (destruct fs as [|? fs]; [discriminate Hl|]). destruct fs; [|discriminate Hl].
  injection Hl as ?????? ? ? ? ? ?????.
  repeat match goal with Hx : length ?x = 1%nat |- _ =>
    destruct x as [|? [|? ?]]; try discriminate Hx; clear Hx end.
  repeat eexists; unfold len; lia.
Qed.

(** Two adjacent reads that reach the end split what follows the prefix. *)
Lemma range_rest {E} pre rest b x y :
  @range E (pre ++ rest) (len pre) b = Good x →
  @range E (pre ++ rest) b (len (pre ++ rest)) = Good y →
  rest = x ++ y ∧ len x = b - len pre.
Proof.
  intros (rest' & -> & Hx)%range_inv Hy. split; [|done].
  rewrite app_assoc in Hy. replace b with (len (pre ++ x)) in Hy by (rewrite len_app; lia).
  apply range_inv in Hy as (rest & -> & Hy). rewrite !len_app in Hy.
  assert (rest = []) as -> by (apply len_zero; lia). by rewrite app_nil_r.
Qed.

Lemma le_small_range x n : len x = n → 0 <= le_value x < 256 ^ n.
Proof. intros <-. apply le_value_range. Qed.

(** The buffer of a request that is read, with the numbers still in their bytes. *)
Lemma parse_request_bytes data r :
  VerifierRequest_parse data = Good r →
  ∃ (h a s : bytes) o p (d k al pl x y : bytes),
    data = concat [VERIFIER_MAGIC; [x01]; [x00]; h; a; s; [o]; [p]; [x00]; [x00]; d; k; al; pl;
      zeros 8; x; y] ∧
    (len h = 2 ∧ len a = 2 ∧ len s = 2 ∧ len d = 32 ∧ len k = 32 ∧ len al = 4 ∧ len pl = 4) ∧
    (le_value h = 96 ∧ le_value al = len x ∧ le_value pl = len y ∧
     len x <= VERIFIER_MAX_AUX_LEN ∧ len y <= VERIFIER_MAX_PROOF_LEN ∧
     (Z_of_byte o = 1 ∨ Z_of_byte o = 2 ∨ Z_of_byte o = 3)) ∧
    r = {| vr_algorithm_id := le_value a; vr_slot := le_value s; vr_operation := Z_of_byte o;
           vr_verifier_profile := Z_of_byte p; vr_authorization_digest := d; vr_key_id := k;
           vr_aux := x; vr_proof := y |}.
Proof.
  intros H. unfold VerifierRequest_parse in H. apply outcome_bind_Good in H as ([] & Hg & H).
  apply err_if_Good in Hg. unfold VERIFIER_REQUEST_HEADER_LEN, VERIFIER_MAX_REQUEST_LEN in *.
  destruct (request_fields_of data) as (m & v & z & h & a & s & o & p & z1 & z2 & d & k & al
    & pl & t & rest & Hdata & Hm & Hh & Ha & Hs & Hd & Hk & Hal & Hpl & Ht); [lia|].
  assert (Hlen : len data = 96 + len rest).
  { rewrite Hdata. cbn [concat]. rewrite !len_app, Hm, Hh, Ha, Hs, Hd, Hk, Hal, Hpl, Ht.
    rewrite len_nil. unfold len at 1 2 3 4 5 6. cbn [length]. lia. }
  rewrite Hdata in H.
  rewrite (range_nth _ 0 m 0 4), (index_nth _ 1 v 4), (index_nth _ 2 z 5),
    (range_nth _ 3 h 6 8), (range_nth _ 4 a 8 10), (range_nth _ 5 s 10 12),
    (index_nth _ 6 o 12), (index_nth _ 7 p 13), (index_nth _ 8 z1 14), (index_nth _ 9 z2 15),
    (range_nth _ 10 d 16 48), (range_nth _ 11 k 48 80), (range_nth _ 12 al 80 84),
    (range_nth _ 13 pl 84 88), (range_nth _ 14 t 88 96) in H by (done || offset_of).
  rewrite <- Hdata in H. unfold request_sizes, VERIFIER_REQUEST_HEADER_LEN in H.
  set (pre := concat [m; [v]; [z]; h; a; s; [o]; [p]; [z1]; [z2]; d; k; al; pl; t]).
  assert (Hpre : data = pre ++ rest ∧ len pre = 96).
  { rewrite Hdata. unfold pre. split; [cbn [concat]; by rewrite app_nil_r, <- !app_assoc|].
    unfold pre. offset_of. }
  destruct Hpre as [Hpre Hp96]. clearbody pre. apply (f_equal Some) in Hdata, Hpre.
  inv_good.
  repeat match goal with
    | H : le_u16 _ = Good _ |- _ => apply le_u16_Good in H as [_ ->]
    | H : le_u32 _ = Good _ |- _ => apply le_u32_Good in H as [_ ->]
    | H : add_or _ _ _ = Good _ |- _ => apply add_or_Good in H as ->
    end.
  bool_simpl. injection Hdata as Hdata. injection Hpre as Hpre.
  match goal with
  | H1 : range data 96 ?b = Good ?x, H2 : range data ?b ?e = Good ?y |- _ =>
      assert (Hrest : rest = x ++ y ∧ len x = b - len pre) by
        (apply (@range_rest ProtocolError); [by rewrite <- Hpre, Hp96 | rewrite <- Hpre; congruence])
  end.
  destruct Hrest as [-> Hx].
  rewrite Hp96 in Hx. rewrite len_app in Hlen.
  repeat match goal with
    | H : Z_of_byte _ = 0 |- _ => apply Z_of_byte_zero in H as ->
    | H : Z_of_byte ?b = VERIFIER_ABI_V1 |- _ => apply (Z_of_byte_inj b x01) in H as ->
    | H : existsb _ _ = false |- _ => apply tail_zeros in H
    | H : capability_for_operation _ = Good _ |- _ => apply capability_Good in H
    | H : ?m = VERIFIER_MAGIC |- _ => subst m
    end.
  match goal with H : ?t = zeros _ |- _ =>
    replace (length t) with 8%nat in H by (unfold len in Ht; lia); subst t end.
  match type of Hdata with _ = _ ++ _ :: _ :: ?h ++ ?a ++ ?s ++ ?o :: ?p :: _ :: _ :: ?d ++ ?k
      ++ ?al ++ ?pl ++ _ ++ (?x ++ ?y) ++ _ => exists h, a, s, o, p, d, k, al, pl, x, y end.
  split; [rewrite Hdata; cbn [concat app]; by rewrite <- app_assoc|].
  repeat split; done || lia.
Qed.

Lemma parse_request_inv data r :
  VerifierRequest_parse data = Good r → request_ok r ∧ data = request_layout r.
Proof.
  intros (h & a & s & o & p & d & k & al & pl & x & y & -> & Hl & (Hh & Hal & Hpl & Hv) & ->)
    %parse_request_bytes.
  destruct Hl as (Lh & La & Ls & Ld & Lk & Lal & Lpl).
  pose proof (le_small_range a 2 La). pose proof (le_small_range s 2 Ls).
  pose proof (Z_of_byte_range p). change (256 ^ 2) with 65536 in *.
  split; [by constructor; cbn; first [lia | tauto]|].
  unfold request_layout, request_fields. cbn [vr_algorithm_id vr_slot vr_operation
    vr_verifier_profile vr_authorization_digest vr_key_id vr_aux vr_proof].
  unfold VERIFIER_REQUEST_HEADER_LEN. rewrite <- Hh, <- Hal, <- Hpl.
  rewrite <- (le_bytes_of h 2 Lh), <- (le_bytes_of a 2 La), <- (le_bytes_of s 2 Ls),
    <- (le_bytes_of al 4 Lal), <- (le_bytes_of pl 4 Lpl).
  by rewrite !byte_of_Z_of_byte.
Qed.

(** A verifier reads a request exactly when it has the layout of the ABI with every
    field in its range. *)
Lemma parse_request_iff data r :
  VerifierRequest_parse data = Good r ↔ request_ok r ∧ data = request_layout r.
Proof.
  split; [apply parse_request_inv|]. intros [H ->]. by apply parse_request_layout.
Qed.

(** C11 — Verifier requests: the bytes a verifier reads as a request are exactly the layout
    of that request, with the algorithm, slot and operation in their ranges, a digest and
    a key of 32 bytes, and the aux and the proof within their limits. In particular two
    different requests never have one encoding, and nothing follows a request. *)
Theorem request_codec (data : bytes) (r : VerifierRequest) :
  VerifierRequest_parse data = Good r ↔ request_ok r ∧ data = request_layout r.
Proof. apply parse_request_iff. Qed.

(** ** No parser reads outside its buffer *)

Definition safe {E A} (m : outcome E A) : Prop := m ≠ Panic.

Lemma safe_bind {E A B} (m : outcome E A) (f : A → outcome E B) :
  safe m → (∀ a, m = Good a → safe (f a)) → safe (m ≫= f).
Proof. unfold safe. intros Hm Hf. destruct m; cbn; [by apply Hf|done|done]. Qed.
Lemma safe_Good {E A} (a : A) : safe (@Good E A a).
Proof. done. Qed.
Lemma safe_Bad {E A} (e : E) : safe (@Bad E A e).
Proof. done. Qed.
Lemma safe_err_if {E} c (e : E) : safe (err_if c e).
Proof. by destruct c. Qed.
Lemma safe_map_err {E E' A} (e : E') (m : outcome E A) : safe m → safe (map_err e m).
Proof. by destruct m. Qed.
Lemma safe_range {E} (data : bytes) a b : a <= b → b <= len data → safe (@range E data a b).
Proof. intros Ha Hb. unfold safe, range. by rewrite !(proj2 (Z.leb_le _ _)) by lia. Qed.
Lemma safe_at {E} (data : bytes) i : 0 <= i < len data → safe (@index E data i).
Proof.
  intros Hi. unfold safe, index, at_. unfold len in Hi.
  destruct (lookup_lt_is_Some_2 data (Z.to_nat i)) as [b ->]; [lia|done].
Qed.
Lemma safe_checked_end o l t : safe (checked_end o l t).
Proof. unfold checked_end. destruct (checked_add o l); [|done]. by destruct (_ <=? _). Qed.
Lemma safe_le_u16 b : safe (le_u16 b).
Proof. unfold le_u16. by destruct (negb _). Qed.
Lemma safe_le_u32 b : safe (le_u32 b).
Proof. unfold le_u32. by destruct (negb _). Qed.
Lemma safe_le_u64 b : safe (le_u64 b).
Proof. unfold le_u64. by destruct (negb _). Qed.
Lemma safe_add_or {E} (e : E) a b : safe (add_or e a b).
Proof. unfold add_or. by destruct (checked_add _ _). Qed.
Lemma safe_ok_or {E A} (e : E) (o : option A) : safe (ok_or e o).
Proof. by destruct o. Qed.
Lemma safe_capability o : safe (capability_for_operation o).
Proof. unfold capability_for_operation. by repeat destruct (_ =? _). Qed.
Create HintDb safe.
#[export] Hint Resolve safe_Good safe_Bad safe_err_if safe_map_err safe_checked_end
  safe_le_u16 safe_le_u32 safe_le_u64 safe_add_or safe_ok_or safe_capability : safe.
#[export] Hint Extern 2 (safe (range _ _ _)) => apply safe_range; lia : safe.
#[export] Hint Extern 2 (safe (index _ _)) => apply safe_at; lia : safe.

Lemma checked_end_le o l t e : checked_end o l t = Good e → e = o + l ∧ o + l <= t.
Proof.
  unfold checked_end, checked_add. destruct (_ <=? _) eqn:E1; [|done].
  destruct (_ <=? t) eqn:E2; [|done]. bool_simpl. intros [= <-]. lia.
Qed.
Lemma le_u16_range b v : le_u16 b = Good v → 0 <= v < 65536.
Proof. intros [Hl ->]%le_u16_Good. exact (le_small_range b 2 Hl). Qed.
Lemma le_u32_range b v : le_u32 b = Good v → 0 <= v < 4294967296.
Proof. intros [Hl ->]%le_u32_Good. exact (le_small_range b 4 Hl). Qed.

(** Walk through a chain of reads, keeping what the earlier ones established. *)
Ltac safe_facts :=
  inv_good; bool_simpl;
  repeat match goal with
  | H : checked_end _ _ _ = Good _ |- _ => apply checked_end_le in H
  | H : add_or _ _ _ = Good _ |- _ => apply add_or_Good in H
  | H : le_u16 _ = Good _ |- _ => apply le_u16_range in H
  | H : le_u32 _ = Good _ |- _ => apply le_u32_range in H
  end.
Ltac safe_step :=
  match goal with
  | |- safe (mbind _ _) => apply safe_bind; [|intros ? ?]; cbv beta zeta
  | |- safe (let '(_, _) := ?p in _) => destruct p
  | |- safe (map_err _ _) => apply safe_map_err
  | |- safe (if ?c then _ else _) => destruct c eqn:?
  | |- safe _ => safe_facts; solve [eauto with safe]
  end.
Ltac solve_safe := cbv zeta; repeat safe_step.

Lemma safe_parse_state_header data : safe (parse_state_header data).
Proof.
  unfold parse_state_header, ACCOUNT_STATE_HEADER_LEN. solve_safe.
Qed.

Lemma safe_parse_authenticator state off prev :
  0 <= off → safe (parse_authenticator state off prev).
Proof. intros Ho. unfold parse_authenticator. solve_safe. Qed.

(** What a parsed entry satisfies. *)
Record entry_wf (e : AuthenticatorEntry) : Prop := {
  ew_slot : 0 <= ae_slot e < 65536;
  ew_algorithm : 0 <= ae_algorithm_id e < 65536;
  ew_capabilities : 0 <= ae_capabilities e < 65536;
  ew_weight : 1 <= ae_weight e < 65536;
  ew_hash_type : ae_verifier_hash_type e <= 1;
  ew_code_hash : len (ae_verifier_code_hash e) = 32 }.

Lemma range_len {E} (data : bytes) a b x :
  0 <= a → @range E data a b = Good x → len x = b - a.
Proof.
  unfold range. intros Ha. destruct (_ && _) eqn:H; [|done]. bool_simpl. intros [= <-].
  apply split_at; lia.
Qed.

Lemma parse_authenticator_wf state off prev e off' :
  0 <= off → parse_authenticator state off prev = Good (e, off') →
  entry_wf e ∧ off + 48 <= off' <= len state ∧ default (-1) prev < ae_slot e.
Proof.
  intros Ho H. unfold parse_authenticator in H. inv_good.
  repeat match goal with
    | H : checked_end _ _ _ = Good _ |- _ => apply checked_end_le in H
    | H : le_u16 _ = Good _ |- _ => apply le_u16_range in H
    end.
  match goal with H : range _ (off + 12) _ = Good _ |- _ => apply range_len in H; [|lia] end.
  bool_simpl.
  split; [constructor; cbn; lia|]. split; [lia|].
  destruct prev; cbn in *; unfold id in *; lia.
Qed.

Section loops.
Context {T : Type}.

Lemma safe_parse_authenticators (f : T → AuthenticatorEntry → outcome ProtocolError T)
    state header s :
  (∀ s e, entry_wf e → safe (f s e)) → safe (parse_authenticators f state header s).
Proof.
  intros Hf. unfold parse_authenticators, ACCOUNT_STATE_HEADER_LEN.
  assert (Ho : 0 <= 32) by done. revert Ho. generalize 32 as off, (@None Z) as prev.
  revert s. induction (Z.to_nat _) as [|n IH]; intros s off prev Ho; cbn [parse_authenticators_loop].
  - by destruct (negb _).
  - apply safe_bind; [by apply safe_parse_authenticator|]. intros [e off'] He.
    apply parse_authenticator_wf in He as (Hw & Hb & _); [|done].
    apply safe_bind; [by apply Hf|]. intros s' _. apply IH. lia.
Qed.

Lemma safe_parse_proofs (f : T → Z → bytes → outcome ProtocolError T) data header s :
  (∀ s slot proof, 0 <= slot < 65536 → safe (f s slot proof)) →
  safe (parse_proofs f data header s).
Proof.
  intros Hf. unfold parse_proofs, ACCOUNT_WITNESS_HEADER_LEN.
  assert (Ho : 0 <= 16) by done. revert Ho. generalize 16 as off, (@None Z) as prev.
  revert s. induction (Z.to_nat _) as [|n IH]; intros s off prev Ho; cbn [parse_proofs_loop].
  - by destruct (negb _).
  - change (match checked_add off 8 with Some p => Good p | None => Bad InvalidWitness end)
      with (add_or InvalidWitness off 8).
    repeat safe_step. safe_facts. apply IH. lia.
Qed.
End loops.

Lemma safe_summarise s e : safe (summarise s e).
Proof. unfold summarise, add_weight. solve_safe. Qed.
Lemma safe_validate_state state : safe (validate_state state).
Proof.
  unfold validate_state. apply safe_bind; [apply safe_parse_state_header|]. intros header _.
  apply safe_bind; [apply safe_parse_authenticators; intros; apply safe_summarise|].
  intros summary _. solve_safe.
Qed.
Lemma safe_parse_witness_header data : safe (parse_witness_header data).
Proof. unfold parse_witness_header, ACCOUNT_WITNESS_HEADER_LEN. solve_safe. Qed.
Lemma safe_lock_args data : safe (AccountLockArgs_parse data).
Proof. unfold AccountLockArgs_parse, ACCOUNT_LOCK_ARGS_LEN. solve_safe. Qed.
Lemma safe_request data : safe (VerifierRequest_parse data).
Proof. unfold VerifierRequest_parse, request_sizes, VERIFIER_REQUEST_HEADER_LEN. solve_safe. Qed.
