(* ===== verification/Vm.v ===== *)
(** * The virtual machine of the chain

    The system calls the contracts use, as [ckb_std] documents them. A loading call
    takes the size of its buffer and returns what it wrote there; the calls on pipes
    and child processes change the state of the machine. [TxView] is a transaction as
    the machine shows it, and the laws say that the calls show that transaction. *)

From S2P Require Import Prelude Js JsString Wire Codec Abi.

Inductive SysError :=
  | IndexOutOfBound | ItemMissing | LengthNotEnough (actual : Z) | Encoding
  | InvalidFd | OtherEndClosed | SysOther (code : Z).
Inductive sys (A : Type) := Done (a : A) | Failed (e : SysError).
Arguments Done {A} a.
Arguments Failed {A} e.

Inductive Source := SInput | SOutput | SCellDep | SGroupInput.
Inductive CellField := FType | FTypeHash | FDataHash.

Class Loads := {
  load_script : Z → sys bytes;
  load_tx_hash : Z → sys bytes;
  load_witness : Z → nat → Source → sys bytes;
  load_cell_data : Z → nat → Source → sys bytes;
  load_cell_by_field : Z → nat → Source → CellField → sys bytes;
  load_input_since : Z → nat → Source → sys bytes }.

Class Processes (S : Type) := {
  pipe : S → sys (Z * Z) * S;
  spawn : nat → Source → list Z → S → sys Z * S;
  write : Z → bytes → S → sys nat * S;
  read : Z → nat → S → sys bytes * S;
  close : Z → S → sys unit * S;
  wait : Z → S → sys Z * S;
  (** the descriptors a process got from its parent, and their number *)
  inherited_fds : nat → S → list Z * nat * S }.

(** [for index in start..]: the body answers with the new accumulator and whether to
    go on. The range of a [usize] ends in a panic; [fuel] stands for its length, and no
    transaction has that many parts. *)
Fixpoint for_index {A} (fuel index : nat) (body : nat → A → outcome ProtocolError (A * bool))
    (acc : A) : outcome ProtocolError A :=
  match fuel with
  | O => Panic
  | S fuel' =>
      '(acc, go) ← body index acc;
      if go : bool then for_index fuel' (S index) body acc else Good acc
  end.

(** ** Transactions *)

Record CellView := {
  cv_type : option bytes; cv_type_hash : option bytes; cv_data_hash : bytes; cv_data : bytes }.
Record InputView := { iv_cell : CellView; iv_since : Z }.
Record TxView := {
  tv_script : bytes; tv_hash : bytes; tv_inputs : list InputView; tv_outputs : list CellView;
  tv_deps : list CellView; tv_witnesses : list bytes; tv_group : list nat }.

Definition cells_of (t : TxView) (source : Source) : list CellView :=
  match source with
  | SInput => iv_cell <$> tv_inputs t
  | SOutput => tv_outputs t
  | SCellDep => tv_deps t
  | SGroupInput => omap (λ i, iv_cell <$> tv_inputs t !! i) (tv_group t)
  end.
Definition witness_of (t : TxView) (index : nat) (source : Source) : option bytes :=
  match source with
  | SGroupInput => i ← tv_group t !! index; tv_witnesses t !! i
  | SCellDep => None
  | _ => tv_witnesses t !! index
  end.

(** A call fills the buffer, or says how long it should be. *)
Definition deliver (size : Z) (b : bytes) : sys bytes :=
  if len b <=? size then Done b else Failed (LengthNotEnough (len b)).
Definition deliver_or (e : SysError) (size : Z) (b : option bytes) : sys bytes :=
  match b with Some b => deliver size b | None => Failed e end.
Definition field_of (c : CellView) (field : CellField) : option bytes :=
  match field with
  | FType => cv_type c
  | FTypeHash => cv_type_hash c
  | FDataHash => Some (cv_data_hash c)
  end.

Record view_wf (t : TxView) : Prop := {
  vw_hash : len (tv_hash t) = 32;
  vw_cells source : Forall (λ c, len (cv_data_hash c) = 32 ∧
    (∀ h, cv_type_hash c = Some h → len h = 32) ∧ len (cv_data c) < 2 ^ 32)
    (cells_of t source);
  vw_since : Forall (λ i, 0 <= iv_since i < 2 ^ 64) (tv_inputs t);
  vw_witnesses : Forall (λ w : bytes, len w < 2 ^ 32) (tv_witnesses t);
  vw_group : Forall (λ i, i < length (tv_inputs t))%nat (tv_group t) }.

Class LoadLaws `{Loads} (t : TxView) : Prop := {
  load_script_is size : load_script size = deliver size (tv_script t);
  load_tx_hash_is size : load_tx_hash size = deliver size (tv_hash t);
  load_witness_is size i source :
    load_witness size i source = deliver_or IndexOutOfBound size (witness_of t i source);
  load_cell_data_is size i source :
    load_cell_data size i source =
      deliver_or IndexOutOfBound size (cv_data <$> cells_of t source !! i);
  load_cell_by_field_is size i source field :
    load_cell_by_field size i source field =
      match cells_of t source !! i with
      | None => Failed IndexOutOfBound
      | Some c => deliver_or ItemMissing size (field_of c field)
      end;
  load_input_since_is size i :
    load_input_since size i SInput =
      deliver_or IndexOutOfBound size ((λ v, le_bytes 8 (iv_since v)) <$> tv_inputs t !! i);
  view_is_wf : view_wf t }.

(** ** Child processes *)

(** What the calls on pipes and children guarantee. [exits i b c]: the program in the
    code cell [i], given the bytes [b] on its pipe, exits with code [c]. A child that was
    [spawned] has the reading end [r] of its pipe; whether the parent still can close it
    is left open here. *)
Class ProcessSound {S} `{Processes S} (exits : nat → bytes → Z → Prop) := {
  piped : S → Z → Z → Prop;
  spawned : S → Z → Z → Z → nat → Prop;
  running : S → Z → Z → nat → bytes → Prop;
  waiting : S → Z → nat → bytes → Prop;
  pipe_sound s r w s' : pipe s = (Done (r, w), s') → piped s' r w;
  spawn_sound s r w i pid s' :
    piped s r w → spawn i SCellDep [r; 0] s = (Done pid, s') → spawned s' pid r w i;
  close_read_sound s pid r w i res s' :
    spawned s pid r w i → close r s = (res, s') → running s' pid w i [];
  write_sound s pid w i b data n s' :
    running s pid w i b → write w data s = (Done n, s') →
    (n <= length data)%nat ∧ running s' pid w i (b ++ take n data);
  close_write_sound s pid w i b s' :
    running s pid w i b → close w s = (Done tt, s') → waiting s' pid i b;
  wait_sound s pid i b c s' :
    waiting s pid i b → wait pid s = (Done c, s') → exits i b c }.

(** A program that [serves] reads its pipe to the end; then no call fails, except that
    the parent may not be able to close the reading end, which [spawn] moved to the child. *)
Class ProcessLive {S} `{Processes S} {exits} (sound : ProcessSound exits)
    (serves : nat → Prop) := {
  idle : S → Prop;
  pipe_live s : idle s → ∃ r w s', pipe s = (Done (r, w), s');
  spawn_live s r w i : piped s r w → serves i →
    ∃ pid s', spawn i SCellDep [r; 0] s = (Done pid, s');
  close_read_live s pid r w i : spawned s pid r w i → serves i →
    ∃ res s', close r s = (res, s') ∧ (res = Done tt ∨ res = Failed InvalidFd);
  write_live s pid w i b data : running s pid w i b → serves i → data ≠ [] →
    ∃ n s', write w data s = (Done (Datatypes.S n), s');
  close_write_live s pid w i b : running s pid w i b → serves i →
    ∃ s', close w s = (Done tt, s');
  wait_live s pid i b : waiting s pid i b → serves i →
    ∃ c s', wait pid s = (Done c, s') ∧ idle s' }.

(** What a child reads: [inherits s b], its pipe holds the bytes [b] and its writer has
    closed the other end. *)
Class PipeReads {S} `{Processes S} (inherits : S → bytes → Prop) := {
  reading : S → Z → bytes → Prop;
  inherit_reads s b : inherits s b →
    ∃ fd s', inherited_fds 2 s = ([fd], 1%nat, s') ∧ reading s' fd b;
  read_more s fd b l : reading s fd b → b ≠ [] → (0 < l)%nat →
    ∃ k s', read fd l s = (Done (take (Datatypes.S k) b), s') ∧ (Datatypes.S k <= l)%nat ∧
            (Datatypes.S k <= length b)%nat ∧ reading s' fd (drop (Datatypes.S k) b);
  read_end s fd l : reading s fd [] →
    ∃ r s', read fd l s = (r, s') ∧ (r = Done [] ∨ r = Failed OtherEndClosed) ∧
            reading s' fd [];
  close_end s fd : reading s fd [] → ∃ s', close fd s = (Done tt, s') }.
