(* ===== verification/Lock.v ===== *)
(** * The account lock ([contracts/account-lock/src/main.rs])

    The script that guards the cells of an account: it finds the account's state in the
    transaction, recomputes the authorization digest, lets the verifiers check the
    proofs of the witness and compares their weight with the threshold of the
    operation. *)

From S2P Require Import Prelude Js JsString Ccc Wire Codec Abi Vm.

Definition MAX_CELL_DATA : Z := ACCOUNT_STATE_MAX_LEN.
Definition MAX_WITNESS : Z := ACCOUNT_WITNESS_MAX_LOCK_LEN + 1024.
Definition MAX_TYPE_SCRIPT : Z := 512.
Definition MAX_SCRIPT : Z := 512.
Definition AUTH_DOMAIN : bytes := utf8_encode "CKB_ACCOUNT_LOCK_V1".

(** ** Molecule tables *)

(** The lock's own [le_u32]. *)
Definition lock_u32 (b : bytes) : outcome ProtocolError Z :=
  if negb (len b =? 4) then Bad InvalidWitness else Good (le_value b).

Definition table3_fields (data : bytes) : outcome ProtocolError (bytes * bytes * bytes) :=
  (if len data <? 16 then Bad InvalidWitness
   else total ← (b ← range data 0 4; lock_u32 b);
        err_if (negb (total =? len data)) InvalidWitness);;
  first ← (b ← range data 4 8; lock_u32 b);
  second ← (b ← range data 8 12; lock_u32 b);
  third ← (b ← range data 12 16; lock_u32 b);
  err_if (negb (first =? 16) || (first >? second) || (second >? third) ||
          (third >? len data)) InvalidWitness;;
  f0 ← range data first second;
  f1 ← range data second third;
  f2 ← range data third (len data);
  Good (f0, f1, f2).

Definition molecule_bytes (field : bytes) : outcome ProtocolError bytes :=
  err_if (len field <? 4) InvalidWitness;;
  length ← (b ← range field 0 4; lock_u32 b);
  err_if (negb (length =? len field - 4)) InvalidWitness;;
  range field 4 (len field).

Definition witness_lock (witness : bytes) : outcome ProtocolError bytes :=
  '(f0, _, _) ← table3_fields witness;
  err_if (len f0 =? 0) InvalidWitness;;
  molecule_bytes f0.

(** The witness with its lock field replaced by present, empty bytes. *)
Definition canonical_witness (witness : bytes) : outcome ProtocolError bytes :=
  '(_, f1, f2) ← table3_fields witness;
  total ← (sum ← add_or LengthOverflow 20 (len f1); add_or LengthOverflow sum (len f2));
  let second := 20 in
  third ← add_or LengthOverflow second (len f1);
  Good (le_bytes 4 total ++ le_bytes 4 16 ++ le_bytes 4 second ++ le_bytes 4 third ++
        le_bytes 4 0 ++ f1 ++ f2).

Definition script_args (script : bytes) : outcome ProtocolError bytes :=
  '(_, _, f2) ← map_err InvalidArgs (table3_fields script);
  map_err InvalidArgs (molecule_bytes f2).

(** ** Loading *)

Definition load_bounded (cap : Z) (loader : Z → sys bytes) : outcome ProtocolError bytes :=
  match loader 256 with
  | Done b => if len b <=? 256 then Good b else Panic
  | Failed (LengthNotEnough actual) =>
      if actual <=? cap
      then match loader actual with
           | Done b => err_if (negb (len b =? actual)) InvalidState;; Good b
           | Failed _ => Bad InvalidState
           end
      else Bad InvalidState
  | Failed _ => Bad InvalidState
  end.

Record ResolvedState := {
  rs_current : bytes; rs_successor : option bytes; rs_state_input : option nat }.

Section lock.
Context {S : Type} {ccc : Ccc} {loads : Loads} {processes : Processes S} (fuel : nat).

Definition load_data (index : nat) (source : Source) : outcome ProtocolError bytes :=
  load_bounded MAX_CELL_DATA (λ size, load_cell_data size index source).
Definition load_a_witness (index : nat) (source : Source) : outcome ProtocolError bytes :=
  map_err InvalidWitness (load_bounded MAX_WITNESS (λ size, load_witness size index source)).
Definition load_current_script : outcome ProtocolError bytes :=
  map_err InvalidArgs (load_bounded MAX_SCRIPT load_script).

Definition load_type_script (index : nat) (source : Source)
    : outcome ProtocolError (option bytes) :=
  match load_bounded MAX_TYPE_SCRIPT (λ size, load_cell_by_field size index source FType) with
  | Good script => Good (Some script)
  | Bad _ =>
      match load_cell_by_field 1 index source FType with
      | Failed ItemMissing => Good None
      | _ => Bad InvalidState
      end
  | Panic => Panic
  end.

Definition cell_type_hash (index : nat) (source : Source) : sys (option bytes) :=
  match load_cell_by_field 32 index source FTypeHash with
  | Done hash => if len hash =? 32 then Done (Some hash) else Failed Encoding
  | Failed ItemMissing => Done None
  | Failed error => Failed error
  end.

Definition matching_type_indices (source : Source) (account_id : bytes)
    : outcome ProtocolError (list nat) :=
  for_index fuel 0 (λ index acc,
    match cell_type_hash index source with
    | Done (Some hash) =>
        Good (if bool_decide (hash = account_id) then acc ++ [index] else acc, true)
    | Done None => Good (acc, true)
    | Failed IndexOutOfBound => Good (acc, false)
    | Failed _ => Bad InvalidState
    end) [].

(** ** The account's state *)

Definition resolve_spend (account_id : bytes) (inputs : list nat)
    : outcome ProtocolError ResolvedState :=
  err_if (negb (len inputs =? 0)) StateConsumedOnSpend;;
  deps ← matching_type_indices SCellDep account_id;
  match deps with
  | [dep] =>
      current ← load_data dep SCellDep;
      Good {| rs_current := current; rs_successor := None; rs_state_input := None |}
  | [] => Bad StateNotFound
  | _ => Bad DuplicateState
  end.

Definition resolve_change (account_id : bytes) (inputs : list nat)
    : outcome ProtocolError ResolvedState :=
  match inputs with
  | [input] =>
      outputs ← matching_type_indices SOutput account_id;
      match outputs with
      | [output] =>
          input_type ← (o ← load_type_script input SInput; ok_or InvalidTransition o);
          output_type ← (o ← load_type_script output SOutput; ok_or InvalidTransition o);
          err_if (negb (bool_decide (input_type = output_type))) InvalidTransition;;
          current ← load_data input SInput;
          successor ← load_data output SOutput;
          Good {| rs_current := current; rs_successor := Some successor;
                  rs_state_input := Some input |}
      | _ => Bad InvalidTransition
      end
  | [] => Bad StateNotFound
  | _ => Bad DuplicateState
  end.

Definition resolve_state (operation : Z) (account_id : bytes)
    : outcome ProtocolError ResolvedState :=
  inputs ← matching_type_indices SInput account_id;
  if operation =? OP_SPEND then resolve_spend account_id inputs
  else if (operation =? OP_ROTATE) || (operation =? OP_RECOVERY)
  then resolve_change account_id inputs
  else Bad InvalidOperation.

Definition validate_transition (operation : Z) (resolved : ResolvedState)
    (current_header : StateHeader) : outcome ProtocolError unit :=
  if operation =? OP_SPEND then Good tt else
  successor ← ok_or InvalidTransition (rs_successor resolved);
  '(next, _) ← validate_state successor;
  (* [sequence.checked_add(1)] of a [u64] *)
  expected ← (if sh_sequence current_header + 1 <=? 2 ^ 64 - 1
              then Good (sh_sequence current_header + 1) else Bad InvalidSequence);
  err_if (negb (sh_sequence next =? expected)) InvalidSequence;;
  if operation =? OP_RECOVERY then
    err_if (Z.land (sh_flags current_header) STATE_FLAG_RECOVERY_ENABLED =? 0)
      InvalidCapability;;
    index ← ok_or InvalidTransition (rs_state_input resolved);
    since ← match load_input_since 8 index SInput with
            | Done b => Good (le_value b) | Failed _ => Bad RecoveryLocked end;
    err_if (since <? sh_recovery_since current_header) RecoveryLocked
  else Good tt.

(** ** The message *)

(** A hasher is the bytes it was updated with. *)
Definition hash_witness (hasher witness : bytes) : outcome ProtocolError bytes :=
  err_if (len witness >? 2 ^ 64 - 1) LengthOverflow;;
  Good (hasher ++ le_bytes 8 (len witness) ++ witness).

Definition input_count : outcome ProtocolError Z :=
  for_index fuel 0 (λ index _,
    match load_input_since 8 index SInput with
    | Done _ => Good (0, true)
    | Failed IndexOutOfBound => Good (Z.of_nat index, false)
    | Failed _ => Bad InvalidWitness
    end) 0.

(** The witnesses of a source from [start] on. *)
Definition hash_witnesses (source : Source) (start : nat) (hasher : bytes)
    : outcome ProtocolError bytes :=
  for_index fuel start (λ index hasher,
    match load_witness 1 index source with
    | Done _ | Failed (LengthNotEnough _) =>
        witness ← load_a_witness index source;
        hasher ← hash_witness hasher witness;
        Good (hasher, true)
    | Failed IndexOutOfBound => Good (hasher, false)
    | Failed _ => Bad InvalidWitness
    end) hasher.

Definition canonical_group_sighash : outcome ProtocolError bytes :=
  first ← load_a_witness 0 SGroupInput;
  canonical ← canonical_witness first;
  tx_hash ← match load_tx_hash 32 with
            | Done h => err_if (negb (len h =? 32)) InvalidWitness;; Good h
            | Failed _ => Bad InvalidWitness
            end;
  hasher ← hash_witness tx_hash canonical;
  hasher ← hash_witnesses SGroupInput 1 hasher;
  inputs ← input_count;
  hasher ← hash_witnesses SInput (Z.to_nat inputs) hasher;
  Good (ckb_digest hasher).

Definition authorization_digest (operation : Z) (account_id : bytes) (sequence : Z)
    (state group_sighash : bytes) : bytes :=
  ckb_digest (AUTH_DOMAIN ++ [byte_of_Z operation] ++ account_id ++ le_bytes 8 sequence ++
              ckb_digest state ++ group_sighash).

(** ** Verifiers *)

Definition find_authenticator (state : bytes) (header : StateHeader) (slot : Z)
    : outcome ProtocolError AuthenticatorEntry :=
  found ← parse_authenticators (λ found entry,
            Good (if ae_slot entry =? slot then Some entry else found)) state header None;
  ok_or InvalidWitness found.

Definition resolve_verifier (auth : AuthenticatorEntry) : outcome ProtocolError nat :=
  let field := if ae_verifier_hash_type auth =? 0 then FDataHash else FTypeHash in
  found ← for_index fuel 0 (λ index found,
    match load_cell_by_field 32 index SCellDep field with
    | Done hash =>
        if (len hash =? 32) && bool_decide (hash = ae_verifier_code_hash auth)
        then match found with
             | Some _ => Bad InvalidVerifierRef
             | None => Good (Some index, true)
             end
        else Good (found, true)
    | Failed ItemMissing => Good (found, true)
    | Failed IndexOutOfBound => Good (found, false)
    | Failed _ => Bad InvalidVerifierRef
    end) None;
  ok_or InvalidVerifierRef found.

Definition encode_request (auth : AuthenticatorEntry) (operation : Z) (digest proof : bytes)
    : outcome ProtocolError bytes :=
  err_if (negb (len (ae_key_id auth) =? 32) || (len (ae_aux auth) =? 0) ||
          (len proof >? VERIFIER_MAX_PROOF_LEN)) InvalidRequest;;
  total ← (sum ← add_or LengthOverflow VERIFIER_REQUEST_HEADER_LEN (len (ae_aux auth));
           add_or LengthOverflow sum (len proof));
  err_if (negb (total <=? VERIFIER_MAX_REQUEST_LEN)) LengthOverflow;;
  profile ← index (ae_aux auth) 0;
  let output := VERIFIER_MAGIC ++ (byte_of_Z <$> [VERIFIER_ABI_V1; 0]) ++
    le_bytes 2 VERIFIER_REQUEST_HEADER_LEN ++ le_bytes 2 (ae_algorithm_id auth) ++
    le_bytes 2 (ae_slot auth) ++ (byte_of_Z <$> [operation; profile; 0; 0]) ++ digest ++
    ae_key_id auth ++ le_bytes 4 (len (ae_aux auth)) ++ le_bytes 4 (len proof) ++ zeros 8 ++
    ae_aux auth ++ proof in
  VerifierRequest_parse output;;
  Good output.

(** The loop that writes the request; a call writes a part of it. *)
Fixpoint write_all (n : nat) (fd : Z) (rest : bytes) (s : S) : outcome ProtocolError S :=
  match rest, n with
  | [], _ => Good s
  | _, O => Panic
  | _, Datatypes.S n' =>
      match write fd rest s with
      | (Done written, s) =>
          err_if (Z.of_nat written =? 0) VerifierFailure;;
          write_all n' fd (drop written rest) s
      | (Failed _, _) => Bad VerifierFailure
      end
  end.

Definition spawn_verifier (index : nat) (request : bytes) (s : S)
    : outcome ProtocolError (bool * S) :=
  match pipe s with
  | (Failed _, _) => Bad VerifierFailure
  | (Done (read_fd, write_fd), s) =>
  match spawn index SCellDep [read_fd; 0] s with
  | (Failed _, _) => Bad VerifierFailure
  | (Done pid, s) =>
      let '(closed, s) := close read_fd s in
      match closed with
      | Done _ | Failed InvalidFd => Good tt
      | Failed _ => Bad VerifierFailure
      end;;
      s ← write_all (length request) write_fd request s;
      match close write_fd s with
      | (Failed _, _) => Bad VerifierFailure
      | (Done _, s) =>
          match wait pid s with
          | (Failed _, _) => Bad VerifierFailure
          | (Done code, s) => Good (code =? 0, s)
          end
      end
  end
  end.

(** ** The program *)

Definition threshold_of (operation : Z) (header : StateHeader) : outcome ProtocolError Z :=
  if operation =? OP_SPEND then Good (sh_spend_threshold header)
  else if operation =? OP_ROTATE then Good (sh_rotate_threshold header)
  else if operation =? OP_RECOVERY then Good (sh_recovery_threshold header)
  else Bad InvalidOperation.

(** The callback of [parse_proofs], with the captured weight. *)
Definition count_proof (current : bytes) (header : StateHeader) (operation capability : Z)
    (digest : bytes) (acc : Z * S) (slot : Z) (proof : bytes)
    : outcome ProtocolError (Z * S) :=
  auth ← find_authenticator current header slot;
  err_if (Z.land (ae_capabilities auth) capability =? 0) InvalidCapability;;
  verifier_index ← resolve_verifier auth;
  request ← encode_request auth operation digest proof;
  '(accepted, s) ← spawn_verifier verifier_index request acc.2;
  if accepted : bool
  then (if acc.1 + ae_weight auth <=? 2 ^ 32 - 1
        then Good (acc.1 + ae_weight auth, s) else Bad LengthOverflow)
  else Good (acc.1, s).

Definition run (s : S) : outcome ProtocolError S :=
  script ← load_current_script;
  lock_args ← (args ← script_args script; AccountLockArgs_parse args);
  first_witness ← load_a_witness 0 SGroupInput;
  lock ← witness_lock first_witness;
  header ← parse_witness_header lock;
  err_if (wh_proof_count header >? AUTHENTICATOR_MAX_COUNT) InvalidWitness;;
  resolved ← resolve_state (wh_operation header) (la_account_id lock_args);
  '(state_header, _) ← validate_state (rs_current resolved);
  err_if (negb (wh_state_sequence header =? sh_sequence state_header)) InvalidSequence;;
  validate_transition (wh_operation header) resolved state_header;;
  sighash ← canonical_group_sighash;
  let digest := authorization_digest (wh_operation header) (la_account_id lock_args)
                  (sh_sequence state_header) (rs_current resolved) sighash in
  capability ← capability_for_operation (wh_operation header);
  threshold ← threshold_of (wh_operation header) state_header;
  '(weight, s) ← parse_proofs (count_proof (rs_current resolved) state_header
                   (wh_operation header) capability digest) lock header (0, s);
  err_if (weight <? threshold) ThresholdUnsatisfied;;
  Good s.

(** The exit code of the script. *)
Definition code (error : ProtocolError) : Z :=
  match error with
  | InvalidArgs => 20 | InvalidState => 21 | InvalidWitness => 22 | StateNotFound => 23
  | DuplicateState => 24 | StateConsumedOnSpend => 25 | InvalidTransition => 26
  | InvalidSequence => 27 | ThresholdUnsatisfied => 28 | InvalidCapability => 29
  | InvalidVerifierRef => 30 | VerifierFailure => 31 | UnsupportedVersion => 32
  | UnsupportedAlgorithm => 33 | RecoveryLocked => 34 | InvalidRequest => 35
  | InvalidProof => 36 | InvalidOperation => 37 | UnsatisfiableThreshold => 38
  | LengthOverflow => 39
  end.
(** A panic aborts the machine: there is no exit code. *)
Definition program_entry (s : S) : option Z :=
  match run s with
  | Good _ => Some 0
  | Bad error => Some (code error)
  | Panic => None
  end.
End lock.
