(* ===== verification/Molecule.v ===== *)
(** * Molecule tables, as the lock reads them

    The lock takes tables of three fields and byte strings apart by hand. These readers
    accept exactly the serialization the chain library writes ([CccRef]). *)

From S2P Require Import Prelude Js JsString Bytes Ccc CccRef Wire Protocol Codec Digest Abi Vm Lock.

Lemma lock_u32_Good x v : lock_u32 x = Good v ↔ len x = 4 ∧ v = le_value x.
Proof. unfold lock_u32. destruct (Z.eqb_spec (len x) 4); simpl; naive_solver. Qed.
Lemma lock_u32_spec z : 0 <= z < 2 ^ 32 → lock_u32 (u32b z) = Good z.
Proof.
  intros Hz. apply lock_u32_Good. unfold u32b. by rewrite len_le_bytes, le_value_small.
Qed.
Lemma u32b_value x : len x = 4 → u32b (le_value x) = x.
Proof. intros H. symmetry. by apply (le_bytes_of x 4). Qed.

Definition table3_parts (total o1 o2 o3 : Z) (f0 f1 f2 : bytes) : list bytes :=
  [u32b total; u32b o1; u32b o2; u32b o3; f0; f1; f2].

Lemma table3_concat f0 f1 f2 :
  table [f0; f1; f2] =
  concat (table3_parts (len (table [f0; f1; f2])) 16 (16 + len f0) (16 + len f0 + len f1)
            f0 f1 f2).
Proof.
  rewrite len_table. unfold table, table3_parts. cbn [offsets concat app].
  change (len [f0; f1; f2]) with 3. cbn [app concat].
  by rewrite app_nil_r, <- !app_assoc.
Qed.

(** Offsets of the parts of a table. *)
Ltac table_offset :=
  unfold len in *; cbn [table3_parts take concat app]; unfold u32b;
  repeat (rewrite ?length_app, ?length_le_bytes; cbn [length]); lia.

Lemma table3_read f0 f1 f2 :
  len (table [f0; f1; f2]) < 2 ^ 32 →
  table3_fields (table [f0; f1; f2]) = Good (f0, f1, f2).
Proof.
  intros Hl. assert (Hlen := Hl). rewrite len_table in Hlen. cbn [concat] in Hlen.
  rewrite !len_app in Hlen. change (len [f0; f1; f2]) with 3 in Hlen.
  pose proof (len_nonneg f0). pose proof (len_nonneg f1). pose proof (len_nonneg f2).
  assert (Ht : len (table [f0; f1; f2]) = 16 + len f0 + len f1 + len f2).
  { rewrite len_table. cbn [concat]. rewrite !len_app. change (len [f0; f1; f2]) with 3.
    rewrite len_nil. lia. }
  unfold table3_fields. rewrite table3_concat. rewrite Ht in *.
  set (parts := table3_parts _ _ _ _ _ _ _).
  assert (Hp : len (concat parts) = 16 + len f0 + len f1 + len f2).
  { rewrite <- Ht. unfold parts. by rewrite table3_concat, Ht. }
  rewrite Hp, (proj2 (Z.ltb_ge _ _)) by lia.
  rewrite (range_nth parts 0 (u32b (16 + len f0 + len f1 + len f2)) 0 4),
    (range_nth parts 1 (u32b 16) 4 8), (range_nth parts 2 (u32b (16 + len f0)) 8 12),
    (range_nth parts 3 (u32b (16 + len f0 + len f1)) 12 16)
    by (done || (unfold parts; table_offset)).
  cbn [mbind outcome_bind]. rewrite !lock_u32_spec by lia. cbn [mbind outcome_bind].
  rewrite !(proj2 (err_if_Good _ _ tt)) by lia. cbn [mbind outcome_bind].
  set (o2 := 16 + len f0 + len f1). set (o1 := 16 + len f0).
  rewrite (range_nth parts 4 f0 16 o1), (range_nth parts 5 f1 o1 o2),
    (range_nth parts 6 f2 o2) by (done || (unfold parts, o2, o1; table_offset)).
  done.
Qed.

Lemma table3_fields_inv data f0 f1 f2 :
  table3_fields data = Good (f0, f1, f2) →
  data = table [f0; f1; f2] ∧ len data < 2 ^ 32.
Proof.
  intros H. unfold table3_fields in H. apply outcome_bind_Good in H as ([] & Hg & H).
  destruct (len data <? 16) eqn:Hl; [done|]. bool_simpl.
  destruct (split_fields [4; 4; 4; 4]%nat data) as (fs & rest & Hdata & Hw).
  { change (Z.of_nat (sum_list [4; 4; 4; 4]%nat)) with 16. lia. }
  destruct fs as [|a0 [|a1 [|a2 [|a3 [|? ?]]]]]; try discriminate Hw.
  injection Hw as H0 H1 H2 H3. cbn [app] in Hdata.
  rewrite Hdata in H, Hg.
  rewrite (range_nth _ 0 a0 0 4) in Hg by (done || offset_of).
  rewrite (range_nth _ 1 a1 4 8), (range_nth _ 2 a2 8 12), (range_nth _ 3 a3 12 16) in H
    by (done || offset_of).
  rewrite <- Hdata in H, Hg.
  assert (Hrest : data = (a0 ++ a1 ++ a2 ++ a3) ++ rest ∧ len (a0 ++ a1 ++ a2 ++ a3) = 16).
  { rewrite Hdata. cbn [concat]. rewrite app_nil_r, <- !app_assoc. split; [done|].
    unfold len. rewrite !length_app. lia. }
  revert Hrest. generalize (a0 ++ a1 ++ a2 ++ a3). intros pre [Hrest Hpre].
  apply (f_equal Some) in Hdata, Hrest. inv_good.
  repeat match goal with H : lock_u32 _ = Good _ |- _ => apply lock_u32_Good in H as [_ ->] end.
  bool_simpl. injection Hdata as Hdata. injection Hrest as Hrest.
  repeat match goal with H : length ?x = 4%nat |- _ =>
    let Hx := fresh in assert (Hx : len x = 4) by (unfold len; lia); clear H;
    pose proof (le_small_range x 4 Hx); apply u32b_value in Hx; revert Hx end.
  change (256 ^ 4) with (2 ^ 32) in *. intros.
  match goal with H : range data ?a _ = Good f0, E : ?a = 16 |- _ =>
    rewrite E, <- Hpre, Hrest in H; apply range_inv in H as (r1 & -> & L0) end.
  rewrite Hpre in L0. rewrite app_assoc in Hrest.
  match goal with H : range data ?s _ = Good f1 |- _ =>
    replace s with (len (pre ++ f0)) in H by (rewrite len_app, Hpre; lia);
    rewrite Hrest in H; apply range_inv in H as (r2 & -> & L1) end.
  rewrite len_app in L1. rewrite app_assoc in Hrest.
  match goal with H : range data ?s _ = Good f2 |- _ =>
    replace s with (len ((pre ++ f0) ++ f1)) in H by (rewrite !len_app, Hpre; lia);
    rewrite Hrest in H at 1; apply range_inv in H as (r3 & -> & L2) end.
  assert (Hend : len data = 16 + len f0 + len f1 + len f2 + len r3).
  { rewrite Hrest, !len_app, Hpre. lia. }
  rewrite !len_app in L2. assert (r3 = []) as -> by (apply len_zero; lia).
  rewrite app_nil_r in *. change (len []) with 0 in Hend.
  split; [|lia]. rewrite table3_concat, len_table. cbn [concat]. rewrite !len_app.
  change (len [f0; f1; f2]) with 3. rewrite len_nil. rewrite Hdata. unfold table3_parts.
  cbn [concat]. rewrite app_nil_r, !app_assoc. repeat f_equal;
    match goal with E : u32b _ = ?x |- ?x = _ => rewrite <- E; f_equal; lia end.
Qed.

Lemma table3_fields_iff data f0 f1 f2 :
  table3_fields data = Good (f0, f1, f2) ↔ data = table [f0; f1; f2] ∧ len data < 2 ^ 32.
Proof.
  split; [apply table3_fields_inv|]. intros [-> H]. by apply table3_read.
Qed.

Lemma molecule_bytes_iff field b :
  molecule_bytes field = Good b ↔ field = bytes_item b ∧ len b < 2 ^ 32.
Proof.
  unfold bytes_item. split.
  - intros H. unfold molecule_bytes in H. apply outcome_bind_Good in H as ([] & Hg & H).
    apply err_if_Good in Hg. bool_simpl.
    destruct (split_fields [4]%nat field) as (fs & rest & -> & Hw); [cbn; lia|].
    destruct fs as [|l [|? ?]]; try discriminate Hw. injection Hw as Hw.
    assert (Hl : len l = 4) by (unfold len; lia).
    cbn [app concat] in *. rewrite app_nil_r in *.
    assert (Hr : @range ProtocolError (l ++ rest) 0 4 = Good l)
      by (apply (range_app [] l rest); [done|lia]).
    rewrite Hr in H. cbn [mbind outcome_bind] in H.
    rewrite (proj2 (lock_u32_Good l _) (conj Hl eq_refl)) in H.
    cbn [mbind outcome_bind] in H. apply outcome_bind_Good in H as ([] & Hg2 & H).
    apply err_if_Good in Hg2. bool_simpl. rewrite len_app in *.
    rewrite <- Hl in H at 1. apply range_inv in H as (r & -> & Hr').
    rewrite len_app in *. assert (r = []) as -> by (apply len_zero; lia).
    rewrite app_nil_r, len_nil in *. pose proof (le_small_range l 4 Hl) as Hv.
    change (256 ^ 4) with (2 ^ 32) in Hv.
    split; [|lia]. rewrite <- (u32b_value l Hl). do 2 f_equal. lia.
  - intros [-> H]. pose proof (len_nonneg b).
    assert (Hl : len (u32b (len b) ++ b) = 4 + len b)
      by (rewrite len_app; unfold u32b; rewrite len_le_bytes; lia).
    assert (Hr : @range ProtocolError (u32b (len b) ++ b) 0 4 = Good (u32b (len b)))
      by (apply (range_app [] _ b); done).
    unfold molecule_bytes. rewrite Hl, Hr, (proj2 (err_if_Good _ _ tt)) by lia.
    cbn [mbind outcome_bind]. rewrite lock_u32_spec by lia. cbn [mbind outcome_bind].
    rewrite (proj2 (err_if_Good _ _ tt)) by lia. cbn [mbind outcome_bind].
    rewrite <- (app_nil_r (u32b (len b) ++ b)), <- app_assoc. by apply range_app.
Qed.

(** The lock's canonical witness is the witness with an empty lock field. *)
Lemma canonical_witness_table f0 f1 f2 :
  len (table [f0; f1; f2]) < 2 ^ 32 →
  canonical_witness (table [f0; f1; f2]) = Good (table [bytes_item []; f1; f2]).
Proof.
  intros H. unfold canonical_witness. rewrite table3_read by done.
  cbn [mbind outcome_bind]. rewrite len_table in H. cbn [concat] in H.
  rewrite !len_app in H. change (len [f0; f1; f2]) with 3 in H.
  pose proof (len_nonneg f0). pose proof (len_nonneg f1). pose proof (len_nonneg f2).
  pose proof (len_nonneg (@nil byte)).
  do 2 (rewrite add_or_spec by (unfold USIZE_MAX; lia); cbn [mbind outcome_bind]).
  change (bytes_item []) with (le_bytes 4 0). set (z := le_bytes 4 0).
  assert (Hz : len z = 4) by done. clearbody z. rewrite table3_concat, len_table.
  cbn [concat table3_parts]. rewrite !len_app, len_nil, Hz, app_nil_r.
  change (len [z; f1; f2]) with 3. unfold u32b. f_equal.
  repeat (apply f_equal2; [first [reflexivity | apply f_equal; lia]|]); reflexivity.
Qed.
