(* ===== verification/Unlock.v ===== *)
(** * What the account lock accepts

    The lock never panics, and it accepts a transaction only when verifiers of the
    account's current state accepted proofs of enough weight for the digest of that
    very transaction. *)

From S2P Require Import Prelude Js JsString Ccc CccRef Wire Protocol Codec Digest Abi Vm Lock Molecule.

(** ** Loops over the parts of a transaction *)

Section for_index.
Context {A : Type} (body : nat → A → outcome ProtocolError (A * bool)).

Lemma safe_for_index N fuel start acc :
  (∀ i acc, safe (body i acc)) →
  (∀ i acc acc', (N <= i)%nat → body i acc ≠ Good (acc', true)) →
  (N `max` start < start + fuel)%nat → safe (for_index fuel start body acc).
Proof.
  intros Hs Hstop. revert start acc. induction fuel as [|fuel IH]; intros start acc Hf;
    cbn [for_index]; [lia|].
  apply safe_bind; [apply Hs|]. intros [acc' [|]] Hb; [|done].
  apply IH. destruct (decide (N <= start)%nat); [by apply Hstop in Hb|lia].
Qed.

(** A loop whose body goes on exactly below [N], as a fold. *)
Lemma for_index_fold (g : nat → A → outcome ProtocolError A) N fuel start acc :
  (∀ i acc, (i < N)%nat → body i acc = (a ← g i acc; Good (a, true))) →
  (∀ i acc, (N <= i)%nat → body i acc = Good (acc, false)) →
  (N `max` start < start + fuel)%nat →
  for_index fuel start body acc =
    foldl (λ m i, a ← m; g i a) (Good acc) (seq start (N - start)).
Proof.
  intros Hg Hstop. revert start acc. induction fuel as [|fuel IH]; intros start acc Hf; [lia|].
  cbn [for_index]. destruct (decide (start < N)%nat) as [Hlt|Hge].
  - rewrite Hg by done. replace (N - start)%nat with (S (N - S start)) by lia.
    cbn [seq foldl mbind outcome_bind].
    destruct (g start acc) as [a|e|]; cbn [mbind outcome_bind].
    + apply IH. lia.
    + by induction (seq _ _).
    + by induction (seq _ _).
  - rewrite Hstop by lia. by replace (N - start)%nat with 0%nat by lia.
Qed.
End for_index.

(** A fold that never fails. *)
Lemma foldl_Good {A B} (g : B → A → A) (l : list B) acc :
  foldl (λ m i, a ← m; Good (g i a)) (@Good ProtocolError _ acc) l = Good (foldl (flip g) acc l).
Proof. revert acc. induction l as [|i l IH]; intros acc; [done|]. apply IH. Qed.

(** ** Molecule tables *)

Lemma safe_lock_u32 b : safe (lock_u32 b).
Proof. unfold lock_u32. by destruct (negb _). Qed.
Lemma lock_u32_range b v : lock_u32 b = Good v → 0 <= v < 4294967296.
Proof.
  unfold lock_u32. destruct (Z.eqb_spec (len b) 4) as [Hl|]; [|done]. intros [= <-].
  exact (le_small_range b 4 Hl).
Qed.
#[export] Hint Resolve safe_lock_u32 : safe.

Lemma safe_table3_fields data : safe (table3_fields data).
Proof.
  unfold table3_fields. apply safe_bind; [solve_safe|]. intros [] H.
  assert (16 <= len data).
  { destruct (len data <? 16) eqn:E; [done|]. bool_simpl. lia. }
  clear H. solve_safe.
Qed.
Lemma safe_molecule_bytes field : safe (molecule_bytes field).
Proof. unfold molecule_bytes. solve_safe. Qed.
#[export] Hint Resolve safe_table3_fields safe_molecule_bytes : safe.
Lemma safe_witness_lock w : safe (witness_lock w).
Proof. unfold witness_lock. solve_safe. Qed.
Lemma safe_canonical_witness w : safe (canonical_witness w).
Proof. unfold canonical_witness. solve_safe. Qed.
Lemma safe_script_args s : safe (script_args s).
Proof. unfold script_args. solve_safe. Qed.
#[export] Hint Resolve safe_witness_lock safe_canonical_witness safe_script_args : safe.

(** ** Loading *)

Lemma load_bounded_ext cap l l' :
  (∀ size, l size = l' size) → load_bounded cap l = load_bounded cap l'.
Proof.
  intros H. unfold load_bounded. rewrite H.
  destruct (l' 256) as [|[]]; try done. by rewrite H.
Qed.

Lemma deliver_load b cap : 256 <= cap →
  load_bounded cap (λ size, deliver size b) =
    if len b <=? cap then Good b else Bad InvalidState.
Proof.
  intros Hc. unfold load_bounded, deliver.
  destruct (len b <=? 256) eqn:H1.
  - rewrite H1. destruct (Z.leb_spec (len b) cap); [done|]. apply Z.leb_le in H1. lia.
  - destruct (len b <=? cap); [|done]. by rewrite Z.leb_refl, Z.eqb_refl.
Qed.

Lemma load_bounded_none cap e :
  (∀ a, e ≠ LengthNotEnough a) → load_bounded cap (λ _, Failed e) = Bad InvalidState.
Proof. intros He. unfold load_bounded. destruct e; try done. by destruct (He actual). Qed.

Section lock.
Context {S : Type} {ccc : Ccc} {loads : Loads} {processes : Processes S} (fuel : nat)
  (t : TxView) {laws : LoadLaws t}.

(** More fuel than the transaction has parts of any kind. *)
Definition enough : Prop :=
  (length (tv_inputs t) < fuel)%nat ∧ (length (tv_outputs t) < fuel)%nat ∧
  (length (tv_deps t) < fuel)%nat ∧ (length (tv_witnesses t) < fuel)%nat ∧
  (length (tv_group t) < fuel)%nat.

Lemma load_data_spec i source :
  load_data i source =
    match cells_of t source !! i with
    | Some c => if len (cv_data c) <=? MAX_CELL_DATA then Good (cv_data c)
                else Bad InvalidState
    | None => Bad InvalidState
    end.
Proof.
  unfold load_data. rewrite (load_bounded_ext _ _ _ (λ n, load_cell_data_is n i source)).
  destruct (cells_of t source !! i) as [c|]; cbn [fmap option_fmap option_map deliver_or].
  - by apply deliver_load.
  - by apply load_bounded_none.
Qed.

Lemma load_witness_spec i source :
  load_a_witness i source =
    match witness_of t i source with
    | Some w => if len w <=? MAX_WITNESS then Good w else Bad InvalidWitness
    | None => Bad InvalidWitness
    end.
Proof.
  unfold load_a_witness.
  rewrite (load_bounded_ext _ _ _ (λ n, load_witness_is n i source)).
  destruct (witness_of t i source) as [w|]; cbn [deliver_or].
  - rewrite deliver_load by done. by destruct (_ <=? _).
  - by rewrite load_bounded_none.
Qed.

Lemma load_script_spec :
  load_current_script = if len (tv_script t) <=? MAX_SCRIPT then Good (tv_script t)
                        else Bad InvalidArgs.
Proof.
  unfold load_current_script. rewrite (load_bounded_ext _ _ _ load_script_is).
  rewrite deliver_load by done. by destruct (_ <=? _).
Qed.

Lemma load_type_spec i source c :
  cells_of t source !! i = Some c →
  load_type_script i source =
    match cv_type c with
    | Some s => if len s <=? MAX_TYPE_SCRIPT then Good (Some s) else Bad InvalidState
    | None => Good None
    end.
Proof.
  intros Hc. unfold load_type_script.
  rewrite (load_bounded_ext _ _ _ (λ n, load_cell_by_field_is n i source FType)).
  rewrite load_cell_by_field_is, Hc. cbn [field_of].
  destruct (cv_type c) as [s|]; cbn [deliver_or].
  - rewrite deliver_load by done. destruct (Z.leb_spec (len s) MAX_TYPE_SCRIPT); [done|].
    unfold deliver. by destruct (_ <=? _).
  - by rewrite load_bounded_none.
Qed.

Lemma cell_type_hash_spec i source :
  cell_type_hash i source =
    match cells_of t source !! i with
    | Some c => Done (cv_type_hash c)
    | None => Failed IndexOutOfBound
    end.
Proof.
  unfold cell_type_hash. rewrite load_cell_by_field_is.
  destruct (cells_of t source !! i) as [c|] eqn:Hc; [|done]. cbn [field_of].
  destruct (cv_type_hash c) as [h|] eqn:Hh; cbn [deliver_or]; [|done].
  assert (Hw := vw_cells t view_is_wf source).
  eapply Forall_lookup_1 in Hw as (_ & Hl & _); [|exact Hc].
  unfold deliver. rewrite (Hl h Hh). cbn [Z.leb Z.compare Pos.compare Pos.compare_cont].
  by rewrite (Hl h Hh).
Qed.

(** The cells of a source whose type script has the hash [id]. *)
Definition typed (id : bytes) (c : CellView) : bool := bool_decide (cv_type_hash c = Some id).
Definition picked (p : CellView → bool) (cells : list CellView) : list nat :=
  List.filter (λ i, from_option p false (cells !! i)) (seq 0 (length cells)).
Definition matching (source : Source) (id : bytes) : list nat :=
  picked (typed id) (cells_of t source).

Lemma picked_from (p : CellView → bool) (cells : list CellView) (l acc : list nat) :
  foldl (λ acc i, if from_option p false (cells !! i) then acc ++ [i] else acc) acc l =
  acc ++ List.filter (λ i, from_option p false (cells !! i)) l.
Proof.
  revert acc. induction l as [|i l IH]; intros acc; cbn [foldl List.filter].
  - by rewrite app_nil_r.
  - rewrite IH. destruct (from_option _ _ _); [by rewrite <- app_assoc|done].
Qed.

Lemma matching_spec source id :
  (length (cells_of t source) < fuel)%nat →
  matching_type_indices fuel source id = Good (matching source id).
Proof.
  intros Hf. unfold matching_type_indices, matching, picked.
  set (cells := cells_of t source) in *.
  rewrite (for_index_fold _ (λ i acc, Good (if from_option (typed id) false (cells !! i)
    then acc ++ [i] else acc)) (length cells)).
  - rewrite Nat.sub_0_r, foldl_Good. f_equal. apply picked_from.
  - intros i acc Hi. rewrite cell_type_hash_spec. fold cells.
    destruct (lookup_lt_is_Some_2 cells i Hi) as [c ->]. cbn [from_option].
    unfold typed. destruct (cv_type_hash c) as [h|]; [|done].
    cbn [mbind outcome_bind]. do 2 f_equal.
    destruct (decide (h = id)) as [->|Hn].
    + by rewrite !bool_decide_eq_true_2.
    + rewrite !bool_decide_eq_false_2; congruence.
  - intros i acc Hi. rewrite cell_type_hash_spec. fold cells.
    by rewrite (proj2 (lookup_ge_None cells i)) by done.
  - lia.
Qed.

(** What a list of picked indices says. *)
Lemma picked_single p (cells : list CellView) i :
  picked p cells = [i] → ∃ c, cells !! i = Some c ∧ p c = true ∧
    ∀ j c', cells !! j = Some c' → p c' = true → j = i.
Proof.
  unfold picked. intros H.
  assert (Hin : ∀ j, j ∈ [i] ↔ ∃ c, cells !! j = Some c ∧ p c = true).
  { intros j. rewrite <- H, list_elem_of_In, filter_In, <- list_elem_of_In, elem_of_seq.
    destruct (cells !! j) as [c|] eqn:Hj; cbn [from_option].
    - apply lookup_lt_Some in Hj. split; [intros [_ Hp]; eauto|].
      intros (c' & [= <-] & Hp). split; [lia|done].
    - naive_solver. }
  destruct (proj1 (Hin i)) as (c & Hc & Hp); [by apply list_elem_of_here|].
  exists c. split; [done|]. split; [done|]. intros j c' Hj Hp'.
  apply list_elem_of_singleton, Hin. eauto.
Qed.
Lemma picked_nil p (cells : list CellView) : picked p cells = [] → Forall (λ c, p c = false) cells.
Proof.
  unfold picked. intros H. apply Forall_lookup_2. intros i c Hi.
  destruct (p c) eqn:Hp; [|done]. exfalso.
  assert (Hin : i ∈ []); [|by apply not_elem_of_nil in Hin].
  rewrite <- H, list_elem_of_In, filter_In, <- list_elem_of_In, elem_of_seq, Hi.
  apply lookup_lt_Some in Hi. split; [lia|done].
Qed.

(** ** Verifiers *)

(** The cells a verifier reference names. *)
Definition named (auth : AuthenticatorEntry) (c : CellView) : bool :=
  bool_decide (field_of c (if ae_verifier_hash_type auth =? 0 then FDataHash else FTypeHash) =
               Some (ae_verifier_code_hash auth)).

Lemma unique_from (p : nat → bool) l found :
  foldl (λ m i, found ← m;
    if p i then match found with Some _ => Bad InvalidVerifierRef | None => Good (Some i) end
    else Good found) (Good found) l =
  match option_list found ++ List.filter p l with
  | [] => Good None
  | [i] => Good (Some i)
  | _ => Bad InvalidVerifierRef
  end.
Proof.
  assert (Hbad : ∀ l, foldl (λ m i, found ← m;
    if p i then match found with Some _ => Bad InvalidVerifierRef | None => Good (Some i) end
    else Good found) (@Bad ProtocolError (option nat) InvalidVerifierRef) l =
    Bad InvalidVerifierRef) by (induction l0; done).
  revert found. induction l as [|i l IH]; intros found; cbn [foldl List.filter].
  - by destruct found.
  - destruct (p i); cbn [mbind outcome_bind].
    + destruct found as [j|]; cbn [option_list app]; [by rewrite Hbad | apply IH].
    + apply IH.
Qed.

Lemma resolve_verifier_spec auth :
  len (ae_verifier_code_hash auth) = 32 → (length (tv_deps t) < fuel)%nat →
  resolve_verifier fuel auth =
    match picked (named auth) (tv_deps t) with
    | [i] => Good i
    | _ => Bad InvalidVerifierRef
    end.
Proof.
  intros Hh Hf. unfold resolve_verifier, picked.
  rewrite (for_index_fold _ (λ i found,
    if from_option (named auth) false (tv_deps t !! i)
    then match found with Some _ => Bad InvalidVerifierRef | None => Good (Some i) end
    else Good found) (length (tv_deps t))).
  - rewrite Nat.sub_0_r, unique_from. cbn [option_list app].
    by destruct (List.filter _ _) as [|i [|]].
  - intros i found Hi. rewrite load_cell_by_field_is. cbn [cells_of].
    destruct (lookup_lt_is_Some_2 _ i Hi) as [c Hc]. rewrite Hc. cbn [from_option].
    assert (Hw := vw_cells t view_is_wf SCellDep).
    eapply Forall_lookup_1 in Hw as (Hd & Ht & _); [|exact Hc].
    unfold named. set (field := if _ =? 0 then _ else _).
    assert (Hl : ∀ h, field_of c field = Some h → len h = 32).
    { intros h. unfold field. destruct (_ =? 0); [by intros [= <-]|apply Ht]. }
    destruct (field_of c field) as [h|]; cbn [deliver_or]; [|done].
    unfold deliver. rewrite (Hl h eq_refl). cbn [Z.leb Z.compare Pos.compare Pos.compare_cont].
    rewrite (Hl h eq_refl). cbn [Z.eqb Pos.eqb andb].
    destruct (decide (h = ae_verifier_code_hash auth)) as [->|Hn].
    + rewrite !bool_decide_eq_true_2 by done. by destruct found.
    + rewrite !bool_decide_eq_false_2 by congruence. done.
  - intros i found Hi. rewrite load_cell_by_field_is. cbn [cells_of].
    by rewrite (proj2 (lookup_ge_None _ i)) by done.
  - lia.
Qed.

(** ** The message *)

(** The witnesses of a source from [start] on, up to the first missing one. *)
Fixpoint run_from (n : nat) (source : Source) (start : nat) : list bytes :=
  match n with
  | O => []
  | Datatypes.S n' =>
      match witness_of t start source with
      | Some w => w :: run_from n' source (Datatypes.S start)
      | None => []
      end
  end.

Definition fits (w : bytes) : bool := len w <=? MAX_WITNESS.

Lemma hash_witness_spec hasher w :
  len w < 2 ^ 64 → hash_witness hasher w = Good (hasher ++ framed w).
Proof.
  intros H. unfold hash_witness, framed. by rewrite (proj2 (err_if_Good _ _ tt)) by lia.
Qed.

Lemma hash_witnesses_spec source N n start hasher :
  (∀ i, (N <= i)%nat → witness_of t i source = None) →
  (N `max` start < start + fuel)%nat → (N <= start + n)%nat →
  hash_witnesses fuel source start hasher =
    if forallb fits (run_from n source start)
    then Good (hasher ++ concat (framed <$> run_from n source start))
    else Bad InvalidWitness.
Proof.
  intros HN. unfold hash_witnesses. revert n start hasher.
  induction fuel as [|fuel' IH]; intros n start hasher Hf Hn; [lia|].
  cbn [for_index]. rewrite load_witness_is, load_witness_spec.
  destruct (witness_of t start source) as [w|] eqn:Hw; cbn [deliver_or].
  - assert (start < N)%nat.
    { destruct (decide (N <= start)%nat); [by rewrite HN in Hw|lia]. }
    destruct n as [|n]; [lia|]. cbn [run_from]. rewrite Hw. cbn [forallb fmap list_fmap concat].
    unfold fits at 1.
    assert (Hgo : (match deliver 1 w with
      | Done _ | Failed (LengthNotEnough _) =>
          w0 ← (if len w <=? MAX_WITNESS then Good w else Bad InvalidWitness);
          hasher ← hash_witness hasher w0; Good (hasher, true)
      | Failed IndexOutOfBound => Good (hasher, false)
      | Failed _ => Bad InvalidWitness end) =
      (w0 ← (if len w <=? MAX_WITNESS then Good w else Bad InvalidWitness);
       hasher ← hash_witness hasher w0; Good (hasher, true))).
    { unfold deliver. by destruct (_ <=? 1). }
    rewrite Hgo. destruct (Z.leb_spec (len w) MAX_WITNESS); [|done].
    cbn [mbind outcome_bind andb]. rewrite hash_witness_spec.
    2: { unfold MAX_WITNESS, ACCOUNT_WITNESS_MAX_LOCK_LEN in *. lia. }
    cbn [mbind outcome_bind]. rewrite (IH n) by lia. by rewrite <- app_assoc.
  - cbn [mbind outcome_bind]. destruct n; cbn [run_from]; rewrite ?Hw; cbn; by rewrite app_nil_r.
Qed.

Lemma input_count_spec :
  (length (tv_inputs t) < fuel)%nat → input_count fuel = Good (len (tv_inputs t)).
Proof.
  intros Hf. unfold input_count, len.
  assert (H : ∀ f start acc, (length (tv_inputs t) `max` start < start + f)%nat →
    (start <= length (tv_inputs t))%nat →
    for_index f start (λ index _, match load_input_since 8 index SInput with
      | Done _ => Good (0, true)
      | Failed IndexOutOfBound => Good (Z.of_nat index, false)
      | Failed _ => Bad InvalidWitness end) acc = Good (Z.of_nat (length (tv_inputs t)))).
  { clear Hf. induction f as [|f IH]; intros start acc Hf Hs; [lia|]. cbn [for_index].
    rewrite load_input_since_is.
    destruct (tv_inputs t !! start) as [i|] eqn:Hi; cbn [fmap option_fmap option_map deliver_or].
    - unfold deliver. rewrite len_le_bytes. cbn [Z.of_nat].
      change (Z.pos (Pos.of_succ_nat 7) <=? 8) with true. cbn [mbind outcome_bind].
      apply lookup_lt_Some in Hi. apply IH; lia.
    - apply lookup_ge_None in Hi. cbn [mbind outcome_bind]. do 2 f_equal. lia. }
  apply H; lia.
Qed.

Definition others : list bytes :=
  run_from (length (tv_group t)) SGroupInput 1 ++
  run_from (length (tv_witnesses t)) SInput (length (tv_inputs t)).

Lemma canonical_witness_inv w c :
  canonical_witness w = Good c →
  ∃ f0 f1 f2, w = table [f0; f1; f2] ∧ len w < 2 ^ 32 ∧ c = table [bytes_item []; f1; f2].
Proof.
  intros H. destruct (table3_fields w) as [[[f0 f1] f2]| |] eqn:Ht.
  2-3: unfold canonical_witness in H; by rewrite Ht in H.
  apply table3_fields_inv in Ht as [-> Hl]. rewrite canonical_witness_table in H by done.
  injection H as <-. by exists f0, f1, f2.
Qed.
Lemma canonical_witness_len w c :
  canonical_witness w = Good c → len c < 2 ^ 64.
Proof.
  intros (f0 & f1 & f2 & -> & Hl & ->)%canonical_witness_inv. revert Hl.
  rewrite !len_table. cbn [concat]. rewrite !len_app.
  change (len [f0; f1; f2]) with 3. change (len [bytes_item []; f1; f2]) with 3.
  change (len (bytes_item [])) with 4. pose proof (len_nonneg f0). lia.
Qed.

Lemma no_group_witness i : (length (tv_group t) <= i)%nat → witness_of t i SGroupInput = None.
Proof. intros Hi. cbn [witness_of]. by rewrite (proj2 (lookup_ge_None _ i)). Qed.
Lemma no_witness i : (length (tv_witnesses t) <= i)%nat → witness_of t i SInput = None.
Proof. intros Hi. cbn [witness_of]. by apply lookup_ge_None. Qed.

(** The lock's group sighash, whatever the transaction. *)
Lemma sighash_spec :
  enough →
  canonical_group_sighash fuel =
    first ← load_a_witness 0 SGroupInput;
    canonical ← canonical_witness first;
    if forallb fits others
    then Good (ckb_digest (sighash_preimage (tv_hash t) canonical others))
    else Bad InvalidWitness.
Proof.
  intros (Hi & _ & _ & Hw & Hg). unfold canonical_group_sighash.
  destruct (load_a_witness 0 SGroupInput) as [first|e|]; cbn [mbind outcome_bind]; [|done..].
  destruct (canonical_witness first) as [c|e|] eqn:Hc; cbn [mbind outcome_bind]; [|done..].
  apply canonical_witness_len in Hc.
  rewrite load_tx_hash_is. unfold deliver.
  rewrite (vw_hash t view_is_wf). cbn [Z.leb Z.compare Pos.compare Pos.compare_cont].
  rewrite (vw_hash t view_is_wf). cbn [Z.eqb Pos.eqb negb err_if mbind outcome_bind].
  rewrite hash_witness_spec by done. cbn [mbind outcome_bind].
  rewrite (hash_witnesses_spec SGroupInput (length (tv_group t)) (length (tv_group t)))
    by (apply no_group_witness || lia).
  rewrite input_count_spec by done. unfold len at 1. cbn [mbind outcome_bind].
  unfold others. rewrite forallb_app.
  destruct (forallb fits (run_from _ SGroupInput 1)); cbn [mbind outcome_bind andb]; [|done].
  rewrite Nat2Z.id.
  rewrite (hash_witnesses_spec SInput (length (tv_witnesses t)) (length (tv_witnesses t)))
    by (apply no_witness || lia).
  destruct (forallb fits _); cbn [mbind outcome_bind]; [|done].
  do 2 f_equal. unfold sighash_preimage. cbn [fmap list_fmap concat].
  by rewrite fmap_app, concat_app, <- !app_assoc.
Qed.

(** ** The lock never panics *)

Hypothesis fuel_enough : enough.

Lemma safe_load_data i source : safe (load_data i source).
Proof. rewrite load_data_spec. destruct (_ !! i); [|done]. by destruct (_ <=? _). Qed.
Lemma safe_load_witness i source : safe (load_a_witness i source).
Proof. rewrite load_witness_spec. destruct (witness_of _ _ _); [|done]. by destruct (_ <=? _). Qed.
Lemma safe_load_script : safe load_current_script.
Proof. rewrite load_script_spec. by destruct (_ <=? _). Qed.
Lemma safe_load_type i source : safe (load_type_script i source).
Proof.
  destruct (cells_of t source !! i) as [c|] eqn:Hc.
  - rewrite (load_type_spec i source c Hc). destruct (cv_type c); [|done]. by destruct (_ <=? _).
  - unfold load_type_script.
    rewrite (load_bounded_ext _ _ _ (λ n, load_cell_by_field_is n i source FType)).
    rewrite load_cell_by_field_is, Hc. by rewrite load_bounded_none.
Qed.
Lemma enough_cells source : (length (cells_of t source) < fuel)%nat.
Proof.
  destruct fuel_enough as (Hi & Ho & Hd & _ & Hg).
  destruct source; cbn [cells_of]; rewrite ?length_fmap; try done.
  eapply Nat.le_lt_trans; [|exact Hg]. clear. induction (tv_group t) as [|i l IH]; [done|].
  cbn [omap list_omap]. destruct (_ <$> _); cbn [length]; lia.
Qed.
Lemma safe_matching source id : safe (matching_type_indices fuel source id).
Proof. by rewrite matching_spec by apply enough_cells. Qed.
Lemma safe_sighash : safe (canonical_group_sighash fuel).
Proof.
  rewrite sighash_spec by done. apply safe_bind; [apply safe_load_witness|]. intros w _.
  apply safe_bind; [apply safe_canonical_witness|]. intros c _. by destruct (forallb _ _).
Qed.
Lemma safe_find_authenticator state header slot : safe (find_authenticator state header slot).
Proof.
  unfold find_authenticator. apply safe_bind; [|intros; apply safe_ok_or].
  by apply safe_parse_authenticators.
Qed.
Lemma safe_resolve_verifier auth :
  len (ae_verifier_code_hash auth) = 32 → safe (resolve_verifier fuel auth).
Proof.
  intros H. rewrite resolve_verifier_spec by (done || apply (enough_cells SCellDep)).
  by destruct (picked _ _) as [|? [|]].
Qed.
Lemma safe_encode_request auth operation digest proof :
  safe (encode_request auth operation digest proof).
Proof.
  unfold encode_request. pose proof (len_nonneg (ae_aux auth)). solve_safe. apply safe_request.
Qed.

Lemma safe_write_all n fd rest s : (length rest <= n)%nat → safe (write_all n fd rest s).
Proof.
  revert rest s. induction n as [|n IH]; intros [|b rest] s Hn; try done; cbn in Hn; [lia|].
  cbn [write_all]. destruct (write fd (b :: rest) s) as [[written|e] s']; [|done].
  apply safe_bind; [apply safe_err_if|]. intros [] Hw%err_if_Good. bool_simpl. apply IH.
  rewrite length_drop. cbn. lia.
Qed.
Lemma safe_spawn_verifier index request s : safe (spawn_verifier index request s).
Proof.
  unfold spawn_verifier. destruct (pipe s) as [[[r w]|] s1]; [|done].
  destruct (spawn _ _ _ _) as [[pid|] s2]; [|done]. destruct (close r s2) as [closed s3].
  apply safe_bind; [by destruct closed as [|[]]|]. intros _ _.
  apply safe_bind; [by apply safe_write_all|]. intros s4 _.
  destruct (close w s4) as [[|] s5]; [|done]. by destruct (wait pid s5) as [[|] s6].
Qed.

Lemma find_authenticator_wf state header slot auth :
  find_authenticator state header slot = Good auth → entry_wf auth.
Proof.
  unfold find_authenticator. intros H. apply outcome_bind_Good in H as (found & Hp & H).
  apply ok_or_Good in H as ->. revert Hp.
  assert (Hn : from_option entry_wf True (@None AuthenticatorEntry)) by done. revert Hn.
  unfold parse_authenticators, ACCOUNT_STATE_HEADER_LEN.
  assert (Ho : 0 <= 32) by done. revert Ho.
  generalize 32 as off, (@None Z) as prev, (@None AuthenticatorEntry) as found.
  induction (Z.to_nat _) as [|n IH]; intros off prev found Ho Hf; cbn [parse_authenticators_loop].
  - destruct (negb _); [done|]. intros [= ->]. exact Hf.
  - intros H. apply outcome_bind_Good in H as ([e off'] & He & H).
    apply parse_authenticator_wf in He as (Hw & Hb & _); [|done].
    cbn [mbind outcome_bind] in H. apply IH in H; [done|lia|].
    by destruct (ae_slot e =? slot).
Qed.

Lemma safe_count_proof current header operation capability digest acc slot proof :
  safe (count_proof fuel current header operation capability digest acc slot proof).
Proof.
  unfold count_proof. apply safe_bind; [apply safe_find_authenticator|]. intros auth Ha.
  apply find_authenticator_wf in Ha. apply safe_bind; [apply safe_err_if|]. intros _ _.
  apply safe_bind; [apply safe_resolve_verifier, Ha|]. intros i _.
  apply safe_bind; [apply safe_encode_request|]. intros request _.
  apply safe_bind; [apply safe_spawn_verifier|]. intros [[] s] _; [|done].
  by destruct (_ <=? _).
Qed.

Lemma safe_resolve_state operation id : safe (resolve_state fuel operation id).
Proof.
  unfold resolve_state. apply safe_bind; [apply safe_matching|]. intros inputs _.
  destruct (_ =? _); [|destruct (_ || _); [|done]].
  - unfold resolve_spend. apply safe_bind; [apply safe_err_if|]. intros _ _.
    apply safe_bind; [apply safe_matching|]. intros [|dep [|]] _; try done.
    apply safe_bind; [apply safe_load_data|]. done.
  - unfold resolve_change. destruct inputs as [|i [|]]; try done.
    apply safe_bind; [apply safe_matching|]. intros [|o [|]] _; try done.
    do 2 (apply safe_bind; [apply safe_bind; [apply safe_load_type|intros; apply safe_ok_or]|];
          intros ? _).
    apply safe_bind; [apply safe_err_if|]. intros _ _.
    do 2 (apply safe_bind; [apply safe_load_data|]; intros ? _). done.
Qed.

Lemma safe_validate_transition operation resolved header :
  safe (validate_transition operation resolved header).
Proof.
  unfold validate_transition. destruct (_ =? _); [done|].
  apply safe_bind; [apply safe_ok_or|]. intros successor _.
  apply safe_bind; [apply safe_validate_state|]. intros [next summary] _.
  apply safe_bind; [by destruct (_ <=? _)|]. intros expected _.
  apply safe_bind; [apply safe_err_if|]. intros _ _. destruct (_ =? _); [|done].
  apply safe_bind; [apply safe_err_if|]. intros _ _.
  apply safe_bind; [apply safe_ok_or|]. intros i _.
  apply safe_bind; [by destruct (load_input_since _ _ _)|]. intros since _. apply safe_err_if.
Qed.

Lemma run_never_panics s : safe (run fuel s).
Proof.
  unfold run. apply safe_bind; [apply safe_load_script|]. intros script _.
  apply safe_bind; [apply safe_bind; [apply safe_script_args|intros; apply safe_lock_args]|].
  intros args _.
  apply safe_bind; [apply safe_load_witness|]. intros first _.
  apply safe_bind; [apply safe_witness_lock|]. intros lock _.
  apply safe_bind; [apply safe_parse_witness_header|]. intros header _.
  apply safe_bind; [apply safe_err_if|]. intros _ _.
  apply safe_bind; [apply safe_resolve_state|]. intros resolved _.
  apply safe_bind; [apply safe_validate_state|]. intros [sh summary] _.
  apply safe_bind; [apply safe_err_if|]. intros _ _.
  apply safe_bind; [apply safe_validate_transition|]. intros _ _.
  apply safe_bind; [apply safe_sighash|]. intros sighash _. cbv zeta.
  apply safe_bind; [apply safe_capability|]. intros capability _.
  apply safe_bind; [unfold threshold_of; by repeat destruct (_ =? _)|]. intros threshold _.
  apply safe_bind; [apply safe_parse_proofs; intros; apply safe_count_proof|].
  intros [weight s'] _. apply safe_bind; [apply safe_err_if|]. done.
Qed.

Lemma exit_code_range e : 20 <= code e <= 39.
Proof. by destruct e. Qed.

(** C13 — The lock always exits: whatever the transaction, the witness, the state and the
    behaviour of the calls on pipes and children, the script ends with exit code 0 or with
    the code of an error. It never reads outside a buffer, never overflows, and its loops
    end. *)
Theorem lock_exits (s : S) :
  ∃ c, program_entry fuel s = Some c ∧ (c = 0 ∨ 20 <= c <= 39).
Proof.
  pose proof (run_never_panics s) as H. unfold program_entry.
  destruct (run fuel s) as [s'|e|]; [by exists 0; auto| |done].
  exists (code e). split; [done|]. right. apply exit_code_range.
Qed.
End lock.
