(* ===== verification/Approval.v ===== *)
(** * The lock's decision

    An accepted transaction is authorized: the account's current state is the one the
    transaction shows, and verifiers that this state names accepted proofs of enough
    weight for the digest of that very transaction. *)

From S2P Require Import Prelude Js JsString Ccc CccRef Wire Protocol Codec Digest Abi Vm Lock Molecule Unlock.

(** ** Proofs, one by one *)

Lemma collect_prefix n data off prev acc ps :
  parse_proofs_loop collect n data off prev acc = Good ps → ∃ qs, ps = acc ++ qs.
Proof.
  revert off prev acc. induction n as [|n IH]; intros off prev acc; cbn [parse_proofs_loop].
  - destruct (negb _); [done|]. intros [= ->]. exists []. by rewrite app_nil_r.
  - intros H. do 12 (apply outcome_bind_Good in H as (? & ? & H)).
    match goal with E : collect _ _ _ = Good _ |- _ => injection E as <- end.
    apply IH in H as [qs ->]. rewrite <- app_assoc. eauto.
Qed.

Section fold.
Context {T : Type} (f : T → Z → bytes → outcome ProtocolError T).

Fixpoint fold_proofs (ps : list (Z * bytes)) (s : T) : outcome ProtocolError T :=
  match ps with
  | [] => Good s
  | (slot, proof) :: ps' => s' ← f s slot proof; fold_proofs ps' s'
  end.

Lemma bind_fold {A B C} (m : outcome ProtocolError A) (k : A → outcome ProtocolError B)
    (k' : A → outcome ProtocolError C) (g : list (Z * bytes) → C) (P : list (Z * bytes) → Prop) b :
  (∀ a, m = Good a → k a = Good b ↔ ∃ ps, k' a = Good (g ps) ∧ P ps) →
  (m ≫= k) = Good b ↔ ∃ ps, (m ≫= k') = Good (g ps) ∧ P ps.
Proof. intros H. destruct m; cbn; [by apply H|naive_solver..]. Qed.

(** Parsing with a callback is parsing and then folding the callback. *)
Lemma parse_proofs_fold data header s s' :
  parse_proofs f data header s = Good s' ↔
  ∃ ps, parse_proofs collect data header [] = Good ps ∧ fold_proofs ps s = Good s'.
Proof.
  unfold parse_proofs. generalize ACCOUNT_WITNESS_HEADER_LEN as off, (@None Z) as prev.
  assert (H : ∀ n off prev s acc,
    parse_proofs_loop f n data off prev s = Good s' ↔
    ∃ ps, parse_proofs_loop collect n data off prev acc = Good (acc ++ ps) ∧
          fold_proofs ps s = Good s').
  { induction n as [|n IH]; intros off prev s0 acc; cbn [parse_proofs_loop].
    - destruct (negb _); [naive_solver|]. split.
      + intros [= ->]. exists []. by rewrite app_nil_r.
      + intros (ps & [= Hps] & Hf). assert (ps = []) as ->; [|exact Hf].
        by apply (app_inv_head acc); rewrite app_nil_r.
    - do 11 (apply bind_fold; intros ? ?).
      cbn [collect mbind outcome_bind]. rewrite outcome_bind_Good. split.
      + intros (s1 & Hs1 & (ps & Hps & Hf)%(IH _ _ _ (acc ++ [(a0, a9)]))).
        exists ((a0, a9) :: ps). rewrite <- app_assoc in Hps. split; [exact Hps|].
        cbn [fold_proofs]. by rewrite Hs1.
      + intros (ps & Hps & Hf). destruct (collect_prefix _ _ _ _ _ _ Hps) as [qs Hqs].
        rewrite <- app_assoc in Hqs. apply app_inv_head in Hqs as ->. cbn [app fold_proofs] in Hf.
        apply outcome_bind_Good in Hf as (s1 & Hs1 & Hf). exists s1. split; [done|].
        apply (IH _ _ _ (acc ++ [(a0, a9)])). exists qs. by rewrite <- app_assoc. }
  intros off prev. exact (H _ off prev s []).
Qed.
End fold.

(** ** Requests *)

Definition request_of (auth : AuthenticatorEntry) (operation : Z) (digest proof : bytes)
    : VerifierRequest := {|
  vr_algorithm_id := ae_algorithm_id auth; vr_slot := ae_slot auth;
  vr_operation := operation; vr_verifier_profile := default 0 (at_ (ae_aux auth) 0);
  vr_authorization_digest := digest; vr_key_id := ae_key_id auth;
  vr_aux := ae_aux auth; vr_proof := proof |}.

Lemma request_output auth operation digest proof profile :
  at_ (ae_aux auth) 0 = Some profile →
  VERIFIER_MAGIC ++ (byte_of_Z <$> [VERIFIER_ABI_V1; 0]) ++
    le_bytes 2 VERIFIER_REQUEST_HEADER_LEN ++ le_bytes 2 (ae_algorithm_id auth) ++
    le_bytes 2 (ae_slot auth) ++ (byte_of_Z <$> [operation; profile; 0; 0]) ++ digest ++
    ae_key_id auth ++ le_bytes 4 (len (ae_aux auth)) ++ le_bytes 4 (len proof) ++ zeros 8 ++
    ae_aux auth ++ proof = request_layout (request_of auth operation digest proof).
Proof.
  intros Hp. unfold request_layout, request_of. rewrite Hp. cbn [default].
  unfold request_fields. cbn [vr_algorithm_id vr_slot vr_operation vr_verifier_profile
    vr_authorization_digest vr_key_id vr_aux vr_proof concat fmap list_fmap].
  rewrite app_nil_r. reflexivity.
Qed.

Lemma Good_inj {E A} (a b : A) : @Good E A a = Good b → a = b.
Proof. congruence. Qed.

(** The aux length of a layout. *)
Lemma layout_aux_len r r' :
  len (vr_authorization_digest r) = 32 → len (vr_key_id r) = 32 →
  len (vr_authorization_digest r') = 32 → len (vr_key_id r') = 32 →
  len (vr_aux r) < 2 ^ 32 → len (vr_aux r') < 2 ^ 32 →
  request_layout r = request_layout r' → len (vr_aux r) = len (vr_aux r').
Proof.
  intros Hd Hk Hd' Hk' Ha Ha' H.
  assert (Hr : ∀ q, len (vr_authorization_digest q) = 32 → len (vr_key_id q) = 32 →
    @range ProtocolError (request_layout q) 80 84 = Good (le_bytes 4 (len (vr_aux q)))).
  { intros q Hqd Hqk. unfold request_layout.
    rewrite (range_nth _ 12 (le_bytes 4 (len (vr_aux q))) 80 84); [done|done|offset_of..]. }
  assert (E := Hr r Hd Hk). rewrite H, Hr in E by done. apply Good_inj in E.
  pose proof (len_nonneg (vr_aux r)). pose proof (len_nonneg (vr_aux r')).
  symmetry. by apply (le_bytes_inj 4).
Qed.

(** The lock builds a request exactly when the ABI has one for the proof. *)
Lemma encode_request_iff auth operation digest proof request :
  entry_wf auth → len digest = 32 → operation_ok operation →
  encode_request auth operation digest proof = Good request ↔
  ae_aux auth ≠ [] ∧ request_ok (request_of auth operation digest proof) ∧
  request = request_layout (request_of auth operation digest proof).
Proof.
  intros Hw Hd Ho.
  assert (Haux : ae_aux auth ≠ [] → ∃ profile, at_ (ae_aux auth) 0 = Some profile ∧
    @index ProtocolError (ae_aux auth) 0 = Good profile ∧ 0 <= profile < 256).
  { destruct (ae_aux auth) as [|b l]; [done|]. intros _. exists (Z_of_byte b).
    split; [done|]. split; [done|]. apply Z_of_byte_range. }
  pose proof (len_nonneg (ae_aux auth)). pose proof (len_nonneg proof). split.
  - intros H1. unfold encode_request in H1. apply outcome_bind_Good in H1 as ([] & Hg & H1).
    apply err_if_Good in Hg. bool_simpl.
    assert (Hne : ae_aux auth ≠ []) by (intros E; rewrite E in *; done).
    destruct (Haux Hne) as (profile & Hp & Hi & Hr). rewrite Hi in H1.
    apply outcome_bind_Good in H1 as (total & Ht & H1).
    apply outcome_bind_Good in H1 as ([] & Hm & H1). cbn [mbind outcome_bind] in H1. rewrite request_output in H1 by done.
    apply outcome_bind_Good in H1 as (r & Hparse & <-%Good_inj).
    unfold VERIFIER_REQUEST_HEADER_LEN, VERIFIER_MAX_REQUEST_LEN in *. inv_good.
    repeat match goal with H : add_or _ _ _ = Good _ |- _ => apply add_or_Good in H end.
    bool_simpl. apply parse_request_iff in Hparse as [Hr' E].
    split; [done|]. split; [|done].
    assert (Hal : len (ae_aux auth) = len (vr_aux r)).
    { apply (layout_aux_len (request_of auth operation digest proof) r); cbn [request_of
        vr_authorization_digest vr_key_id vr_aux]; try apply Hr'; try done; try lia.
      destruct Hr'. unfold VERIFIER_MAX_AUX_LEN in *. lia. }
    destruct Hw, Hr'. constructor; cbn [request_of vr_algorithm_id vr_slot vr_operation
      vr_verifier_profile vr_authorization_digest vr_key_id vr_aux vr_proof];
      rewrite ?Hp; cbn [default]; unfold id; try done; lia.
  - intros (Hne & Hr & ->). destruct (Haux Hne) as (profile & Hp & Hi & Hr').
    unfold encode_request. rewrite Hi. assert (Hr2 := Hr).
    destruct Hr2 as [_ _ _ _ _ Hk Ha Hpr]. cbn [request_of vr_key_id vr_aux vr_proof] in *.
    assert (len (ae_aux auth) ≠ 0) by (intros E%len_zero; done).
    unfold VERIFIER_MAX_AUX_LEN, VERIFIER_MAX_PROOF_LEN, VERIFIER_REQUEST_HEADER_LEN,
      VERIFIER_MAX_REQUEST_LEN in *.
    rewrite (proj2 (err_if_Good _ _ tt)) by lia. cbn [mbind outcome_bind].
    do 2 (rewrite add_or_spec by (unfold USIZE_MAX; lia); cbn [mbind outcome_bind]).
    rewrite (proj2 (err_if_Good _ _ tt)) by lia. cbn [mbind outcome_bind].
    assert (E := request_output auth operation digest proof profile Hp).
    unfold VERIFIER_REQUEST_HEADER_LEN in E. rewrite E, parse_request_layout by done. done.
Qed.

(** ** Running a verifier *)

Section processes.
Context {S : Type} {processes : Processes S} {exits : nat → bytes → Z → Prop}
  {sound : ProcessSound exits}.

Lemma write_all_sound n s pid w i b rest s' :
  running s pid w i b → write_all n w rest s = Good s' → running s' pid w i (b ++ rest).
Proof.
  revert s b rest. induction n as [|n IH]; intros s b [|x rest] Hr; cbn [write_all];
    rewrite ?app_nil_r; try by intros [= <-].
  destruct (write w (x :: rest) s) as [[k|e] s1] eqn:Hw; [|done].
  intros H. apply outcome_bind_Good in H as ([] & _ & H).
  destruct (write_sound _ _ _ _ _ _ _ _ Hr Hw) as [_ Hr'].
  apply (IH _ _ _ Hr') in H. by rewrite <- app_assoc, take_drop in H.
Qed.

(** A child that was counted as accepting got the whole request and exited with 0. *)
Lemma spawn_verifier_sound i request s ok s' :
  spawn_verifier i request s = Good (ok, s') → ∃ c, exits i request c ∧ ok = (c =? 0).
Proof.
  unfold spawn_verifier. destruct (pipe s) as [[[r w]|] s1] eqn:E1; [|done].
  apply pipe_sound in E1.
  destruct (spawn _ _ _ _) as [[pid|] s2] eqn:E2; [|done].
  apply (spawn_sound _ _ _ _ _ _ E1) in E2. destruct (close r s2) as [res s3] eqn:E3.
  apply (close_read_sound _ _ _ _ _ _ _ E2) in E3. intros H.
  apply outcome_bind_Good in H as ([] & _ & H). apply outcome_bind_Good in H as (s4 & E4 & H).
  apply (write_all_sound _ _ _ _ _ _ _ _ E3) in E4. rewrite app_nil_l in E4.
  destruct (close w s4) as [[[]|] s5] eqn:E5; [|done].
  apply (close_write_sound _ _ _ _ _ _ E4) in E5.
  destruct (wait pid s5) as [[c|] s6] eqn:E6; [|done].
  apply (wait_sound _ _ _ _ _ _ E5) in E6. injection H as <- <-. eauto.
Qed.

Context {serves : nat → Prop} {live : ProcessLive sound serves}.

Lemma write_all_live n s pid w i b rest :
  running s pid w i b → serves i → (length rest <= n)%nat →
  ∃ s', write_all n w rest s = Good s'.
Proof.
  revert s b rest. induction n as [|n IH]; intros s b [|x rest] Hr Hs Hn; cbn [write_all];
    [eauto|cbn in Hn; lia|eauto|].
  destruct (write_live s pid w i b (x :: rest) Hr Hs) as (k & s1 & Hw); [done|].
  rewrite Hw. destruct (write_sound _ _ _ _ _ _ _ _ Hr Hw) as [Hk Hr'].
  change (Z.of_nat (Datatypes.S k) =? 0) with false. cbn [err_if mbind outcome_bind].
  apply (IH _ _ _ Hr' Hs). rewrite length_drop. cbn in *. lia.
Qed.

Lemma spawn_verifier_live i request s :
  idle s → serves i →
  ∃ c s', spawn_verifier i request s = Good (c =? 0, s') ∧ exits i request c ∧ idle s'.
Proof.
  intros Hi Hs. unfold spawn_verifier.
  destruct (pipe_live s Hi) as (r & w & s1 & E1). rewrite E1. apply pipe_sound in E1.
  destruct (spawn_live s1 r w i E1 Hs) as (pid & s2 & E2). rewrite E2.
  apply (spawn_sound _ _ _ _ _ _ E1) in E2.
  destruct (close_read_live s2 pid r w i E2 Hs) as (res & s3 & E3 & Hres). rewrite E3.
  apply (close_read_sound _ _ _ _ _ _ _ E2) in E3.
  assert (Hclosed : match res with
                    | Done _ | Failed InvalidFd => Good tt
                    | Failed _ => Bad VerifierFailure
                    end = Good tt) by by destruct Hres as [-> | ->].
  rewrite Hclosed. cbn [mbind outcome_bind].
  destruct (write_all_live (length request) s3 pid w i [] request E3 Hs) as (s4 & E4); [done|].
  rewrite E4. apply (write_all_sound _ _ _ _ _ _ _ _ E3) in E4. rewrite app_nil_l in E4.
  cbn [mbind outcome_bind]. destruct (close_write_live s4 pid w i request E4 Hs) as (s5 & E5).
  rewrite E5. apply (close_write_sound _ _ _ _ _ _ E4) in E5.
  destruct (wait_live s5 pid i request E5 Hs) as (c & s6 & E6 & Hi'). rewrite E6.
  apply (wait_sound _ _ _ _ _ _ E5) in E6. eauto.
Qed.
End processes.

(** ** The decision *)

Section decision.
Context {S : Type} {ccc : Ccc} {ccc_laws : CccLaws} {loads : Loads} {processes : Processes S}
  {exits : nat → bytes → Z → Prop} {sound : ProcessSound exits}
  (fuel : nat) (t : TxView) {laws : LoadLaws t} (fuel_enough : enough fuel t).

Definition total_weight (ws : list Z) : Z := foldr Z.add 0 ws.

(** Where the account's state is, and what replaces it. *)
Inductive resolves (id : bytes) : Z → ResolvedState → Prop :=
  | resolves_spend d c :
      matching t SInput id = [] → matching t SCellDep id = [d] → tv_deps t !! d = Some c →
      resolves id 1 {| rs_current := cv_data c; rs_successor := None; rs_state_input := None |}
  | resolves_change o i j v c' type :
      o = 2 ∨ o = 3 → matching t SInput id = [i] → matching t SOutput id = [j] →
      tv_inputs t !! i = Some v → tv_outputs t !! j = Some c' →
      cv_type (iv_cell v) = Some type → cv_type c' = Some type →
      resolves id o {| rs_current := cv_data (iv_cell v); rs_successor := Some (cv_data c');
                       rs_state_input := Some i |}.

(** A change of state moves the sequence by one; a recovery needs the flag and the wait. *)
Definition transition_ok (operation : Z) (resolved : ResolvedState) (header : StateHeader)
    : Prop :=
  operation = 1 ∨
  ∃ successor next summary, rs_successor resolved = Some successor ∧
    validate_state successor = Good (next, summary) ∧
    sh_sequence next = sh_sequence header + 1 ∧ sh_sequence next < 2 ^ 64 ∧
    (operation = 3 → Z.land (sh_flags header) STATE_FLAG_RECOVERY_ENABLED ≠ 0 ∧
      ∃ i v, rs_state_input resolved = Some i ∧ tv_inputs t !! i = Some v ∧
        sh_recovery_since header <= iv_since v).

(** What a proof adds to the weight. *)
Inductive counted (current : bytes) (header : StateHeader) (operation capability : Z)
    (digest : bytes) : Z * bytes → Z → Prop :=
  | counted_intro slot proof auth i c :
      find_authenticator current header slot = Good auth →
      Z.land (ae_capabilities auth) capability ≠ 0 →
      picked (named auth) (tv_deps t) = [i] →
      request_ok (request_of auth operation digest proof) →
      exits i (request_layout (request_of auth operation digest proof)) c →
      counted current header operation capability digest (slot, proof)
        (if c =? 0 then ae_weight auth else 0).

Record authorized (id : bytes) (header : AccountWitnessHeader) (resolved : ResolvedState)
    (state : StateHeader) (ps : list (Z * bytes)) (ws : list Z) : Prop := {
  au_script : ∃ code_hash hash_type,
    tv_script t = table [code_hash; hash_type; bytes_item (x01 :: id)] ∧ len id = 32;
  au_proofs : ∃ lock, parse_witness_header lock = Good header ∧
    parse_proofs collect lock header [] = Good ps ∧ proofs_ok (-1) ps ∧
    ∃ input output,
      witness_of t 0 SGroupInput = Some (table [bytes_item lock; input; output]) ∧
      ∃ capability threshold,
        capability_for_operation (wh_operation header) = Good capability ∧
        threshold_of (wh_operation header) state = Good threshold ∧
        Forall2 (counted (rs_current resolved) state (wh_operation header) capability
          (authorization_digest (wh_operation header) id (sh_sequence state)
             (rs_current resolved)
             (ckb_digest (sighash_preimage (tv_hash t)
                (table [bytes_item []; input; output]) (others t))))) ps ws ∧
        threshold <= total_weight ws;
  au_state : resolves id (wh_operation header) resolved;
  au_valid : ∃ summary, validate_state (rs_current resolved) = Good (state, summary);
  au_sequence : wh_state_sequence header = sh_sequence state;
  au_transition : transition_ok (wh_operation header) resolved state }.

Lemma matching_known source id :
  matching_type_indices fuel source id = Good (matching t source id).
Proof. by apply matching_spec, enough_cells. Qed.

Lemma resolve_state_inv operation id resolved :
  resolve_state fuel operation id = Good resolved → resolves id operation resolved.
Proof.
  unfold resolve_state. rewrite matching_known.
  cbn [mbind outcome_bind]. unfold OP_SPEND, OP_ROTATE, OP_RECOVERY.
  destruct (Z.eqb_spec operation 1) as [->|_]; [|destruct (_ || _) eqn:Ho; [|done]].
  - unfold resolve_spend. intros H. apply outcome_bind_Good in H as ([] & Hn%err_if_Good & H).
    bool_simpl. apply len_zero in Hn. rewrite matching_known in H.
    cbn [mbind outcome_bind] in H. destruct (matching t SCellDep id) as [|d [|]] eqn:Hd; try done.
    apply outcome_bind_Good in H as (current & Hc & [= <-]).
    rewrite (load_data_spec t) in Hc. cbn [cells_of] in Hc.
    destruct (tv_deps t !! d) as [c|] eqn:Hl; [|done].
    destruct (_ <=? _); [|done]. injection Hc as <-. by eapply resolves_spend.
  - assert (Ho' : operation = 2 ∨ operation = 3) by (bool_simpl; lia). clear Ho.
    unfold resolve_change. destruct (matching t SInput id) as [|i [|]] eqn:Hi; try done.
    rewrite matching_known. cbn [mbind outcome_bind].
    destruct (matching t SOutput id) as [|j [|]] eqn:Hj; try done.
    destruct (picked_single _ _ _ Hi) as (ci & Hci & _). assert (Hvi := Hci).
    cbn [cells_of] in Hvi. rewrite list_lookup_fmap in Hvi.
    destruct (tv_inputs t !! i) as [v|] eqn:Hv; [|done]. injection Hvi as <-.
    destruct (picked_single _ _ _ Hj) as (cj & Hcj & _). assert (Hcj' := Hcj).
    cbn [cells_of] in Hcj'.
    rewrite (load_type_spec t i SInput _ Hci), (load_type_spec t j SOutput _ Hcj).
    rewrite !(load_data_spec t), Hci, Hcj.
    destruct (cv_type (iv_cell v)) as [ti|] eqn:Eti; [|done].
    destruct (cv_type cj) as [tj|] eqn:Etj.
    2: { by destruct (len ti <=? _). }
    destruct (len ti <=? _); [|done]. destruct (len tj <=? _); [|done].
    cbn [mbind outcome_bind ok_or]. intros H.
    apply outcome_bind_Good in H as ([] & Ht%err_if_Good & H). bool_simpl. subst tj.
    destruct (len (cv_data (iv_cell v)) <=? _); [|done].
    destruct (len (cv_data cj) <=? _); [|done]. cbn [mbind outcome_bind] in H.
    injection H as <-. by eapply resolves_change.
Qed.

Lemma validate_transition_inv operation resolved header :
  operation_ok operation →
  validate_transition operation resolved header = Good tt →
  transition_ok operation resolved header.
Proof.
  intros Ho. unfold validate_transition, transition_ok, OP_SPEND, OP_RECOVERY.
  destruct (Z.eqb_spec operation 1); [by left|]. intros H. right.
  apply outcome_bind_Good in H as (successor & Hs%ok_or_Good & H).
  apply outcome_bind_Good in H as ([next summary] & Hn & H).
  apply outcome_bind_Good in H as (expected & He & H).
  destruct (_ <=? _) eqn:Hb in He; [|done]. injection He as <-. bool_simpl.
  apply outcome_bind_Good in H as ([] & Hq%err_if_Good & H). bool_simpl.
  exists successor, next, summary. repeat (split; [done || lia|]). intros ->.
  cbn [Z.eqb Pos.eqb] in H.
  apply outcome_bind_Good in H as ([] & Hf%err_if_Good & H).
  apply outcome_bind_Good in H as (i & Hi%ok_or_Good & H).
  apply outcome_bind_Good in H as (since & Hsince & H). apply err_if_Good in H. bool_simpl.
  split; [done|]. rewrite load_input_since_is in Hsince. exists i.
  destruct (tv_inputs t !! i) as [v|] eqn:Hv; [|done]. exists v.
  cbn [fmap option_fmap option_map deliver_or] in Hsince. unfold deliver in Hsince.
  rewrite len_le_bytes in Hsince. change (Z.of_nat 8 <=? 8) with true in Hsince.
  cbv match beta in Hsince.
  assert (Hr := vw_since t view_is_wf). eapply Forall_lookup_1 in Hr; [|exact Hv].
  rewrite le_value_small in Hsince by exact Hr. injection Hsince as <-.
  repeat (split; [done|]). lia.
Qed.

Lemma count_proof_inv current header operation capability digest acc acc' slot proof :
  operation_ok operation → len digest = 32 →
  count_proof fuel current header operation capability digest acc slot proof = Good acc' →
  ∃ w, counted current header operation capability digest (slot, proof) w ∧
       acc'.1 = acc.1 + w.
Proof.
  intros Ho Hd H. unfold count_proof in H.
  apply outcome_bind_Good in H as (auth & Ha & H).
  assert (Hw := find_authenticator_wf _ _ _ _ Ha).
  apply outcome_bind_Good in H as ([] & Hc%err_if_Good & H). bool_simpl.
  apply outcome_bind_Good in H as (i & Hi & H).
  rewrite (resolve_verifier_spec fuel t) in Hi
    by (apply Hw || exact (enough_cells fuel t fuel_enough SCellDep)).
  destruct (picked _ _) as [|j [|]] eqn:Hp; try done. injection Hi as ->.
  apply outcome_bind_Good in H as (request & Hr & H).
  apply encode_request_iff in Hr as (_ & Hok & ->); [|done..].
  apply outcome_bind_Good in H as ([ok s'] & Hs & H).
  apply spawn_verifier_sound in Hs as (c & He & ->).
  eexists. split; [by eapply counted_intro|].
  destruct (c =? 0).
  - destruct (_ <=? _); [|done]. by injection H as <-.
  - injection H as <-. cbn. lia.
Qed.

Lemma fold_counted current header operation capability digest ps acc acc' :
  operation_ok operation → len digest = 32 →
  fold_proofs (count_proof fuel current header operation capability digest) ps acc =
    Good acc' →
  ∃ ws, Forall2 (counted current header operation capability digest) ps ws ∧
        acc'.1 = acc.1 + total_weight ws.
Proof.
  intros Ho Hd. revert acc. induction ps as [|[slot proof] ps IH]; intros acc H; cbn in H.
  - injection H as <-. exists []. split; [constructor|]. cbn. lia.
  - apply outcome_bind_Good in H as (acc1 & H1 & H).
    apply count_proof_inv in H1 as (w & Hc & E1); [|done..].
    apply IH in H as (ws & Hf & E2). exists (w :: ws). split; [by constructor|].
    cbn [total_weight foldr] in *. unfold total_weight in E2. lia.
Qed.

Lemma script_args_inv script args :
  script_args script = Good args → ∃ c h, script = table [c; h; bytes_item args].
Proof.
  unfold script_args. intros H. apply outcome_bind_Good in H as ([[c h] f] & Ht & H).
  apply map_err_Good, table3_fields_inv in Ht as [-> _].
  apply map_err_Good, molecule_bytes_iff in H as [-> _]. eauto.
Qed.
Lemma account_args_inv args la :
  AccountLockArgs_parse args = Good la →
  args = x01 :: la_account_id la ∧ len (la_account_id la) = 32.
Proof.
  unfold AccountLockArgs_parse. intros H. apply outcome_bind_Good in H as ([] & Hl%err_if_Good & H).
  unfold ACCOUNT_LOCK_ARGS_LEN in Hl. bool_simpl.
  destruct args as [|v args]; [done|]. rewrite len_cons in Hl.
  assert (Hi : @index ProtocolError (v :: args) 0 = Good (Z_of_byte v)) by done.
  assert (Hr : @range ProtocolError (v :: args) 1 33 = Good args).
  { rewrite <- (app_nil_r (v :: args)). apply (range_app [v] args []); [done|lia]. }
  rewrite Hi, Hr in H. cbn [mbind outcome_bind] in H.
  apply outcome_bind_Good in H as ([] & Hv%err_if_Good & [= <-]). bool_simpl.
  cbn [la_account_id]. split; [|lia]. f_equal. by apply Z_of_byte_inj.
Qed.

Lemma collected_ok lock header ps :
  parse_witness_header lock = Good header → parse_proofs collect lock header [] = Good ps →
  operation_ok (wh_operation header) ∧ proofs_ok (-1) ps.
Proof.
  destruct header as [o n q]. intros Hh Hp.
  apply (parse_witness_header_inv lock o q n) in Hh as (Ho & Hq & Hn & Hl & rest & ->).
  split; [done|]. unfold parse_proofs, ACCOUNT_WITNESS_HEADER_LEN in Hp.
  rewrite <- (witness_header_len o q n) in Hp.
  apply parse_proofs_run in Hp as (qs & _ & -> & _ & Hok); [done|].
  unfold USIZE_MAX. lia.
Qed.

Lemma run_authorized s s' :
  run fuel s = Good s' →
  ∃ id header resolved state ps ws, authorized id header resolved state ps ws.
Proof.
  unfold run. intros H. apply outcome_bind_Good in H as (script & Hscript & H).
  apply outcome_bind_Good in H as (la & Hla & H).
  apply outcome_bind_Good in H as (first & Hfirst & H).
  apply outcome_bind_Good in H as (lock & Hlock & H).
  apply outcome_bind_Good in H as (header & Hheader & H).
  apply outcome_bind_Good in H as ([] & _ & H).
  apply outcome_bind_Good in H as (resolved & Hres & H).
  apply outcome_bind_Good in H as ([state summary] & Hstate & H).
  apply outcome_bind_Good in H as ([] & Hseq%err_if_Good & H).
  apply outcome_bind_Good in H as ([] & Htr & H).
  apply outcome_bind_Good in H as (sighash & Hsig & H). cbv zeta in H.
  apply outcome_bind_Good in H as (capability & Hcap & H).
  apply outcome_bind_Good in H as (threshold & Hthr & H).
  apply outcome_bind_Good in H as ([weight s1] & Hfold & H).
  apply outcome_bind_Good in H as ([] & Hw%err_if_Good & _). bool_simpl.
  apply parse_proofs_fold in Hfold as (ps & Hps & Hfold).
  destruct (collected_ok _ _ _ Hheader Hps) as [Ho Hok].
  apply fold_counted in Hfold as (ws & Hws & Hsum); [|done|apply len_digest].
  cbn [fst] in Hsum.
  exists (la_account_id la), header, resolved, state, ps, ws.
  rewrite (sighash_spec fuel t) in Hsig by done. rewrite Hfirst in Hsig. cbn [mbind outcome_bind] in Hsig.
  apply outcome_bind_Good in Hsig as (c & Hc & Hsig).
  destruct (forallb _ _); [|done]. injection Hsig as <-.
  apply canonical_witness_inv in Hc as (f0 & f1 & f2 & -> & Hl & ->).
  rewrite (load_witness_spec t) in Hfirst.
  destruct (witness_of t 0 SGroupInput) as [w|] eqn:Ew; [|done].
  destruct (_ <=? _); [|done]. injection Hfirst as ->.
  unfold witness_lock in Hlock. rewrite table3_read in Hlock by done.
  cbn [mbind outcome_bind] in Hlock.
  apply outcome_bind_Good in Hlock as ([] & _ & Hlock).
  apply molecule_bytes_iff in Hlock as [-> _].
  constructor.
  - rewrite (load_script_spec t) in Hscript. destruct (_ <=? _); [|done].
    injection Hscript as <-. apply outcome_bind_Good in Hla as (args & Hargs & Hla).
    apply script_args_inv in Hargs as (c & h & ->).
    apply account_args_inv in Hla as [-> Hid]. eauto.
  - exists lock. repeat (split; [done|]). exists f1, f2. split; [done|].
    exists capability, threshold. repeat (split; [done|]). lia.
  - by apply resolve_state_inv.
  - by exists summary.
  - done.
  - by apply validate_transition_inv.
Qed.

(** C2 — The lock accepts only what the account authorized: if the script exits with 0,
    its arguments name an account; the transaction shows a single valid current state of
    that account, and for a change a single successor with the next sequence, under the
    same type script, after the recovery delay where there is one; and the witness has, in
    ascending slots, proofs by authenticators of that state with the capability of the
    operation, each for one cell of code that its entry names, run on the request for the
    digest of this operation, account, state and transaction; and those whose verifier
    exited with 0 weigh at least the operation's threshold. *)
Theorem lock_accepts_authorized (s : S) :
  program_entry fuel s = Some 0 →
  ∃ id header resolved state ps ws, authorized id header resolved state ps ws.
Proof.
  unfold program_entry. destruct (run fuel s) as [s'|e|] eqn:E; [|by destruct e|done].
  intros _. by apply (run_authorized s s').
Qed.
End decision.
