(* ===== verification/OneKey.v ===== *)
(** * The lock on a one-key spend

    A transaction that spends from an account with the one-key state of the demo, with
    one proof in slot 0: the lock runs the named verifier on exactly one request, and its
    exit code is the verifier's verdict. *)

From S2P Require Import Prelude Js JsString Ccc CccRef Wire Protocol Codec Digest State Abi Vm Lock Molecule Unlock Approval.

Section one_key.
Context {S : Type} {ccc : Ccc} {ccc_laws : CccLaws} {loads : Loads} {processes : Processes S}
  {exits : nat → bytes → Z → Prop} {sound : ProcessSound exits}
  {serves : nat → Prop} {live : ProcessLive sound serves}
  (fuel : nat) (t : TxView) {laws : LoadLaws t} (fuel_enough : enough fuel t).

(** What the lock signs for such a spend, and what it asks the verifier. *)
Definition spend_digest (id state : bytes) (sequence : Z) : bytes :=
  authorization_digest OP_SPEND id sequence state
    (ckb_digest (sighash_preimage (tv_hash t) (table [bytes_item []; []; []]) [])).
Definition spend_request (id verifier key : bytes) (sequence : Z) (proof : bytes)
    : VerifierRequest :=
  request_of (one_key_entry verifier key) OP_SPEND
    (spend_digest id (state_layout verifier sequence key) sequence) proof.

Record one_key_spend (id verifier key : bytes) (sequence : Z) (lock proof : bytes) : Prop := {
  ok_id : len id = 32;
  ok_verifier : length verifier = 32%nat;
  ok_key : length key = 32%nat;
  ok_sequence : 0 <= sequence < 2 ^ 64;
  ok_script : ∃ code_hash hash_type,
    tv_script t = table [code_hash; hash_type; bytes_item (x01 :: id)] ∧
    len (tv_script t) <= MAX_SCRIPT;
  ok_group : tv_group t = [0%nat];
  ok_inputs : length (tv_inputs t) = 1%nat;
  ok_witness : tv_witnesses t = [table [bytes_item lock; []; []]];
  ok_lock : 1 <= len lock <= ACCOUNT_WITNESS_MAX_LOCK_LEN;
  ok_header : parse_witness_header lock = Good (witness_facts OP_SPEND sequence 1);
  ok_proof : parse_proofs collect lock (witness_facts OP_SPEND sequence 1) [] =
    Good [(0, proof)];
  ok_proof_len : len proof <= VERIFIER_MAX_PROOF_LEN;
  ok_no_input : matching t SInput id = [];
  ok_state : ∃ d c, matching t SCellDep id = [d] ∧ tv_deps t !! d = Some c ∧
    cv_data c = state_layout verifier sequence key }.

Context (id verifier key : bytes) (sequence : Z) (lock proof : bytes)
  (ok : one_key_spend id verifier key sequence lock proof).

Lemma lock_witness_len :
  len (table [bytes_item lock; []; []]) = 20 + len lock.
Proof.
  rewrite len_table. cbn [concat]. rewrite !len_app, !(@len_nil byte). unfold bytes_item, u32b.
  rewrite len_app, len_le_bytes. change (len [_; _; _]) with 3. lia.
Qed.

Lemma first_witness : load_a_witness 0 SGroupInput = Good (table [bytes_item lock; []; []]).
Proof.
  assert (Hw : witness_of t 0 SGroupInput = Some (table [bytes_item lock; []; []])).
  { unfold witness_of. rewrite (ok_group _ _ _ _ _ _ ok).
    change ([0%nat] !! 0%nat) with (Some 0%nat). cbn [mbind option_bind].
    by rewrite (ok_witness _ _ _ _ _ _ ok). }
  rewrite (load_witness_spec t), Hw, lock_witness_len.
  pose proof (ok_lock _ _ _ _ _ _ ok). unfold MAX_WITNESS, ACCOUNT_WITNESS_MAX_LOCK_LEN in *.
  by rewrite (proj2 (Z.leb_le _ _)) by lia.
Qed.

Lemma lock_of_witness : witness_lock (table [bytes_item lock; []; []]) = Good lock.
Proof.
  pose proof (ok_lock _ _ _ _ _ _ ok) as Hl. unfold ACCOUNT_WITNESS_MAX_LOCK_LEN in Hl.
  unfold witness_lock. rewrite table3_read by (rewrite lock_witness_len; lia).
  cbn [mbind outcome_bind]. rewrite (proj2 (err_if_Good _ _ tt)).
  - cbn [mbind outcome_bind]. apply molecule_bytes_iff. split; [done|lia].
  - unfold bytes_item, u32b. rewrite len_app, len_le_bytes. apply Z.eqb_neq. lia.
Qed.

Lemma lock_arguments :
  (script ← load_current_script; args ← script_args script; AccountLockArgs_parse args) =
    Good {| la_version := 1; la_account_id := id |}.
Proof.
  destruct (ok_script _ _ _ _ _ _ ok) as (c & h & Hs & Hl).
  rewrite (load_script_spec t), (proj2 (Z.leb_le _ _)) by done. cbn [mbind outcome_bind].
  pose proof (ok_id _ _ _ _ _ _ ok) as Hid.
  unfold MAX_SCRIPT in Hl. rewrite Hs in *. unfold script_args.
  rewrite table3_read by lia. cbn [map_err mbind outcome_bind].
  rewrite (proj2 (molecule_bytes_iff _ (x01 :: id))) by (rewrite len_cons, Hid; done).
  cbn [map_err mbind outcome_bind].
  assert (Hi : @index ProtocolError (x01 :: id) 0 = Good 1) by done.
  assert (Hr : @range ProtocolError (x01 :: id) 1 33 = Good id).
  { rewrite <- (app_nil_r (x01 :: id)). apply (range_app [x01] id []); [done|lia]. }
  unfold AccountLockArgs_parse. rewrite len_cons, Hid, Hi, Hr. done.
Qed.

Lemma spend_resolved :
  resolve_state fuel OP_SPEND id =
    Good {| rs_current := state_layout verifier sequence key; rs_successor := None;
            rs_state_input := None |}.
Proof.
  destruct (ok_state _ _ _ _ _ _ ok) as (d & c & Hd & Hc & Hdata).
  unfold resolve_state. rewrite !(matching_known fuel t fuel_enough).
  rewrite (ok_no_input _ _ _ _ _ _ ok). cbn [mbind outcome_bind].
  change (OP_SPEND =? OP_SPEND) with true. unfold resolve_spend.
  change (negb (len (@nil nat) =? 0)) with false. cbn [err_if mbind outcome_bind].
  rewrite (matching_known fuel t fuel_enough), Hd. cbn [mbind outcome_bind].
  rewrite (load_data_spec t). cbn [cells_of]. rewrite Hc, Hdata.
  rewrite layout_len by apply ok. done.
Qed.

Lemma spend_sighash :
  canonical_group_sighash fuel =
    Good (ckb_digest (sighash_preimage (tv_hash t) (table [bytes_item []; []; []]) [])).
Proof.
  pose proof (ok_lock _ _ _ _ _ _ ok) as Hl. unfold ACCOUNT_WITNESS_MAX_LOCK_LEN in Hl.
  rewrite (sighash_spec fuel t fuel_enough), first_witness. cbn [mbind outcome_bind].
  rewrite canonical_witness_table by (rewrite lock_witness_len; lia). cbn [mbind outcome_bind].
  assert (Ho : others t = []); [|by rewrite Ho].
  unfold others. rewrite (ok_group _ _ _ _ _ _ ok), (ok_inputs _ _ _ _ _ _ ok).
  rewrite (ok_witness _ _ _ _ _ _ ok). cbn [length run_from]. unfold witness_of.
  rewrite (ok_group _ _ _ _ _ _ ok), (ok_witness _ _ _ _ _ _ ok). done.
Qed.

Lemma len_spend_digest : len (spend_digest id (state_layout verifier sequence key) sequence) = 32.
Proof. apply len_digest. Qed.

Lemma only_authenticator :
  find_authenticator (state_layout verifier sequence key) (one_key_header sequence) 0 =
    Good (one_key_entry verifier key).
Proof.
  destruct ok as [_ Hv Hk Hs _ _ _ _ _ _ _ _ _ _].
  unfold find_authenticator, parse_authenticators, ACCOUNT_STATE_HEADER_LEN.
  change (Z.to_nat (sh_authenticator_count (one_key_header sequence))) with 1%nat.
  cbn [parse_authenticators_loop]. rewrite parse_authenticator_layout by done.
  cbn [mbind outcome_bind]. change (ae_slot (one_key_entry verifier key) =? 0) with true.
  rewrite layout_len by done. done.
Qed.

Lemma spend_request_ok : request_ok (spend_request id verifier key sequence proof).
Proof.
  pose proof (ok_key _ _ _ _ _ _ ok) as Hk. pose proof (ok_proof_len _ _ _ _ _ _ ok).
  pose proof len_spend_digest.
  constructor; cbn [spend_request request_of vr_algorithm_id vr_slot vr_operation
    vr_verifier_profile vr_authorization_digest vr_key_id vr_aux vr_proof one_key_entry
    ae_algorithm_id ae_slot ae_key_id ae_aux]; try done; try lia.
  - by left.
  - unfold len. by rewrite Hk.
Qed.

Lemma entry_ok : entry_wf (one_key_entry verifier key).
Proof.
  destruct ok as [_ Hv Hk Hs _ _ _ _ _ _ _ _ _ _].
  pose proof (parse_authenticator_layout verifier sequence key Hv Hk) as H.
  by apply parse_authenticator_wf in H as (H & _).
Qed.

(** The one proof is worth its weight exactly when the verifier exits with 0. *)
Lemma proof_counted i s s' c :
  picked (named (one_key_entry verifier key)) (tv_deps t) = [i] →
  spawn_verifier i (request_layout (spend_request id verifier key sequence proof)) s =
    Good (c =? 0, s') →
  parse_proofs (count_proof fuel (state_layout verifier sequence key)
      (one_key_header sequence) OP_SPEND CAP_SPEND
      (spend_digest id (state_layout verifier sequence key) sequence)) lock
      (witness_facts OP_SPEND sequence 1) (0, s) = Good (if c =? 0 then 1 else 0, s').
Proof.
  intros Hp Hrun. apply parse_proofs_fold. exists [(0, proof)].
  split; [apply (ok_proof _ _ _ _ _ _ ok)|].
  cbn [fold_proofs]. unfold count_proof. rewrite only_authenticator.
  cbn [mbind outcome_bind]. change (Z.land _ CAP_SPEND =? 0) with false.
  cbn [err_if mbind outcome_bind].
  rewrite (resolve_verifier_spec fuel t), Hp
    by (apply entry_ok || apply (enough_cells fuel t fuel_enough SCellDep)).
  cbn [mbind outcome_bind].
  rewrite (proj2 (encode_request_iff _ _ _ _
    (request_layout (spend_request id verifier key sequence proof))
    entry_ok len_spend_digest (or_introl eq_refl))).
  2: { split; [done|]. split; [apply spend_request_ok|done]. }
  cbn [mbind outcome_bind snd fst]. rewrite Hrun. cbn [mbind outcome_bind].
  by destruct (c =? 0).
Qed.

(** With the verifier's code in one dependency, the lock's verdict is the verifier's. *)
Lemma one_key_run i s :
  picked (named (one_key_entry verifier key)) (tv_deps t) = [i] → serves i → idle s →
  ∃ c, exits i (request_layout (spend_request id verifier key sequence proof)) c ∧
    program_entry fuel s = Some (if c =? 0 then 0 else code ThresholdUnsatisfied).
Proof.
  intros Hp Hserves Hidle. destruct ok as [_ Hv Hk Hs _ _ _ _ _ Hh _ _ _ _].
  destruct (spawn_verifier_live i (request_layout (spend_request id verifier key sequence proof))
              s Hidle Hserves) as (c & s' & Hrun & He & _).
  exists c. split; [done|]. unfold program_entry, run.
  destruct load_current_script as [script| |] eqn:Esc.
  2-3: pose proof lock_arguments as Ha; rewrite Esc in Ha; done.
  pose proof lock_arguments as Ha. rewrite Esc in Ha. cbn [mbind outcome_bind] in *.
  rewrite Ha, first_witness. cbn [mbind outcome_bind].
  rewrite lock_of_witness. cbn [mbind outcome_bind]. rewrite Hh.
  cbn [mbind outcome_bind wh_proof_count wh_operation wh_state_sequence witness_facts
    la_account_id].
  change (1 >? AUTHENTICATOR_MAX_COUNT) with false. cbn [err_if mbind outcome_bind].
  rewrite spend_resolved. cbn [mbind outcome_bind rs_current].
  rewrite validate_state_layout by done. cbn [mbind outcome_bind].
  change (sh_sequence (one_key_header sequence)) with sequence. rewrite Z.eqb_refl.
  cbn [negb err_if mbind outcome_bind].
  change (validate_transition OP_SPEND _ _) with (@Good ProtocolError _ tt).
  cbn [mbind outcome_bind]. rewrite spend_sighash. cbn [mbind outcome_bind].
  change (capability_for_operation OP_SPEND) with (@Good ProtocolError _ CAP_SPEND).
  change (threshold_of OP_SPEND (one_key_header sequence)) with (@Good ProtocolError _ 1).
  cbn [mbind outcome_bind].
  change (authorization_digest OP_SPEND id sequence (state_layout verifier sequence key)
    (ckb_digest (sighash_preimage (tv_hash t) (table [bytes_item []; []; []]) [])))
    with (spend_digest id (state_layout verifier sequence key) sequence).
  rewrite (proof_counted i s s' c Hp Hrun). cbn [mbind outcome_bind]. by destruct (c =? 0).
Qed.
End one_key.
