(* ===== verification/Verifier.v ===== *)
(** * The passkey verifier ([contracts/verifier-p256/src/main.rs])

    The program that checks a WebAuthn assertion for the lock: it reads one request from
    its pipe, takes the proof apart, checks the key, the site and the client data, and
    verifies the signature. The cryptographic crates are the class [P256]. *)

From S2P Require Import Prelude Js JsString Ccc Wire Codec Abi Vm.

(** ** Exit codes *)

Definition VALID : Z := 0.
Definition INVALID_PROOF : Z := 1.
Definition MALFORMED_REQUEST : Z := 2.
Definition UNSUPPORTED_ALGORITHM : Z := 3.
Definition UNSUPPORTED_PROFILE : Z := 4.
Definition KEY_ID_MISMATCH : Z := 5.
Definition MALFORMED_KEY : Z := 6.
Definition DIGEST_BINDING_FAILURE : Z := 8.
Definition AUX_MISMATCH : Z := 9.
Definition INTERNAL_ERROR : Z := 10.

(** The crates [p256] and [sha2]. *)
Class P256 := {
  VerifyingKey : Type;
  Signature : Type;
  sha256_digest : bytes → bytes;
  from_sec1_bytes : bytes → option VerifyingKey;
  to_sec1_point : VerifyingKey → bytes;
  from_der : bytes → option Signature;
  to_der : Signature → bytes;
  verify_prehash : VerifyingKey → bytes → Signature → bool }.

(** ** Reading the request *)

Section reading.
Context {S : Type} {processes : Processes S}.

(** [read_exact]: [l] bytes, or failure at the end of the pipe. *)
Fixpoint read_exact (n : nat) (fd : Z) (l : nat) (acc : bytes) (s : S)
    : option (bytes * S) :=
  match l, n with
  | O, _ => Some (acc, s)
  | _, O => None
  | _, Datatypes.S n' =>
      match read fd l s with
      | (Done part, s) =>
          if (length part =? 0)%nat then None
          else read_exact n' fd (l - length part) (acc ++ part) s
      | (Failed _, _) => None
      end
  end.

Definition read_request (s : S) : outcome Z (bytes * S) :=
  let '(fds, count, s) := inherited_fds 2 s in
  err_if (negb (count =? 1)%nat) MALFORMED_REQUEST;;
  let fd := default 0 (head fds) in
  '(header, s) ← ok_or MALFORMED_REQUEST
                   (read_exact (Z.to_nat VERIFIER_REQUEST_HEADER_LEN) fd
                      (Z.to_nat VERIFIER_REQUEST_HEADER_LEN) [] s);
  aux_len ← (b ← range header 80 84; Good (le_value b));
  proof_len ← (b ← range header 84 88; Good (le_value b));
  total ← (sum ← add_or MALFORMED_REQUEST VERIFIER_REQUEST_HEADER_LEN aux_len;
           add_or MALFORMED_REQUEST sum proof_len);
  err_if (negb (total <=? VERIFIER_MAX_REQUEST_LEN)) MALFORMED_REQUEST;;
  let rest := Z.to_nat (total - VERIFIER_REQUEST_HEADER_LEN) in
  '(body, s) ← ok_or MALFORMED_REQUEST (read_exact rest fd rest [] s);
  let request := header ++ body in
  let '(extra, s) := read fd 1 s in
  match extra with
  | Done [] | Failed OtherEndClosed =>
      match close fd s with
      | (Done _, s) => Good (request, s)
      | (Failed _, _) => Bad INTERNAL_ERROR
      end
  | _ => Bad MALFORMED_REQUEST
  end.
End reading.

(** ** Client data *)

Definition TABLE : bytes :=
  utf8_encode "ABCDEFGHIJKLMNOPQRSTUVWXYZabcdefghijklmnopqrstuvwxyz0123456789-_".
Definition table_char (v : Z) : byte := default x00 (TABLE !! Z.to_nat (Z.land v 63)).

(** The [while] over groups of three bytes, and the two bytes that are left of 32. *)
Fixpoint base64url_digest (input : bytes) : bytes :=
  match input with
  | a :: b :: c :: rest =>
      let value := Z.lor (Z.lor (Z.shiftl (Z_of_byte a) 16) (Z.shiftl (Z_of_byte b) 8))
                     (Z_of_byte c) in
      [table_char (Z.shiftr value 18); table_char (Z.shiftr value 12);
       table_char (Z.shiftr value 6); table_char value] ++ base64url_digest rest
  | [a; b] =>
      let value := Z.lor (Z.shiftl (Z_of_byte a) 16) (Z.shiftl (Z_of_byte b) 8) in
      [table_char (Z.shiftr value 18); table_char (Z.shiftr value 12);
       table_char (Z.shiftr value 6)]
  | _ => []
  end.

Definition whitespace (b : byte) : bool :=
  existsb (Byte.eqb b) [x20; x0a; x0d; x09].

(** The scanner keeps the text from its offset on. *)
Fixpoint skip_ws (json : bytes) : bytes :=
  match json with
  | b :: rest => if whitespace b then skip_ws rest else json
  | [] => []
  end.

Definition QUOTE : byte := x22.
Definition BACKSLASH : byte := x5c.
Definition COLON : byte := x3a.
Definition COMMA : byte := x2c.
Definition OPEN : byte := x7b.
Definition CLOSE : byte := x7d.
(** [json.get(offset) == Some(&c)] *)
Definition at_byte (c : byte) (json : bytes) : bool :=
  match json with b :: _ => Byte.eqb b c | [] => false end.

Fixpoint string_tail (json acc : bytes) : outcome Z (bytes * bytes) :=
  match json with
  | b :: rest =>
      if Byte.eqb b QUOTE then Good (acc, rest)
      else if Byte.eqb b BACKSLASH || (Z_of_byte b <? 0x20) then Bad DIGEST_BINDING_FAILURE
      else string_tail rest (acc ++ [b])
  | [] => Bad DIGEST_BINDING_FAILURE
  end.
Definition json_string (json : bytes) : outcome Z (bytes * bytes) :=
  err_if (negb (at_byte QUOTE json)) DIGEST_BINDING_FAILURE;;
  string_tail (tail json) [].

Fixpoint primitive_tail (json : bytes) : bytes :=
  match json with
  | b :: rest =>
      if Byte.eqb b COMMA || Byte.eqb b CLOSE || whitespace b then json else primitive_tail rest
  | [] => []
  end.
Definition skip_primitive (json : bytes) : outcome Z bytes :=
  let rest := primitive_tail json in
  err_if (length rest =? length json)%nat DIGEST_BINDING_FAILURE;; Good rest.

(** Which of the three keys were found. *)
Record Found := { found_type : bool; found_challenge : bool; found_origin : bool }.

Definition KEY_TYPE : bytes := utf8_encode "type".
Definition KEY_CHALLENGE : bytes := utf8_encode "challenge".
Definition KEY_ORIGIN : bytes := utf8_encode "origin".

(** A value that must be the expected string, of a key that was not seen before. *)
Definition scan_checked (expected : bytes) (seen : bool) (found : Found) (json : bytes)
    : outcome Z (bytes * Found) :=
  '(value, json) ← json_string json;
  err_if (seen || negb (bool_decide (value = expected))) DIGEST_BINDING_FAILURE;;
  Good (json, found).

(** The value after a key: checked for the three keys, skipped for others. *)
Definition scan_value (challenge origin key json : bytes) (found : Found)
    : outcome Z (bytes * Found) :=
  let '(Build_Found t c o) := found in
  if bool_decide (key = KEY_TYPE)
  then scan_checked (utf8_encode "webauthn.get") t (Build_Found true c o) json
  else if bool_decide (key = KEY_CHALLENGE) then scan_checked challenge c (Build_Found t true o) json
  else if bool_decide (key = KEY_ORIGIN) then scan_checked origin o (Build_Found t c true) json
  else if at_byte QUOTE json then '(_, json) ← json_string json; Good (json, found)
  else json ← skip_primitive json; Good (json, found).

(** The [loop]: one member of the object per round. *)
Fixpoint scan_members (n : nat) (challenge origin json : bytes) (found : Found)
    : outcome Z (bytes * Found) :=
  match n with
  | O => Panic
  | S n' =>
      let json := skip_ws json in
      if at_byte CLOSE json then Good (tail json, found) else
      '(key, json) ← json_string json;
      let json := skip_ws json in
      err_if (negb (at_byte COLON json)) DIGEST_BINDING_FAILURE;;
      let json := skip_ws (tail json) in
      '(json, found) ← scan_value challenge origin key json found;
      let json := skip_ws json in
      if at_byte COMMA json then scan_members n' challenge origin (tail json) found
      else if at_byte CLOSE json then scan_members n' challenge origin json found
      else Bad DIGEST_BINDING_FAILURE
  end.

Definition validate_client_data (json challenge origin : bytes) : outcome Z unit :=
  let start := skip_ws json in
  err_if (negb (at_byte OPEN start)) DIGEST_BINDING_FAILURE;;
  '(json, found) ← scan_members (S (length json)) challenge origin (tail start)
                     (Build_Found false false false);
  let json := skip_ws json in
  err_if (negb (length json =? 0)%nat || negb (found_type found) ||
          negb (found_challenge found) || negb (found_origin found)) DIGEST_BINDING_FAILURE.

(** ** Verification *)

Section verify.
Context {ccc : Ccc} {p256 : P256}.

Definition verify (request : bytes) : outcome Z unit :=
  request ← map_err MALFORMED_REQUEST (VerifierRequest_parse request);
  err_if (negb (vr_algorithm_id request =? ALG_P256_WEBAUTHN)) UNSUPPORTED_ALGORITHM;;
  err_if (negb (vr_verifier_profile request =? PROFILE_V1)) UNSUPPORTED_PROFILE;;
  aux0 ← (if len (vr_aux request) =? 65 then index (vr_aux request) 0 else Good 0);
  err_if (negb (len (vr_aux request) =? 65) || negb (aux0 =? PROFILE_V1)) AUX_MISMATCH;;
  proof ← parse_proof (vr_proof request);
  err_if (negb (bool_decide (ckb_digest (pp_public_key proof) = vr_key_id request)))
    KEY_ID_MISMATCH;;
  origin_aux ← range (vr_aux request) 33 65;
  err_if (negb (bool_decide (sha256_digest (pp_origin proof) = origin_aux))) AUX_MISMATCH;;
  rp ← range (pp_authenticator_data proof) 0 32;
  rp_aux ← range (vr_aux request) 1 33;
  flags ← index (pp_authenticator_data proof) 32;
  err_if (negb (bool_decide (rp = rp_aux)) || negb (Z.land flags 0x05 =? 0x05)) AUX_MISMATCH;;
  validate_client_data (pp_client_data_json proof)
    (base64url_digest (vr_authorization_digest request)) (pp_origin proof);;
  head ← index (pp_public_key proof) 0;
  err_if (negb (head =? 4)) MALFORMED_KEY;;
  key ← ok_or MALFORMED_KEY (from_sec1_bytes (pp_public_key proof));
  err_if (negb (bool_decide (to_sec1_point key = pp_public_key proof))) MALFORMED_KEY;;
  signature ← ok_or MALFORMED_PROOF (from_der (pp_signature proof));
  err_if (negb (bool_decide (to_der signature = pp_signature proof))) MALFORMED_PROOF;;
  let client_hash := sha256_digest (pp_client_data_json proof) in
  let prehash := sha256_digest (pp_authenticator_data proof ++ client_hash) in
  err_if (negb (verify_prehash key prehash signature)) INVALID_PROOF.

(** The exit code; a panic gives none. *)
Definition exit_code (m : outcome Z unit) : option Z :=
  match m with Good _ => Some VALID | Bad c => Some c | Panic => None end.
Definition program_entry {S} `{Processes S} (s : S) : option Z :=
  exit_code ('(request, _) ← read_request s; verify request).
End verify.
