(* ===== verification/Assertion.v ===== *)
(** * What the passkey verifier accepts

    The verifier never panics; it reads a well-formed request from its pipe as it was
    sent; its scanner accepts exactly the client data whose members carry the type, the
    challenge and the origin once each; and it exits with 0 exactly when key, site,
    client data and signature are right. *)

From S2P Require Import Prelude Js JsString Base64 Ccc Wire Protocol Codec Abi Vm Verifier.

(** ** The scanner consumes its text *)

Lemma skip_ws_len json : (length (skip_ws json) <= length json)%nat.
Proof.
  induction json as [|b json IH]; cbn [skip_ws length]; [lia|].
  destruct (whitespace b); cbn [length]; lia.
Qed.
Lemma skip_ws_idem json : skip_ws (skip_ws json) = skip_ws json.
Proof.
  induction json as [|b json IH]; [done|]. cbn [skip_ws].
  destruct (whitespace b) eqn:E; [done|]. cbn [skip_ws]. by rewrite E.
Qed.
Lemma string_tail_len json acc v rest :
  string_tail json acc = Good (v, rest) → (length rest < length json)%nat.
Proof.
  revert acc. induction json as [|b json IH]; intros acc; cbn [string_tail length];
    [done|].
  destruct (Byte.eqb b QUOTE); [intros [= _ ->]; lia|]. destruct (_ || _); [done|].
  intros H%IH. lia.
Qed.
Lemma json_string_len json v rest :
  json_string json = Good (v, rest) → (length rest < length json)%nat.
Proof.
  unfold json_string. intros H. apply outcome_bind_Good in H as ([] & _ & H).
  apply string_tail_len in H. destruct json; cbn in *; lia.
Qed.
Lemma primitive_tail_len json : (length (primitive_tail json) <= length json)%nat.
Proof.
  induction json as [|b json IH]; cbn [primitive_tail length]; [lia|].
  destruct (_ || _); cbn [length]; lia.
Qed.
Lemma skip_primitive_len json rest :
  skip_primitive json = Good rest → (length rest < length json)%nat.
Proof.
  unfold skip_primitive. intros H. apply outcome_bind_Good in H as ([] & Hn%err_if_Good & H).
  injection H as <-. apply Nat.eqb_neq in Hn. pose proof (primitive_tail_len json). lia.
Qed.
Lemma scan_checked_len expected seen found json rest found' :
  scan_checked expected seen found json = Good (rest, found') →
  (length rest < length json)%nat.
Proof.
  unfold scan_checked. intros H. apply outcome_bind_Good in H as ([v j] & Hj & H).
  apply outcome_bind_Good in H as ([] & _ & [= -> _]). by eapply json_string_len.
Qed.
Lemma scan_value_len challenge origin key json found rest found' :
  scan_value challenge origin key json found = Good (rest, found') →
  (length rest < length json)%nat.
Proof.
  unfold scan_value. destruct found as [t c o]. intros H.
  repeat case_bool_decide; try (by eapply scan_checked_len).
  destruct (at_byte QUOTE json).
  - apply outcome_bind_Good in H as ([v j] & Hj & [= -> _]). by eapply json_string_len.
  - apply outcome_bind_Good in H as (j & Hj & [= -> _]). by eapply skip_primitive_len.
Qed.

(** ** It never panics *)

Lemma safe_string_tail json acc : safe (string_tail json acc).
Proof.
  revert acc. induction json as [|b json IH]; intros acc; [done|].
  cbn [string_tail]. destruct (Byte.eqb b QUOTE); [done|]. by destruct (_ || _).
Qed.
Lemma safe_json_string json : safe (json_string json).
Proof. unfold json_string. apply safe_bind; [apply safe_err_if|]. intros; apply safe_string_tail. Qed.
Lemma safe_skip_primitive json : safe (skip_primitive json).
Proof. unfold skip_primitive. apply safe_bind; [apply safe_err_if|]. done. Qed.
Lemma safe_scan_value challenge origin key json found :
  safe (scan_value challenge origin key json found).
Proof.
  unfold scan_value. destruct found as [t c o].
  repeat case_bool_decide;
    try (unfold scan_checked; apply safe_bind; [apply safe_json_string|]; intros [v j] _;
         apply safe_bind; [apply safe_err_if|]; done).
  destruct (at_byte QUOTE json).
  - apply safe_bind; [apply safe_json_string|]. by intros [v j] _.
  - apply safe_bind; [apply safe_skip_primitive|]. done.
Qed.

Lemma safe_scan_members n challenge origin json found :
  (length json < n)%nat → safe (scan_members n challenge origin json found).
Proof.
  revert json found. induction n as [|n IH]; intros json found Hn; [lia|]. cbn [scan_members].
  pose proof (skip_ws_len json). destruct (at_byte CLOSE _); [done|].
  apply safe_bind; [apply safe_json_string|]. intros [key j1] Hj1%json_string_len.
  apply safe_bind; [apply safe_err_if|]. intros _ _.
  pose proof (skip_ws_len j1). pose proof (skip_ws_len (tail (skip_ws j1))).
  assert (length (tail (skip_ws j1)) <= length (skip_ws j1))%nat by (destruct (skip_ws j1); cbn; lia).
  apply safe_bind; [apply safe_scan_value|]. intros [j2 f2] Hj2%scan_value_len.
  pose proof (skip_ws_len j2).
  assert (length (tail (skip_ws j2)) <= length (skip_ws j2))%nat by (destruct (skip_ws j2); cbn; lia).
  destruct (at_byte COMMA _); [apply IH; lia|]. destruct (at_byte CLOSE _); [apply IH; lia|done].
Qed.

Lemma safe_client_data json challenge origin : safe (validate_client_data json challenge origin).
Proof.
  unfold validate_client_data. apply safe_bind; [apply safe_err_if|]. intros _ _.
  apply safe_bind; [|intros [j f] _; apply safe_err_if]. apply safe_scan_members.
  pose proof (skip_ws_len json). destruct (skip_ws json); cbn in *; lia.
Qed.

(** ** Client data as browsers write it *)

Inductive member_value := VString (s : bytes) | VPrimitive (s : bytes).
#[export] Instance member_value_eq_dec : EqDecision member_value.
Proof. solve_decision. Defined.
Notation member := (bytes * member_value)%type.

Definition plain (s : bytes) : Prop :=
  Forall (λ b, Byte.eqb b QUOTE = false ∧ Byte.eqb b BACKSLASH = false ∧ 0x20 <= Z_of_byte b) s.
Definition primitive (s : bytes) : Prop :=
  s ≠ [] ∧ at_byte QUOTE s = false ∧
  Forall (λ b, Byte.eqb b COMMA = false ∧ Byte.eqb b CLOSE = false ∧ whitespace b = false) s.
Definition member_ok (m : member) : Prop :=
  plain m.1 ∧ match m.2 with VString s => plain s | VPrimitive s => primitive s end.

Definition quoted (s : bytes) : bytes := QUOTE :: s ++ [QUOTE].
Definition render_member (m : member) : bytes :=
  quoted m.1 ++ [COLON] ++ match m.2 with VString s => quoted s | VPrimitive s => s end.
Fixpoint render_members (ms : list member) : bytes :=
  match ms with
  | [] => []
  | [m] => render_member m
  | m :: ms' => render_member m ++ [COMMA] ++ render_members ms'
  end.
Definition client_object (ms : list member) : bytes := [OPEN] ++ render_members ms ++ [CLOSE].

Lemma string_tail_plain s rest acc :
  plain s → string_tail (s ++ QUOTE :: rest) acc = Good (acc ++ s, rest).
Proof.
  intros Hs. revert acc. induction Hs as [|b s (Hq & Hb & Hc) _ IH]; intros acc.
  - cbn. by rewrite app_nil_r.
  - cbn [app string_tail]. rewrite Hq, Hb, (proj2 (Z.ltb_ge _ _)) by done. cbn [orb].
    rewrite IH. by rewrite <- app_assoc.
Qed.
Lemma json_string_quoted s rest :
  plain s → json_string (quoted s ++ rest) = Good (s, rest).
Proof.
  intros Hs. unfold json_string, quoted. cbn [app at_byte tail].
  change (Byte.eqb QUOTE QUOTE) with true. cbn [negb err_if mbind outcome_bind].
  rewrite <- app_assoc. by apply (string_tail_plain s rest []).
Qed.
Lemma skip_ws_head b rest : whitespace b = false → skip_ws (b :: rest) = b :: rest.
Proof. intros H. cbn [skip_ws]. by rewrite H. Qed.
Lemma primitive_tail_app s rest :
  Forall (λ b, Byte.eqb b COMMA = false ∧ Byte.eqb b CLOSE = false ∧ whitespace b = false) s →
  primitive_tail (s ++ rest) = primitive_tail rest.
Proof.
  induction 1 as [|b s (H1 & H2 & H3) _ IH]; [done|].
  cbn [app primitive_tail]. by rewrite H1, H2, H3.
Qed.

(** What the members so far have shown. *)
Definition see (challenge origin : bytes) (found : option Found) (m : member) : option Found :=
  '(Build_Found t c o) ← found;
  if bool_decide (m.1 = KEY_TYPE)
  then if bool_decide (m.2 = VString (utf8_encode "webauthn.get")) && negb t
       then Some (Build_Found true c o) else None
  else if bool_decide (m.1 = KEY_CHALLENGE)
  then if bool_decide (m.2 = VString challenge) && negb c
       then Some (Build_Found t true o) else None
  else if bool_decide (m.1 = KEY_ORIGIN)
  then if bool_decide (m.2 = VString origin) && negb o
       then Some (Build_Found t c true) else None
  else Some (Build_Found t c o).

Definition seen_result (found : option Found) (rest : bytes) : outcome Z (bytes * Found) :=
  match found with Some f => Good (rest, f) | None => Bad DIGEST_BINDING_FAILURE end.

(** The separators after a value. *)
Definition separator (b : byte) : Prop := b = COMMA ∨ b = CLOSE.

Lemma scan_checked_spec expected seen found v b rest :
  member_ok ([], v) → separator b →
  scan_checked expected seen found
    (match v with VString s => quoted s | VPrimitive s => s end ++ b :: rest) =
  if bool_decide (v = VString expected) && negb seen then Good (b :: rest, found)
  else Bad DIGEST_BINDING_FAILURE.
Proof.
  intros [_ Hv] Hb. unfold scan_checked. destruct v as [s|s]; cbn [snd] in Hv.
  - rewrite json_string_quoted by done. cbn [mbind outcome_bind].
    destruct (decide (s = expected)) as [->|Hn].
    + rewrite !bool_decide_eq_true_2 by done. by destruct seen.
    + rewrite !bool_decide_eq_false_2 by congruence. by destruct seen.
  - destruct Hv as (Hne & Hq & _). destruct s as [|x s]; [done|].
    unfold json_string. cbn [app at_byte] in *. rewrite Hq. done.
Qed.

Lemma scan_value_spec challenge origin m found b rest :
  member_ok m → separator b →
  scan_value challenge origin m.1
    (match m.2 with VString s => quoted s | VPrimitive s => s end ++ b :: rest) found =
  seen_result (see challenge origin (Some found) m) (b :: rest).
Proof.
  intros Hm Hb. assert (Hv : member_ok ([], m.2)) by (split; [constructor|apply Hm]).
  unfold scan_value, see. destruct found as [t c o]. cbn [mbind option_bind].
  do 3 (destruct (bool_decide (m.1 = _)); [rewrite scan_checked_spec by done; by destruct (_ && _)|]).
  destruct Hm as [_ Hm]. destruct (m.2) as [s|s].
  - change (at_byte QUOTE (quoted s ++ b :: rest)) with true. cbv match.
    by rewrite json_string_quoted.
  - destruct Hm as (Hne & Hq & Hs). destruct s as [|x s]; [done|].
    assert (Hq' : at_byte QUOTE ((x :: s) ++ b :: rest) = false) by exact Hq. rewrite Hq'.
    unfold skip_primitive. rewrite primitive_tail_app by done.
    assert (Ht : primitive_tail (b :: rest) = b :: rest) by (destruct Hb as [-> | ->]; done).
    rewrite Ht, length_app. cbn [length].
    rewrite (proj2 (Nat.eqb_neq _ _)) by lia. done.
Qed.

Lemma separator_ws b rest : separator b → skip_ws (b :: rest) = b :: rest.
Proof. intros [-> | ->]; done. Qed.

(** One round of the loop on a rendered member. *)
Lemma scan_member n challenge origin m found b rest :
  member_ok m → separator b →
  scan_members (S n) challenge origin (render_member m ++ b :: rest) found =
  match see challenge origin (Some found) m with
  | Some found =>
      if Byte.eqb b COMMA then scan_members n challenge origin rest found
      else scan_members n challenge origin (b :: rest) found
  | None => Bad DIGEST_BINDING_FAILURE
  end.
Proof.
  intros Hm Hb. cbn [scan_members]. unfold render_member. rewrite <- app_assoc.
  assert (Hq : ∀ l, skip_ws (quoted m.1 ++ l) = quoted m.1 ++ l) by done.
  rewrite Hq. change (at_byte CLOSE (quoted m.1 ++ _)) with false. cbv match.
  rewrite json_string_quoted by apply Hm. cbn [mbind outcome_bind app].
  rewrite skip_ws_head by done. cbn [at_byte tail].
  change (Byte.eqb COLON COLON) with true. cbn [negb err_if mbind outcome_bind].
  set (v := match m.2 with VString s => quoted s | VPrimitive s => s end).
  assert (Hv : skip_ws (v ++ b :: rest) = v ++ b :: rest).
  { unfold v. destruct Hm as [_ Hm]. destruct (m.2) as [s|s]; [done|].
    destruct Hm as (Hne & _ & Hs). destruct s as [|x s]; [done|].
    apply List.Forall_cons_iff in Hs as [(_ & _ & Hw) _]. by apply skip_ws_head. }
  rewrite Hv. unfold v. rewrite scan_value_spec by done.
  destruct (see _ _ _ _) as [f|]; cbn [seen_result mbind outcome_bind]; [|done].
  rewrite separator_ws by done. destruct Hb as [-> | ->]; done.
Qed.

Lemma see_none challenge origin ms : foldl (see challenge origin) None ms = None.
Proof. by induction ms. Qed.

Lemma scan_rendered challenge origin ms : ∀ n found rest,
  Forall member_ok ms → (length ms < n)%nat →
  scan_members n challenge origin (render_members ms ++ CLOSE :: rest) found =
  seen_result (foldl (see challenge origin) (Some found) ms) rest.
Proof.
  induction ms as [|m ms IH]; intros n found rest Hok Hn; (destruct n as [|n]; [cbn in Hn; lia|]).
  - done.
  - apply List.Forall_cons_iff in Hok as [Hm Hok]. cbn [length] in Hn.
    cbn [foldl]. destruct ms as [|m' ms].
    + cbn [render_members]. rewrite scan_member by (done || by right).
      destruct (see _ _ _ m) as [f|]; [|done]. change (Byte.eqb CLOSE COMMA) with false.
      cbv match. destruct n as [|n]; [lia|]. done.
    + change (render_members (m :: m' :: ms)) with
        (render_member m ++ [COMMA] ++ render_members (m' :: ms)).
      rewrite <- app_assoc. cbn [app]. rewrite scan_member by (done || by left).
      destruct (see _ _ _ m) as [f|].
      * change (Byte.eqb COMMA COMMA) with true. cbv match. apply IH; [done|]. cbn in *. lia.
      * by rewrite see_none.
Qed.

(** The members with a key, and what they do to its flag. *)
Definition with_key (key : bytes) (ms : list member) : list member :=
  List.filter (λ m, bool_decide (m.1 = key)) ms.
Definition flag_ok (key expected : bytes) (before after : bool) (ms : list member) : Prop :=
  with_key key ms = [] ∧ after = before ∨
  before = false ∧ after = true ∧ with_key key ms = [(key, VString expected)].

Lemma flag_ok_skip key expected b a m ms :
  m.1 ≠ key → flag_ok key expected b a (m :: ms) ↔ flag_ok key expected b a ms.
Proof.
  intros Hm. unfold flag_ok, with_key. cbn [List.filter].
  by rewrite (bool_decide_eq_false_2 (m.1 = key)).
Qed.
Lemma flag_ok_hit key expected b a v ms :
  flag_ok key expected b a ((key, v) :: ms) ↔
  v = VString expected ∧ b = false ∧ flag_ok key expected true a ms.
Proof.
  unfold flag_ok, with_key. cbn [List.filter fst].
  rewrite (bool_decide_eq_true_2 (key = key)) by done. split.
  - intros [[[=] _]|(-> & -> & [= -> Hn])]. auto.
  - intros (-> & -> & [[-> ->]|([=] & _)]). auto.
Qed.

Lemma see_gate challenge origin v e (b : bool) g ms f' :
  foldl (see challenge origin)
    (if bool_decide (v = VString e) && negb b then Some g else None) ms = Some f' ↔
  v = VString e ∧ b = false ∧ foldl (see challenge origin) (Some g) ms = Some f'.
Proof.
  destruct (decide (v = VString e)) as [->|Hv].
  - rewrite bool_decide_eq_true_2 by done. destruct b; cbn [andb negb]; [|tauto].
    rewrite see_none. split; [done|]. by intros (_ & [=] & _).
  - rewrite bool_decide_eq_false_2 by done. cbn [andb]. rewrite see_none.
    split; [done|]. by intros (? & _).
Qed.

Lemma render_long ms : (length ms <= length (render_members ms))%nat.
Proof.
  induction ms as [|m ms IH]; [cbn; lia|]. destruct ms as [|m' ms].
  - cbn [render_members render_member]. unfold render_member, quoted.
    rewrite length_app. cbn. lia.
  - change (render_members (m :: m' :: ms)) with
      (render_member m ++ [COMMA] ++ render_members (m' :: ms)).
    rewrite !length_app. cbn [length] in *. lia.
Qed.

Lemma see_all challenge origin ms : ∀ f f',
  foldl (see challenge origin) (Some f) ms = Some f' ↔
  flag_ok KEY_TYPE (utf8_encode "webauthn.get") (found_type f) (found_type f') ms ∧
  flag_ok KEY_CHALLENGE challenge (found_challenge f) (found_challenge f') ms ∧
  flag_ok KEY_ORIGIN origin (found_origin f) (found_origin f') ms.
Proof.
  induction ms as [|[k v] ms IH]; intros f f'.
  - cbn [foldl]. unfold flag_ok, with_key. cbn [List.filter]. destruct f, f'. cbn.
    split; [intros [= -> -> ->]; auto|].
    by intros ([[_ ->]|(_ & _ & [=])] & [[_ ->]|(_ & _ & [=])] & [[_ ->]|(_ & _ & [=])]).
  - cbn [foldl]. destruct f as [t c o]. unfold see at 2. cbn [mbind option_bind fst snd].
    destruct (decide (k = KEY_TYPE)) as [->|Ht].
    + rewrite (bool_decide_eq_true_2 (KEY_TYPE = KEY_TYPE)) by done.
      rewrite flag_ok_hit, !flag_ok_skip, see_gate, IH by done. cbn. tauto.
    + rewrite (bool_decide_eq_false_2 (k = KEY_TYPE)) by done.
      destruct (decide (k = KEY_CHALLENGE)) as [->|Hc].
      * rewrite (bool_decide_eq_true_2 (KEY_CHALLENGE = KEY_CHALLENGE)) by done.
        rewrite flag_ok_hit, !flag_ok_skip, see_gate, IH by done. cbn. tauto.
      * rewrite (bool_decide_eq_false_2 (k = KEY_CHALLENGE)) by done.
        destruct (decide (k = KEY_ORIGIN)) as [->|Ho].
        -- rewrite (bool_decide_eq_true_2 (KEY_ORIGIN = KEY_ORIGIN)) by done.
           rewrite flag_ok_hit, !flag_ok_skip, see_gate, IH by done. cbn. tauto.
        -- rewrite (bool_decide_eq_false_2 (k = KEY_ORIGIN)) by done.
           rewrite !flag_ok_skip, IH by done. done.
Qed.

(** A key is there once, with this string. *)
Definition carries (key expected : bytes) (ms : list member) : Prop :=
  with_key key ms = [(key, VString expected)].

Lemma client_data_iff challenge origin ms :
  Forall member_ok ms →
  validate_client_data (client_object ms) challenge origin = Good tt ↔
  carries KEY_TYPE (utf8_encode "webauthn.get") ms ∧ carries KEY_CHALLENGE challenge ms ∧
  carries KEY_ORIGIN origin ms.
Proof.
  intros Hok. unfold validate_client_data, client_object.
  assert (Hs : skip_ws ([OPEN] ++ render_members ms ++ [CLOSE]) =
    OPEN :: render_members ms ++ [CLOSE]) by done.
  rewrite Hs. cbn [at_byte tail]. change (Byte.eqb OPEN OPEN) with true.
  cbn [negb err_if mbind outcome_bind]. rewrite scan_rendered.
  2: done.
  2: { cbn [app length]. rewrite length_app. pose proof (render_long ms). cbn. lia. }
  assert (Hf : ∀ key e a, flag_ok key e false a ms → a = true ↔ carries key e ms).
  { unfold flag_ok, carries. intros key e a [[H ->]|(_ & -> & H)]; rewrite H; [|done].
    split; [done|]. by intros [=]. }
  assert (Hall := see_all challenge origin ms (Build_Found false false false)).
  destruct (foldl _ _ _) as [[t c o]|]; cbn [seen_result mbind outcome_bind].
  - cbn [skip_ws length Nat.eqb negb orb]. rewrite err_if_Good.
    destruct (proj1 (Hall _) eq_refl) as (H1 & H2 & H3).
    cbn [found_type found_challenge found_origin] in *.
    rewrite <- (Hf _ _ _ H1), <- (Hf _ _ _ H2), <- (Hf _ _ _ H3).
    rewrite !orb_false_iff, !negb_false_iff. tauto.
  - split; [done|]. intros (C1 & C2 & C3). exfalso.
    specialize (Hall (Build_Found true true true)).
    cbn [found_type found_challenge found_origin] in Hall.
    assert (Hn : None = Some (Build_Found true true true)); [|done].
    apply Hall. unfold flag_ok, carries in *. auto 10.
Qed.

(** ** The challenge *)

Lemma lor_shift x y n : 0 <= n → 0 <= y < 2 ^ n → Z.lor (Z.shiftl x n) y = x * 2 ^ n + y.
Proof.
  intros Hn Hy. rewrite Z.shiftl_mul_pow2 by done. symmetry. rewrite Z.add_nocarry_lxor.
  - apply Z.lxor_lor. apply Z.bits_inj'. intros k Hk. rewrite Z.land_spec, Z.bits_0.
    destruct (Z.ltb_spec k n).
    + by rewrite Z.mul_pow2_bits_low.
    + rewrite <- (Z.mod_small y (2 ^ n)) by done.
      by rewrite Z.mod_pow2_bits_high, andb_false_r by lia.
  - apply Z.bits_inj'. intros k Hk. rewrite Z.land_spec, Z.bits_0.
    destruct (Z.ltb_spec k n).
    + by rewrite Z.mul_pow2_bits_low.
    + rewrite <- (Z.mod_small y (2 ^ n)) by done.
      by rewrite Z.mod_pow2_bits_high, andb_false_r by lia.
Qed.

Definition sextet_byte (z : Z) : byte := default x00 (TABLE !! Z.to_nat z).
Lemma table_char_shift v n : 0 <= n → table_char (Z.shiftr v n) = sextet_byte (v / 2 ^ n mod 64).
Proof.
  intros Hn. unfold table_char, sextet_byte. rewrite Z.shiftr_div_pow2 by done.
  by rewrite (Z.land_ones _ 6).
Qed.
Lemma table_char_low v : table_char v = sextet_byte (v mod 64).
Proof. unfold table_char, sextet_byte. by rewrite (Z.land_ones _ 6). Qed.

Lemma two_bytes a b :
  0 <= b < 256 → Z.lor (Z.shiftl a 16) (Z.shiftl b 8) = a * 65536 + b * 256.
Proof.
  intros Hb. assert (E : Z.shiftl b 8 = b * 256) by by rewrite Z.shiftl_mul_pow2.
  rewrite lor_shift, E; [done|done|]. rewrite E. lia.
Qed.
Lemma three_bytes a b c :
  0 <= b < 256 → 0 <= c < 256 →
  Z.lor (Z.lor (Z.shiftl a 16) (Z.shiftl b 8)) c = a * 65536 + b * 256 + c.
Proof.
  intros Hb Hc. rewrite two_bytes by done.
  replace (a * 65536 + b * 256) with (Z.shiftl (a * 256 + b) 8)
    by (rewrite Z.shiftl_mul_pow2 by done; lia).
  rewrite lor_shift, Z.shiftl_mul_pow2 by done. lia.
Qed.

(** The four sextets of three bytes. *)
Lemma sextet_values a b c :
  0 <= a < 256 → 0 <= b < 256 → 0 <= c < 256 →
  let v := a * 65536 + b * 256 + c in
  v / 262144 mod 64 = a / 4 ∧ v / 4096 mod 64 = a mod 4 * 16 + b / 16 ∧
  v / 64 mod 64 = b mod 16 * 4 + c / 64 ∧ v mod 64 = c mod 64.
Proof.
  intros Ha Hb Hc v.
  assert (E1 : v / 65536 = a) by (symmetry; apply (Z.div_unique v 65536 a (b * 256 + c)); lia).
  assert (E2 : v / 256 = a * 256 + b) by (symmetry; apply (Z.div_unique v 256 _ c); lia).
  assert (Eb : (a * 256 + b) / 16 = a * 16 + b / 16).
  { replace (a * 256 + b) with (a * 16 * 16 + b) by lia. by rewrite Z.div_add_l. }
  assert (Ec : v / 64 = a * 1024 + b * 4 + c / 64).
  { replace v with ((a * 1024 + b * 4) * 64 + c) by lia. by rewrite Z.div_add_l. }
  assert (0 <= b / 16 < 16) by (split; [by apply Z.div_pos; lia|apply Z.div_lt_upper_bound; lia]).
  assert (0 <= c / 64 < 4) by (split; [by apply Z.div_pos; lia|apply Z.div_lt_upper_bound; lia]).
  split; [|split; [|split]].
  - change 262144 with (65536 * 4). rewrite <- Z.div_div, E1 by lia. apply Z.mod_small.
    split; [by apply Z.div_pos; lia|apply Z.div_lt_upper_bound; lia].
  - change 4096 with (256 * 16). rewrite <- Z.div_div, E2, Eb by lia.
    pose proof (Z.div_mod a 4). pose proof (Z.mod_pos_bound a 4).
    symmetry. apply (Z.mod_unique _ _ (a / 4)); lia.
  - rewrite Ec. pose proof (Z.div_mod b 16). pose proof (Z.mod_pos_bound b 16).
    symmetry. apply (Z.mod_unique _ _ (a * 16 + b / 16)); lia.
  - replace v with (c + (a * 1024 + b * 4) * 64) by lia. by rewrite Z.mod_add.
Qed.

(** Exactly two bytes are left over. *)
Lemma base64url_sextets input :
  (length input mod 3 = 2)%nat →
  base64url_digest input = sextet_byte <$> sextets (Z_of_byte <$> input).
Proof.
  induction input as [|a|a b|a b c rest IH] using list_ind3; intros Hl; try done.
  - cbn [base64url_digest fmap list_fmap sextets].
    pose proof (Z_of_byte_range a). pose proof (Z_of_byte_range b).
    rewrite two_bytes, !table_char_shift by done.
    destruct (sextet_values (Z_of_byte a) (Z_of_byte b) 0) as (E1 & E2 & E3 & _); [lia..|].
    rewrite Z.add_0_r in *. rewrite (Z.add_0_r (_ * 4)) in E3. by rewrite <- E1, <- E2, <- E3.
  - pose proof (Z_of_byte_range a). pose proof (Z_of_byte_range b). pose proof (Z_of_byte_range c).
    assert (Hr : (length rest mod 3 = 2)%nat).
    { etransitivity; [|exact Hl]. cbn [length].
      replace (S (S (S (length rest)))) with (length rest + 1 * 3)%nat by lia.
      by rewrite Nat.Div0.mod_add. }
    cbn [base64url_digest].
    rewrite three_bytes, !table_char_shift, table_char_low, IH by done.
    cbn [fmap list_fmap sextets app].
    destruct (sextet_values (Z_of_byte a) (Z_of_byte b) (Z_of_byte c)) as (E1 & E2 & E3 & E4);
      [lia..|]. by rewrite <- E1, <- E2, <- E3, <- E4.
Qed.

Lemma sextet_utf8 z : 0 <= z < 64 → utf8_char (url_char z) = [sextet_byte z].
Proof.
  intros Hz.
  assert (H : forallb (λ z, bool_decide (utf8_char (url_char z) = [sextet_byte z])) (seqZ 0 64)
    = true) by (vm_compute; reflexivity).
  rewrite forallb_forall in H. apply (bool_decide_eq_true _), H, list_elem_of_In, elem_of_seqZ. lia.
Qed.

Lemma utf8_text l :
  Forall sextet l → utf8_encode (text (url_char <$> l)) = sextet_byte <$> l.
Proof.
  induction 1 as [|z l Hz _ IH]; [done|]. cbn [fmap list_fmap String.string_of_list_ascii utf8_encode].
  rewrite sextet_utf8 by exact Hz. cbn [app]. f_equal. exact IH.
Qed.

(** The verifier's challenge is the text the client compares with. *)
Lemma challenge_text digest :
  len digest = 32 → base64url_digest digest = utf8_encode (base64urlEncode digest).
Proof.
  intros Hl. rewrite base64url_sextets by (unfold len in Hl; by replace (length digest) with 32%nat by lia).
  rewrite base64urlEncode_text. unfold url_text. symmetry. apply utf8_text, sextets_ok, octets.
Qed.

(** C12 — The client data the verifier accepts: an object as browsers write it, strings
    without escapes and primitive values, passes exactly when it has the three members
    once each: the type of an assertion, the digest in the encoding the client computes
    for its challenge, and the origin. Other members do not matter. *)
Theorem client_data_exact (digest origin : bytes) (ms : list member) :
  len digest = 32 → Forall member_ok ms →
  validate_client_data (client_object ms) (base64url_digest digest) origin = Good tt ↔
  carries KEY_TYPE (utf8_encode "webauthn.get") ms ∧
  carries KEY_CHALLENGE (utf8_encode (base64urlEncode digest)) ms ∧
  carries KEY_ORIGIN origin ms.
Proof. intros Hd Hm. rewrite challenge_text by done. by apply client_data_iff. Qed.

(** ** Verification *)

(** Every error has a code of its own, none is the code of success. *)
Definition nonzero {A} (m : outcome Z A) : Prop := ∀ c, m = Bad c → c ≠ 0.
Lemma nonzero_bind {A B} (m : outcome Z A) (f : A → outcome Z B) :
  nonzero m → (∀ a, nonzero (f a)) → nonzero (m ≫= f).
Proof. intros Hm Hf. destruct m; cbn; [apply Hf| |done]. intros c' H. by apply Hm; injection H as ->. Qed.
Lemma nonzero_Good {A} (a : A) : nonzero (Good a).
Proof. done. Qed.
Lemma nonzero_Bad {A} c : c ≠ 0 → nonzero (@Bad Z A c).
Proof. intros Hc c' H. by injection H as <-. Qed.
Lemma nonzero_err_if b c : c ≠ 0 → nonzero (err_if b c).
Proof. destruct b; [apply nonzero_Bad|done]. Qed.
Lemma nonzero_map_err {E A} (m : outcome E A) c : c ≠ 0 → nonzero (map_err c m).
Proof. destruct m; [done|apply nonzero_Bad|done]. Qed.
Lemma nonzero_ok_or {A} c (o : option A) : c ≠ 0 → nonzero (ok_or c o).
Proof. destruct o; [done|apply nonzero_Bad]. Qed.
Lemma nonzero_range data a b : nonzero (range data a b).
Proof. unfold range. by destruct (_ && _). Qed.
Lemma nonzero_index data i : nonzero (index data i).
Proof. unfold index. by destruct (at_ _ _). Qed.
Lemma nonzero_take data o l : nonzero (take_ data o l).
Proof.
  unfold take_. destruct (checked_add _ _); [destruct (_ && _)|]; first [done|by apply nonzero_Bad].
Qed.
Lemma nonzero_string_tail json acc : nonzero (string_tail json acc).
Proof.
  revert acc. induction json as [|b json IH]; intros acc; cbn [string_tail];
    [by apply nonzero_Bad|].
  destruct (Byte.eqb b QUOTE); [done|]. destruct (_ || _); [by apply nonzero_Bad|apply IH].
Qed.
Create HintDb nonzero.
#[export] Hint Resolve nonzero_Good nonzero_range nonzero_index nonzero_take nonzero_string_tail
  : nonzero.
#[export] Hint Extern 1 (nonzero (err_if _ _)) => by apply nonzero_err_if : nonzero.
#[export] Hint Extern 1 (nonzero (ok_or _ _)) => by apply nonzero_ok_or : nonzero.
#[export] Hint Extern 1 (nonzero (map_err _ _)) => by apply nonzero_map_err : nonzero.
#[export] Hint Extern 1 (nonzero (Bad _)) => by apply nonzero_Bad : nonzero.
Ltac nonzero_step :=
  match goal with
  | |- nonzero (mbind _ _) => apply nonzero_bind; [|intros ?]; cbv beta zeta
  | |- nonzero (let '(_, _) := ?p in _) => destruct p
  | |- nonzero (let '(Build_Found _ _ _) := ?p in _) => destruct p
  | |- nonzero (if ?c then _ else _) => destruct c
  | |- nonzero _ => solve [eauto with nonzero]
  end.
Ltac solve_nonzero := cbv zeta; repeat nonzero_step.

Lemma nonzero_json_string json : nonzero (json_string json).
Proof. unfold json_string. solve_nonzero. Qed.
#[export] Hint Resolve nonzero_json_string : nonzero.
Lemma nonzero_scan_value challenge origin key json found :
  nonzero (scan_value challenge origin key json found).
Proof. unfold scan_value, scan_checked, skip_primitive. solve_nonzero. Qed.
#[export] Hint Resolve nonzero_scan_value : nonzero.
Lemma nonzero_scan_members n challenge origin json found :
  nonzero (scan_members n challenge origin json found).
Proof.
  revert json found. induction n as [|n IH]; intros json found; cbn [scan_members]; [done|].
  solve_nonzero.
Qed.
#[export] Hint Resolve nonzero_scan_members : nonzero.
Lemma nonzero_client_data json challenge origin :
  nonzero (validate_client_data json challenge origin).
Proof. unfold validate_client_data. solve_nonzero. Qed.
Lemma nonzero_parse_proof data : nonzero (parse_proof data).
Proof. unfold parse_proof, take_u16. solve_nonzero. Qed.
#[export] Hint Resolve nonzero_client_data nonzero_parse_proof : nonzero.

Lemma parse_proof_lens bs p :
  parse_proof bs = Good p → len (pp_public_key p) = 65 ∧ 37 <= len (pp_authenticator_data p).
Proof.
  unfold parse_proof. intros H. apply outcome_bind_Good in H as ([k o] & Hk & H).
  change bs with ([] ++ bs) in Hk.
  change (take_ ([] ++ bs) 0 65) with (take_ ([] ++ bs) (len (@nil byte)) 65) in Hk.
  apply take_inv in Hk as (rest & _ & Hl & _); [|done].
  inv_good. bool_simpl. cbn. lia.
Qed.

Lemma safe_take data o l : safe (take_ data o l).
Proof. unfold take_. destruct (checked_add _ _); [|done]. by destruct (_ && _). Qed.
Lemma safe_take_u16 data o : safe (take_u16 data o).
Proof. unfold take_u16. apply safe_bind; [apply safe_take|]. by intros [b o'] _. Qed.
Lemma safe_parse_proof data : safe (parse_proof data).
Proof.
  unfold parse_proof.
  repeat (apply safe_bind; [first [apply safe_take | apply safe_take_u16 | apply safe_err_if]|];
          try (intros [? ?] _); try (intros _ _)).
  done.
Qed.

Section verify.
Context {ccc : Ccc} {p256 : P256}.

(** What a request and its proof have to satisfy. *)
Record accepted (r : VerifierRequest) (p : PasskeyProof) : Prop := {
  ac_algorithm : vr_algorithm_id r = ALG_P256_WEBAUTHN;
  ac_profile : vr_verifier_profile r = PROFILE_V1;
  ac_site : vr_aux r = x01 :: take 32 (pp_authenticator_data p) ++ sha256_digest (pp_origin p);
  ac_site_len : len (vr_aux r) = 65;
  ac_key : ckb_digest (pp_public_key p) = vr_key_id r;
  ac_flags : ∃ flags, at_ (pp_authenticator_data p) 32 = Some flags ∧ Z.land flags 5 = 5;
  ac_client : validate_client_data (pp_client_data_json p)
    (base64url_digest (vr_authorization_digest r)) (pp_origin p) = Good tt;
  ac_signature : at_ (pp_public_key p) 0 = Some 4 ∧ ∃ key signature,
    from_sec1_bytes (pp_public_key p) = Some key ∧ to_sec1_point key = pp_public_key p ∧
    from_der (pp_signature p) = Some signature ∧ to_der signature = pp_signature p ∧
    verify_prehash key
      (sha256_digest (pp_authenticator_data p ++ sha256_digest (pp_client_data_json p)))
      signature = true }.

Lemma range_zero (data : bytes) b x :
  @range Z data 0 b = Good x ↔ x = take (Z.to_nat b) data ∧ 0 <= b <= len data.
Proof.
  unfold range. destruct (0 <=? b) eqn:E1, (b <=? len data) eqn:E2; cbn [andb];
    bool_simpl; unfold subarray; rewrite ?Nat.sub_0_r, ?drop_0; naive_solver lia.
Qed.
Lemma index_at (data : bytes) i z :
  @index Z data i = Good z ↔ at_ data (Z.to_nat i) = Some z.
Proof. unfold index. destruct (at_ _ _); naive_solver. Qed.

Lemma aux_fields (aux rp oh : bytes) a0 :
  len aux = 65 → @index Z aux 0 = Good a0 → @range Z aux 1 33 = Good rp →
  @range Z aux 33 65 = Good oh → aux = byte_of_Z a0 :: rp ++ oh.
Proof.
  intros Hl H0 H1 H2. destruct aux as [|b aux]; [done|].
  assert (Z_of_byte b = a0) as <- by (by injection H0).
  rewrite byte_of_Z_of_byte. f_equal.
  change (b :: aux) with ([b] ++ aux) in H1, H2.
  change 1 with (len [b]) in H1.
  replace 65 with (len ([b] ++ aux)) in H2.
  destruct (range_rest [b] aux 33 rp oh H1 H2) as [-> _]. done.
Qed.

Lemma verify_inv request :
  verify request = Good tt →
  ∃ r p, VerifierRequest_parse request = Good r ∧ parse_proof (vr_proof r) = Good p ∧
         accepted r p.
Proof.
  intros H. unfold verify in H. apply outcome_bind_Good in H as (r & Hr%map_err_Good & H).
  apply outcome_bind_Good in H as ([] & Ha%err_if_Good & H).
  apply outcome_bind_Good in H as ([] & Hp%err_if_Good & H).
  apply outcome_bind_Good in H as (a0 & H0 & H).
  apply outcome_bind_Good in H as ([] & Hx%err_if_Good & H). bool_simpl.
  match goal with E : len (vr_aux r) = 65 |- _ => rewrite E in H0 end.
  apply outcome_bind_Good in H as (p & Hproof & H).
  destruct (parse_proof_lens _ _ Hproof) as [Hk Hd].
  apply outcome_bind_Good in H as ([] & Hkey%err_if_Good & H).
  apply outcome_bind_Good in H as (oh & Hoh & H).
  apply outcome_bind_Good in H as ([] & Ho%err_if_Good & H).
  apply outcome_bind_Good in H as (rp & Hrp & H).
  apply outcome_bind_Good in H as (rpa & Hrpa & H).
  apply outcome_bind_Good in H as (flags & Hf & H).
  apply outcome_bind_Good in H as ([] & Hs%err_if_Good & H).
  apply outcome_bind_Good in H as ([] & Hc & H).
  apply outcome_bind_Good in H as (h & Hh & H).
  apply outcome_bind_Good in H as ([] & H4%err_if_Good & H).
  apply outcome_bind_Good in H as (key & Hkb%ok_or_Good & H).
  apply outcome_bind_Good in H as ([] & Hkp%err_if_Good & H).
  apply outcome_bind_Good in H as (sig & Hsb%ok_or_Good & H).
  apply outcome_bind_Good in H as ([] & Hsp%err_if_Good & H). cbv zeta in H.
  apply err_if_Good in H. bool_simpl. subst.
  exists r, p. split; [done|]. split; [done|].
  apply range_zero in Hrp as [-> _]. apply index_at in Hf, Hh.
  constructor; try done; [|by exists flags|by split; [|exists key, sig]].
  by apply (aux_fields _ _ _ PROFILE_V1).
Qed.
Lemma verify_accepted request r p :
  VerifierRequest_parse request = Good r → parse_proof (vr_proof r) = Good p → accepted r p →
  verify request = Good tt.
Proof.
  intros Hr Hproof [Ha Hp Hx Hxl Hkey (flags & Hf & H5) Hc
    (H4 & key & sig & Hkb & Hkp & Hsb & Hsp & Hv)].
  destruct (parse_proof_lens _ _ Hproof) as [Hk Hd].
  assert (Hrp : len (take 32 (pp_authenticator_data p)) = 32).
  { unfold len in *. rewrite length_take. lia. }
  assert (Hoh : len (sha256_digest (pp_origin p)) = 32).
  { rewrite Hx, len_cons, len_app, Hrp in Hxl. lia. }
  unfold verify. rewrite Hr. cbn [map_err mbind outcome_bind].
  rewrite Ha, Hp, Hxl. cbn [negb Z.eqb Pos.eqb].
  assert (H0 : @index Z (vr_aux r) 0 = Good 1) by (rewrite Hx; done).
  assert (H1 : @range Z (vr_aux r) 1 33 = Good (take 32 (pp_authenticator_data p))).
  { rewrite Hx. apply (range_app [x01]); [done|lia]. }
  assert (H2 : @range Z (vr_aux r) 33 65 = Good (sha256_digest (pp_origin p))).
  { rewrite Hx, app_comm_cons.
    rewrite <- (app_nil_r (sha256_digest (pp_origin p))) at 1. apply range_app; [|lia].
    rewrite len_cons. lia. }
  apply (index_at _ 32) in Hf. apply (index_at _ 0) in H4.
  rewrite H0, Hproof. cbn [mbind outcome_bind err_if negb orb Z.eqb Pos.eqb].
  rewrite H1, H2, Hf, H4.
  rewrite (proj2 (range_zero _ 32 _)) by (split; [done|lia]).
  rewrite Hkb, Hsb. cbn [mbind outcome_bind err_if negb orb Z.eqb Pos.eqb ok_or].
  rewrite !bool_decide_eq_true_2, H5, Hc, Hv by done. done.
Qed.
Lemma verify_iff request :
  verify request = Good tt ↔
  ∃ r p, VerifierRequest_parse request = Good r ∧ parse_proof (vr_proof r) = Good p ∧
         accepted r p.
Proof. split; [apply verify_inv|]. intros (r & p & H1 & H2 & H3). by eapply verify_accepted. Qed.

Lemma safe_verify request : safe (verify request).
Proof.
  unfold verify. apply safe_bind; [apply safe_map_err, safe_request|]. intros r _.
  do 2 (apply safe_bind; [apply safe_err_if|]; intros _ _).
  apply safe_bind.
  { destruct (len (vr_aux r) =? 65) eqn:E; [|done]. apply safe_at. bool_simpl. lia. }
  intros a0 _. apply safe_bind; [apply safe_err_if|]. intros [] Hx%err_if_Good. bool_simpl.
  apply safe_bind; [apply safe_parse_proof|]. intros p Hp.
  destruct (parse_proof_lens _ _ Hp) as [Hk Hd].
  apply safe_bind; [apply safe_err_if|]. intros _ _.
  apply safe_bind; [apply safe_range; lia|]. intros oh _.
  apply safe_bind; [apply safe_err_if|]. intros _ _.
  do 2 (apply safe_bind; [apply safe_range; lia|]; intros ? _).
  apply safe_bind; [apply safe_at; lia|]. intros flags _.
  apply safe_bind; [apply safe_err_if|]. intros _ _.
  apply safe_bind; [apply safe_client_data|]. intros _ _.
  apply safe_bind; [apply safe_at; lia|]. intros h _.
  apply safe_bind; [apply safe_err_if|]. intros _ _.
  apply safe_bind; [apply safe_ok_or|]. intros key _.
  apply safe_bind; [apply safe_err_if|]. intros _ _.
  apply safe_bind; [apply safe_ok_or|]. intros sig _.
  apply safe_bind; [apply safe_err_if|]. intros _ _. apply safe_err_if.
Qed.

Lemma nonzero_verify request : nonzero (verify request).
Proof. unfold verify. solve_nonzero. Qed.
End verify.

(** ** The request arrives as it was sent *)

Section reading.
Context {S : Type} {processes : Processes S} {inherits : S → bytes → Prop}
  {pipes : PipeReads inherits}.

Lemma read_exact_ok n fd a b acc s :
  reading s fd (a ++ b) → (length a <= n)%nat →
  ∃ s', read_exact n fd (length a) acc s = Some (acc ++ a, s') ∧ reading s' fd b.
Proof.
  revert a acc s. induction n as [|n IH]; intros [|x a] acc s Hr Hn; cbn in Hn; try lia.
  1-2: exists s; cbn; by rewrite app_nil_r.
  cbn [read_exact length]. 
  destruct (read_more s fd ((x :: a) ++ b) (length (x :: a)) Hr) as (k & s1 & Hread & Hk & _ & Hr1);
    [done|cbn; lia|].
  cbn [length] in Hread. rewrite Hread.
  assert (Ht : take (Datatypes.S k) ((x :: a) ++ b) = take (Datatypes.S k) (x :: a)).
  { rewrite take_app_le; [done|exact Hk]. }
  rewrite Ht. rewrite drop_app_le in Hr1 by exact Hk.
  rewrite length_take. cbn [length] in *.
  rewrite (proj2 (Nat.eqb_neq _ 0)) by lia.
  destruct (IH (drop (Datatypes.S k) (x :: a)) (acc ++ take (Datatypes.S k) (x :: a)) s1 Hr1)
    as (s2 & H2 & Hr2).
  { rewrite length_drop. cbn [length]. lia. }
  exists s2. split; [|done]. rewrite <- app_assoc, take_drop in H2.
  rewrite length_drop in H2. cbn [length] in H2.
  by replace (Datatypes.S (length a) - Datatypes.S k `min` Datatypes.S (length a))%nat
    with (Datatypes.S (length a) - Datatypes.S k)%nat by lia.
Qed.

Definition request_header (r : VerifierRequest) : bytes := concat (take 15 (request_fields r)).

Lemma request_split r : request_layout r = request_header r ++ vr_aux r ++ vr_proof r.
Proof.
  unfold request_layout, request_header. rewrite <- (take_drop 15 (request_fields r)) at 1.
  rewrite concat_app. cbn [request_fields drop concat]. by rewrite app_nil_r.
Qed.
Lemma request_header_len r : request_ok r → len (request_header r) = 96.
Proof.
  intros [_ _ _ _ Hd Hk _ _]. assert (H := request_layout_len r Hd Hk).
  rewrite request_split, !len_app in H. lia.
Qed.

Lemma read_request_ok s r :
  inherits s (request_layout r) → request_ok r →
  ∃ s', read_request s = Good (request_layout r, s').
Proof.
  intros Hin Hok. unfold read_request.
  destruct (inherit_reads s _ Hin) as (fd & s1 & E & Hr). rewrite E.
  cbn [Nat.eqb negb err_if mbind outcome_bind head default]. unfold id.
  rewrite request_split in Hr. assert (Hh := request_header_len r Hok).
  assert (Hhn : length (request_header r) = 96%nat) by (unfold len in Hh; lia).
  destruct (read_exact_ok 96 fd (request_header r) (vr_aux r ++ vr_proof r) [] s1 Hr)
    as (s2 & E2 & Hr2); [lia|]. rewrite Hhn in E2.
  change (Z.to_nat VERIFIER_REQUEST_HEADER_LEN) with 96%nat. rewrite E2.
  cbn [ok_or mbind outcome_bind app].
  assert (R1 : @range Z (request_header r) 80 84 = Good (le_bytes 4 (len (vr_aux r)))).
  { destruct Hok as [_ _ _ _ Hd Hk _ _]. apply (range_nth _ 12); [done|offset_of..]. }
  assert (R2 : @range Z (request_header r) 84 88 = Good (le_bytes 4 (len (vr_proof r)))).
  { destruct Hok as [_ _ _ _ Hd Hk _ _]. apply (range_nth _ 13); [done|offset_of..]. }
  rewrite R1, R2. cbn [mbind outcome_bind].
  destruct Hok as [_ _ _ _ Hd Hk Ha Hp]. pose proof (len_nonneg (vr_aux r)).
  pose proof (len_nonneg (vr_proof r)).
  unfold VERIFIER_MAX_AUX_LEN, VERIFIER_MAX_PROOF_LEN, VERIFIER_REQUEST_HEADER_LEN,
    VERIFIER_MAX_REQUEST_LEN in *.
  rewrite !le_value_small by (simpl; lia).
  do 2 (rewrite add_or_spec by (unfold USIZE_MAX; lia); cbn [mbind outcome_bind]).
  rewrite (proj2 (err_if_Good _ _ tt)) by lia. cbn [mbind outcome_bind].
  replace (Z.to_nat (96 + len (vr_aux r) + len (vr_proof r) - 96))
    with (length (vr_aux r ++ vr_proof r)) by (rewrite length_app; unfold len; lia).
  rewrite <- (app_nil_r (vr_aux r ++ vr_proof r)) in Hr2.
  destruct (read_exact_ok (length (vr_aux r ++ vr_proof r)) fd _ [] [] s2 Hr2)
    as (s3 & E3 & Hr3); [done|]. rewrite E3. cbn [ok_or mbind outcome_bind app].
  destruct (read_end s3 fd 1 Hr3) as (x & s4 & E4 & Hx & Hr4). rewrite E4.
  destruct (close_end s4 fd Hr4) as (s5 & E5). rewrite E5. exists s5.
  rewrite request_split. by destruct Hx as [-> | ->].
Qed.

Context {ccc : Ccc} {p256 : P256}.

(** The program's exit code on a well-formed request is that of [verify]. *)
Lemma program_entry_ok s r :
  inherits s (request_layout r) → request_ok r →
  program_entry s = exit_code (verify (request_layout r)).
Proof.
  intros Hin Hok. unfold program_entry.
  by destruct (read_request_ok s r Hin Hok) as (s' & ->).
Qed.

(** ... and that code is 0 exactly for an accepted assertion. *)
Lemma program_entry_valid s r :
  inherits s (request_layout r) → request_ok r →
  program_entry s = Some VALID ↔
  ∃ p, parse_proof (vr_proof r) = Good p ∧ accepted r p.
Proof.
  intros Hin Hok. rewrite (program_entry_ok s r Hin Hok).
  assert (Hv : ∀ m, (∀ c, m = Bad c → c ≠ 0) → exit_code m = Some VALID ↔ m = Good tt).
  { intros [[]|c|] Hc; cbn; try done. split; [|done]. intros [= ->]. by destruct (Hc 0). }
  rewrite Hv, verify_iff.
  - assert (Hp := parse_request_layout r Hok). split.
    + intros (r' & p & Hr' & H). rewrite Hp in Hr'. injection Hr' as <-. eauto.
    + intros (p & H). exists r, p. tauto.
  - apply nonzero_verify.
Qed.
End reading.

(** ** The verifier always exits *)

Section total.
Context {S : Type} {processes : Processes S} {ccc : Ccc} {p256 : P256}.

Lemma read_exact_long n fd l acc s out s' :
  read_exact n fd l acc s = Some (out, s') → (length acc + l <= length out)%nat.
Proof.
  revert l acc s.
  induction n as [|n IH]; intros [|l] acc s; cbn [read_exact]; try done;
    try (intros [= <- <-]; lia).
  destruct (read fd (Datatypes.S l) s) as [[part|e] s1]; [|done].
  destruct (length part =? 0)%nat; [done|]. intros H%IH. rewrite length_app in H. lia.
Qed.

Lemma safe_read_request (s : S) : safe (read_request s).
Proof.
  unfold read_request. destruct (inherited_fds 2 s) as [[fds count] s1].
  apply safe_bind; [apply safe_err_if|]. intros _ _. cbv zeta.
  apply safe_bind; [apply safe_ok_or|]. intros [header s2] Hh%ok_or_Good.
  apply read_exact_long in Hh.
  change (Z.to_nat VERIFIER_REQUEST_HEADER_LEN) with 96%nat in Hh. cbn [length] in Hh.
  do 2 (apply safe_bind; [apply safe_bind; [apply safe_range; unfold len; lia|done]|];
        intros ? _).
  apply safe_bind; [apply safe_bind; [apply safe_add_or|intros; apply safe_add_or]|].
  intros total _. apply safe_bind; [apply safe_err_if|]. intros _ _.
  apply safe_bind; [apply safe_ok_or|]. intros [body s3] _.
  destruct (read _ 1 s3) as [[[|b l]|[]] s4]; try done;
    by destruct (close _ s4) as [[]].
Qed.

Lemma program_entry_total (s : S) : ∃ c, program_entry s = Some c.
Proof.
  unfold program_entry.
  assert (H : safe ('(request, _) ← read_request s; verify request)).
  { apply safe_bind; [apply safe_read_request|]. intros [request s'] _. apply safe_verify. }
  destruct (mbind _ _) as [u|c|]; cbn [exit_code]; [eauto..|done].
Qed.
End total.

(** C6 — The verifier's verdict: given a well-formed request on its pipe, in whatever
    pieces it arrives, the program always exits, and with 0 exactly when the request's
    proof parses and is accepted: the algorithm and profile are the passkey's, the aux
    binds the site of the proof, the key hashes to the request's key, the user was present
    and verified, the client data names the digest and the origin, and the signature is by
    that key over the authenticator data and the client data. *)
Theorem verifier_exact {S} {processes : Processes S} {inherits : S → bytes → Prop}
    {pipes : PipeReads inherits} {ccc : Ccc} {p256 : P256} (s : S) (r : VerifierRequest) :
  inherits s (request_layout r) → request_ok r →
  ∃ c, program_entry s = Some c ∧
    (c = VALID ↔ ∃ p, parse_proof (vr_proof r) = Good p ∧ accepted r p).
Proof.
  intros Hin Hok. destruct (program_entry_total s) as [c Hc]. exists c. split; [done|].
  rewrite <- (program_entry_valid s r Hin Hok), Hc. split; [by intros ->|]. by intros [= ->].
Qed.
