(* ===== verification/PostQuantum.v ===== *)
(** * The post-quantum verifiers ([contracts/verifier-mldsa-adapter], [verifier-slhdsa-adapter])

    Two programs of one shape: the request is read as by the passkey verifier, the proof
    carries the public key, and the signature is over the authorization digest itself. The
    algorithm, the aux and the signature crate differ. *)

From S2P Require Import Prelude Js JsString Ccc Wire Codec Abi Vm Verifier Assertion.

Definition SLH_DSA_SHA2_128S : Z := 1.

(** ** Proofs with their public key ([wire.rs]) *)

Record PublicKeyProof := { kp_public_key : bytes; kp_signature : bytes }.

Definition parse_public_key_proof (data : bytes) : outcome ProtocolError PublicKeyProof :=
  (if len data <? 5 then Bad InvalidProof
   else version ← index data 0; err_if (negb (version =? 1)) InvalidProof);;
  public_key_len ← (b ← range data 1 3; le_u16 b);
  signature_len ← (b ← range data 3 5; le_u16 b);
  err_if ((public_key_len =? 0) || (signature_len =? 0)) InvalidProof;;
  key_end ← add_or LengthOverflow 5 public_key_len;
  total ← add_or LengthOverflow key_end signature_len;
  err_if (negb (total =? len data)) InvalidProof;;
  public_key ← range data 5 key_end;
  signature ← range data key_end total;
  Good {| kp_public_key := public_key; kp_signature := signature |}.

(** ** Verification *)

(** A crate with keys and signatures in fixed encodings. *)
Class SignatureScheme := {
  Key : Type;
  Sig : Type;
  decode_key : bytes → option Key;
  decode_signature : bytes → option Sig;
  verify_message : Key → bytes → Sig → bool }.

(** [let key = ...; let signature = ...; key.verify(..)] *)
Definition verify_with (scheme : SignatureScheme) (message : bytes) (proof : PublicKeyProof)
    : outcome Z unit :=
  key ← ok_or MALFORMED_KEY (decode_key (kp_public_key proof));
  signature ← ok_or MALFORMED_PROOF (decode_signature (kp_signature proof));
  err_if (negb (verify_message key message signature)) INVALID_PROOF.

Section adapters.
Context {ccc : Ccc}.

Definition mldsa_verify (ml_dsa : SignatureScheme) (request : bytes) : outcome Z unit :=
  request ← map_err MALFORMED_REQUEST (VerifierRequest_parse request);
  err_if (negb (vr_algorithm_id request =? ALG_MLDSA65)) UNSUPPORTED_ALGORITHM;;
  err_if (negb (vr_verifier_profile request =? PROFILE_V1)) UNSUPPORTED_PROFILE;;
  err_if (negb (bool_decide (vr_aux request = [byte_of_Z PROFILE_V1]))) AUX_MISMATCH;;
  proof ← map_err MALFORMED_PROOF (parse_public_key_proof (vr_proof request));
  err_if (negb (bool_decide (ckb_digest (kp_public_key proof) = vr_key_id request)))
    KEY_ID_MISMATCH;;
  verify_with ml_dsa (vr_authorization_digest request) proof.

Definition slhdsa_verify (slh_dsa : SignatureScheme) (request : bytes) : outcome Z unit :=
  request ← map_err MALFORMED_REQUEST (VerifierRequest_parse request);
  err_if (negb (vr_algorithm_id request =? ALG_SLHDSA)) UNSUPPORTED_ALGORITHM;;
  err_if (negb (vr_verifier_profile request =? PROFILE_V1)) UNSUPPORTED_PROFILE;;
  err_if (negb (bool_decide (vr_aux request =
    byte_of_Z <$> [PROFILE_V1; SLH_DSA_SHA2_128S]))) AUX_MISMATCH;;
  proof ← map_err MALFORMED_PROOF (parse_public_key_proof (vr_proof request));
  err_if (negb (bool_decide (ckb_digest (kp_public_key proof) = vr_key_id request)))
    KEY_ID_MISMATCH;;
  verify_with slh_dsa (vr_authorization_digest request) proof.

Definition adapter_entry {S} `{Processes S} (verify : bytes → outcome Z unit) (s : S)
    : option Z :=
  exit_code ('(request, _) ← read_request s; verify request).
End adapters.

(** ** Proofs, exactly *)

Definition key_proof_fields (p : PublicKeyProof) : list bytes := [
  [x01]; le_bytes 2 (len (kp_public_key p)); le_bytes 2 (len (kp_signature p));
  kp_public_key p; kp_signature p].
Definition key_proof_layout (p : PublicKeyProof) : bytes := concat (key_proof_fields p).
Definition key_proof_ok (p : PublicKeyProof) : Prop :=
  1 <= len (kp_public_key p) < 2 ^ 16 ∧ 1 <= len (kp_signature p) < 2 ^ 16.

Lemma key_proof_reads p :
  key_proof_ok p → parse_public_key_proof (key_proof_layout p) = Good p.
Proof.
  intros [Hk Hs].
  assert (Hl : len (key_proof_layout p) = 5 + len (kp_public_key p) + len (kp_signature p)).
  { unfold key_proof_layout, key_proof_fields. cbn [concat].
    rewrite !len_app, !len_le_bytes, len_nil. change (len [x01]) with 1. lia. }
  unfold parse_public_key_proof. rewrite Hl.
  rewrite (proj2 (Z.ltb_ge _ 5)) by lia. unfold key_proof_layout in *.
  rewrite (index_nth _ 0 x01 0), (range_nth _ 1 (le_bytes 2 (len (kp_public_key p))) 1 3),
    (range_nth _ 2 (le_bytes 2 (len (kp_signature p))) 3 5) by (done || offset_of).
  change (Z_of_byte x01 =? 1) with true. cbn [negb err_if mbind outcome_bind].
  unfold le_u16. rewrite !len_le_bytes, !le_value_small by (simpl; lia).
  change (Z.of_nat 2 =? 2) with true. cbn [negb mbind outcome_bind].
  rewrite (proj2 (err_if_Good _ _ tt)) by lia. cbn [mbind outcome_bind].
  do 2 (rewrite add_or_spec by (unfold USIZE_MAX; lia); cbn [mbind outcome_bind]).
  rewrite Z.eqb_refl. cbn [negb err_if mbind outcome_bind].
  set (n := 5 + len (kp_public_key p)).
  rewrite (range_nth _ 3 (kp_public_key p) 5 n), (range_nth _ 4 (kp_signature p) n)
    by (done || (unfold n, key_proof_fields; offset_of)).
  by destruct p.
Qed.

Lemma key_proof_inv data p :
  parse_public_key_proof data = Good p → key_proof_ok p ∧ data = key_proof_layout p.
Proof.
  unfold parse_public_key_proof. intros H. apply outcome_bind_Good in H as ([] & Hg & H).
  destruct (len data <? 5) eqn:Hl; [done|]. bool_simpl.
  destruct (split_fields [1; 2; 2]%nat data) as (fs & rest & Hdata & Hw); [cbn; lia|].
  destruct fs as [|vs [|b0 [|b1 [|]]]]; try discriminate Hw.
  injection Hw as H1 H2 H3. destruct vs as [|v [|]]; try discriminate H1.
  rewrite Hdata in H, Hg. cbn [app] in H, Hg, Hdata.
  rewrite (index_nth _ 0 v 0) in Hg by (done || offset_of).
  rewrite (range_nth _ 1 b0 1 3), (range_nth _ 2 b1 3 5) in H by (done || offset_of).
  rewrite <- Hdata in H.
  assert (Hpre : data = ([v] ++ b0 ++ b1) ++ rest ∧ len ([v] ++ b0 ++ b1) = 5).
  { rewrite Hdata. split; [cbn [concat]; by rewrite app_nil_r, <- !app_assoc|offset_of]. }
  clear Hdata. destruct Hpre as [Hpre H5]. inv_good.
  repeat match goal with
    | H : le_u16 _ = Good _ |- _ => apply le_u16_Good in H as [_ ->]
    | H : add_or _ _ _ = Good _ |- _ => apply add_or_Good in H as ->
    end.
  bool_simpl.
  match goal with
  | Hx : range (?pre ++ ?rest) 5 (5 + le_value ?b0) = Good ?x,
    Hy : range _ _ (5 + le_value ?b0 + le_value ?b1) = Good ?y,
    He : 5 + le_value ?b0 + le_value ?b1 = len _, H2 : length ?b0 = _, H3 : length ?b1 = _ |- _ =>
      rewrite He in Hy; rewrite <- H5 in Hx at 1; destruct (range_rest _ _ _ _ _ Hx Hy) as [-> Hlx];
      rewrite !len_app, H5 in *;
      assert (R0 := le_small_range b0 2 ltac:(unfold len; lia));
      assert (R1 := le_small_range b1 2 ltac:(unfold len; lia));
      assert (E0 : b0 = le_bytes 2 (len x)) by
        (etrans; [apply (le_bytes_of b0 2); unfold len; lia|f_equal; lia]);
      assert (E1 : b1 = le_bytes 2 (len y)) by
        (etrans; [apply (le_bytes_of b1 2); unfold len; lia|f_equal; lia]);
      rewrite E0, E1
  end.
  match goal with H : Z_of_byte _ = 1 |- _ => apply (Z_of_byte_inj _ x01) in H as -> end.
  split; [unfold key_proof_ok; cbn [kp_public_key kp_signature]; change (256 ^ 2) with (2 ^ 16) in *; lia|].
  unfold key_proof_layout, key_proof_fields. cbn [kp_public_key kp_signature concat].
  by rewrite app_nil_r, <- !app_assoc.
Qed.

(** A proof is read exactly when it is the layout of a key and a signature. *)
Lemma key_proof_iff data p :
  parse_public_key_proof data = Good p ↔ key_proof_ok p ∧ data = key_proof_layout p.
Proof. split; [apply key_proof_inv|]. intros [H ->]. by apply key_proof_reads. Qed.

(** ** What the programs accept *)

Record key_accepted `{Ccc} (algorithm : Z) (aux : bytes) (scheme : SignatureScheme)
    (r : VerifierRequest) (p : PublicKeyProof) : Prop := {
  ka_algorithm : vr_algorithm_id r = algorithm;
  ka_profile : vr_verifier_profile r = PROFILE_V1;
  ka_aux : vr_aux r = aux;
  ka_proof : key_proof_ok p ∧ vr_proof r = key_proof_layout p;
  ka_key : ckb_digest (kp_public_key p) = vr_key_id r;
  ka_signature : ∃ key signature, decode_key (kp_public_key p) = Some key ∧
    decode_signature (kp_signature p) = Some signature ∧
    verify_message key (vr_authorization_digest r) signature = true }.

Section exact.
Context {ccc : Ccc}.

(** The shape the two programs share. *)
Definition keyed_verify (algorithm : Z) (aux : bytes) (scheme : SignatureScheme)
    (request : bytes) : outcome Z unit :=
  request ← map_err MALFORMED_REQUEST (VerifierRequest_parse request);
  err_if (negb (vr_algorithm_id request =? algorithm)) UNSUPPORTED_ALGORITHM;;
  err_if (negb (vr_verifier_profile request =? PROFILE_V1)) UNSUPPORTED_PROFILE;;
  err_if (negb (bool_decide (vr_aux request = aux))) AUX_MISMATCH;;
  proof ← map_err MALFORMED_PROOF (parse_public_key_proof (vr_proof request));
  err_if (negb (bool_decide (ckb_digest (kp_public_key proof) = vr_key_id request)))
    KEY_ID_MISMATCH;;
  verify_with scheme (vr_authorization_digest request) proof.

Lemma verify_with_iff scheme message p :
  verify_with scheme message p = Good tt ↔
  ∃ key signature, decode_key (kp_public_key p) = Some key ∧
    decode_signature (kp_signature p) = Some signature ∧
    verify_message key message signature = true.
Proof.
  unfold verify_with. split.
  - intros H. apply outcome_bind_Good in H as (key & Hk%ok_or_Good & H).
    apply outcome_bind_Good in H as (sig & Hs%ok_or_Good & H%err_if_Good). bool_simpl. eauto.
  - intros (key & sig & -> & -> & H). cbn [ok_or mbind outcome_bind]. by rewrite H.
Qed.

Lemma keyed_verify_iff algorithm aux scheme request :
  keyed_verify algorithm aux scheme request = Good tt ↔
  ∃ r p, VerifierRequest_parse request = Good r ∧ key_accepted algorithm aux scheme r p.
Proof.
  unfold keyed_verify. split.
  - intros H. apply outcome_bind_Good in H as (r & Hr%map_err_Good & H).
    apply outcome_bind_Good in H as ([] & Ha%err_if_Good & H).
    apply outcome_bind_Good in H as ([] & Hp%err_if_Good & H).
    apply outcome_bind_Good in H as ([] & Hx%err_if_Good & H).
    apply outcome_bind_Good in H as (p & Hproof%map_err_Good & H).
    apply outcome_bind_Good in H as ([] & Hk%err_if_Good & H%verify_with_iff). bool_simpl.
    exists r, p. split; [done|]. apply key_proof_iff in Hproof. by constructor.
  - intros (r & p & Hr & [Ha Hp Hx Hproof Hk Hs]). apply key_proof_iff in Hproof.
    rewrite Hr. cbn [map_err mbind outcome_bind]. rewrite Ha, Hp, Hx, !Z.eqb_refl, Hproof.
    rewrite bool_decide_eq_true_2 by done.
    cbn [negb Z.eqb Pos.eqb err_if map_err mbind outcome_bind].
    rewrite bool_decide_eq_true_2 by done. by apply verify_with_iff.
Qed.

Lemma safe_key_proof data : safe (parse_public_key_proof data).
Proof.
  unfold parse_public_key_proof. apply safe_bind.
  { destruct (len data <? 5) eqn:E; [done|]. bool_simpl. solve_safe. }
  intros [] Hg. assert (5 <= len data).
  { destruct (len data <? 5) eqn:E; [done|]. by bool_simpl. }
  clear Hg. solve_safe.
Qed.
Lemma safe_keyed_verify algorithm aux scheme request :
  safe (keyed_verify algorithm aux scheme request).
Proof.
  unfold keyed_verify, verify_with. apply safe_bind; [apply safe_map_err, safe_request|]. intros r _.
  do 3 (apply safe_bind; [apply safe_err_if|]; intros _ _).
  apply safe_bind; [apply safe_map_err, safe_key_proof|]. intros p _.
  apply safe_bind; [apply safe_err_if|]. intros _ _.
  do 2 (apply safe_bind; [apply safe_ok_or|]; intros ? _). apply safe_err_if.
Qed.
Lemma nonzero_keyed_verify algorithm aux scheme request :
  nonzero (keyed_verify algorithm aux scheme request).
Proof. unfold keyed_verify, verify_with. solve_nonzero. Qed.

Context {S : Type} {processes : Processes S} {inherits : S → bytes → Prop}
  {pipes : PipeReads inherits}.

Lemma adapter_exact algorithm aux scheme s r :
  inherits s (request_layout r) → request_ok r →
  ∃ c, adapter_entry (keyed_verify algorithm aux scheme) s = Some c ∧
    (c = VALID ↔ ∃ p, key_accepted algorithm aux scheme r p).
Proof.
  intros Hin Hok. unfold adapter_entry. destruct (read_request_ok s r Hin Hok) as (s' & ->).
  cbn [mbind outcome_bind].
  assert (Hiff := keyed_verify_iff algorithm aux scheme (request_layout r)).
  assert (Hsafe := safe_keyed_verify algorithm aux scheme (request_layout r)).
  assert (Hn := nonzero_keyed_verify algorithm aux scheme (request_layout r)).
  rewrite (parse_request_layout r Hok) in Hiff.
  destruct (keyed_verify _ _ _ _) as [[]|c|]; cbn [exit_code]; [| |done].
  - exists VALID. split; [done|]. split; [intros _|done].
    destruct (proj1 Hiff eq_refl) as (r' & p & [= <-] & H). eauto.
  - exists c. split; [done|]. split; [by intros ->; destruct (Hn VALID)|].
    intros [p Hp]. assert (H : Bad c = Good tt) by (apply Hiff; eauto). done.
Qed.

(** C14 — The post-quantum verifiers' verdicts: given a well-formed request, each program
    exits, and with 0 exactly when the request is for its algorithm, profile and
    parameters, its proof is a key and a signature and nothing else, the key hashes to the
    request's key, and the signature crate accepts the signature over the authorization
    digest by that key. *)
Theorem post_quantum_exact (ml_dsa slh_dsa : SignatureScheme) (s : S) (r : VerifierRequest) :
  inherits s (request_layout r) → request_ok r →
  (∃ c, adapter_entry (mldsa_verify ml_dsa) s = Some c ∧
    (c = VALID ↔ ∃ p, key_accepted ALG_MLDSA65 [x01] ml_dsa r p)) ∧
  (∃ c, adapter_entry (slhdsa_verify slh_dsa) s = Some c ∧
    (c = VALID ↔ ∃ p, key_accepted ALG_SLHDSA [x01; x01] slh_dsa r p)).
Proof.
  intros Hin Hok. split.
  - by apply (adapter_exact ALG_MLDSA65 [x01] ml_dsa).
  - by apply (adapter_exact ALG_SLHDSA [x01; x01] slh_dsa).
Qed.
End exact.
