(* ===== verification/Acceptance.v ===== *)
(** * The chain accepts what the client builds

    The client, the lock and the verifier together: the transaction the client finalizes
    is shown to the lock by the machine, the lock runs the verifier, and the account's
    assets are released exactly when the assertion is genuine. *)

From S2P Require Import Prelude Js JsString Bytes Zod Constants Schemas Base64 Effects Json Ccc CccRef Wire Protocol Codec Digest Manifests State Chain Spending Sha256.
From S2P Require Import Abi Vm Lock Molecule Unlock Approval OneKey Verifier Assertion.

(** ** The transaction as the machine shows it *)

(** The cells of the chain. *)
Definition chain := OutPoint → option Cell.

Section views.
Context {ccc : Ccc}.

(** The hash of no data is zero. *)
Definition data_hash (data : bytes) : bytes :=
  match data with [] => zeros 32 | _ => ckb_digest data end.
Definition code_hash_of (c : Cell) : bytes := data_hash (hex_text_bytes (cell_outputData c)).
Definition output_view (output : CellOutput) (data : string) : CellView := {|
  cv_type := script_bytes <$> co_type output;
  cv_type_hash := (λ s, hex_text_bytes (Script_hash s)) <$> co_type output;
  cv_data_hash := data_hash (hex_text_bytes data);
  cv_data := hex_text_bytes data |}.
Definition cell_view (c : Cell) : CellView :=
  output_view (cell_cellOutput c) (cell_outputData c).

(** The inputs whose cells have the lock. *)
Definition in_group (cells : chain) (lock : Script) (inputs : list CellInput) (i : nat) : bool :=
  match inputs !! i ≫= (λ input, cells (in_previousOutput input)) with
  | Some c => bool_decide (co_lock (cell_cellOutput c) = lock)
  | None => false
  end.

Record shows (cells : chain) (lock : Script) (tx : Transaction) (t : TxView) : Prop := {
  vi_script : tv_script t = script_bytes lock;
  vi_hash : Transaction_hash tx = hexFromBytes (tv_hash t);
  vi_inputs : Forall2 (λ input v, ∃ c, cells (in_previousOutput input) = Some c ∧
    v = {| iv_cell := cell_view c; iv_since := in_since input |}) (tx_inputs tx) (tv_inputs t);
  vi_outputs : tv_outputs t = zip_with output_view (tx_outputs tx) (tx_outputsData tx);
  vi_deps : Forall2 (λ dep v, ∃ c, cells (cd_outPoint dep) = Some c ∧ v = cell_view c)
    (tx_cellDeps tx) (tv_deps t);
  vi_witnesses : tx_witnesses tx = hexFromBytes <$> tv_witnesses t;
  vi_group : tv_group t = List.filter (in_group cells lock (tx_inputs tx))
    (seq 0 (length (tx_inputs tx))) }.

(** The code cells of a deployment: the verifier's cell holds the code its hash names, and
    neither the other dependencies of a spend nor the code cells' type scripts can be
    taken for something else. *)
Record deployed (cells : chain) (account : VerifiedAccount) (lock_cell verifier_cell : Cell)
    : Prop := {
  dp_lock : cells (cd_outPoint (accountLockDep (va_deployment account))) = Some lock_cell;
  dp_verifier :
    cells (cd_outPoint (verifierP256Dep (va_deployment account))) = Some verifier_cell;
  dp_code : codeHash (verifierP256Code (va_deployment account)) =
    hexFromBytes (code_hash_of verifier_cell);
  dp_other c : c = lock_cell ∨ cells (cd_outPoint (stateDep account)) = Some c →
    code_hash_of c ≠ code_hash_of verifier_cell;
  dp_types c s : c = lock_cell ∨ c = verifier_cell → co_type (cell_cellOutput c) = Some s →
    Script_hash s ≠ am_account_id (va_manifest account) }.
End views.

(** What makes an assertion over a digest genuine: the site, a user who was present and
    verified, client data for this digest and site, and the signature. *)
Record genuine `{P256} (digest publicKey : bytes) (a : AssertionMaterial) : Prop := {
  ge_site : take 32 (as_authenticatorData a) = hex_bytes ("0x" +:+ EXPECTED_RP_ID_HASH);
  ge_flags : ∃ flags, at_ (as_authenticatorData a) 32 = Some flags ∧ Z.land flags 5 = 5;
  ge_client : validate_client_data (as_clientDataJson a)
    (utf8_encode (base64urlEncode digest)) (utf8_encode CLIENT_ORIGIN) = Good tt;
  ge_signature : ∃ key signature,
    from_sec1_bytes publicKey = Some key ∧ to_sec1_point key = publicKey ∧
    from_der (as_signature a) = Some signature ∧ to_der signature = as_signature a ∧
    verify_prehash key
      (sha256_digest (as_authenticatorData a ++ sha256_digest (as_clientDataJson a)))
      signature = true }.

(** ** From the client's account to the lock's view *)

Section account.
Context {zod : Zod} {zod_laws : ZodLaws} {ccc : Ccc} {ccc_laws : CccLaws}.

Record account_facts (account : VerifiedAccount) (id : bytes) : Prop := {
  af_id : am_account_id (va_manifest account) = hexFromBytes id;
  af_len : length id = 32%nat;
  af_lock : ∃ code, length code = 32%nat ∧
    script_bytes (accountLock account) = table [code; [x04]; bytes_item (x01 :: id)];
  af_type : Script_hash (stateType account) = hexFromBytes id;
  af_dep : cd_outPoint (stateDep account) =
    manifest_outpoint (am_state_out_point (va_manifest account)) }.

Lemma validated_account v d account :
  validateAccount v d = Ok account → ∃ id, account_facts account id.
Proof.
  intros (m & _ & Hwf & Hb & ->)%validateAccount_inv.
  destruct (proj1 (hash32_iff _) (mwf_id _ Hwf)) as (id & Hl & Hid). exists id.
  destruct (proj1 (hash32_iff _) (mwf_code_hash _ Hwf)) as (code & Hcl & Hcode).
  constructor; cbn [account_result va_manifest va_deployment accountLock stateType stateDep
    cd_outPoint code_dep]; try done.
  - exists code. split; [done|]. unfold script_bytes. cbn [codeHash hashType args].
    rewrite Hcode, (ab_args _ _ Hb), Hid, hex_text_bytes_of.
    assert (E : "0x01" +:+ str_drop 2 (hexFromBytes id) = hexFromBytes (x01 :: id)).
    { by rewrite !hexFromBytes_digits. }
    rewrite E, hex_text_bytes_of. done.
  - by rewrite (ab_type_id _ _ Hb).
  - unfold manifest_outpoint. by rewrite (ab_state_index _ _ Hb).
Qed.

Lemma lock_script_len id code :
  length code = 32%nat → length id = 32%nat →
  len (table [code; [x04]; bytes_item (x01 :: id)]) = 86.
Proof.
  intros Hc Hi. rewrite len_table. cbn [concat]. unfold bytes_item, u32b.
  rewrite !len_app, len_le_bytes, !len_cons. unfold len. by rewrite Hc, Hi.
Qed.

(** Dependency 2 is the account's state, and dependency 1 the verifier. *)
Context (account : VerifiedAccount) (id : bytes) (facts : account_facts account id)
  (cells : chain) (lock_cell verifier_cell state : Cell)
  (code : deployed cells account lock_cell verifier_cell)
  (state_live : cells (cd_outPoint (stateDep account)) = Some state)
  (state_type : co_type (cell_cellOutput state) = Some (stateType account)).

Lemma state_matches c :
  typed id (cell_view c) = match co_type (cell_cellOutput c) with
    | Some s => bool_decide (Script_hash s = am_account_id (va_manifest account))
    | None => false end.
Proof.
  unfold typed, cell_view, output_view. cbn [cv_type_hash]. destruct (co_type (cell_cellOutput c)) as [s|]; [|done].
  cbn [fmap option_fmap option_map]. destruct (Script_hash_spec s) as (h & _ & Hh).
  apply bool_decide_ext. rewrite Hh, (af_id _ _ facts), hex_text_bytes_of.
  split; [by intros [= ->]|]. by intros ->%hexFromBytes_inj.
Qed.

Lemma state_found :
  picked (typed id) [cell_view lock_cell; cell_view verifier_cell; cell_view state] = [2%nat].
Proof.
  unfold picked. cbn [length seq List.filter lookup list_lookup from_option].
  assert (Hno : ∀ c, c = lock_cell ∨ c = verifier_cell → typed id (cell_view c) = false).
  { intros c Hc. rewrite state_matches. destruct (co_type (cell_cellOutput c)) as [s|] eqn:E; [|done].
    by apply bool_decide_eq_false, (dp_types _ _ _ _ code c s). }
  rewrite !Hno by tauto.
  rewrite state_matches, state_type, (af_type _ _ facts), (af_id _ _ facts).
  by rewrite bool_decide_eq_true_2.
Qed.

Lemma verifier_found verifier key :
  codeHash (verifierP256Code (va_deployment account)) = hexFromBytes verifier →
  picked (named (one_key_entry verifier key))
    [cell_view lock_cell; cell_view verifier_cell; cell_view state] = [1%nat].
Proof.
  intros Hv. rewrite (dp_code _ _ _ _ code) in Hv. apply hexFromBytes_inj in Hv as <-.
  unfold picked. cbn [length seq List.filter lookup list_lookup from_option].
  unfold named. cbn [one_key_entry ae_verifier_hash_type ae_verifier_code_hash].
  change (0 =? 0) with true. cbn [field_of cell_view output_view cv_data_hash]. fold (code_hash_of lock_cell) (code_hash_of verifier_cell) (code_hash_of state).
  rewrite (bool_decide_eq_false_2 (Some (code_hash_of lock_cell) = _)).
  2: { intros [= E]. by apply (dp_other _ _ _ _ code lock_cell (or_introl eq_refl)). }
  rewrite bool_decide_eq_true_2 by done. rewrite bool_decide_eq_false_2; [done|].
  intros [= E]. by apply (dp_other _ _ _ _ code state (or_intror state_live)).
Qed.
End account.

(** ** From the client's message to the lock's *)

Section messages.
Context {W : Type} {zod : Zod} {zod_laws : ZodLaws} {ccc : Ccc} {ccc_laws : CccLaws}
  {json : Json} {client : SpendClient W}
  (molecule : ∀ w, wa_ok w → WitnessArgs_toBytes w = wa_encode w).

Lemma container_table s i :
  p256_input_ok i → spend_container s i = table [bytes_item (spend_lock s i); []; []].
Proof.
  intros Hi. unfold spend_container.
  rewrite molecule by by apply packed_witness_ok, spend_lock_small.
  unfold wa_encode, packed_witness. cbn [wa_lock wa_inputType wa_outputType opt_item].
  by rewrite hex_text_bytes_of.
Qed.

Lemma canonical_table s i c :
  p256_input_ok i → canonicalWitness (spend_container s i) = Ok c →
  c = table [bytes_item []; []; []].
Proof.
  intros Hi. rewrite canonical_container by done.
  assert (Hok : wa_ok (canonical_of (packed_witness []))).
  { split; [|done]. intros x [= <-]. apply is_hex_text_0x. }
  rewrite WitnessArgs_from_ok by done. cbn [mbind res_bind]. intros [= <-].
  by rewrite molecule.
Qed.

(** The digest the client computes is the lock's. *)
Lemma message_is_digest id state sequence tx i digest t :
  p256_input_ok i → bytesFromHex state = Ok (hex_text_bytes state) →
  length id = 32%nat → Transaction_hash tx = hexFromBytes (tv_hash t) →
  head (tx_witnesses tx) = Some (hexFromBytes (spend_container sequence i)) →
  spend_message (hexFromBytes id) state sequence tx = Ok digest →
  digest = spend_digest t id (hex_text_bytes state) sequence.
Proof.
  intros Hi Hst Hid Hh Hw. unfold spend_message. rewrite Hh, bytesFrom_hex.
  cbn [mbind res_bind]. destruct (tx_witnesses tx) as [|w ws]; [done|]. injection Hw as ->.
  cbn [lookup list_lookup from_option_or mbind res_bind]. rewrite bytesFrom_hex.
  cbn [mbind res_bind]. intros H. apply bind_Ok_iff in H as (sighash & Hs & H).
  apply groupSighash_inv in Hs as (first & rest & c & [= <- <-] & _ & Hc & _ & ->).
  apply canonical_table in Hc as ->; [|done].
  rewrite bytesFromHex_of_bytes, Hst in H by by destruct id.
  cbn [mbind res_bind] in H. apply authorizationDigest_iff in H as [_ ->].
  reflexivity.
Qed.
End messages.

(** ** The verifier's verdict *)

Section verdict.
Context {ccc : Ccc} {ccc_laws : CccLaws} {p256 : P256}
  (sha : ∀ b, sha256_digest b = sha256_ref b).

Lemma origin_hash :
  sha256_digest (utf8_encode CLIENT_ORIGIN) = hex_bytes ("0x" +:+ EXPECTED_ORIGIN_HASH).
Proof. rewrite sha. vm_compute. reflexivity. Qed.

Lemma site_of (rp : bytes) :
  EXPECTED_AUX = x01 :: rp ++ sha256_digest (utf8_encode CLIENT_ORIGIN) ↔
  rp = hex_bytes ("0x" +:+ EXPECTED_RP_ID_HASH).
Proof.
  rewrite origin_hash. unfold EXPECTED_AUX. split; [|by intros ->].
  intros H%(f_equal tail). cbn [tail] in H. by apply app_inv_tail in H.
Qed.

Lemma accepted_genuine t id verifier sequence publicKey a :
  p256_input_ok (proof_input_of publicKey a) →
  let digest := spend_digest t id (state_layout verifier sequence (ckb_digest publicKey))
                  sequence in
  accepted (spend_request t id verifier (ckb_digest publicKey) sequence
              (p256_layout (proof_input_of publicKey a)))
    (passkey_proof (proof_input_of publicKey a)) ↔ genuine digest publicKey a.
Proof.
  intros (Hk & H4 & _ & Ha & _) digest.
  assert (Hd : len digest = 32) by apply len_digest.
  split.
  - intros [_ _ Hsite _ _ Hf Hc (_ & Hs)].
    cbn [spend_request request_of vr_aux vr_authorization_digest one_key_entry ae_aux
      passkey_proof proof_input_of pp_public_key pp_origin pp_authenticator_data
      pp_client_data_json pp_signature pi_publicKey pi_origin pi_authenticatorData
      pi_clientDataJson pi_signature] in *.
    fold digest in Hc. rewrite challenge_text in Hc by done.
    constructor; [by apply site_of|done..].
  - intros [Hsite Hf Hc Hs].
    constructor; cbn [spend_request request_of vr_algorithm_id vr_verifier_profile vr_key_id
      vr_aux vr_authorization_digest one_key_entry ae_aux ae_algorithm_id ae_key_id
      passkey_proof proof_input_of pp_public_key pp_origin pp_authenticator_data
      pp_client_data_json pp_signature pi_publicKey pi_origin pi_authenticatorData
      pi_clientDataJson pi_signature] in *; try done.
    + by apply site_of.
    + fold digest. by rewrite challenge_text.
Qed.
End verdict.

(** ** What the client built *)

Section built.
Context {W : Type} {zod : Zod} {zod_laws : ZodLaws} {ccc : Ccc} {ccc_laws : CccLaws}
  {json : Json} {client : SpendClient W}.

Record built (account : VerifiedAccount) (p : PreparedSpend) (a : AssertionMaterial)
    (tx : Transaction) (publicKey : bytes) (state asset : Cell) : Prop := {
  bu_key : bytesFromHex (ps_publicKey p) = Ok publicKey;
  bu_input : p256_input_ok (proof_input_of publicKey a);
  bu_assertion : assertion_ok p a;
  bu_sequence : 0 <= sequence p < 2 ^ 64;
  bu_inputs : tx_inputs tx = [{| in_previousOutput := cell_outPoint asset; in_since := 0 |}];
  bu_deps : tx_cellDeps tx = [accountLockDep (va_deployment account);
    verifierP256Dep (va_deployment account); stateDep account];
  bu_witnesses : tx_witnesses tx =
    [hexFromBytes (spend_container (sequence p) (proof_input_of publicKey a))];
  bu_state : parseAccountState (cell_outputData state) account =
    Ok {| ps_sequence := sequence p; ps_keyId := ckb_digest publicKey |};
  bu_message : spend_message (am_account_id (va_manifest account)) (cell_outputData state)
    (sequence p) tx = Ok (ps_authorizationDigest p);
  bu_cells : ∃ (w w' : world W chain_event) parsed,
    discovered account w w' state asset parsed }.

Lemma finalized_built account funder pv pv' (w w' : world W chain_event) p a tx :
  prepareSpend account funder pv w = (Ok p, w') → finalizeSpend p pv' a = Ok tx →
  ∃ publicKey state asset, built account p a tx publicKey state asset.
Proof.
  intros Hprep Hfin.
  destruct (finalized_message _ _ _ _ _ _ _ _ _ Hprep Hfin) as (_ & _ & Hmsg).
  apply prepareSpend_inv in Hprep
    as (passkey & publicKey & state & asset & parsed & _ & _ & Hpk & _ & Hdisc & Hp).
  apply finalizeSpend_inv in Hfin
    as (passkey' & publicKey' & _ & _ & _ & _ & Hpk' & Hok & Hi & Hseq & _ & ->).
  destruct (pr_ids _ _ _ _ _ _ _ Hp) as (_ & E & Eid & Est).
  assert (publicKey' = publicKey) as -> by (rewrite E in Hpk'; congruence).
  destruct (pr_funder _ _ _ _ _ _ _ Hp) as (lock & _ & Htx & _).
  exists publicKey, state, asset. rewrite Eid, Est in Hmsg.
  constructor; try done; try (by rewrite Htx).
  - apply (pr_parsed _ _ _ _ _ _ _ Hp).
  - eauto.
Qed.
(** A proof within the bounds of an assertion is small. *)
Lemma spend_size p a publicKey :
  assertion_ok p a → len publicKey = 65 →
  72 <= proof_size (proof_input_of publicKey a) <= 3237.
Proof.
  intros [Ha Hc Hs _ _] Hk. unfold proof_size.
  cbn [proof_input_of pi_origin pi_authenticatorData pi_clientDataJson pi_signature].
  change (len (utf8_encode CLIENT_ORIGIN)) with 21. lia.
Qed.
End built.

(** ** Acceptance *)

Section acceptance.
Context {W : Type} {zod : Zod} {zod_laws : ZodLaws} {ccc : Ccc} {ccc_laws : CccLaws}
  {json : Json} {client : SpendClient W}
  (molecule : ∀ w, wa_ok w → WitnessArgs_toBytes w = wa_encode w)
  (cells : chain)
  (honest : ∀ o c e e', getCellLive o true true e = (Ok (Some c), e') → cells o = Some c).

Section view.
Context (account : VerifiedAccount) (id : bytes) (facts : account_facts account id)
  (p : PreparedSpend) (a : AssertionMaterial) (tx : Transaction) (publicKey : bytes)
  (state asset lock_cell verifier_cell : Cell)
  (bu : built account p a tx publicKey state asset)
  (code : deployed cells account lock_cell verifier_cell)
  (t : TxView) (shown : shows cells (accountLock account) tx t).

Lemma state_live : cells (cd_outPoint (stateDep account)) = Some state.
Proof.
  destruct (bu_cells _ _ _ _ _ _ _ bu) as (w & w' & parsed & Hd).
  destruct (d_live_state _ _ _ _ _ _ Hd) as (e1 & e2 & He). apply honest in He.
  by rewrite (af_dep _ _ facts).
Qed.
Lemma asset_live : cells (cell_outPoint asset) = Some asset.
Proof.
  destruct (bu_cells _ _ _ _ _ _ _ bu) as (w & w' & parsed & Hd).
  destruct (d_live_asset _ _ _ _ _ _ Hd) as (e1 & e2 & He). apply honest in He.
  destruct (d_asset _ _ _ _ _ _ Hd) as [E _ _ _]. by rewrite E.
Qed.
Lemma asset_plain : Spending.plain account asset.
Proof.
  destruct (bu_cells _ _ _ _ _ _ _ bu) as (w & w' & parsed & Hd).
  by destruct (d_asset _ _ _ _ _ _ Hd) as [_ Hl Ht Hdata].
Qed.
Lemma state_typed : co_type (cell_cellOutput state) = Some (stateType account).
Proof.
  destruct (bu_cells _ _ _ _ _ _ _ bu) as (w & w' & parsed & Hd).
  by destruct (d_state _ _ _ _ _ _ Hd) as [_ _ Ht _].
Qed.

Lemma view_deps : tv_deps t = [cell_view lock_cell; cell_view verifier_cell; cell_view state].
Proof.
  pose proof (vi_deps _ _ _ _ shown) as H. rewrite (bu_deps _ _ _ _ _ _ _ bu) in H.
  apply Forall2_cons_inv_l in H as (v1 & l1 & (c1 & H1 & ->) & H & ->).
  apply Forall2_cons_inv_l in H as (v2 & l2 & (c2 & H2 & ->) & H & ->).
  apply Forall2_cons_inv_l in H as (v3 & l3 & (c3 & H3 & ->) & H & ->).
  apply Forall2_nil_inv_l in H as ->.
  rewrite (dp_lock _ _ _ _ code) in H1. rewrite (dp_verifier _ _ _ _ code) in H2.
  rewrite state_live in H3. congruence.
Qed.
Lemma view_inputs : tv_inputs t = [{| iv_cell := cell_view asset; iv_since := 0 |}].
Proof.
  pose proof (vi_inputs _ _ _ _ shown) as H. rewrite (bu_inputs _ _ _ _ _ _ _ bu) in H.
  apply Forall2_cons_inv_l in H as (v1 & l1 & (c1 & H1 & ->) & H & ->).
  apply Forall2_nil_inv_l in H as ->. cbn [in_previousOutput in_since] in *.
  rewrite asset_live in H1. congruence.
Qed.
Lemma view_group : tv_group t = [0%nat].
Proof.
  rewrite (vi_group _ _ _ _ shown), (bu_inputs _ _ _ _ _ _ _ bu).
  cbn [length seq List.filter in_group lookup list_lookup mbind option_bind in_previousOutput].
  unfold in_group. cbn [lookup list_lookup mbind option_bind in_previousOutput].
  rewrite asset_live. destruct asset_plain as (-> & _). by rewrite bool_decide_eq_true_2.
Qed.
Lemma view_witnesses :
  tv_witnesses t = [table [bytes_item (spend_lock (sequence p) (proof_input_of publicKey a));
                           []; []]].
Proof.
  pose proof (vi_witnesses _ _ _ _ shown) as H. rewrite (bu_witnesses _ _ _ _ _ _ _ bu) in H.
  destruct (tv_witnesses t) as [|x [|? ?]]; try done.
  injection H as <-%hexFromBytes_inj. rewrite (container_table molecule); [done|].
  apply (bu_input _ _ _ _ _ _ _ bu).
Qed.

(** The lock's view of a finalized spend. *)
Lemma built_one_key :
  ∃ verifier,
    ps_authorizationDigest p =
      spend_digest t id (state_layout verifier (sequence p) (ckb_digest publicKey)) (sequence p) ∧
    picked (named (one_key_entry verifier (ckb_digest publicKey))) (tv_deps t) = [1%nat] ∧
    one_key_spend t id verifier (ckb_digest publicKey) (sequence p)
      (spend_lock (sequence p) (proof_input_of publicKey a))
      (p256_layout (proof_input_of publicKey a)).
Proof.
  assert (Hbu := bu). destruct Hbu as [Hk Hi Ha Hs Hin Hdeps Hw Hst Hmsg Hcells].
  destruct (parseAccountState_inv _ _ _ Hst) as (verifier & [Hvl Hv _ _ Hkl] & Hstate).
  cbn [ps_sequence ps_keyId] in *. set (key := ckb_digest publicKey) in *.
  assert (Hdata : hex_text_bytes (cell_outputData state) = state_layout verifier (sequence p) key)
    by (by rewrite Hstate, hex_text_bytes_of).
  assert (Hsize := spend_size p a publicKey Ha (proj1 Hi)).
  destruct (spend_lock_reads (sequence p) (proof_input_of publicKey a)) as [Hh Hps];
    [done|done|lia|].
  exists verifier. split; [|split].
  - rewrite <- Hdata. rewrite (af_id _ _ facts) in Hmsg.
    eapply (message_is_digest molecule); [exact Hi| |apply facts|apply (vi_hash _ _ _ _ shown)| |exact Hmsg].
    + rewrite Hdata, Hstate. apply bytesFromHex_of_bytes. done.
    + by rewrite Hw.
  - rewrite view_deps. eapply verifier_found; [exact code|apply state_live|exact Hv].
  - destruct (af_lock _ _ facts) as (lc & Hlc & Hscript).
    constructor; try done.
    + unfold len. by rewrite (af_len _ _ facts).
    + exists lc, [x04]. rewrite (vi_script _ _ _ _ shown), Hscript. split; [done|].
      rewrite (lock_script_len id); [done|done|apply facts].
    + apply view_group.
    + by rewrite view_inputs.
    + apply view_witnesses.
    + rewrite spend_lock_len by apply Hi. unfold ACCOUNT_WITNESS_MAX_LOCK_LEN. lia.
    + rewrite p256_layout_len by apply Hi. unfold VERIFIER_MAX_PROOF_LEN. lia.
    + unfold matching. cbn [cells_of]. rewrite view_inputs. cbn [fmap list_fmap iv_cell].
      unfold picked. cbn [length seq List.filter lookup list_lookup from_option].
      rewrite (state_matches account id facts). destruct asset_plain as (_ & -> & _). done.
    + exists 2%nat, (cell_view state). unfold matching. cbn [cells_of]. rewrite view_deps.
      rewrite (state_found account id facts cells) by (done || apply state_typed). done.
Qed.

(** What the lock reads of a finalized spend before it starts a verifier. *)
Lemma built_message {loads : Loads} (laws : LoadLaws t) (fuel : nat) :
  enough fuel t →
  ∃ state sighash summary,
    (script ← load_current_script; args ← script_args script; AccountLockArgs_parse args) =
      Good {| la_version := 1; la_account_id := id |} ∧
    (witness ← load_a_witness 0 SGroupInput; lock ← witness_lock witness;
     parse_witness_header lock) = Good (witness_facts OP_SPEND (sequence p) 1) ∧
    resolve_state fuel OP_SPEND id =
      Good {| rs_current := state; rs_successor := None; rs_state_input := None |} ∧
    validate_state state = Good (one_key_header (sequence p), summary) ∧
    canonical_group_sighash fuel = Good sighash ∧
    authorization_digest OP_SPEND id (sequence p) state sighash = ps_authorizationDigest p.
Proof.
  intros Hfuel. destruct built_one_key as (verifier & Hdigest & _ & Hone).
  eexists _, _, _. split; [by eapply lock_arguments|]. split; [|split; [|split; [|split]]].
  - rewrite (first_witness t id _ _ _ _ _ Hone). cbn [mbind outcome_bind].
    rewrite (lock_of_witness t id _ _ _ _ _ Hone). apply (ok_header _ _ _ _ _ _ _ Hone).
  - by eapply spend_resolved.
  - apply validate_state_layout; apply Hone.
  - by eapply spend_sighash.
  - by rewrite Hdigest.
Qed.
End view.

(** C3 — The signed message is the verified message: a transaction finalized from a
    prepared spend differs from the prepared one in its witnesses only; and when the
    machine shows it to the account lock, the lock reads its own account, the operation
    and the sequence from script and witness, finds the account's state, and the digest
    it computes of these and of the transaction, with the real witness in place of the
    reservation, is exactly the digest that was given to the passkey as its challenge. *)
Theorem finalized_spend_verifies_signed_message (v : jsval) (d : VerifiedDeployment)
    (account : VerifiedAccount) (funder : string) (pv pv' : jsval)
    (w w' : world W chain_event) (p : PreparedSpend) (a : AssertionMaterial)
    (tx : Transaction) (lock_cell verifier_cell : Cell) (t : TxView) {loads : Loads}
    (laws : LoadLaws t) (fuel : nat) :
  validateAccount v d = Ok account →
  prepareSpend account funder pv w = (Ok p, w') → finalizeSpend p pv' a = Ok tx →
  deployed cells account lock_cell verifier_cell →
  shows cells (accountLock account) tx t → enough fuel t →
  strip_witnesses tx = strip_witnesses (transaction p) ∧
  Transaction_hash tx = Transaction_hash (transaction p) ∧
  ∃ id state sighash summary,
    am_account_id (va_manifest account) = hexFromBytes id ∧
    (script ← load_current_script; args ← script_args script; AccountLockArgs_parse args) =
      Good {| la_version := 1; la_account_id := id |} ∧
    (witness ← load_a_witness 0 SGroupInput; lock ← witness_lock witness;
     parse_witness_header lock) = Good (witness_facts OP_SPEND (sequence p) 1) ∧
    resolve_state fuel OP_SPEND id =
      Good {| rs_current := state; rs_successor := None; rs_state_input := None |} ∧
    validate_state state = Good (one_key_header (sequence p), summary) ∧
    canonical_group_sighash fuel = Good sighash ∧
    authorization_digest OP_SPEND id (sequence p) state sighash = ps_authorizationDigest p.
Proof.
  intros Hacc Hprep Hfin Hdep Hshow Hfuel.
  destruct (validated_account _ _ _ Hacc) as (id & Hfacts).
  destruct (finalized_built _ _ _ _ _ _ _ _ _ Hprep Hfin) as (publicKey & state & asset & bu).
  destruct (finalized_message _ _ _ _ _ _ _ _ _ Hprep Hfin) as (Hstrip & Hhash & _).
  split; [done|]. split; [done|]. exists id.
  destruct (built_message account id Hfacts p a tx publicKey state asset lock_cell
    verifier_cell bu Hdep t Hshow laws fuel Hfuel) as (st & sighash & summary & H).
  exists st, sighash, summary. split; [apply (af_id _ _ Hfacts)|exact H].
Qed.

Context {p256 : P256}
  {S : Type} {loads : Loads} {processes : Processes S}
  {exits : nat → bytes → Z → Prop} {sound : ProcessSound exits}
  {serves : nat → Prop} {live : ProcessLive sound serves}
  {C : Type} {child : Processes C} {inherits : C → bytes → Prop} {pipes : PipeReads inherits}
  (sha : ∀ b, sha256_digest b = sha256_ref b)
  (runs : ∀ b c, exits 1%nat b c → ∃ s, inherits s b ∧ Verifier.program_entry s = Some c).

(** C1 — A spend unlocks the account exactly when its assertion is genuine: for a
    transaction that the client prepared and finalized, shown to the account lock by
    the machine, the lock exits with 0 if the assertion was made on the site by a
    verified user over client data that names the prepared digest and signed by the
    account's key; otherwise it exits with the code of an unmet threshold. Nothing
    else can go wrong on the way: the lock's own checks pass for every such
    transaction. *)
Theorem finalized_spend_unlocks (v : jsval) (d : VerifiedDeployment)
    (account : VerifiedAccount) (funder : string) (pv pv' : jsval)
    (w w' : world W chain_event) (p : PreparedSpend) (a : AssertionMaterial)
    (tx : Transaction) (lock_cell verifier_cell : Cell) (t : TxView) (laws : LoadLaws t)
    (fuel : nat) (s : S) :
  validateAccount v d = Ok account →
  prepareSpend account funder pv w = (Ok p, w') → finalizeSpend p pv' a = Ok tx →
  deployed cells account lock_cell verifier_cell →
  shows cells (accountLock account) tx t → enough fuel t → idle s → serves 1%nat →
  ∃ publicKey, bytesFromHex (ps_publicKey p) = Ok publicKey ∧
    (genuine (ps_authorizationDigest p) publicKey a → Lock.program_entry fuel s = Some 0) ∧
    (¬ genuine (ps_authorizationDigest p) publicKey a →
     Lock.program_entry fuel s = Some (code ThresholdUnsatisfied)).
Proof.
  intros Hacc Hprep Hfin Hdep Hshow Hfuel Hidle Hserves.
  destruct (validated_account _ _ _ Hacc) as (id & Hfacts).
  destruct (finalized_built _ _ _ _ _ _ _ _ _ Hprep Hfin) as (publicKey & state & asset & bu).
  destruct (built_one_key account id Hfacts p a tx publicKey state asset lock_cell
    verifier_cell bu Hdep t Hshow) as (verifier & Hdigest & Hpick & Hone).
  exists publicKey. split; [apply (bu_key _ _ _ _ _ _ _ bu)|].
  destruct (one_key_run fuel t Hfuel id verifier _ _ _ _ Hone 1%nat s Hpick Hserves Hidle)
    as (c & He & ->).
  apply runs in He as (s' & Hin & Hc).
  pose proof (spend_request_ok t id verifier _ _ _ _ Hone) as Hreq.
  pose proof (program_entry_valid s' _ Hin Hreq) as Hv. rewrite Hc in Hv.
  assert (Hi := bu_input _ _ _ _ _ _ _ bu).
  assert (Hg : c = 0 ↔ genuine (ps_authorizationDigest p) publicKey a).
  { rewrite Hdigest, <- (accepted_genuine sha t id verifier (sequence p) publicKey a Hi).
    assert (Hproof := parse_proof_layout _ Hi). split.
    - intros ->. destruct (proj1 Hv eq_refl) as (q & Hq & Hacc').
      cbn [spend_request request_of vr_proof] in Hq. congruence.
    - intros Hacc'. assert (Hs : Some c = Some VALID) by (apply Hv; eauto).
      by injection Hs. }
  destruct (Z.eqb_spec c 0) as [E|E]; tauto.
Qed.
End acceptance.
