(* ===== verification/Passkey.v ===== *)
(** * Passkeys ([demo/src/client/passkey.ts])

    Registration of a credential and assertions over a challenge. The browser's
    credential container, its cryptography and its clock are an interface; every value
    they return is checked before it is used. *)

From S2P Require Import Prelude Js JsString Regex Bytes Zod Constants Schemas Base64 Effects.
From S2P Require Import Ccc CccRef Protocol Digest Manifests Chain.

Definition ES256 : Z := -7.
Definition CHALLENGE_BYTES : Z := 32.
Definition USER_HANDLE_BYTES : Z := 32.
Definition PUBLIC_KEY_BYTES : Z := 65.

Definition PasskeyCancelledError : exn := Exn CPasskeyCancelled "Passkey operation was cancelled".
Definition is_PasskeyProtocolError (e : exn) : bool :=
  match exn_class e with CPasskeyProtocol => true | _ => false end.
Definition is_PasskeyCancelledError (e : exn) : bool :=
  match exn_class e with CPasskeyCancelled => true | _ => false end.
(** [error instanceof DOMException && error.name === "NotAllowedError"]. *)
Definition isCancellation (e : exn) : bool :=
  match exn_class e with CDOMException name => String.eqb name "NotAllowedError" | _ => false end.

(** A buffer is absent when the property is missing or is no [ArrayBuffer]. *)
Record AttestationCredential := {
  cc_id : string; cc_type : string; cc_rawId : option bytes;
  (** [None] when the response has no such method; its result may be [null]. *)
  cc_getPublicKey : option (res (option bytes)) }.
Record AssertionCredential := {
  ac_id : string; ac_type : string; ac_rawId : option bytes;
  ac_authenticatorData : option bytes; ac_clientDataJSON : option bytes;
  ac_signature : option bytes }.

(** The options that vary; the rest is fixed in the source. *)
Record CreationOptions := {
  co_challenge : bytes; co_rpId : string; co_rpName : string; co_userId : bytes;
  co_userName : string; co_displayName : string; co_algorithms : list Z;
  co_residentKey : string; co_userVerification : string; co_attestation : string }.
Record RequestOptions := {
  ro_challenge : bytes; ro_rpId : string; ro_allowCredentials : list bytes;
  ro_userVerification : string }.

Inductive passkey_event :=
  | PRandom (n : Z)
  | PCreate (options : CreationOptions)
  | PGet (options : RequestOptions)
  | PImportSpki (spki : bytes)
  | PExportRaw
  | PDigest (data : bytes)
  | PNow.

Class Browser (W : Type) := {
  CryptoKey : Type;
  isSecureContext : bool;
  has_PublicKeyCredential : bool;
  has_AuthenticatorAttestationResponse : bool;
  has_getPublicKey : bool;
  getRandomValues : Z → W → res bytes * W;
  credentials_create : CreationOptions → W → res (option AttestationCredential) * W;
  credentials_get : RequestOptions → W → res (option AssertionCredential) * W;
  importKey_spki : bytes → W → res CryptoKey * W;
  exportKey_raw : CryptoKey → W → res bytes * W;
  digest_sha256 : bytes → W → res bytes * W;
  now_iso : W → string * W }.

Section passkey.
Context {W : Type} {zod : Zod} {ccc : Ccc} {browser : Browser W}.
Notation M := (eff W passkey_event).

Definition passkeyCapabilityProblem : option string :=
  if negb isSecureContext
  then Some "Passkeys need a secure localhost context and Chromium with WebAuthn support."
  else if negb has_PublicKeyCredential
  then Some "This browser does not provide the PublicKeyCredential API required by the demo."
  else if negb has_AuthenticatorAttestationResponse || negb has_getPublicKey
  then Some "Chromium cannot export the passkey public key required by this AccountLock demo."
  else None.

Definition requireWebAuthn : res unit :=
  throw_if (negb isSecureContext)
    (PasskeyProtocolError "Passkeys require a secure localhost context");;
  throw_if (negb has_PublicKeyCredential)
    (PasskeyProtocolError "PublicKeyCredential is unavailable").

Definition randomBytes (n : Z) : M bytes := call (PRandom n) (getRandomValues n).

Definition bytesFromBuffer (value : option bytes) (label : string) : res bytes :=
  from_option_or (PasskeyProtocolError (label +:+ " is missing")) value.

Definition rawPublicKeyFromSpki (spki : bytes) : M bytes :=
  imported ← catch (call (PImportSpki spki) (importKey_spki spki))
    (λ _, lift (Throw (PasskeyProtocolError "Registration public key is not ES256/P-256")));
  raw ← call PExportRaw (exportKey_raw imported);
  lift (throw_if (negb (len raw =? PUBLIC_KEY_BYTES) || negb (at_is raw 0 4))
    (PasskeyProtocolError "Registration public key is not uncompressed P-256"));;
  mret raw.

(** The promise of [m], settled. *)
Definition settle {A} (m : M A) : M (res A) := λ w, let '(r, w') := m w in (Ok r, w').

(** Both digests are started; the first failure is reported. *)
Definition derivePasskeyAux : M bytes :=
  let digest (s : string) := call (PDigest (utf8_encode s)) (digest_sha256 (utf8_encode s)) in
  rpIdHash ← settle (digest RP_ID);
  originHash ← settle (digest CLIENT_ORIGIN);
  rpIdHash ← lift rpIdHash;
  originHash ← lift originHash;
  lift (bytesConcat [[x01]; rpIdHash; originHash]).

Definition creation_request (challenge userId : bytes) : CreationOptions := {|
  co_challenge := challenge; co_rpId := RP_ID; co_rpName := "CKB Passkey Demo";
  co_userId := userId; co_userName := "local-passkey-user";
  co_displayName := "Local passkey user"; co_algorithms := [ES256];
  co_residentKey := "preferred"; co_userVerification := "required";
  co_attestation := "none" |}.
Definition assertion_request (challenge credentialId : bytes) : RequestOptions := {|
  ro_challenge := challenge; ro_rpId := RP_ID; ro_allowCredentials := [credentialId];
  ro_userVerification := "required" |}.

(** The common [catch] clause. *)
Definition passkey_error {A} (message : string) (error : exn) : M A :=
  lift (Throw (if isCancellation error then PasskeyCancelledError
               else if is_PasskeyProtocolError error then error
               else PasskeyProtocolError message)).

(** The credential identifier and the public key of a created credential. *)
Definition created_key (created : option AttestationCredential) : M (string * bytes) :=
  created ← lift (from_option_or
    (PasskeyProtocolError "Registration did not return a public-key credential") created);
  lift (throw_if (negb (String.eqb (cc_type created) "public-key"))
    (PasskeyProtocolError "Registration did not return a public-key credential"));;
  rawId ← lift (bytesFromBuffer (cc_rawId created) "Credential ID");
  let credentialId := base64urlEncode rawId in
  lift (throw_if (negb (String.eqb (cc_id created) credentialId))
    (PasskeyProtocolError "Registration credential ID is inconsistent"));;
  getPublicKey ← lift (from_option_or
    (PasskeyProtocolError "Authenticator cannot export the registration public key")
    (cc_getPublicKey created));
  publicKeySpki ← lift getPublicKey;
  publicKeySpki ← lift (from_option_or
    (PasskeyProtocolError "Authenticator returned no registration public key") publicKeySpki);
  publicKey ← rawPublicKeyFromSpki publicKeySpki;
  mret (credentialId, publicKey).

Definition registerPasskey : M PasskeyRecord :=
  lift requireWebAuthn;;
  catch
    (challenge ← randomBytes CHALLENGE_BYTES;
     userId ← randomBytes USER_HANDLE_BYTES;
     let options := creation_request challenge userId in
     created ← call (PCreate options) (credentials_create options);
     '(credentialId, publicKey) ← created_key created;
     derivePasskeyAux;;
     keyId ← lift (ckbHash publicKey);
     createdAt ← call PNow (λ w, let '(t, w') := now_iso w in (Ok t, w'));
     record ← lift (zparse PasskeyRecordSchema (passkey_val {|
       pk_schemaVersion := 1; pk_credentialId := credentialId;
       pk_publicKey := hexFromBytes publicKey; pk_keyId := hexFromBytes keyId;
       pk_rpId := RP_ID; pk_origin := CLIENT_ORIGIN; pk_createdAt := createdAt |}));
     mret (passkey_of record))
    (passkey_error "Malformed passkey registration response").

(** The checked fields of an assertion. *)
Definition assertion_material (record : PasskeyRecord) (assertion : option AssertionCredential)
    : res AssertionMaterial :=
  assertion ← from_option_or
    (PasskeyProtocolError "Assertion did not return a public-key credential") assertion;
  throw_if (negb (String.eqb (ac_type assertion) "public-key"))
    (PasskeyProtocolError "Assertion did not return a public-key credential");;
  rawId ← bytesFromBuffer (ac_rawId assertion) "Credential ID";
  let credentialId := base64urlEncode rawId in
  throw_if (negb (String.eqb credentialId (pk_credentialId record)) ||
            negb (String.eqb (ac_id assertion) credentialId))
    (PasskeyProtocolError "Assertion used an unexpected credential");;
  authenticatorData ← bytesFromBuffer (ac_authenticatorData assertion) "Authenticator data";
  clientDataJson ← bytesFromBuffer (ac_clientDataJSON assertion) "Client data JSON";
  signature ← bytesFromBuffer (ac_signature assertion) "Assertion signature";
  throw_if ((len authenticatorData <? 37) || (len clientDataJson =? 0) || (len signature =? 0))
    (PasskeyProtocolError "Assertion response fields are malformed");;
  Ok {| as_credentialId := credentialId; as_authenticatorData := authenticatorData;
        as_clientDataJson := clientDataJson; as_signature := signature |}.

Definition requestAssertion (challenge : bytes) (recordValue : jsval) : M AssertionMaterial :=
  lift requireWebAuthn;;
  lift (throw_if (negb (len challenge =? CHALLENGE_BYTES))
    (PasskeyProtocolError "Authorization challenge must be exactly 32-byte"));;
  parsed ← lift (zparse PasskeyRecordSchema recordValue);
  let record := passkey_of parsed in
  allowedCredentialId ← lift (base64urlDecode (pk_credentialId record));
  catch
    (let options := assertion_request challenge allowedCredentialId in
     assertion ← call (PGet options) (credentials_get options);
     lift (assertion_material record assertion))
    (passkey_error "Malformed passkey assertion response").
End passkey.

(** ** What is asked of the browser *)

(** Calls that ask the user for a credential. *)
Definition is_ceremony (ev : passkey_event) : bool :=
  match ev with PCreate _ | PGet _ => true | _ => false end.

Section runs.
Context {W : Type} {zod : Zod} {zod_laws : ZodLaws} {ccc : Ccc} {ccc_laws : CccLaws}.
Context {browser : Browser W}.
Notation M := (eff W passkey_event).
Notation world := (world W passkey_event).

(** Code that asks the user for nothing. *)
Definition silently {A} (m : M A) : Prop := ∀ w r w', m w = (r, w') →
  ∃ l, w_log w' = w_log w ++ l ∧ Forall (λ ev, is_ceremony ev = false) l.

Lemma silently_lift {A} (m : res A) : silently (lift m).
Proof. intros w r w' [-> ->]%lift_run. exists []. by rewrite app_nil_r. Qed.
Lemma silently_ret {A} (a : A) : silently (mret a).
Proof. intros w r w' [= <- <-]. exists []. by rewrite app_nil_r. Qed.
Lemma silently_call {A} ev (f : W → res A * W) : is_ceremony ev = false → silently (call ev f).
Proof. intros He w r w' [_ Hl]%call_run. exists [ev]. split; [done|by constructor]. Qed.
Lemma silently_bind {A B} (m : M A) (f : A → M B) :
  silently m → (∀ a, silently (f a)) → silently (m ≫= f).
Proof.
  intros Hm Hf w r w' H. apply eff_bind_cases in H as [(e & H & ->)|(a & w1 & H1 & H2)].
  - by eapply Hm.
  - apply Hm in H1 as (l1 & E1 & F1). apply Hf in H2 as (l2 & E2 & F2).
    exists (l1 ++ l2). rewrite E2, E1, app_assoc. split; [done|]. by apply Forall_app.
Qed.
Lemma silently_catch {A} (m : M A) (h : exn → M A) :
  silently m → (∀ e, silently (h e)) → silently (catch m h).
Proof.
  intros Hm Hh w r w'. unfold catch. destruct (m w) as [[a|e] w1] eqn:E; intros H.
  - injection H as <- <-. by eapply Hm.
  - apply Hm in E as (l1 & E1 & F1). apply Hh in H as (l2 & E2 & F2).
    exists (l1 ++ l2). rewrite E2, E1, app_assoc. split; [done|]. by apply Forall_app.
Qed.
Lemma silently_settle {A} (m : M A) : silently m → silently (settle m).
Proof.
  intros Hm w r w'. unfold settle. destruct (m w) as [r1 w1] eqn:E. intros [= <- <-].
  by eapply Hm.
Qed.
End runs.
Create HintDb silent.
#[export] Hint Resolve silently_lift silently_ret silently_call silently_settle : silent.
#[export] Hint Extern 1 (silently (_ ≫= _)) => apply silently_bind; [|intros] : silent.
#[export] Hint Extern 1 (silently (catch _ _)) => apply silently_catch; [|intros] : silent.

Section sound.
Context {W : Type} {zod : Zod} {zod_laws : ZodLaws} {ccc : Ccc} {ccc_laws : CccLaws}.
Context {browser : Browser W}.
Notation M := (eff W passkey_event).
Notation world := (world W passkey_event).

Lemma derivePasskeyAux_silent : silently derivePasskeyAux.
Proof. unfold derivePasskeyAux. auto 10 with silent. Qed.
Lemma rawPublicKey_silent spki : silently (rawPublicKeyFromSpki spki).
Proof. unfold rawPublicKeyFromSpki. auto 10 with silent. Qed.
Lemma created_key_silent c : silently (created_key c).
Proof. unfold created_key. auto 20 using rawPublicKey_silent with silent. Qed.

(** The rest of a registration, once the credential container has answered. *)
Definition finish_registration (created : option AttestationCredential) : M PasskeyRecord :=
  '(credentialId, publicKey) ← created_key created;
  derivePasskeyAux;;
  keyId ← lift (ckbHash publicKey);
  createdAt ← call PNow (λ w, let '(t, w') := now_iso w in (Ok t, w'));
  record ← lift (zparse PasskeyRecordSchema (passkey_val {|
    pk_schemaVersion := 1; pk_credentialId := credentialId;
    pk_publicKey := hexFromBytes publicKey; pk_keyId := hexFromBytes keyId;
    pk_rpId := RP_ID; pk_origin := CLIENT_ORIGIN; pk_createdAt := createdAt |}));
  mret (passkey_of record).

Lemma finish_silent c : silently (finish_registration c).
Proof.
  unfold finish_registration. apply silently_bind; [apply created_key_silent|].
  intros [id key]. apply silently_bind; [apply derivePasskeyAux_silent|]. auto 10 with silent.
Qed.

Lemma created_key_Ok created w id publicKey w' :
  created_key created w = (Ok (id, publicKey), w') →
  ∃ c rawId, created = Some c ∧ cc_type c = "public-key" ∧ cc_rawId c = Some rawId ∧
    cc_id c = base64urlEncode rawId ∧ id = cc_id c ∧ len publicKey = 65.
Proof.
  unfold created_key, rawPublicKeyFromSpki. intros H. inv_run. inv_res. bool_simpl.
  repeat match goal with
    | H : Ok _ = from_option_or _ _ |- _ => symmetry in H
    | H : from_option_or _ _ = Ok _ |- _ => apply from_option_or_Ok in H; subst
    | H : Ok _ = bytesFromBuffer _ _ |- _ => symmetry in H; apply from_option_or_Ok in H
    end.
  eexists _, _. repeat split; eauto.
Qed.

(** What a registered record says of the credential that was created. *)
Record registered (p : PasskeyRecord) (c : AttestationCredential) (rawId publicKey : bytes)
    : Prop := {
  rg_wf : passkey_wf p;
  rg_rawId : cc_rawId c = Some rawId;
  rg_id : pk_credentialId p = cc_id c;
  rg_decode : base64urlDecode (pk_credentialId p) = Ok rawId;
  rg_key_len : len publicKey = 65;
  rg_key : pk_publicKey p = hexFromBytes publicKey;
  rg_key_id : pk_keyId p = hexFromBytes (ckb_digest publicKey) }.

(** Schemas without structure return the value they accept. *)
Definition leaf (s : schema) : bool :=
  match s with
  | ZString _ | ZLitStr _ | ZLitNum _ | ZLitBool _ | ZEnum _ | ZNumber _ | ZBoolean => true
  | _ => false
  end.
Lemma leaf_parse s v d : leaf s = true → safeParse s v = Some d → d = v.
Proof.
  destruct s; try done; intros _;
    rewrite ?sp_string, ?sp_lit_str, ?sp_lit_num, ?sp_lit_bool, ?sp_enum, ?sp_number, ?sp_boolean;
    repeat case_match; congruence.
Qed.

Lemma leaf_fields shape all fs ds :
  Forall2 (λ kv ks, kv.1 = ks.1 ∧ leaf ks.2 = true ∧ assoc ks.1 all = Some kv.2) fs shape →
  parse_fields safeParse shape all = Some ds → ds = fs.
Proof.
  intros H. revert ds. induction H as [|[k v] [k' s] fs shape (Hk & Hl & Ha) _ IH]; intros ds;
    cbn [fst snd parse_fields] in *; [by intros [= <-]|].
  rewrite Ha. destruct (safeParse s v) as [v'|] eqn:Es; [|done].
  destruct (parse_fields safeParse shape all) as [rest|]; [|done]. intros [= <-].
  apply leaf_parse in Es as ->; [|done]. by rewrite Hk, (IH rest).
Qed.

Lemma passkey_parse_same p d :
  safeParse PasskeyRecordSchema (passkey_val p) = Some d → d = passkey_val p.
Proof.
  intros H. apply object_inv in H as (fs & ds & Hfs & -> & H). injection Hfs as <-.
  unfold passkey_val. f_equal. eapply leaf_fields; [|exact H]. by repeat constructor.
Qed.

Lemma finish_Ok created w p w' :
  finish_registration created w = (Ok p, w') →
  ∃ c rawId publicKey, created = Some c ∧ registered p c rawId publicKey.
Proof.
  unfold finish_registration. intros H.
  apply eff_bind_Ok in H as ([id key] & w1 & Hk & H).
  apply created_key_Ok in Hk as (c & rawId & -> & _ & Hraw & Hid & -> & Hlen).
  inv_run. rewrite ckbHash_spec in *.
  match goal with H : Ok _ = Ok _ |- _ => injection H as -> end.
  match goal with H : Ok _ = zparse _ _ |- _ => symmetry in H; apply from_option_or_Ok in H;
    rename H into Hp end.
  pose proof (passkey_parse_same _ _ Hp) as ->. rewrite passkey_of_val.
  destruct (passkey_record _ _ Hp) as (q & Eq & Hwf).
  assert (q = {| pk_schemaVersion := 1; pk_credentialId := cc_id c;
    pk_publicKey := hexFromBytes key; pk_keyId := hexFromBytes (ckb_digest key);
    pk_rpId := RP_ID; pk_origin := CLIENT_ORIGIN; pk_createdAt := v1 |}) as ->
    by (by rewrite <- (passkey_of_val q), <- Eq, passkey_of_val).
  exists c, rawId, key. split; [done|]. constructor; try done. cbn [pk_credentialId].
  apply base64urlDecode_iff. split; [|done]. intros ->.
  destruct (pwf_credential _ Hwf) as [Hne _]. cbn [pk_credentialId] in Hne. by rewrite Hid in Hne.
Qed.

Lemma registerPasskey_split w :
  requireWebAuthn = Ok tt →
  registerPasskey w =
  catch (challenge ← randomBytes CHALLENGE_BYTES;
         userId ← randomBytes USER_HANDLE_BYTES;
         created ← call (PCreate (creation_request challenge userId))
                     (credentials_create (creation_request challenge userId));
         finish_registration created)
    (passkey_error "Malformed passkey registration response") w.
Proof. intros H. unfold registerPasskey. rewrite H. reflexivity. Qed.

Lemma passkey_error_run {A} message e (w w' : world) (r : res A) :
  passkey_error message e w = (r, w') →
  w' = w ∧ ∃ e', r = Throw e' ∧ (e' = PasskeyCancelledError ∨ is_PasskeyProtocolError e' = true).
Proof.
  unfold passkey_error. intros [-> ->]%lift_run. split; [done|]. eexists. split; [done|].
  destruct (isCancellation e); [by left|]. right. by destruct (is_PasskeyProtocolError e) eqn:E.
Qed.

Lemma requireWebAuthn_throw e :
  requireWebAuthn = Throw e → is_PasskeyProtocolError e = true.
Proof.
  unfold requireWebAuthn. destruct isSecureContext, has_PublicKeyCredential; cbn;
    by intros [= <-].
Qed.

Definition ceremonies (l : list passkey_event) : list passkey_event := filter is_ceremony l.
Lemma no_ceremony l : Forall (λ ev, is_ceremony ev = false) l → ceremonies l = [].
Proof.
  unfold ceremonies. induction 1 as [|ev l He _ IH]; [done|].
  rewrite filter_cons_False; [done|]. rewrite He. by intros [].
Qed.

(** The ceremonies of a registration and where its result came from. *)
Record registration (l : list passkey_event) (r : res PasskeyRecord) : Prop := {
  rn_once : ceremonies l = [] ∨
    ∃ challenge userId, ceremonies l = [PCreate (creation_request challenge userId)];
  rn_ok : ∀ p, r = Ok p → ∃ challenge userId c rawId publicKey,
    ceremonies l = [PCreate (creation_request challenge userId)] ∧
    (∃ e1 e2, getRandomValues CHALLENGE_BYTES e1 = (Ok challenge, e2)) ∧
    (∃ e1 e2, credentials_create (creation_request challenge userId) e1 = (Ok (Some c), e2)) ∧
    registered p c rawId publicKey;
  rn_throw : ∀ e, r = Throw e →
    e = PasskeyCancelledError ∨ is_PasskeyProtocolError e = true }.

Lemma registration_fails l e :
  (ceremonies l = [] ∨ ∃ challenge userId,
     ceremonies l = [PCreate (creation_request challenge userId)]) →
  e = PasskeyCancelledError ∨ is_PasskeyProtocolError e = true →
  registration l (Throw e).
Proof. intros Hl He. constructor; [done|done|]. by intros ? [= <-]. Qed.

Lemma catch_passkey_run {A} (m : M A) message (w w' : world) (r : res A) :
  catch m (passkey_error message) w = (r, w') →
  ∃ r0, m w = (r0, w') ∧ (∀ a, r = Ok a → r0 = Ok a) ∧
    (∀ e, r = Throw e → e = PasskeyCancelledError ∨ is_PasskeyProtocolError e = true) ∧
    (∀ a, r0 = Ok a → r = Ok a).
Proof.
  unfold catch. destruct (m w) as [[a|e] w1]; intros H.
  - injection H as <- <-. eexists. by repeat split.
  - apply passkey_error_run in H as (-> & e' & -> & He). eexists. split; [done|].
    split; [done|]. split; [by intros ? [= <-]|done].
Qed.

(** Registration: the user is asked to create at most one credential, for the demo's
    relying party, with user verification and a fresh random challenge. A record is
    returned only for the credential that was created: it is well-formed, its credential
    identifier decodes to the raw identifier, and its key identifier is the hash of the
    65-byte public key. Every failure is a cancellation or a protocol error. *)
Theorem register_sound (w w' : world) (r : res PasskeyRecord) :
  registerPasskey w = (r, w') → ∃ l, w_log w' = w_log w ++ l ∧ registration l r.
Proof.
  destruct requireWebAuthn as [[]|e] eqn:Hreq.
  2: { unfold registerPasskey. rewrite Hreq. intros [= <- <-]. exists [].
       split; [by rewrite app_nil_r|]. apply registration_fails; [by left|].
       right. by apply requireWebAuthn_throw. }
  rewrite registerPasskey_split by done. intros H.
  apply catch_passkey_run in H as (r0 & H & Hok & Hthrow & _).
  assert (Hfail : ∀ l, (∀ p, r ≠ Ok p) →
    (ceremonies l = [] ∨ ∃ challenge userId,
       ceremonies l = [PCreate (creation_request challenge userId)]) → registration l r).
  { intros l Hr Hl. constructor; [done| |done]. intros p Hp. by destruct (Hr p). }
  unfold randomBytes in H.
  run_step H. { eexists. split; [exact Hl|]. apply Hfail; [by intros p ?%Hok|by left]. }
  run_step H. { eexists. split; [log_eq|]. apply Hfail; [by intros p ?%Hok|by left]. }
  run_step H.
  { eexists. split; [log_eq|]. apply Hfail; [by intros p ?%Hok|right; eexists _, _; reflexivity]. }
  destruct (finish_silent _ _ _ _ H) as (l & El & Fl).
  eexists. split; [rewrite El, Hl1, Hl0, Hl, <- !app_assoc; reflexivity|]. cbn [app].
  assert (Ec : ∀ x, ceremonies (PRandom 32 :: PRandom 32 :: PCreate x :: l) = [PCreate x]).
  { intros x. unfold ceremonies. cbn. rewrite no_ceremony; done. }
  constructor; [right; eauto| |done].
  intros p Hp. apply Hok in Hp as ->.
  apply finish_Ok in H as (c & rawId & publicKey & -> & Hreg).
  eexists _, _, c, rawId, publicKey. split; [apply Ec|].
  split; [eexists _, _; exact Hm|]. split; [eexists _, _; exact Hm1|done].
Qed.

(** What an assertion that is handed on has been checked for. *)
Record asserted (record : PasskeyRecord) (c : AssertionCredential) (a : AssertionMaterial)
    : Prop := {
  at_id : as_credentialId a = pk_credentialId record ∧ ac_id c = pk_credentialId record;
  at_raw : ∃ rawId, ac_rawId c = Some rawId ∧ base64urlDecode (pk_credentialId record) = Ok rawId;
  at_authenticator : ac_authenticatorData c = Some (as_authenticatorData a) ∧
    37 <= len (as_authenticatorData a);
  at_client : ac_clientDataJSON c = Some (as_clientDataJson a) ∧ as_clientDataJson a ≠ [];
  at_signature : ac_signature c = Some (as_signature a) ∧ as_signature a ≠ [] }.

Lemma assertion_material_Ok record c a :
  passkey_wf record → assertion_material record c = Ok a →
  ∃ c', c = Some c' ∧ asserted record c' a.
Proof.
  intros Hwf. unfold assertion_material, bytesFromBuffer. intros H. inv_res. bool_simpl.
  match goal with H : ac_rawId ?x = Some ?b |- _ => rename b into rawId; exists x end.
  split; [done|].
  constructor; cbn [as_credentialId as_authenticatorData as_clientDataJson as_signature].
  - split; congruence.
  - exists rawId. split; [done|]. apply base64urlDecode_iff. split; [|done].
    intros ->. destruct (pwf_credential _ Hwf) as [Hne _]. by destruct Hne.
  - split; [done|lia].
  - split; [done|]. intros E. by rewrite E in *.
  - split; [done|]. intros E. by rewrite E in *.
Qed.

Lemma base64urlDecode_error s e : base64urlDecode s = Throw e → e = NOT_CANONICAL.
Proof.
  unfold base64urlDecode. intros [[_ ->]%throw_if_Throw|(? & _ & H)]%bind_Throw_iff; [done|].
  match type of H with match ?m with _ => _ end = _ => destruct m end; [done|].
  by injection H as <-.
Qed.

Lemma assertion_material_error record c e :
  assertion_material record c = Throw e → is_PasskeyProtocolError e = true.
Proof.
  unfold assertion_material, bytesFromBuffer.
  repeat first
    [ intros [H|(? & _ & H)]%bind_Throw_iff; revert H
    | match goal with |- from_option_or _ ?o = Throw _ → _ =>
        destruct o; cbn; [done|by intros [= <-]] end
    | by intros [_ ->]%throw_if_Throw
    | done ].
Qed.

(** The answer of the credential container, checked. *)
Lemma answer_run message record (answer : res (option AssertionCredential)) (w w' : world)
    (r : res AssertionMaterial) :
  passkey_wf record →
  (match answer with
   | Ok c => lift (assertion_material record c)
   | Throw e => lift (Throw e)
   end) w = (r, w') →
  ∀ r' w'', (match r with Ok a => (Ok a, w') | Throw e => passkey_error message e w' end) = (r', w'') →
  w'' = w ∧
  (∀ e, r' = Throw e → e = PasskeyCancelledError ∨ is_PasskeyProtocolError e = true) ∧
  (∀ a, r' = Ok a → ∃ c, answer = Ok (Some c) ∧ asserted record c a) ∧
  (r' = Throw PasskeyCancelledError → ∃ e, answer = Throw e ∧ isCancellation e = true).
Proof.
  intros Hwf H r' w'' H'.
  assert (w' = w ∧ r = match answer with Ok c => assertion_material record c | Throw e => Throw e end)
    as [-> Hr] by (destruct answer; by apply lift_run in H as [-> ->]).
  destruct r as [a|e].
  - injection H' as <- <-. split; [done|]. split; [done|]. split; [|done].
    intros ? [= <-]. destruct answer as [c|]; [|done]. symmetry in Hr.
    destruct (assertion_material_Ok _ _ _ Hwf Hr) as (c' & -> & Ha). eauto.
  - pose proof H' as Hrun. apply passkey_error_run in Hrun as (-> & e' & -> & He').
    split; [done|]. split; [by intros ? [= <-]|]. split; [done|]. intros [= ->].
    unfold passkey_error in H'. apply lift_run in H' as [E _]. injection E as E.
    destruct (isCancellation e) eqn:Ec.
    + destruct answer as [c|e0]; [|injection Hr as <-; eauto].
      symmetry in Hr. apply assertion_material_error in Hr.
      destruct e as [[] ?]; done.
    + destruct (is_PasskeyProtocolError e) eqn:Ep; [|done]. by subst e.
Qed.

(** C34 — Assertion: the user is asked exactly when the browser is capable, the challenge has
    32 bytes and the record's credential identifier decodes (as that of a registered record
    does), and then once, for that challenge and that credential alone, with user
    verification. An assertion is handed on only if it is of the record's credential and
    complete. Every failure is a cancellation or a protocol error, and a cancellation only
    when the browser reported one. *)
Theorem assertion_sound (challenge : bytes) (record : PasskeyRecord) (w w' : world)
    (r : res AssertionMaterial) :
  passkey_wf record → requestAssertion challenge (passkey_val record) w = (r, w') →
  (∀ e, r = Throw e → e = PasskeyCancelledError ∨ is_PasskeyProtocolError e = true) ∧
  ((requireWebAuthn ≠ Ok tt ∨ len challenge ≠ 32 ∨
      base64urlDecode (pk_credentialId record) = Throw NOT_CANONICAL) ∧
    w' = w ∧ (∀ a, r ≠ Ok a) ∧ r ≠ Throw PasskeyCancelledError ∨
   requireWebAuthn = Ok tt ∧ len challenge = 32 ∧
   ∃ rawId answer, base64urlDecode (pk_credentialId record) = Ok rawId ∧
     w_log w' = w_log w ++ [PGet (assertion_request challenge rawId)] ∧
     credentials_get (assertion_request challenge rawId) (w_env w) = (answer, w_env w') ∧
     (∀ a, r = Ok a → ∃ c, answer = Ok (Some c) ∧ asserted record c a) ∧
     (r = Throw PasskeyCancelledError → ∃ e, answer = Throw e ∧ isCancellation e = true)).
Proof.
  intros Hwf. unfold requestAssertion. intros H.
  run_step H.
  { symmetry in Hm. pose proof (requireWebAuthn_throw _ Hm). split; [intros e' [= <-]; by right|].
    left. split; [left; congruence|]. split; [done|]. split; [done|]. by intros [= ->]. }
  symmetry in Hm. destruct v. run_step H.
  { symmetry in Hm0. apply throw_if_Throw in Hm0 as [Hc ->].
    split; [by intros e [= <-]; right|]. left. split; [right; left|done].
    apply negb_true_iff, Z.eqb_neq in Hc. exact Hc. }
  symmetry in Hm0. apply throw_if_Ok in Hm0. bool_simpl.
  unfold zparse in H. rewrite passkey_parse in H by done. cbn [from_option_or] in H.
  run_step H; [done|]. injection Hm1 as ->. rewrite passkey_of_val in H.
  run_step H.
  { symmetry in Hm1. apply base64urlDecode_error in Hm1 as He. subst e.
    split; [by intros e [= <-]; right|]. left. split; [by right; right|done]. }
  symmetry in Hm1. rename v0 into rawId.
  unfold catch in H. unfold mbind, eff_bind in H.
  destruct (call _ _ w) as [answer w1] eqn:Ec. apply call_run in Ec as [Ec El].
  assert (Hx : ∃ r0, (match answer with Ok c => lift (assertion_material record c)
                                      | Throw e => lift (Throw e) end) w1 = (r0, w1) ∧
    (match r0 with Ok a => (Ok a, w1) | Throw e => passkey_error
       "Malformed passkey assertion response" e w1 end) = (r, w')).
  { destruct answer as [c|e]; cbn in H; [|by eexists]. unfold lift in H.
    eexists. split; [reflexivity|]. by destruct (assertion_material record c). }
  destruct Hx as (r0 & H1 & H2).
  destruct (answer_run _ _ _ _ _ _ Hwf H1 _ _ H2) as (-> & Ht & Ho & Hc).
  split; [done|]. right. split; [done|]. split; [done|]. exists rawId, answer. by repeat split.
Qed.
End sound.
