(* ===== verification/Account.v ===== *)
(** * Account identity ([tools/deploy/src/account.ts])

    The Type ID script, the lock that commits to it, and the check every creation
    transaction passes before it is broadcast. *)

From S2P Require Import Prelude Js JsString Regex Bytes Ccc CccRef Wire Schemas.
From S2P Require Import Manifests.

Definition ACCOUNT_LOCK_VERSION : Z := 1.

Section account.
Context {ccc : Ccc}.

Definition typeIdScript (typeIdArgs : string) : res Script :=
  Script_from {| codeHash := TYPE_ID_CODE_HASH; hashType := "type"; args := typeIdArgs |}.

Definition accountIdFromTypeIdArgs (typeIdArgs : string) : res string :=
  s ← typeIdScript typeIdArgs; Ok (Script_hash s).

Definition accountLockArgs (accountId : string) : res string :=
  id ← bytesFrom accountId;
  throw_if (negb (len id =? 32))
    (Error ("account id must be 32 bytes, got " +:+ dec (len id)));;
  args ← array_set (<[0%nat := byte_of_Z ACCOUNT_LOCK_VERSION]> (zeros 33)) 1 id;
  Ok (hexFrom args).

Definition accountLockScript (accountLockCodeHash accountId : string) : res Script :=
  args ← accountLockArgs accountId;
  Script_from {| codeHash := accountLockCodeHash; hashType := "data2"; args := args |}.

Definition sameHex (left right : string) : bool :=
  String.eqb (toLowerCase left) (toLowerCase right).

(** The loop over the outputs after the first two. *)
Fixpoint no_account_outputs (accountLockCodeHash : string) (outputs : list CellOutput)
    (index : Z) : res unit :=
  match outputs with
  | [] => Ok tt
  | output :: outputs' =>
      throw_if (sameHex (codeHash (co_lock output)) accountLockCodeHash)
        (Error ("unexpected AccountLock output at index " +:+ dec (index + 2) +:+
                "; only the state and asset cells may belong to the account, and " +:+
                "change must return to the deployer"));;
      no_account_outputs accountLockCodeHash outputs' (index + 1)
  end.

(** The loop over the state and asset outputs. *)
Fixpoint account_outputs (accountLockCodeHash accountId expectedArgs : string)
    (outputs : list CellOutput) (index : Z) : res unit :=
  match outputs with
  | [] => Ok tt
  | output :: outputs' =>
      throw_if (negb (sameHex (codeHash (co_lock output)) accountLockCodeHash))
        (Error ("output " +:+ dec index +:+ " lock code hash " +:+
                codeHash (co_lock output) +:+ " is not AccountLock (" +:+
                accountLockCodeHash +:+ ")"));;
      throw_if (negb (String.eqb (hashType (co_lock output)) "data2"))
        (Error ("output " +:+ dec index +:+ " lock hash type must be data2, got " +:+
                hashType (co_lock output)));;
      throw_if (negb (sameHex (args (co_lock output)) expectedArgs))
        (Error ("output " +:+ dec index +:+ " lock args " +:+ args (co_lock output) +:+
                " do not commit to this transaction's account id " +:+ accountId +:+
                "; expected " +:+ expectedArgs +:+
                ". Broadcasting would create permanently unspendable cells."));;
      account_outputs accountLockCodeHash accountId expectedArgs outputs' (index + 1)
  end.

Definition assertCreationConsistency (tx : Transaction)
    (accountLockCodeHash expectedStateData : string) : res unit :=
  throw_if (len (tx_inputs tx) =? 0) (Error "creation transaction has no inputs");;
  throw_if (len (tx_outputs tx) <? 2)
    (Error ("creation transaction must have at least 2 outputs (state, asset), got " +:+
            dec (len (tx_outputs tx))));;
  stateOutput ← from_option_or (TypeError "") (tx_outputs tx !! 0%nat);
  type ← from_option_or
    (Error "output 0 has no type script; the state cell needs a Type ID")
    (co_type stateOutput);
  input0 ← from_option_or (TypeError "") (tx_inputs tx !! 0%nat);
  let expectedTypeIdArgs := hashTypeId input0 0 in
  throw_if (negb (sameHex (args type) expectedTypeIdArgs))
    (Error ("output 0 type id args " +:+ args type +:+
            " do not match hashTypeId(inputs[0], 0) = " +:+ expectedTypeIdArgs));;
  throw_if (negb (sameHex (codeHash type) TYPE_ID_CODE_HASH))
    (Error "output 0 type code hash is not the consensus TYPE_ID script");;
  let accountId := Script_hash type in
  expectedArgs ← accountLockArgs accountId;
  no_account_outputs accountLockCodeHash (drop 2 (tx_outputs tx)) 0;;
  account_outputs accountLockCodeHash accountId expectedArgs (take 2 (tx_outputs tx)) 0;;
  throw_if (negb (sameHex (default "0x" (tx_outputsData tx !! 0%nat)) expectedStateData))
    (Error "output 0 state data does not match the encoded AccountStateV1 bytes").
End account.

(** ** What the check establishes *)

Definition lock_args_of (id : bytes) : string := hexFromBytes (x01 :: id).

(** An output locked by the account, up to the case of its hexadecimal text. *)
Definition account_output (code lockArgs : string) (o : CellOutput) : Prop :=
  sameHex (codeHash (co_lock o)) code = true ∧ hashType (co_lock o) = "data2" ∧
  sameHex (args (co_lock o)) lockArgs = true.

Record creation_consistent `{Ccc} (tx : Transaction) (code stateData : string) : Prop := {
  cc_creation : ∃ input inputs state asset others type id,
    tx_inputs tx = input :: inputs ∧ tx_outputs tx = state :: asset :: others ∧
    co_type state = Some type ∧
    sameHex (args type) (hashTypeId input 0) = true ∧
    sameHex (codeHash type) TYPE_ID_CODE_HASH = true ∧
    Script_hash type = hexFromBytes id ∧ length id = 32%nat ∧
    account_output code (lock_args_of id) state ∧
    account_output code (lock_args_of id) asset ∧
    Forall (λ o, sameHex (codeHash (co_lock o)) code = false) others;
  cc_data : sameHex (default "0x" (tx_outputsData tx !! 0%nat)) stateData = true }.

Section account_lemmas.
Context {ccc : Ccc} {ccc_laws : CccLaws}.

Lemma accountLockArgs_spec id :
  length id = 32%nat → accountLockArgs (hexFromBytes id) = Ok (lock_args_of id).
Proof.
  intros H. unfold accountLockArgs. rewrite bytesFrom_hex. cbn [mbind res_bind].
  unfold len. rewrite H. pass_guard. unfold array_set. rewrite H.
  cbn [Nat.add Nat.leb length zeros replicate list_insert insert mbind res_bind].
  cbn [drop]. rewrite hexFrom_spec. unfold lock_args_of. do 2 f_equal.
  cbn [take app]. by rewrite app_nil_r.
Qed.

Lemma no_account_outputs_Ok code os i u :
  no_account_outputs code os i = Ok u ↔
  Forall (λ o, sameHex (codeHash (co_lock o)) code = false) os.
Proof.
  revert i. induction os as [|o os IH]; intros i; cbn [no_account_outputs].
  - destruct u. naive_solver.
  - rewrite bind_Ok_iff, List.Forall_cons_iff. setoid_rewrite throw_if_Ok.
    setoid_rewrite IH. split; [naive_solver|]. intros []. by exists tt.
Qed.

Lemma account_outputs_Ok code id la os i u :
  account_outputs code id la os i = Ok u ↔ Forall (account_output code la) os.
Proof.
  revert i. induction os as [|o os IH]; intros i; cbn [account_outputs].
  - destruct u. naive_solver.
  - rewrite List.Forall_cons_iff. unfold account_output at 1. split.
    + intros H. inv_res. bool_simpl. apply IH in H. done.
    + intros [(H1 & H2 & H3) H]. rewrite H1, H2, H3. cbn. by apply IH.
Qed.

Lemma assertCreationConsistency_iff tx code stateData u :
  assertCreationConsistency tx code stateData = Ok u ↔ creation_consistent tx code stateData.
Proof.
  split.
  - unfold assertCreationConsistency. intros H. inv_res.
    destruct (tx_inputs tx) as [|input inputs] eqn:Ei; [done|].
    destruct (tx_outputs tx) as [|state [|asset others]] eqn:Eo; [done|done|].
    cbn [lookup list_lookup drop take] in *. simplify_eq. bool_simpl.
    match goal with H : co_type _ = Some ?t |- _ =>
      destruct (Script_hash_spec t) as (id & Hid & Hhash) end.
    rewrite Hhash, accountLockArgs_spec in * by done. inv_res.
    match goal with H : no_account_outputs _ _ _ = Ok _ |- _ =>
      apply no_account_outputs_Ok in H end.
    match goal with H : account_outputs _ _ _ _ _ = Ok _ |- _ =>
      apply account_outputs_Ok in H; rewrite !List.Forall_cons_iff in H;
      destruct H as (? & ? & _) end.
    constructor; [|done].
    match goal with H : co_type ?s = Some ?t |- _ =>
      eexists _, inputs, s, asset, others, t, id end.
    repeat (split; [done|]). done.
  - intros [(input & inputs & state & asset & others & type & id & Hi & Ho & Ht & Ha & Hc &
      Hh & Hid & Hs & Has & Hn) Hd].
    unfold assertCreationConsistency. rewrite Hi, Ho.
    pose proof (len_nonneg inputs). pose proof (len_nonneg others).
    rewrite !len_cons. do 2 head_guard.
    cbn [lookup list_lookup from_option_or mbind res_bind drop take].
    rewrite Ht. cbn [from_option_or mbind res_bind]. rewrite Ha, Hc. cbn [negb throw_if mbind res_bind].
    rewrite Hh, accountLockArgs_spec by done. cbn [mbind res_bind].
    rewrite (proj2 (no_account_outputs_Ok _ _ _ tt)) by done. cbn [mbind res_bind].
    rewrite (proj2 (account_outputs_Ok _ _ _ _ _ tt)) by (constructor; [done|]; constructor; [done | constructor]).
    cbn [mbind res_bind]. rewrite Hd. by destruct u.
Qed.

(** Creation check: a creation transaction passes exactly when output 0 has a
    Type ID script for the first input, outputs 0 and 1 are locked by the given
    AccountLock with arguments that commit to the hash of that script, no further
    output uses the AccountLock, and the state data is the expected one (hexadecimal
    text compared up to case). *)
Theorem creation_check_exact (tx : Transaction) (code stateData : string) :
  assertCreationConsistency tx code stateData = Ok tt ↔ creation_consistent tx code stateData.
Proof. apply assertCreationConsistency_iff. Qed.
End account_lemmas.
