(* ===== verification/Artifacts.v ===== *)
(** * Artifacts and deployment plans ([tools/deploy/src/artifacts.ts], [plan.ts])

    Capacity of cells, the recorded artifact identities, the hash check that guards
    publication, and the plan built from verified artifacts. *)

From S2P Require Import Prelude Js JsString Regex Bytes Base64 Ccc CccRef.
From Stdlib Require Import Ascii.

Definition SECP256K1_LOCK_ARGS_LENGTH : Z := 20.
Definition CAPACITY_FIELD_BYTES : Z := 8.
Definition SCRIPT_FIXED_BYTES : Z := 33.
Definition SHANNONS : Z := 100000000.

(** Not an integer, or negative. *)
Definition bad_length (n : number) : bool := negb (Number_isInteger n) || num_lt n 0.

(** The lengths are lengths of byte strings, so their sum is exact. *)
Definition cellCapacityShannons (lockArgsLength : number) (typeArgsLength : option number)
    (dataLength : number) : res Z :=
  throw_if (bad_length lockArgsLength) (Error ("invalid lock args length: " +:+ number_text lockArgsLength));;
  throw_if (bad_length dataLength) (Error ("invalid data length: " +:+ number_text dataLength));;
  throw_if (match typeArgsLength with Some n => bad_length n | None => false end)
    (Error ("invalid type args length: " +:+ number_text (default NNaN typeArgsLength)));;
  let typeBytes := match typeArgsLength with
                   | None => 0
                   | Some n => SCRIPT_FIXED_BYTES + num_Z n
                   end in
  let occupiedBytes := CAPACITY_FIELD_BYTES + SCRIPT_FIXED_BYTES + num_Z lockArgsLength +
                       typeBytes + num_Z dataLength in
  Ok (occupiedBytes * SHANNONS).

Definition codeCellCapacityShannons (dataLength lockArgsLength : number) : res Z :=
  cellCapacityShannons lockArgsLength None dataLength.

(** [!v]. *)
Definition falsy (v : jsval) : bool :=
  match v with
  | JUndef | JNull | JBool false | JNum NNaN => true
  | JNum n => num_is n 0
  | JStr s => String.eqb s ""
  | _ => false
  end.
Definition nullish (v : jsval) : bool := is_undef v || is_null v.

(** [Object.entries(v)] for a value that is not [null] or [undefined]. *)
Fixpoint char_entries (s : string) (i : Z) : list (string * jsval) :=
  match s with
  | EmptyString => []
  | String c s' => (dec i, JStr (String c "")) :: char_entries s' (i + 1)
  end.
Definition object_entries (v : jsval) : list (string * jsval) :=
  match v with
  | JObj fs => fs
  | JArr l => imap (λ i x, (dec (Z.of_nat i), x)) l
  | JStr s => char_entries s 0
  | _ => []
  end.

Record ArtifactIdentity := { id_name : string; id_path : jsval; id_dataHash : jsval }.
Record PlannedCell := { pc_identity : ArtifactIdentity; pc_data : bytes; pc_capacity : Z }.
Record DeploymentPlan := { dp_cells : list PlannedCell; dp_total : Z }.

(** The file system the tools read, as functions of the state of the disk. *)
Class Files := {
  (** [resolve(root, path)] *)
  resolve_path : string → jsval → res string;
  (** [readFileSync(path)] *)
  read_bytes : string → res bytes;
  (** [JSON.parse(readFileSync(path, "utf8"))] *)
  read_json : string → res jsval }.

Fixpoint identities_of (manifestPath : string) (entries : list (string * jsval)) : res (list (string * ArtifactIdentity)) :=
  match entries with
  | [] => Ok []
  | (name, entry) :: entries' =>
      throw_if (falsy (prop entry "path") || falsy (prop entry "data_hash"))
        (Error (manifestPath +:+ ": artifact " +:+ name +:+ " is missing path or data_hash"));;
      rest ← identities_of manifestPath entries';
      Ok ((name, {| id_name := name; id_path := prop entry "path";
                    id_dataHash := prop entry "data_hash" |}) :: rest)
  end.

Section artifacts.
Context {ccc : Ccc} {files : Files}.

Definition ckbDataHash (data : bytes) : string := hashCkb data.

Definition readLocalArtifactIdentities (repoRoot : string)
    : res (list (string * ArtifactIdentity)) :=
  manifestPath ← resolve_path repoRoot (JStr "deploy/reference-deployments.json");
  manifest ← read_json manifestPath;
  throw_if (nullish manifest) (TypeError "Cannot read properties of null");;
  let artifacts := prop (prop manifest "local") "artifacts" in
  throw_if (falsy artifacts) (Error (manifestPath +:+ " has no local.artifacts section"));;
  identities_of manifestPath (object_entries artifacts).

Definition loadVerifiedArtifact (repoRoot : string) (identity : ArtifactIdentity)
    : res bytes :=
  absolute ← resolve_path repoRoot (id_path identity);
  data ← match read_bytes absolute with
         | Ok data => Ok data
         | Throw error =>
             Throw (Error ("cannot read artifact " +:+ id_name identity +:+ " at " +:+
                           absolute +:+ ": " +:+ error_text error))
         end;
  throw_if (negb (is_str (id_dataHash identity) (ckbDataHash data)))
    (Error ("data hash mismatch for " +:+ id_name identity +:+ " at " +:+ absolute +:+
            ": expected " +:+ js_text (id_dataHash identity) +:+ ", computed " +:+
            ckbDataHash data +:+ ". Rebuild with the pinned toolchain from a clean " +:+
            "checkout before deploying."));;
  Ok data.

(** [selection.filter((name, index) => selection.indexOf(name) !== index)]. *)
Fixpoint index_of (x : string) (l : list string) : option nat :=
  match l with
  | [] => None
  | y :: l' => if String.eqb x y then Some O else S <$> index_of x l'
  end.
Definition duplicates (selection : list string) : list string :=
  snd <$> filter (λ p : nat * string, index_of p.2 selection ≠ Some p.1)
                 (imap pair selection).

(** [[...new Set(l)]]. *)
Definition unique (l : list string) : list string :=
  foldl (λ seen x, if existsb (String.eqb x) seen then seen else seen ++ [x]) [] l.

Definition plan_cell (repoRoot : string) (identities : list (string * ArtifactIdentity))
    (lockArgsLength : number) (name : string) : res PlannedCell :=
  identity ← from_option_or
               (Error ("unknown artifact '" +:+ name +:+ "'; known artifacts: " +:+
                       String.concat ", " (fst <$> identities)))
               (assoc name identities);
  data ← loadVerifiedArtifact repoRoot identity;
  capacity ← codeCellCapacityShannons (NInt (len data)) lockArgsLength;
  Ok {| pc_identity := identity; pc_data := data; pc_capacity := capacity |}.

Definition buildDeploymentPlan (repoRoot : string) (selection : list string)
    (lockArgsLength : number) : res DeploymentPlan :=
  throw_if (len selection =? 0) (Error "no artifacts selected for deployment");;
  throw_if (len (duplicates selection) >? 0) 
    (Error ("duplicate artifact in selection: " +:+
            String.concat ", " (unique (duplicates selection))));;
  identities ← readLocalArtifactIdentities repoRoot;
  cells ← mapM_res (plan_cell repoRoot identities lockArgsLength) selection;
  Ok {| dp_cells := cells;
        dp_total := foldl (λ total cell, total + pc_capacity cell) 0 cells |}.
End artifacts.

(** [whole.toLocaleString("en-US")] for a non-negative integer. *)
Fixpoint group_digits (rev : string) (n : nat) : string :=
  match rev with
  | EmptyString => ""
  | String c r =>
      if (n =? 3)%nat then String "," (String c (group_digits r 1))
      else String c (group_digits r (S n))
  end.
Definition str_rev (s : string) : string :=
  String.string_of_list_ascii (reverse (String.list_ascii_of_string s)).
Definition toLocaleString (z : Z) : string := str_rev (group_digits (str_rev (dec z)) 0).

Definition formatCkb (shannons : Z) : string :=
  let whole := Z.quot shannons 100000000 in
  let fraction := Z.rem shannons 100000000 in
  if fraction =? 0 then toLocaleString whole +:+ " CKB"
  else toLocaleString whole +:+ "." +:+
       strip_trailing "0" (padStart 8 "0" (dec fraction)) +:+ " CKB".

Example formatCkb_examples :
  formatCkb 12345678900000000 = "123,456,789 CKB" ∧ formatCkb 6200050000 = "62.0005 CKB" ∧
  formatCkb 99 = "0.00000099 CKB".
Proof. vm_compute. done. Qed.

(** ** Facts *)

Lemma cellCapacity_spec l t d :
  0 <= l → 0 <= d → (∀ n, t = Some n → 0 <= n) →
  cellCapacityShannons (NInt l) (NInt <$> t) (NInt d) =
    Ok ((8 + (33 + l) + match t with Some n => 33 + n | None => 0 end + d) * 100000000).
Proof.
  intros Hl Hd Ht. unfold cellCapacityShannons, bad_length. cbn [Number_isInteger negb orb num_lt].
  destruct t as [n|]; cbn [fmap option_fmap option_map].
  - pose proof (Ht n eq_refl). cbn [Number_isInteger negb orb num_lt].
    rewrite !(proj2 (Z.ltb_ge _ _)) by done. cbn [throw_if mbind res_bind num_Z].
    f_equal. unfold CAPACITY_FIELD_BYTES, SCRIPT_FIXED_BYTES, SHANNONS. lia.
  - rewrite !(proj2 (Z.ltb_ge _ _)) by done. cbn [throw_if mbind res_bind num_Z].
    f_equal. unfold CAPACITY_FIELD_BYTES, SCRIPT_FIXED_BYTES, SHANNONS. lia.
Qed.

Lemma index_of_lookup x l i : index_of x l = Some i → l !! i = Some x.
Proof.
  revert i. induction l as [|y l IH]; intros i; cbn; [done|].
  destruct (String.eqb_spec x y) as [->|]; [by intros [= <-]|].
  intros (j & Hj & ->)%fmap_Some. by apply IH.
Qed.

Lemma index_of_NoDup l i x : NoDup l → l !! i = Some x → index_of x l = Some i.
Proof.
  intros Hd Hi. assert (∃ j, index_of x l = Some j) as [j Hj].
  { apply list_elem_of_lookup_2 in Hi. clear Hd i. induction l as [|y l IH]; [by apply not_elem_of_nil in Hi|].
    cbn. destruct (String.eqb_spec x y); [eauto|].
    apply elem_of_cons in Hi as [?|Hi]; [done|]. destruct (IH Hi) as [j ->]. eauto. }
  rewrite Hj. f_equal. eapply NoDup_lookup; [done| |done]. by apply index_of_lookup.
Qed.

(** The filter finds a duplicate exactly when there is one. *)
Lemma duplicates_nil l : duplicates l = [] ↔ NoDup l.
Proof.
  unfold duplicates. split.
  - intros H. apply fmap_nil_inv in H. apply NoDup_alt. intros i j x Hi Hj.
    assert (Hx : ∀ k, l !! k = Some x → index_of x l = Some k).
    { intros k Hk. destruct (decide (index_of x l = Some k)) as [|Hn]; [done|].
      assert (Hin : (k, x) ∈ filter (λ p : nat * string, index_of p.2 l ≠ Some p.1) (imap pair l)).
      { apply list_elem_of_filter. split; [done|]. apply elem_of_lookup_imap. eauto. }
      rewrite H in Hin. by apply not_elem_of_nil in Hin. }
    apply Hx in Hi. apply Hx in Hj. congruence.
  - intros Hd. destruct (filter _ _) as [|[k x] fl] eqn:E; [done|exfalso].
    assert (Hin : (k, x) ∈ filter (λ p : nat * string, index_of p.2 l ≠ Some p.1) (imap pair l))
      by (rewrite E; by left).
    apply list_elem_of_filter in Hin as [Hn Hin].
    apply elem_of_lookup_imap in Hin as (i & y & [= -> ->] & Hi). apply Hn.
    by apply index_of_NoDup.
Qed.

Section plans.
Context {ccc : Ccc} {ccc_laws : CccLaws} {files : Files}.

(** An artifact whose bytes on disk have the recorded hash. *)
Definition verified_artifact (root : string) (identity : ArtifactIdentity) (data : bytes)
    : Prop :=
  ∃ path, resolve_path root (id_path identity) = Ok path ∧ read_bytes path = Ok data ∧
    id_dataHash identity = JStr (hexFromBytes (ckb_digest data)).

Lemma loadVerifiedArtifact_iff root identity data :
  loadVerifiedArtifact root identity = Ok data ↔ verified_artifact root identity data.
Proof.
  unfold loadVerifiedArtifact, verified_artifact, ckbDataHash. split.
  - intros H. inv_res. match goal with H : match ?m with _ => _ end = _ |- _ =>
      destruct m eqn:E; [|done] end. simplify_eq. bool_simpl.
    exists v. split; [done|]. split; [done|]. rewrite <- hashCkb_spec.
    by destruct (id_dataHash identity); try done; cbn in *; bool_simpl; subst.
  - intros (path & -> & Hr & Hh). cbn [mbind res_bind]. rewrite Hr. cbn [mbind res_bind].
    rewrite Hh, hashCkb_spec. cbn. by rewrite String.eqb_refl.
Qed.

Definition planned (root : string) (ids : list (string * ArtifactIdentity)) (l : Z)
    (name : string) (c : PlannedCell) : Prop :=
  assoc name ids = Some (pc_identity c) ∧
  verified_artifact root (pc_identity c) (pc_data c) ∧
  pc_capacity c = (41 + l + len (pc_data c)) * 100000000.

Lemma plan_cell_iff root ids l name c :
  0 <= l → plan_cell root ids (NInt l) name = Ok c ↔ planned root ids l name c.
Proof.
  intros Hl. unfold plan_cell, planned, codeCellCapacityShannons.
  assert (Hcap : ∀ data : bytes, cellCapacityShannons (NInt l) None (NInt (len data)) =
    Ok ((41 + l + len data) * 100000000)).
  { intros data. pose proof (len_nonneg data).
    assert (Hc := cellCapacity_spec l None (len data) Hl ltac:(done) ltac:(done)).
    cbn [fmap option_fmap option_map] in Hc. rewrite Hc. f_equal. lia. }
  split.
  - intros H. inv_res. rewrite Hcap in *. simplify_eq.
    match goal with H : loadVerifiedArtifact _ _ = _ |- _ =>
      apply loadVerifiedArtifact_iff in H end. done.
  - destruct c as [identity data cap]. cbn. intros (-> & Hv & ->).
    cbn [from_option_or mbind res_bind]. rewrite (proj2 (loadVerifiedArtifact_iff _ _ _) Hv).
    cbn [mbind res_bind]. by rewrite Hcap.
Qed.

Lemma foldl_total cells n :
  foldl (λ total cell, total + pc_capacity cell) n cells =
  n + foldr (λ c t, pc_capacity c + t) 0 cells.
Proof. revert n. induction cells as [|c cells IH]; intros n; cbn; [lia|]. rewrite IH. lia. Qed.

(** Deployment plans: a plan is built exactly for a non-empty selection
    without duplicates whose every artifact is recorded and has, on disk, the
    recorded data hash; the plan lists the artifacts in selection order, each with
    the minimum capacity of its code cell, and totals them. A stale or unknown
    binary never enters a plan. *)
Theorem deployment_plan_exact (root : string) (selection : list string) (l : Z)
    (plan : DeploymentPlan) :
  0 <= l →
  buildDeploymentPlan root selection (NInt l) = Ok plan ↔
  selection ≠ [] ∧ NoDup selection ∧
  ∃ ids, readLocalArtifactIdentities root = Ok ids ∧
    Forall2 (planned root ids l) selection (dp_cells plan) ∧
    dp_total plan = foldr (λ c t, pc_capacity c + t) 0 (dp_cells plan).
Proof.
  intros Hl. unfold buildDeploymentPlan.
  assert (Hiff : ∀ ids cells, mapM_res (plan_cell root ids (NInt l)) selection = Ok cells ↔
    Forall2 (planned root ids l) selection cells).
  { intros. rewrite mapM_res_Ok. split; apply Forall2_impl; intros; by apply plan_cell_iff. }
  split.
  - intros H. inv_res. bool_simpl.
    split; [intros ->; done|]. split.
    { apply duplicates_nil, len_zero. pose proof (len_nonneg (duplicates selection)). lia. }
    eexists. split; [done|]. split; [by apply Hiff|]. cbn. apply foldl_total.
  - intros (Hne & Hd & ids & Hids & Hcells & Ht). destruct plan as [cells total].
    cbn in *. rewrite (proj2 (Z.eqb_neq _ 0)) by (by rewrite len_zero).
    rewrite (proj2 (duplicates_nil _) Hd). cbn [throw_if mbind res_bind len length].
    rewrite Hids. cbn [mbind res_bind]. rewrite (proj2 (Hiff _ _) Hcells). cbn [mbind res_bind].
    by rewrite foldl_total, Ht.
Qed.
End plans.
