(* ===== verification/Bundle.v ===== *)
(** * The client bundle check ([demo/scripts/check-client-bundle.mjs])

    The build step that refuses a browser bundle with code of the server or of the
    deployment tools: over the text of the built files, the build's manifest and the list
    of the modules of every chunk. *)

From S2P Require Import Prelude Js JsString Regex Zod Json Artifacts.
From Stdlib Require Import Ascii.

Definition forbiddenContent : list string := [
  "CKB_PRIVKEY"; "SignerCkbPrivateKey"; "bootstrap-lib"; "child_process"; "state-exporter";
  "src/server"].

(** [(^|\/)] and [(\/|$)] of an unanchored pattern, as parts of an anchored one. *)
Definition any : re := RStar (RCls (λ _, true)).
Definition after_slash : re := RAlt REps (RSeq any (RLit "/")).
Definition before_slash : re := RAlt REps (RSeq (RLit "/") any).
(** [(?:\.[cm]?[jt]s)?$] *)
Definition script_suffix : re :=
  RAlt REps (RSeq (RLit ".") (RSeq (RAlt REps (RCls (λ c, Ascii.eqb c "c" || Ascii.eqb c "m")))
    (RSeq (RCls (λ c, Ascii.eqb c "j" || Ascii.eqb c "t")) (RLit "s")))).
Definition forbiddenModules : list re := [
  RSeq after_slash (RSeq (RLit "src/server") before_slash);
  RSeq after_slash (RSeq (RLit "tools/deploy") before_slash);
  RSeq after_slash (RSeq (RLit "bootstrap-lib") script_suffix);
  RSeq after_slash (RSeq (RLit "state-exporter") script_suffix);
  RSeq after_slash (RLit "node:child_process")].

Definition textExtensions : list string := [".css"; ".html"; ".js"; ".json"; ".map"; ".txt"].

(** From the last dot on. *)
Fixpoint extension (path : string) : string :=
  match path with
  | EmptyString => ""
  | String c path' =>
      if negb (String.eqb (extension path') "") then extension path'
      else if Ascii.eqb c "." then path else ""
  end.

Definition endsWith (p s : string) : bool :=
  (str_len p <=? str_len s)%nat && String.eqb (str_drop (str_len s - str_len p) s) p.

(** A directory entry; sockets and links are neither files nor directories. *)
Inductive entry :=
  | EFile (name : string)
  | EDirectory (name : string) (entries : list entry)
  | EOther (name : string).

Definition resolve_in (directory name : string) : string := directory +:+ "/" +:+ name.
Fixpoint entry_files (directory : string) (e : entry) : list string :=
  match e with
  | EFile name => [resolve_in directory name]
  | EDirectory name entries => flat_map (entry_files (resolve_in directory name)) entries
  | EOther _ => []
  end.
Definition filesUnder (directory : string) (entries : list entry) : list string :=
  flat_map (entry_files directory) entries.

(** A loop whose body may throw. *)
Fixpoint iter_res {A} (f : A → res unit) (l : list A) : res unit :=
  match l with
  | [] => Ok tt
  | x :: l' => f x;; iter_res f l'
  end.

Definition forbidden_term (text : string) : bool := existsb (λ term, includes term text) forbiddenContent.
Definition forbidden_module (moduleId : string) : bool :=
  forbidden_term moduleId || existsb (λ pattern, test pattern moduleId) forbiddenModules.

Definition MALFORMED_GRAPH : exn := Error "client module graph is malformed".

Section bundle.
Context {json : Json}.
(** [readFile(path, "utf8")], and [resolve(process.cwd(), "dist")]. *)
Context (readFile : string → res string) (distDirectory : string).

Definition manifestPath : string := resolve_in distDirectory ".vite/manifest.json".
Definition moduleGraphPath : string := resolve_in distDirectory ".vite/client-modules.json".

Definition skipped (path : string) : bool :=
  String.eqb path manifestPath || String.eqb path moduleGraphPath ||
  negb (existsb (String.eqb (extension path)) textExtensions).

Definition check_text (path : string) : res unit :=
  if skipped path then Ok tt
  else
    contents ← readFile path;
    iter_res (λ term, throw_if (includes term contents)
      (Error ("client bundle contains forbidden server term " +:+ term +:+ " in " +:+ path)))
      forbiddenContent.

Definition read_json_file (path missing : string) : res jsval :=
  match readFile path with
  | Throw _ => Throw (Error missing)
  | Ok text => from_option_or (Exn CSyntaxError "") (json_parse text)
  end.

(** The entries of the manifest; the result is the set of their files. *)
Definition manifest_entry (source : string) (chunk : jsval) : res (list string) :=
  throw_if (forbidden_term (JSON_stringify (JObj [("source", JStr source); ("chunk", chunk)])))
    (Error ("client module graph contains a server-only source: " +:+ source));;
  Ok (match prop chunk "file" with JStr file => [file] | _ => [] end).
Definition manifest_files (manifest : jsval) : res (list string) :=
  throw_if (negb (is_plain manifest)) (Error "Vite client manifest is malformed");;
  files ← mapM_res (λ e, manifest_entry e.1 e.2) (object_entries manifest);
  Ok (concat files).

(** The module names of a chunk, when all are strings. *)
Fixpoint strings_of (l : list jsval) : option (list string) :=
  match l with
  | [] => Some []
  | JStr s :: l' => cons s <$> strings_of l'
  | _ => None
  end.

(** A chunk: its file name, and whether it has the entry module of the browser. *)
Definition graph_chunk (chunk : jsval) : res (string * bool) :=
  match prop chunk "fileName", prop chunk "modules" with
  | JStr fileName, JArr modules =>
      modules ← from_option_or MALFORMED_GRAPH (strings_of modules);
      iter_res (λ moduleId, throw_if (forbidden_module moduleId)
        (Error ("client module graph contains server-only module " +:+ moduleId))) modules;;
      Ok (fileName, existsb (endsWith "src/client/main.tsx") modules)
  | _, _ => Throw MALFORMED_GRAPH
  end.
Definition graph_chunks (graph : jsval) : res (list (string * bool)) :=
  match prop graph "chunks" with
  | JArr (chunk :: chunks) =>
      throw_if (negb (is_num (prop graph "version") 1)) MALFORMED_GRAPH;;
      mapM_res graph_chunk (chunk :: chunks)
  | _ => Throw MALFORMED_GRAPH
  end.

(** [main], for the directory found at [distDirectory]; the result is the line it prints. *)
Definition check_bundle (dist : option (list entry)) : res string :=
  entries ← from_option_or (Error "demo/dist is missing; run npm run build first") dist;
  let files := filesUnder distDirectory entries in
  iter_res check_text files;;
  manifest ← read_json_file manifestPath "Vite client manifest is missing; run npm run build first";
  manifestFiles ← manifest_files manifest;
  graph ← read_json_file moduleGraphPath "client module graph is missing; run npm run build first";
  chunks ← graph_chunks graph;
  throw_if (negb (existsb snd chunks))
    (Error "client module graph does not contain the browser entry module");;
  iter_res (λ file, throw_if (negb (existsb (String.eqb file) (fst <$> chunks)))
    (Error ("client module graph has no evidence for manifest chunk " +:+ file))) manifestFiles;;
  Ok ("Client bundle boundary verified across " +:+ dec (len files) +:+ " files and " +:+
      dec (len chunks) +:+ " module-graph chunks").
End bundle.

(** ** Lemmas *)

Lemma iter_res_Ok {A} (f : A → res unit) l u : iter_res f l = Ok u ↔ ∀ x, x ∈ l → f x = Ok tt.
Proof.
  destruct u. induction l as [|x l IH]; cbn [iter_res].
  - split; [|done]. by intros _ x ?%not_elem_of_nil.
  - rewrite bind_Ok_iff. setoid_rewrite elem_of_cons. split.
    + intros ([] & Hx & H) y [->|Hy]; [done|]. by apply IH.
    + intros H. exists tt. split; [by apply H; left|]. apply IH. auto.
Qed.

Lemma startsWith_iff p s : startsWith p s = true ↔ ∃ b, s = p +:+ b.
Proof.
  revert s. induction p as [|c p IH]; intros s; cbn [startsWith].
  { split; [by exists s|done]. }
  destruct s as [|d s]; [split; [done|by intros [? [=]]]|].
  rewrite andb_true_iff, Ascii.eqb_eq, IH. split.
  - intros [-> [b ->]]. by exists b.
  - intros [b [= -> ->]]. eauto.
Qed.

(** [t] occurs in [s]. *)
Definition occurs (t s : string) : Prop := ∃ a b, s = a +:+ t +:+ b.

Lemma includes_iff t s : includes t s = true ↔ occurs t s.
Proof.
  unfold occurs. induction s as [|c s IH]; cbn [includes]; rewrite orb_true_iff, startsWith_iff.
  - split; [intros [[b Hb]|?]; [by exists "", b|done]|].
    intros (a & b & H). left. destruct a; [by exists b|discriminate H].
  - rewrite IH. split.
    + intros [[b ->]|(a & b & ->)]; [by exists "", b|by exists (String c a), b].
    + intros (a & b & H). destruct a as [|d a]; [left; by exists b|].
      injection H as -> ->. right. by exists a, b.
Qed.

Lemma endsWith_iff p s : endsWith p s = true ↔ ∃ a, s = a +:+ p.
Proof.
  unfold endsWith. rewrite andb_true_iff, Nat.leb_le, String.eqb_eq. split.
  - intros [_ <-]. exists (str_take (str_len s - str_len p) s). by rewrite str_take_drop.
  - intros [a ->]. rewrite str_len_app. split; [lia|].
    replace (str_len a + str_len p - str_len p)%nat with (str_len a) by lia. apply str_drop_app.
Qed.

(** The terms of the server, as the text of a bundle may not have them. *)
Definition server_term (text : string) : Prop :=
  occurs "CKB_PRIVKEY" text ∨ occurs "SignerCkbPrivateKey" text ∨ occurs "bootstrap-lib" text ∨
  occurs "child_process" text ∨ occurs "state-exporter" text ∨ occurs "src/server" text.

Lemma forbidden_term_iff text : forbidden_term text = true ↔ server_term text.
Proof.
  unfold forbidden_term, server_term. cbn [existsb forbiddenContent].
  rewrite !orb_true_iff, !includes_iff. naive_solver.
Qed.

Lemma str_all_true s : str_all (λ _, true) s = true.
Proof. by induction s. Qed.

(** A whole segment, or several, of a path. *)
Definition path_part (t s : string) : Prop :=
  ∃ a b, s = a +:+ t +:+ b ∧ (a = "" ∨ ∃ a', a = a' +:+ "/") ∧ (b = "" ∨ ∃ b', b = "/" +:+ b').

Lemma lang_after_slash s : lang after_slash s ↔ s = "" ∨ ∃ a, s = a +:+ "/".
Proof.
  unfold after_slash, any. rewrite lang_alt_iff, lang_eps_iff, lang_seq_iff. apply or_iff_compat_l.
  split.
  - intros (a & t & -> & _ & Ht). apply lang_lit_iff in Ht as ->. by exists a.
  - intros [a ->]. exists a, "/". split; [done|].
    split; [apply lang_star_cls_iff, str_all_true|by apply lang_lit_iff].
Qed.
Lemma lang_before_slash s : lang before_slash s ↔ s = "" ∨ ∃ b, s = "/" +:+ b.
Proof.
  unfold before_slash, any. rewrite lang_alt_iff, lang_eps_iff, lang_seq_iff. apply or_iff_compat_l.
  split.
  - intros (t & b & -> & Ht & _). apply lang_lit_iff in Ht as ->. by exists b.
  - intros [b ->]. exists "/", b. split; [done|].
    split; [by apply lang_lit_iff|apply lang_star_cls_iff, str_all_true].
Qed.

(** What any of the patterns reads contains its literal text. *)
Lemma lang_part t r s : lang (RSeq after_slash (RSeq (RLit t) r)) s → occurs t s.
Proof.
  intros (a & s1 & -> & _ & H)%lang_seq_iff. apply lang_seq_iff in H as (t' & b & -> & Ht & _).
  apply lang_lit_iff in Ht as ->. by exists a, b.
Qed.
Lemma lang_whole_part t s : lang (RSeq after_slash (RSeq (RLit t) before_slash)) s ↔ path_part t s.
Proof.
  rewrite lang_seq_iff. split.
  - intros (a & s1 & -> & Ha & H). apply lang_seq_iff in H as (t' & b & -> & Ht & Hb).
    apply lang_lit_iff in Ht as ->. apply lang_after_slash in Ha. apply lang_before_slash in Hb.
    by exists a, b.
  - intros (a & b & -> & Ha & Hb). exists a, (t +:+ b). split; [done|].
    split; [by apply lang_after_slash|]. apply lang_seq_iff. exists t, b. split; [done|].
    split; [by apply lang_lit_iff|by apply lang_before_slash].
Qed.

(** Four of the five patterns only match names that contain a forbidden term. *)
Lemma forbidden_module_iff m :
  forbidden_module m = true ↔ server_term m ∨ path_part "tools/deploy" m.
Proof.
  unfold forbidden_module. rewrite orb_true_iff, forbidden_term_iff.
  cbn [existsb forbiddenModules]. rewrite !orb_true_iff, !test_lang, (lang_whole_part "tools/deploy").
  split.
  - intros [H|[H|[H|[H|[H|[H|[=]]]]]]]; [by left| |by right| | |].
    + left. apply lang_whole_part in H as (a & b & -> & _). unfold server_term.
      do 5 right. by exists a, b.
    + left. apply lang_part in H. unfold server_term. tauto.
    + left. apply lang_part in H. unfold server_term. tauto.
    + left. unfold server_term. apply lang_seq_iff in H as (a & t & -> & _ & H).
      apply lang_lit_iff in H as ->. do 3 right. left. exists (a +:+ "node:"), "". change "node:child_process" with ("node:" +:+ "child_process").
      by rewrite str_app_nil_r, str_app_assoc.
  - tauto.
Qed.

Definition dotless (s : string) : bool := str_all (λ c, negb (Ascii.eqb c ".")) s.

Lemma extension_app a e : dotless e = true → extension (a +:+ "." +:+ e) = "." +:+ e.
Proof.
  intros He. assert (H : extension e = "").
  { revert He. induction e as [|c e IH]; [done|]. unfold dotless in *. cbn [str_all].
    intros [Hc He]%andb_true_iff. cbn [extension]. rewrite IH by done. cbn.
    by apply negb_true_iff in Hc as ->. }
  induction a as [|c a IH]; [cbn; by rewrite H|].
  change (String c a +:+ ?x) with (String c (a +:+ x)). cbn [extension]. by rewrite IH.
Qed.
Lemma extension_inv path :
  extension path = "" ∨
  ∃ a e, path = a +:+ "." +:+ e ∧ extension path = "." +:+ e.
Proof.
  induction path as [|c path [H|(a & e & -> & H)]]; [by left| |].
  - cbn [extension]. rewrite H. cbn. destruct (Ascii.eqb_spec c "."); [|by left]. subst.
    right. by exists "", path.
  - right. exists (String c a), e. split; [done|]. cbn [extension]. by rewrite H.
Qed.

(** A name whose last extension says that the file is text. *)
Definition text_file (path : string) : Prop :=
  ∃ a e, path = a +:+ "." +:+ e ∧ e ∈ ["css"; "html"; "js"; "json"; "map"; "txt"].

Lemma text_file_iff path :
  existsb (String.eqb (extension path)) textExtensions = true ↔ text_file path.
Proof.
  rewrite existsb_exists. split.
  - intros (x & Hin & He%String.eqb_eq). destruct (extension_inv path) as [H|(a & e & -> & H)].
    { rewrite H in He. subst x. vm_compute in Hin. by repeat destruct Hin as [Hin|Hin]. }
    rewrite H in He. subst x. exists a, e. split; [done|]. apply list_elem_of_In.
    revert Hin. cbn. intros Hin. repeat destruct Hin as [Hin|Hin]; try done;
      injection Hin as <-; tauto.
  - intros (a & e & -> & He). exists ("." +:+ e).
    assert (Hd : dotless e = true).
    { repeat (apply elem_of_cons in He as [->|He]; [done|]). by apply not_elem_of_nil in He. }
    rewrite extension_app, String.eqb_refl by done. split; [|done].
    repeat (apply elem_of_cons in He as [->|He]; [cbn; tauto|]). by apply not_elem_of_nil in He.
Qed.

(** The regular files below a directory. *)
Inductive file_in : string → list entry → string → Prop :=
  | FI_file d es name : EFile name ∈ es → file_in d es (d +:+ "/" +:+ name)
  | FI_directory d es name sub path :
      EDirectory name sub ∈ es → file_in (d +:+ "/" +:+ name) sub path → file_in d es path.

Lemma entry_ind' (P : entry → Prop) :
  (∀ name, P (EFile name)) → (∀ name es, Forall P es → P (EDirectory name es)) →
  (∀ name, P (EOther name)) → ∀ e, P e.
Proof.
  intros Hf Hd Ho. fix IH 1. intros [name|name es|name]; [apply Hf| |apply Ho].
  apply Hd. induction es as [|e es IHes]; constructor; [apply IH|exact IHes].
Qed.

Lemma file_in_mono d es es' path : (∀ e, e ∈ es → e ∈ es') → file_in d es path → file_in d es' path.
Proof. intros Hsub H. destruct H; [apply FI_file|eapply FI_directory]; eauto. Qed.

Lemma elem_of_flat_map {A B} (f : A → list B) l y : y ∈ flat_map f l ↔ ∃ x, x ∈ l ∧ y ∈ f x.
Proof.
  rewrite list_elem_of_In, in_flat_map. by setoid_rewrite list_elem_of_In.
Qed.

Lemma filesUnder_iff d es path : path ∈ filesUnder d es ↔ file_in d es path.
Proof.
  unfold filesUnder. rewrite elem_of_flat_map. split.
  - assert (H : ∀ e d, path ∈ entry_files d e → file_in d [e] path).
    { induction e as [name|name sub IH|name] using entry_ind'; intros d'; cbn [entry_files].
      - intros ->%list_elem_of_singleton. constructor. by left.
      - intros (e & He & Hp)%elem_of_flat_map. eapply FI_directory; [by left|].
        rewrite Forall_forall in IH. apply (file_in_mono _ [e]); [|apply (IH e); [by apply list_elem_of_In|done]].
        by intros e' ->%list_elem_of_singleton.
      - by intros ?%not_elem_of_nil. }
    intros (e & He & Hp). eapply file_in_mono; [|by apply H].
    by intros e' ->%list_elem_of_singleton.
  - induction 1 as [d es name H|d es name sub path H _ (e & He & Hp)].
    + exists (EFile name). split; [done|]. by left.
    + exists (EDirectory name sub). split; [done|]. cbn [entry_files].
      apply elem_of_flat_map. by exists e.
Qed.

(** ** The boundary *)

Section boundary.
Context {json : Json} (readFile : string → res string) (dist : string).
Let manifestPath := dist +:+ "/.vite/manifest.json".
Let moduleGraphPath := dist +:+ "/.vite/client-modules.json".

Definition reads_json (path : string) (v : jsval) : Prop :=
  ∃ text, readFile path = Ok text ∧ json_parse text = Some v.

(** The modules of a chunk, as the graph lists them. *)
Definition chunk_of (chunk : jsval) (fileName : string) (modules : list string) : Prop :=
  prop chunk "fileName" = JStr fileName ∧ prop chunk "modules" = JArr (JStr <$> modules).

(** What the check promises of a bundle. *)
Record client_only (es : list entry) (manifest : list (string * jsval))
    (graph : list (string * list string)) : Prop := {
  co_text : ∀ path, file_in dist es path → text_file path →
    path ≠ manifestPath → path ≠ moduleGraphPath →
    ∃ text, readFile path = Ok text ∧ ¬ server_term text;
  co_sources : ∀ source chunk, (source, chunk) ∈ manifest →
    ¬ server_term (JSON_stringify (JObj [("source", JStr source); ("chunk", chunk)]));
  co_modules : ∀ file modules m, (file, modules) ∈ graph → m ∈ modules →
    ¬ server_term m ∧ ¬ path_part "tools/deploy" m;
  co_entry : ∃ file modules a, (file, modules) ∈ graph ∧ (a +:+ "src/client/main.tsx") ∈ modules;
  co_evidence : ∀ source chunk file, (source, chunk) ∈ manifest →
    prop chunk "file" = JStr file → ∃ modules, (file, modules) ∈ graph }.

Lemma read_json_file_iff path missing v :
  read_json_file readFile path missing = Ok v ↔ reads_json path v.
Proof.
  unfold read_json_file, reads_json. destruct (readFile path) as [text|e]; [|naive_solver].
  rewrite from_option_or_Ok. naive_solver.
Qed.

Lemma check_text_iff path :
  check_text readFile dist path = Ok tt ↔
  (text_file path → path ≠ manifestPath → path ≠ moduleGraphPath →
   ∃ text, readFile path = Ok text ∧ ¬ server_term text).
Proof.
  unfold check_text. destruct (skipped dist path) eqn:E; unfold skipped in E.
  - split; [|done]. intros _ Ht Hm Hg. exfalso.
    rewrite !orb_true_iff, negb_true_iff, !String.eqb_eq in E.
    destruct E as [[E|E]|E]; [done..|]. apply text_file_iff in Ht. congruence.
  - rewrite !orb_false_iff, negb_false_iff, !String.eqb_neq, text_file_iff in E.
    destruct E as [[Hm Hg] Ht].
    assert (Hi : ∀ text, iter_res (λ term, throw_if (includes term text)
        (Error ("client bundle contains forbidden server term " +:+ term +:+ " in " +:+ path)))
        forbiddenContent = Ok tt ↔ ¬ server_term text).
    { intros text. rewrite iter_res_Ok, <- forbidden_term_iff, not_true_iff_false.
      unfold forbidden_term. setoid_rewrite throw_if_Ok.
      rewrite <- not_true_iff_false, existsb_exists. setoid_rewrite <- list_elem_of_In.
      setoid_rewrite <- not_true_iff_false. naive_solver. }
    rewrite bind_Ok_iff. setoid_rewrite Hi. naive_solver.
Qed.

(** The graph of version 1 that a value holds. *)
Definition graph_of (v : jsval) (graph : list (string * list string)) : Prop :=
  prop v "version" = JNum (NInt 1) ∧ graph ≠ [] ∧
  ∃ chunks, prop v "chunks" = JArr chunks ∧ Forall2 (λ c fm, chunk_of c fm.1 fm.2) chunks graph.

Lemma strings_of_iff l names : strings_of l = Some names ↔ l = JStr <$> names.
Proof.
  revert names. induction l as [|v l IH]; intros names; cbn [strings_of].
  { split; [by intros [= <-]|by destruct names]. }
  split.
  - destruct v; try done. destruct (strings_of l) as [ns|] eqn:E; [|done]. cbn.
    intros [= <-]. cbn. f_equal. by apply IH.
  - destruct names as [|n names]; [done|]. intros [= -> ->]. by rewrite (proj2 (IH names) eq_refl).
Qed.

Definition clean_modules (modules : list string) : Prop :=
  ∀ m, m ∈ modules → ¬ server_term m ∧ ¬ path_part "tools/deploy" m.

Lemma modules_checked (g : string → exn) modules :
  iter_res (λ m, throw_if (forbidden_module m) (g m)) modules = Ok tt ↔ clean_modules modules.
Proof.
  rewrite iter_res_Ok. unfold clean_modules. setoid_rewrite throw_if_Ok.
  setoid_rewrite <- not_true_iff_false. setoid_rewrite forbidden_module_iff.
  split; intros H m Hm; specialize (H m Hm); tauto.
Qed.

Lemma entry_module_iff modules :
  existsb (endsWith "src/client/main.tsx") modules = true ↔
  ∃ a, (a +:+ "src/client/main.tsx") ∈ modules.
Proof.
  rewrite existsb_exists. setoid_rewrite <- list_elem_of_In. setoid_rewrite endsWith_iff.
  naive_solver.
Qed.

Lemma graph_chunk_iff c p :
  graph_chunk c = Ok p ↔
  ∃ modules, chunk_of c p.1 modules ∧ clean_modules modules ∧
    p.2 = existsb (endsWith "src/client/main.tsx") modules.
Proof.
  unfold graph_chunk, chunk_of. split.
  - destruct (prop c "fileName") as [| | | |file| |]; try done.
    destruct (prop c "modules") as [| | | | |l|]; try done. intros H.
    apply bind_Ok_iff in H as (modules & Hs & H). apply bind_Ok_iff in H as ([] & Hi & [= <-]).
    apply from_option_or_Ok, strings_of_iff in Hs as ->. exists modules.
    split; [done|]. split; [exact (proj1 (modules_checked _ _) Hi)|done].
  - intros (modules & [-> ->] & Hc & Hp). destruct p as [file b]. cbn in *. subst b.
    rewrite (proj2 (strings_of_iff _ modules) eq_refl). cbn.
    by rewrite (proj2 (modules_checked _ modules) Hc).
Qed.

Lemma is_num_iff v k : is_num v k = true ↔ v = JNum (NInt k).
Proof. destruct v as [| | |[]| | |]; cbn; rewrite ?Z.eqb_eq; naive_solver. Qed.

Definition evidence (graph : list (string * list string)) : list (string * bool) :=
  (λ fm, (fm.1, existsb (endsWith "src/client/main.tsx") fm.2)) <$> graph.

Lemma graph_chunks_iff v chunks :
  graph_chunks v = Ok chunks ↔
  ∃ graph, graph_of v graph ∧ Forall (λ fm, clean_modules fm.2) graph ∧ chunks = evidence graph.
Proof.
  assert (Hiff : ∀ cs, mapM_res graph_chunk cs = Ok chunks ↔
    ∃ graph, Forall2 (λ c fm, chunk_of c fm.1 fm.2) cs graph ∧
      Forall (λ fm, clean_modules fm.2) graph ∧ chunks = evidence graph).
  { intros cs. rewrite mapM_res_Ok. split.
    - induction 1 as [|c p cs ps Hp _ (graph & Hg & Hc & ->)]; [by exists []|].
      apply graph_chunk_iff in Hp as (modules & Hm & Hcm & Hb).
      exists ((p.1, modules) :: graph). split; [by constructor|]. split; [by constructor|].
      destruct p as [file b]. cbn in *. by subst b.
    - intros (graph & Hg & Hc & ->). induction Hg as [|c fm cs graph Hm Hg IH]; [constructor|].
      apply Forall_cons_iff in Hc as [Hcm Hc]. constructor; [|by apply IH].
      apply graph_chunk_iff. by exists fm.2. }
  unfold graph_chunks, graph_of. split.
  - destruct (prop v "chunks") as [| | | | |[|c cs]|]; try done. intros H.
    apply bind_Ok_iff in H as (u & Hv & H). apply throw_if_Ok, negb_false_iff, is_num_iff in Hv.
    apply Hiff in H as (graph & Hg & Hc & ->). exists graph. repeat split; try done; [|by eauto].
    intros ->. inversion Hg.
  - intros (graph & (Hv & Hne & cs & -> & Hg) & Hc & ->).
    destruct cs as [|c cs]; [by inversion Hg; subst|]. rewrite (proj2 (is_num_iff _ _) Hv).
    apply Hiff. by exists graph.
Qed.

Definition clean_sources (manifest : list (string * jsval)) : Prop :=
  ∀ source chunk, (source, chunk) ∈ manifest →
    ¬ server_term (JSON_stringify (JObj [("source", JStr source); ("chunk", chunk)])).
(** The files that the entries of a manifest name. *)
Definition named_files (manifest : list (string * jsval)) : list string :=
  flat_map (λ e, match prop e.2 "file" with JStr file => [file] | _ => [] end) manifest.

Lemma manifest_files_iff v files :
  manifest_files v = Ok files ↔
  ∃ manifest, v = JObj manifest ∧ clean_sources manifest ∧ files = named_files manifest.
Proof.
  assert (Hiff : ∀ es fs, mapM_res (λ e, manifest_entry e.1 e.2) es = Ok fs →
    clean_sources es ∧ concat fs = named_files es).
  { intros es fs H%mapM_res_Ok. induction H as [|[source chunk] f es fs Hf _ [IH IHf]].
    { split; [by intros ? ? ?%not_elem_of_nil|done]. }
    unfold manifest_entry in Hf. inv_res.
    match goal with H : forbidden_term _ = false |- _ => rename H into Ht end.
    rewrite <- not_true_iff_false, forbidden_term_iff in Ht.
    split; [|unfold named_files in *; cbn; by rewrite IHf].
    intros s c [[= -> ->]|Hin]%elem_of_cons; [exact Ht|by apply IH]. }
  unfold manifest_files. split.
  - destruct v as [| | | | | |es]; try done. cbn.
    intros (fs & [? Hfs]%Hiff & [= <-])%bind_Ok_iff. by exists es.
  - intros (es & -> & Hs & ->). cbn. destruct (mapM_res _ es) as [fs|e] eqn:E.
    { apply Hiff in E as [_ <-]. done. }
    exfalso. revert e E Hs. clear Hiff. induction es as [|[source chunk] es IH]; [done|].
    intros e E Hs. assert (∃ f, manifest_entry source chunk = Ok f) as [f Hf].
    { unfold manifest_entry. rewrite (proj2 (throw_if_Ok _ _ tt)); [by eexists|].
      apply not_true_iff_false. rewrite forbidden_term_iff. apply Hs. by left. }
    cbn [mapM_res fst snd] in E. rewrite Hf in E. cbn in E.
    destruct (mapM_res _ es) as [fs|e']; [done|]. apply (IH e'); [done|]. intros s c Hin. apply Hs. by right.
Qed.

(** The line that a bundle of so many files and chunks prints. *)
Definition verified_line (files chunks : Z) : string :=
  "Client bundle boundary verified across " +:+ dec files +:+ " files and " +:+ dec chunks +:+
  " module-graph chunks".

Lemma evidence_file graph file :
  existsb (String.eqb file) (fst <$> evidence graph) = true ↔ ∃ modules, (file, modules) ∈ graph.
Proof.
  rewrite existsb_exists. setoid_rewrite <- list_elem_of_In. split.
  - intros (f & Hin & <-%String.eqb_eq). apply list_elem_of_fmap in Hin as ([f' b] & -> & Hin).
    apply list_elem_of_fmap in Hin as ([f modules] & [= -> ->] & Hin). by exists modules.
  - intros [modules Hin]. exists file. split; [|apply String.eqb_refl].
    apply list_elem_of_fmap. eexists (file, _). split; [done|].
    apply list_elem_of_fmap. by exists (file, modules).
Qed.

Lemma evidence_entry graph :
  existsb snd (evidence graph) = true ↔
  ∃ file modules a, (file, modules) ∈ graph ∧ (a +:+ "src/client/main.tsx") ∈ modules.
Proof.
  rewrite existsb_exists. setoid_rewrite <- list_elem_of_In. split.
  - intros ([f b] & Hin & Hb). apply list_elem_of_fmap in Hin as ([f' modules] & [= -> ->] & Hin).
    apply entry_module_iff in Hb as [a Ha]. by exists f', modules, a.
  - intros (file & modules & a & Hin & Ha). eexists (file, _). split.
    + apply list_elem_of_fmap. by exists (file, modules).
    + apply entry_module_iff. by exists a.
Qed.

Lemma client_only_iff es manifest graph :
  client_only es manifest graph ↔
  iter_res (check_text readFile dist) (filesUnder dist es) = Ok tt ∧ clean_sources manifest ∧
  Forall (λ fm, clean_modules fm.2) graph ∧ existsb snd (evidence graph) = true ∧
  ∀ file, file ∈ named_files manifest →
    existsb (String.eqb file) (fst <$> evidence graph) = true.
Proof.
  assert (Ht : iter_res (check_text readFile dist) (filesUnder dist es) = Ok tt ↔
    ∀ path, file_in dist es path → text_file path →
      path ≠ manifestPath → path ≠ moduleGraphPath →
      ∃ text, readFile path = Ok text ∧ ¬ server_term text).
  { rewrite iter_res_Ok. setoid_rewrite filesUnder_iff. by setoid_rewrite check_text_iff. }
  assert (Hf : (∀ file, file ∈ named_files manifest →
      existsb (String.eqb file) (fst <$> evidence graph) = true) ↔
    ∀ source chunk file, (source, chunk) ∈ manifest →
      prop chunk "file" = JStr file → ∃ modules, (file, modules) ∈ graph).
  { setoid_rewrite evidence_file. setoid_rewrite elem_of_flat_map. split.
    - intros H source chunk file Hin E. apply H. exists (source, chunk). split; [done|].
      cbn. rewrite E. by left.
    - intros H file ([source chunk] & Hin & E). cbn in E.
      destruct (prop chunk "file") as [| | | |f| |] eqn:Ef; try by apply not_elem_of_nil in E.
      apply list_elem_of_singleton in E as ->. by eapply H. }
  assert (Hm : Forall (λ fm, clean_modules fm.2) graph ↔
    ∀ file modules m, (file, modules) ∈ graph → m ∈ modules →
      ¬ server_term m ∧ ¬ path_part "tools/deploy" m).
  { rewrite list.Forall_forall. split.
    - intros H file modules m Hin. apply (H _ Hin).
    - intros H [file modules] Hin m. by eapply H. }
  rewrite Ht, Hf, Hm, evidence_entry. split; [intros []|intros (? & ? & ? & ? & ?)]; split; try done.
Qed.

Lemma check_bundle_iff (found : option (list entry)) (line : string) :
  check_bundle readFile dist found = Ok line ↔
  ∃ es manifest v graph, found = Some es ∧
    reads_json manifestPath (JObj manifest) ∧ reads_json moduleGraphPath v ∧ graph_of v graph ∧
    client_only es manifest graph ∧
    line = verified_line (len (filesUnder dist es)) (len graph).
Proof.
  unfold check_bundle. rewrite bind_Ok_iff. setoid_rewrite from_option_or_Ok. split.
  - intros (es & -> & H). apply bind_Ok_iff in H as ([] & Ht & H).
    apply bind_Ok_iff in H as (mv & Hm%read_json_file_iff & H).
    apply bind_Ok_iff in H as (files & (manifest & -> & Hs & ->)%manifest_files_iff & H).
    apply bind_Ok_iff in H as (v & Hg%read_json_file_iff & H).
    apply bind_Ok_iff in H as (chunks & (graph & Hgraph & Hc & ->)%graph_chunks_iff & H).
    apply bind_Ok_iff in H as (u & He%throw_if_Ok%negb_false_iff & H).
    apply bind_Ok_iff in H as ([] & Hf & [= <-]).
    exists es, manifest, v, graph. do 4 (split; [done|]). split.
    + apply client_only_iff. do 4 (split; [done|]). intros file Hin.
      by eapply iter_res_Ok, throw_if_Ok, negb_false_iff in Hf.
    + unfold verified_line, evidence, len. by rewrite length_fmap.
  - intros (es & manifest & v & graph & -> & Hm & Hg & Hgraph & Hc & ->).
    apply client_only_iff in Hc as (Ht & Hs & Hc & He & Hf).
    exists es. split; [done|]. rewrite Ht. cbn [mbind res_bind].
    rewrite (proj2 (read_json_file_iff _ _ _) Hm). cbn [mbind res_bind].
    rewrite (proj2 (manifest_files_iff _ (named_files manifest))) by eauto. cbn [mbind res_bind].
    rewrite (proj2 (read_json_file_iff _ _ _) Hg). cbn [mbind res_bind].
    rewrite (proj2 (graph_chunks_iff _ (evidence graph))) by eauto. cbn [mbind res_bind].
    rewrite He. cbn [negb throw_if mbind res_bind].
    rewrite (proj2 (iter_res_Ok _ _ tt)).
    + unfold verified_line, evidence, len. by rewrite length_fmap.
    + intros file Hin. by rewrite (Hf file Hin).
Qed.

(** C35 — The bundle check passes exactly when the built directory is there, every text file
    in it at any depth can be read and has no term of the server, the build's manifest is an
    object whose sources name none, the module graph is of version 1 and not empty, none of
    its modules has a term of the server or a path through the deploy tools, one is the entry
    of the browser client, and each file of the manifest has a chunk; it then reports how many
    files and chunks there are. *)
Theorem bundle_boundary (found : option (list entry)) (line : string) :
  check_bundle readFile dist found = Ok line ↔
  ∃ es manifest v graph, found = Some es ∧
    reads_json manifestPath (JObj manifest) ∧ reads_json moduleGraphPath v ∧ graph_of v graph ∧
    client_only es manifest graph ∧
    line = verified_line (len (filesUnder dist es)) (len graph).
Proof. apply check_bundle_iff. Qed.
End boundary.
