(* ===== verification/Build.v ===== *)
(** * The build of the client ([demo/vite.config.ts])

    The plugin that records which modules every chunk was built from, for the check of the
    bundle ([Bundle]), and what the two do together. The development proxy of the same file
    is [Api.proxied]. *)

From S2P Require Import Prelude Js JsString Regex Json JsonLaws Bundle.
From Stdlib Require Import Ascii.
From stdpp Require Import sorting.
#[local] Open Scope Z_scope.

(** An entry of the bundle that the build hands to the plugin. *)
Inductive output :=
  | OChunk (fileName : string) (isEntry : bool) (modules : list string)
  | OAsset (fileName : string).

(** [s.split("?", 1)[0]] *)
Fixpoint before_query (s : string) : string :=
  match s with
  | EmptyString => ""
  | String c s' => if Ascii.eqb c "?" then "" else String c (before_query s')
  end.

(** [relative(from, to)] of [node:path] on POSIX: both paths are resolved, against the
    working directory if they are not absolute, which leaves out empty segments and [.] and
    lets [..] take the segment before it back; the rest is by segments. *)
Fixpoint segments (s : string) : list string :=
  match s with
  | EmptyString => [""]
  | String c s' =>
      if Ascii.eqb c "/" then "" :: segments s'
      else match segments s' with x :: l => String c x :: l | [] => [String c ""] end
  end.
Fixpoint strip_common (a b : list string) : list string * list string :=
  match a, b with
  | x :: a', y :: b' => if String.eqb x y then strip_common a' b' else (a, b)
  | _, _ => (a, b)
  end.
Definition normal_step (done : list string) (segment : string) : list string :=
  if String.eqb segment "" || String.eqb segment "." then done
  else if String.eqb segment ".." then removelast done
  else done ++ [segment].
Definition normal (l : list string) : list string := foldl normal_step [] l.
Definition resolve (cwd path : string) : list string :=
  normal (segments (if startsWith "/" path then path else cwd +:+ "/" +:+ path)).
Definition relative (cwd from to : string) : string :=
  let '(up, down) := strip_common (resolve cwd from) (resolve cwd to) in
  String.concat "/" (((λ _, "..") <$> up) ++ down).

Definition forward_slashes : string → string := replaceAll BACKSLASH "/".

Definition publicModuleId (cwd moduleId : string) : string :=
  let normalized := forward_slashes moduleId in
  if startsWith (String (chr 0) "") normalized then normalized
  else
    let withoutQuery := before_query normalized in
    let local := forward_slashes (relative cwd cwd withoutQuery) in
    if startsWith "../" local then withoutQuery else local.

(** [modules.sort()], by code units. *)
Definition sort_strings : list string → list string :=
  merge_sort (λ a b, Is_true (String.leb a b)).

Definition chunk_evidence (cwd : string) (o : output) : option (string * bool * list string) :=
  match o with
  | OChunk fileName isEntry modules =>
      Some (fileName, isEntry, sort_strings (publicModuleId cwd <$> modules))
  | OAsset _ => None
  end.

Section evidence.
(** [localeCompare] of the platform's locale. *)
Context (localeCompare : string → string → Z).

Definition chunks_evidence (cwd : string) (bundle : list output) : list (string * bool * list string) :=
  merge_sort (λ a b : string * bool * list string, Is_true (localeCompare a.1.1 b.1.1 <=? 0)) (omap (chunk_evidence cwd) bundle).
Definition evidence_val (e : string * bool * list string) : jsval :=
  JObj [("fileName", JStr e.1.1); ("isEntry", JBool e.1.2); ("modules", JArr (JStr <$> e.2))].
(** The value, and the text of [.vite/client-modules.json]. *)
Definition client_modules (cwd : string) (bundle : list output) : jsval := JObj [
  ("version", JNum (NInt 1)); ("chunks", JArr (evidence_val <$> chunks_evidence cwd bundle))].
Definition clientModuleEvidence (cwd : string) (bundle : list output) : string :=
  JSON_stringify_pretty (client_modules cwd bundle) +:+ String (chr 10) "".

Definition manualChunks (moduleId : string) : option string :=
  if includes "/node_modules/@ckb-ccc/" moduleId then Some "ckb"
  else if includes "/node_modules/react" moduleId then Some "react"
  else if includes "/node_modules/zod/" moduleId then Some "validation"
  else None.

(** ** What is recorded *)

Lemma chunks_evidence_iff cwd bundle e :
  e ∈ chunks_evidence cwd bundle ↔ ∃ o, o ∈ bundle ∧ chunk_evidence cwd o = Some e.
Proof.
  unfold chunks_evidence. rewrite merge_sort_Permutation. apply list_elem_of_omap.
Qed.

Lemma sort_strings_iff x l : x ∈ sort_strings l ↔ x ∈ l.
Proof. unfold sort_strings. by rewrite merge_sort_Permutation. Qed.

Lemma client_modules_plain cwd bundle : json_plain (client_modules cwd bundle) = true.
Proof.
  assert (H : forallb json_plain (evidence_val <$> chunks_evidence cwd bundle) = true).
  { apply forallb_forall. intros v Hv.
    apply list_elem_of_In, list_elem_of_fmap in Hv as ([[file entry] modules] & -> & _).
    assert (Hm : forallb json_plain (JStr <$> modules) = true)
      by (by induction modules as [|m modules IH]).
    cbn. by rewrite Hm. }
  unfold client_modules. cbn -[chunks_evidence]. by rewrite H.
Qed.

(** The value reads as the graph of the check. *)
Lemma evidence_graph cwd bundle graph :
  graph_of (client_modules cwd bundle) graph →
  graph = (λ e, (e.1.1, e.2)) <$> chunks_evidence cwd bundle.
Proof.
  intros (_ & _ & chunks & [= <-] & H). revert graph H.
  induction (chunks_evidence cwd bundle) as [|e l IH]; intros graph H; inversion H; subst; [done|].
  cbn. f_equal; [|by apply IH]. destruct y as [file modules].
  match goal with H : chunk_of _ _ _ |- _ => destruct H as [[= <-] [= Hm]] end.
  f_equal. symmetry. revert Hm. apply list_fmap_eq_inj. by intros ? ? [= ->].
Qed.

(** ** What the build and its check do together *)

Definition plain_path (s : string) : bool :=
  str_all (λ c, negb (Ascii.eqb c BACKSLASH) && negb (Ascii.eqb c "?")) s.

Lemma forward_plain s : plain_path s = true → forward_slashes s = s.
Proof.
  intros H. unfold forward_slashes, replaceAll. eapply str_map_id; [|exact H].
  intros c Hc. apply andb_true_iff in Hc as [Hc%negb_true_iff _]. by rewrite Hc.
Qed.
Lemma forward_app a b : forward_slashes (a +:+ b) = forward_slashes a +:+ forward_slashes b.
Proof.
  unfold forward_slashes, replaceAll. induction a as [|c a IH]; [done|]. cbn [String.append str_map]. by rewrite IH.
Qed.
Lemma before_query_plain s rest :
  plain_path s = true → (rest = "" ∨ ∃ q, rest = "?" +:+ q) → before_query (s +:+ rest) = s.
Proof.
  intros Hs Hr. induction s as [|c s IH].
  - by destruct Hr as [->|[q ->]].
  - unfold plain_path in *. cbn [str_all] in Hs. apply andb_true_iff in Hs as [[_ Hc]%andb_true_iff Hs].
    apply negb_true_iff in Hc. cbn. by rewrite Hc, IH.
Qed.

Lemma segments_nonempty s : segments s ≠ [].
Proof.
  destruct s as [|c s]; cbn; [done|]. destruct (Ascii.eqb c "/"); [done|].
  by destruct (segments s).
Qed.
Lemma segments_app a b : segments (a +:+ "/" +:+ b) = segments a ++ segments b.
Proof.
  induction a as [|c a IH]; [done|]. change (String c a +:+ ?x) with (String c (a +:+ x)).
  cbn [segments]. rewrite IH. destruct (Ascii.eqb c "/"); [done|].
  pose proof (segments_nonempty a). by destruct (segments a).
Qed.
Lemma strip_common_app l a b : strip_common (l ++ a) (l ++ b) = strip_common a b.
Proof. induction l as [|x l IH]; [done|]. cbn. by rewrite String.eqb_refl. Qed.

(** A path of the server's code, however it is spelled, or of the deploy tools: it is
    below their directory once it is resolved, so a path that leaves the directory again
    is none. The evidence keeps the spelling of a path outside [demo], so the path of a
    deploy tool is one that begins with the directory. *)
Inductive server_path (root : string) : string → Prop :=
  | sp_server text rest :
      normal (segments ("/" +:+ text)) = normal (segments root) ++ ["demo"; "src"; "server"] ++ rest →
      server_path root ("/" +:+ text)
  | sp_deploy text rest :
      normal (segments (root +:+ "/tools/deploy/" +:+ text)) =
        normal (segments root) ++ ["tools"; "deploy"] ++ rest →
      server_path root (root +:+ "/tools/deploy/" +:+ text).

Lemma normal_demo root :
  (root = "" ∨ ∃ r, root = "/" +:+ r) →
  resolve (root +:+ "/demo") (root +:+ "/demo") = normal (segments root) ++ ["demo"].
Proof.
  intros Hroot. unfold resolve.
  assert (H : startsWith "/" (root +:+ "/demo") = true) by (by destruct Hroot as [->|[r ->]]).
  rewrite H. change "/demo" with ("/" +:+ "demo"). rewrite segments_app. unfold normal.
  by rewrite foldl_app.
Qed.


(** The path of such a module, as it is recorded. *)
Lemma relative_server root path :
  (root = "" ∨ ∃ r, root = "/" +:+ r) → server_path root path →
  let local := relative (root +:+ "/demo") (root +:+ "/demo") path in
  (∃ b, local = "src/server" +:+ b) ∨
  ((∃ b, local = "../tools" +:+ b) ∧ ∃ b, path = root +:+ "/tools/deploy/" +:+ b).
Proof.
  intros Hroot Hpath. cbn zeta. unfold relative. rewrite normal_demo by done. unfold resolve.
  destruct Hpath as [text rest H|text rest H].
  - left. assert (Hs : startsWith "/" ("/" +:+ text) = true) by done.
    rewrite Hs, H, strip_common_app. cbn.
    destruct rest as [|x l]; [by exists ""|]. by eexists.
  - right. assert (Hs : startsWith "/" (root +:+ "/tools/deploy/" +:+ text) = true)
      by (by destruct Hroot as [->|[r ->]]).
    rewrite Hs, H, strip_common_app. split; [|by exists text]. cbn. by eexists.
Qed.

(** The public name of such a module is refused by the check. *)
Lemma public_server root path query :
  (root = "" ∨ ∃ r, root = "/" +:+ r) → plain_path path = true → server_path root path →
  (query = "" ∨ ∃ q, query = "?" +:+ q) →
  let name := publicModuleId (root +:+ "/demo") (path +:+ query) in
  server_term name ∨ path_part "tools/deploy" name.
Proof.
  intros Hroot Hplain Hpath Hquery. unfold publicModuleId. cbn zeta.
  rewrite forward_app, (forward_plain path) by done.
  assert (Hslash : ∃ p, path = "/" +:+ p).
  { destruct Hpath; [by eexists|]. destruct Hroot as [->|[r ->]]; by eexists. }
  assert (Hzero : startsWith (String (chr 0) "") (path +:+ forward_slashes query) = false)
    by (by destruct Hslash as [p ->]).
  rewrite Hzero, before_query_plain; [|done|].
  2: { destruct Hquery as [->|[q ->]]; [by left|]. right. exists (forward_slashes q). done. }
  destruct (relative_server root path Hroot Hpath) as [[b ->]|[[b ->] [text ->]]];
    rewrite forward_app.
  - left. unfold server_term. do 5 right. exists "", (forward_slashes b). done.
  - right. exists (root +:+ "/"), ("/" +:+ text).
    split; [by rewrite str_app_assoc|]. split; right; eauto.
Qed.
End evidence.

Section refused.
Context {json : Json} {json_laws : JsonLaws} (localeCompare : string → string → Z).
Context (readFile : string → res string) (dist root : string).

Lemma module_refused bundle name found line :
  readFile (dist +:+ "/.vite/client-modules.json") =
    Ok (clientModuleEvidence localeCompare (root +:+ "/demo") bundle) →
  (∃ file entry modules id, OChunk file entry modules ∈ bundle ∧ id ∈ modules ∧
     publicModuleId (root +:+ "/demo") id = name) →
  server_term name ∨ path_part "tools/deploy" name →
  check_bundle readFile dist found ≠ Ok line.
Proof.
  intros Hread (file & entry & modules & id & Hc & Hid & Hname) Hbad H.
  apply check_bundle_iff in H as (es & manifest & v & graph & _ & _ & Hg & Hgraph & Hclean & _).
  destruct Hg as (text & Ht & Hv). rewrite Hread in Ht. injection Ht as <-.
  unfold clientModuleEvidence in Hv. rewrite json_parse_pretty in Hv by apply client_modules_plain.
  injection Hv as <-. apply evidence_graph in Hgraph as ->.
  destruct (co_modules _ _ _ _ _ Hclean file (sort_strings (publicModuleId (root +:+ "/demo") <$> modules)) name)
    as [H1 H2]; [| |tauto].
  - apply list_elem_of_fmap. eexists (file, entry, _). split; [reflexivity|].
    apply chunks_evidence_iff. by exists (OChunk file entry modules).
  - apply sort_strings_iff, list_elem_of_fmap. by exists id.
Qed.

(** C36 — No code of the server or of the deploy tools passes: when a chunk of the build has a
    module whose path is below [demo/src/server] once it is resolved, or one of
    [tools/deploy] that stays below it, with or without a query, the check of a build in
    which the recorded evidence is read back refuses the bundle. *)
Theorem server_code_refused bundle file entry modules path query
    (found : option (list Bundle.entry)) (line : string) :
  root = "" ∨ (∃ r, root = "/" +:+ r) →
  OChunk file entry modules ∈ bundle → (path +:+ query) ∈ modules →
  server_path root path → plain_path path = true → query = "" ∨ (∃ q, query = "?" +:+ q) →
  readFile (dist +:+ "/.vite/client-modules.json") =
    Ok (clientModuleEvidence localeCompare (root +:+ "/demo") bundle) →
  check_bundle readFile dist found ≠ Ok line.
Proof.
  intros Hroot Hc Hm Hpath Hplain Hq Hread. eapply module_refused; [exact Hread| |].
  - eexists _, _, _, _. split; [exact Hc|]. split; [exact Hm|reflexivity].
  - by apply public_server.
Qed.
End refused.
