(* ===== verification/Deployment.v ===== *)
(** * Deployment manifests ([tools/deploy/src/deployment.ts])

    The command line of the deployment tool, the merge of newly published cells into
    the recorded manifest, and the publication loop; with the theorems that relate
    the recorded manifest to the one the demo validates. *)

From S2P Require Import Prelude Js JsString Regex Bytes Zod Constants Schemas Effects.
From S2P Require Import Ccc CccRef Manifests Artifacts.

Definition PHASED_P256_ARTIFACTS : list string := ["account_lock"; "verifier_p256"].
Definition ALL_ARTIFACTS : list string :=
  ["account_lock"; "verifier_p256"; "verifier_mldsa65"; "verifier_slhdsa_sha2_128s"].

Record DeployedRecord := {
  dr_name : string; dr_dataHash : string; dr_hashType : string; dr_txHash : string;
  dr_index : number; dr_capacityShannons : string }.

(** ** Arguments *)

Record DeploymentArgs := { da_broadcast : bool; da_selection : list string }.

(** The loop over [argv]; the option after [--only] is consumed with it. *)
Fixpoint parse_args (argv : list string) (broadcast all : bool) (only : option string)
    : res (bool * bool * option string) :=
  match argv with
  | [] => Ok (broadcast, all, only)
  | argument :: argv' =>
      if String.eqb argument "--broadcast" then parse_args argv' true all only
      else if String.eqb argument "--all" then parse_args argv' broadcast true only
      else if String.eqb argument "--only" then
        throw_if (bool_decide (only ≠ None)) (Error "--only may be specified once");;
        match argv' with
        | [] => Throw (Error "--only requires an artifact name")
        | name :: argv'' =>
            throw_if (startsWith "--" name) (Error "--only requires an artifact name");;
            parse_args argv'' broadcast all (Some name)
        end
      else Throw (Error ("unknown argument '" +:+ argument +:+ "'"))
  end.

Definition parseDeploymentArgs (argv : list string) : res DeploymentArgs :=
  '(broadcast, all, only) ← parse_args argv false false None;
  throw_if (all && bool_decide (only ≠ None)) (Error "cannot combine --all with --only");;
  match only with
  | None => Ok {| da_broadcast := broadcast;
                  da_selection := if all : bool then ALL_ARTIFACTS else PHASED_P256_ARTIFACTS |}
  | Some name =>
      throw_if (negb (existsb (String.eqb name) ALL_ARTIFACTS))
        (Error ("unknown artifact '" +:+ name +:+ "'"));;
      Ok {| da_broadcast := broadcast; da_selection := [name] |}
  end.

(** ** Manifests *)

(** [/^0x[0-9a-f]{64}$/] and [/^[1-9][0-9]*$/]. *)
Definition HASH_TEXT : re := hex_re "0x" 64.
Definition POSITIVE_DECIMAL : re := RSeq (RCls is_digit1) (RStar (RCls is_digit)).
Definition str_matches (r : re) (v : jsval) : bool :=
  match v with JStr s => test r s | _ => false end.
Definition safe_index (v : jsval) : bool :=
  match v with JNum n => Number_isSafeInteger n && negb (num_lt n 0) | _ => false end.

(** [deployedRecord(value, name)] on a parsed value. *)
Definition deployedRecord (value : jsval) (name : string) : res jsval :=
  throw_if (negb (is_plain value) || negb (is_str (prop value "name") name) ||
            negb (str_matches HASH_TEXT (prop value "dataHash")) ||
            negb (is_str (prop value "hashType") "data2") ||
            negb (str_matches HASH_TEXT (prop value "txHash")) ||
            negb (safe_index (prop value "index")) ||
            negb (str_matches POSITIVE_DECIMAL (prop value "capacityShannons")))
    (Error ("existing deployment manifest has an invalid '" +:+ name +:+ "' record"));;
  Ok value.

Definition MALFORMED : exn := Error "existing deployment manifest is malformed".

Fixpoint checked_records (entries : list (string * jsval)) : res (list (string * jsval)) :=
  match entries with
  | [] => Ok []
  | (name, record) :: entries' =>
      r ← deployedRecord record name;
      rest ← checked_records entries';
      Ok ((name, r) :: rest)
  end.

Definition existingArtifacts (value : jsval) : res (list (string * jsval)) :=
  if is_undef value then Ok []
  else
    throw_if (negb (is_plain value) || negb (is_num (prop value "schema_version") 1) ||
              negb (is_str (prop value "network") "testnet") ||
              negb (is_bool (prop value "published") true) ||
              negb (is_str (prop value "hash_type") "data2") ||
              (match prop value "note" with JStr _ => false | _ => true end) ||
              negb (is_plain (prop value "artifacts"))) MALFORMED;;
    checked_records (object_entries (prop value "artifacts")).

Definition record_val (r : DeployedRecord) : jsval := JObj [
  ("name", JStr (dr_name r)); ("dataHash", JStr (dr_dataHash r));
  ("hashType", JStr (dr_hashType r)); ("txHash", JStr (dr_txHash r));
  ("index", JNum (dr_index r)); ("capacityShannons", JStr (dr_capacityShannons r))].

(** [artifacts[record.name] = deployedRecord(record, record.name)] for each record. *)
Fixpoint merge_records (artifacts : list (string * jsval)) (records : list DeployedRecord)
    : res (list (string * jsval)) :=
  match records with
  | [] => Ok artifacts
  | record :: records' =>
      r ← deployedRecord (record_val record) (dr_name record);
      merge_records (override artifacts (dr_name record, r)) records'
  end.

Definition NOTE : string :=
  "Outpoints recorded by tools/deploy. Each cell's on-chain data hash was " +:+
  "re-read and verified after commitment.".

Definition manifest_val (artifacts : list (string * jsval)) : jsval := JObj [
  ("schema_version", JNum (NInt 1)); ("network", JStr "testnet"); ("published", JBool true);
  ("hash_type", JStr "data2"); ("note", JStr NOTE); ("artifacts", JObj artifacts)].

Definition buildDeploymentManifest (existing : jsval) (records : list DeployedRecord)
    : res jsval :=
  artifacts ← existingArtifacts existing;
  artifacts ← merge_records artifacts records;
  Ok (manifest_val artifacts).

Definition publishDeployment {W Ev T} (existing : jsval) (cells : list T)
    (publish : T → eff W Ev DeployedRecord) : eff W Ev jsval :=
  validated ← lift (buildDeploymentManifest existing []);
  records ← mapM_eff publish cells;
  lift (buildDeploymentManifest validated records).

(** ** Facts *)

Record record_ok (r : DeployedRecord) : Prop := {
  ro_dataHash : hash32 (dr_dataHash r);
  ro_hashType : dr_hashType r = "data2";
  ro_txHash : hash32 (dr_txHash r);
  ro_index : ∃ i, dr_index r = NInt i ∧ index_ok i;
  ro_capacity : test POSITIVE_DECIMAL (dr_capacityShannons r) = true }.

Lemma deployedRecord_value v n v' : deployedRecord v n = Ok v' → v' = v.
Proof. unfold deployedRecord. intros H. inv_res. done. Qed.

Lemma safe_index_iff v :
  safe_index v = true ↔ ∃ i, v = JNum (NInt i) ∧ index_ok i.
Proof.
  unfold index_ok. split.
  - destruct v as [| | |n| | |]; try done. destruct n as [i| | | |]; try done.
    cbn. intros H. bool_simpl. exists i. split; [done|]. lia.
  - intros (i & -> & Hi). cbn. rewrite (proj2 (Z.leb_le _ _)), (proj2 (Z.ltb_ge _ _)) by lia.
    done.
Qed.

Lemma hash_text_iff s : test HASH_TEXT s = true ↔ hash32 s.
Proof. apply test_prefixed. Qed.

Lemma deployedRecord_record r u :
  deployedRecord (record_val r) (dr_name r) = Ok u ↔ record_ok r ∧ u = record_val r.
Proof.
  unfold deployedRecord. cbn [is_plain record_val]. rewrite bind_Ok_iff.
  setoid_rewrite throw_if_Ok. split.
  - intros (_ & H & [= <-]). split; [|done].
    cbn -[test safe_index HASH_TEXT POSITIVE_DECIMAL] in H. bool_simpl.
    constructor; [by apply hash_text_iff|done|by apply hash_text_iff| |done].
    match goal with H : safe_index _ = true |- _ =>
        apply safe_index_iff in H as (i & [= ->] & ?) end. eauto.
  - intros [[Hd Ht Htx (i & Hi & Hio) Hc] ->]. exists tt. split; [|done].
    cbn -[test safe_index HASH_TEXT POSITIVE_DECIMAL].
    rewrite String.eqb_refl, Ht, !(proj2 (hash_text_iff _)), Hc by done.
    rewrite (proj2 (safe_index_iff _)) by (rewrite Hi; eauto). done.
Qed.

Lemma checked_records_Ok entries rs :
  checked_records entries = Ok rs ↔
  rs = entries ∧ Forall (λ e, deployedRecord e.2 e.1 = Ok e.2) entries.
Proof.
  revert rs. induction entries as [|[n v] es IH]; intros rs; cbn [checked_records].
  - split; [intros [= <-]; by split; [|constructor] | by intros [-> _]].
  - rewrite List.Forall_cons_iff. cbn [fst snd]. split.
    + intros H. inv_res. match goal with H : checked_records _ = Ok _ |- _ =>
        apply IH in H as [-> ?] end.
      match goal with H : deployedRecord _ _ = Ok ?x |- _ =>
        pose proof (deployedRecord_value _ _ _ H); subst x end. done.
    + intros [-> [-> H]]. cbn [mbind res_bind].
      by rewrite (proj2 (IH es)) by done.
Qed.

(** The artifacts after merging: [records] override, later ones first. *)
Definition merged (artifacts : list (string * jsval)) (records : list DeployedRecord)
    : list (string * jsval) :=
  foldl (λ a r, override a (dr_name r, record_val r)) artifacts records.

Lemma merge_records_Ok artifacts records out :
  merge_records artifacts records = Ok out ↔
  Forall record_ok records ∧ out = merged artifacts records.
Proof.
  revert artifacts. induction records as [|r rs IH]; intros artifacts; cbn [merge_records merged foldl].
  - split; [by intros [= <-]; split; [constructor|] | by intros [_ ->]].
  - rewrite bind_Ok_iff, List.Forall_cons_iff. setoid_rewrite IH.
    setoid_rewrite deployedRecord_record. split.
    + intros (x & [Hr ->] & Hrs & ->). done.
    + intros [[Hr Hrs] ->]. eauto.
Qed.

Lemma assoc_override {A} (l : list (string * A)) k v k' :
  assoc k' (override l (k, v)) = if String.eqb k' k then Some v else assoc k' l.
Proof.
  unfold override. cbn [fst]. destruct (assoc k l) as [w|] eqn:E.
  - induction l as [|[k1 v1] l IH]; [done|]. cbn in E |- *.
    destruct (String.eqb_spec k k1) as [->|Hne].
    + cbn. destruct (String.eqb_spec k' k1) as [->|Hne']; [done|].
      clear E IH. induction l as [|[k2 v2] l IH]; [done|]. cbn.
      destruct (String.eqb_spec k1 k2) as [->|]; cbn.
      * rewrite IH. by destruct (String.eqb_spec k' k2).
      * by destruct (String.eqb k' k2).
    + cbn. rewrite IH by done. destruct (String.eqb_spec k' k1) as [->|]; [|done].
      by destruct (String.eqb_spec k1 k).
  - induction l as [|[k1 v1] l IH]; cbn in E |- *.
    + by destruct (String.eqb k' k).
    + destruct (String.eqb_spec k k1) as [->|Hne]; [done|].
      rewrite IH by done. destruct (String.eqb_spec k' k1) as [->|]; [|done].
      by destruct (String.eqb_spec k1 k).
Qed.

(** The last record of a name wins; other names keep their recorded value. *)
Lemma assoc_merged artifacts records name :
  assoc name (merged artifacts records) =
  match list.last (filter (λ r, dr_name r = name) records) with
  | Some r => Some (record_val r)
  | None => assoc name artifacts
  end.
Proof.
  unfold merged. revert artifacts. induction records as [|r rs IH] using rev_ind; intros artifacts; [done|].
  rewrite foldl_app, list.filter_app. cbn [foldl]. rewrite assoc_override, IH.
  destruct (String.eqb_spec name (dr_name r)) as [->|Hne].
  - rewrite filter_cons_True by done. rewrite filter_nil. by rewrite last_snoc.
  - rewrite filter_cons_False by done. by rewrite filter_nil, app_nil_r.
Qed.

(** ** Arguments *)

Lemma parse_args_inv argv b a o b' a' o' :
  parse_args argv b a o = Ok (b', a', o') →
  (b' = true → b = true ∨ "--broadcast" ∈ argv) ∧ (∀ n, o' = Some n → o = Some n ∨ n ∈ argv).
Proof.
  remember (length argv) as k eqn:Hk. revert argv b a o Hk.
  induction k as [k IH] using lt_wf_ind. intros [|x argv] b a o -> H.
  - injection H as -> -> ->. auto.
  - cbn [parse_args] in H.
    destruct (String.eqb_spec x "--broadcast") as [->|_].
    { edestruct (IH (length argv)) as [Hx Hy]; [simpl; lia|done|exact H|].
      split; [right; by left|]. intros n Hn. destruct (Hy n Hn); [auto|]. right. by right. }
    destruct (String.eqb_spec x "--all") as [->|_].
    { edestruct (IH (length argv)) as [Hx Hy]; [simpl; lia|done|exact H|].
      split; [intros Hb; destruct (Hx Hb); [auto|]; right; by right|].
      intros n Hn. destruct (Hy n Hn); [auto|]. right. by right. }
    destruct (String.eqb_spec x "--only") as [->|_]; [|done].
    inv_res. destruct argv as [|n argv]; [done|]. inv_res.
    edestruct (IH (length argv)) as [Hx Hy]; [simpl; lia|done|eassumption|].
    split; [intros Hb; destruct (Hx Hb); [auto|]; right; do 2 right; done|].
    intros n' Hn. right. destruct (Hy n' Hn) as [[= ->]|]; [right; by left | by do 2 right].
Qed.

(** Command line: an accepted command line selects a non-empty list of
    distinct known artifacts, and asks for a broadcast only when the flag was given;
    without arguments it is a dry run of the phased selection. *)
Theorem deployment_args_safe (argv : list string) (parsed : DeploymentArgs) :
  parseDeploymentArgs argv = Ok parsed →
  da_selection parsed ≠ [] ∧ NoDup (da_selection parsed) ∧
  Forall (λ n, n ∈ ALL_ARTIFACTS) (da_selection parsed) ∧
  (da_broadcast parsed = true → "--broadcast" ∈ argv) ∧
  (argv = [] → parsed = {| da_broadcast := false; da_selection := PHASED_P256_ARTIFACTS |}).
Proof.
  intros H. assert (Hd : argv = [] →
    parsed = {| da_broadcast := false; da_selection := PHASED_P256_ARTIFACTS |}).
  { intros ->. by injection H as <-. }
  unfold parseDeploymentArgs in H. apply bind_Ok_iff in H as ([[b a] o] & Hp & H).
  apply parse_args_inv in Hp as [Hb _].
  assert (Hflag : b = true → "--broadcast" ∈ argv) by (intros E; by destruct (Hb E)).
  apply bind_Ok_iff in H as (u & _ & H). destruct o as [n|].
  - inv_res. bool_simpl. cbn [da_selection da_broadcast].
    match goal with H : existsb _ _ = true |- _ =>
      apply existsb_exists in H as (x & Hin & ->%String.eqb_eq) end.
    split; [done|]. split; [apply NoDup_singleton|].
    split; [constructor; [by apply list_elem_of_In|constructor]|]. done.
  - injection H as <-. cbn [da_selection da_broadcast].
    assert (∀ l : list string, bool_decide (NoDup l) = true → NoDup l)
      by (intros ?; apply bool_decide_eq_true).
    assert (∀ l, bool_decide (Forall (λ n, n ∈ ALL_ARTIFACTS) l) = true →
      Forall (λ n, n ∈ ALL_ARTIFACTS) l) by (intros ?; apply bool_decide_eq_true).
    destruct a; (split; [done|]); split; auto.
Qed.

(** ** Merging *)

Definition recorded_ok (artifacts : list (string * jsval)) : Prop :=
  Forall (λ e, deployedRecord e.2 e.1 = Ok e.2) artifacts.

Lemma override_ok artifacts r :
  recorded_ok artifacts → record_ok r →
  recorded_ok (override artifacts (dr_name r, record_val r)).
Proof.
  intros Ha Hr. assert (Hv : deployedRecord (record_val r) (dr_name r) = Ok (record_val r))
    by by apply deployedRecord_record.
  unfold override, recorded_ok in *. cbn [fst]. destruct (assoc _ _).
  - apply Forall_fmap. revert Ha. apply Forall_impl. intros [n v] Hn. cbn in *.
    by destruct (String.eqb _ _).
  - apply Forall_app. split; [done|]. by repeat constructor.
Qed.

Lemma merged_ok artifacts records :
  recorded_ok artifacts → Forall record_ok records → recorded_ok (merged artifacts records).
Proof.
  unfold merged. revert artifacts. induction records as [|r rs IH]; intros a Ha Hr; [done|].
  apply List.Forall_cons_iff in Hr as [Hr Hrs]. cbn [foldl]. apply IH; [|done].
  by apply override_ok.
Qed.

Lemma existing_manifest artifacts :
  recorded_ok artifacts → existingArtifacts (manifest_val artifacts) = Ok artifacts.
Proof.
  intros H. unfold existingArtifacts. cbn -[checked_records].
  by rewrite (proj2 (checked_records_Ok artifacts artifacts)).
Qed.

Lemma existingArtifacts_ok v artifacts :
  existingArtifacts v = Ok artifacts → recorded_ok artifacts.
Proof.
  unfold existingArtifacts. destruct (is_undef v); [intros [= <-]; constructor|].
  intros H. inv_res. match goal with H : checked_records _ = Ok _ |- _ =>
    apply checked_records_Ok in H as [-> ?] end. done.
Qed.

(** Manifest merge: building a manifest succeeds exactly when the recorded one
    (if any) is well-formed and every new record is valid; each artifact name then
    maps to its last new record, or keeps its recorded entry; and the result is a
    well-formed manifest that merging nothing into leaves unchanged. *)
Theorem manifest_merge (existing : jsval) (records : list DeployedRecord) (m : jsval) :
  buildDeploymentManifest existing records = Ok m ↔
  ∃ recorded, existingArtifacts existing = Ok recorded ∧ Forall record_ok records ∧
    m = manifest_val (merged recorded records) ∧
    (∀ name, assoc name (merged recorded records) =
       match list.last (filter (λ r, dr_name r = name) records) with
       | Some r => Some (record_val r)
       | None => assoc name recorded
       end) ∧
    buildDeploymentManifest m [] = Ok m.
Proof.
  unfold buildDeploymentManifest. split.
  - intros H. inv_res. match goal with H : merge_records _ _ = Ok _ |- _ =>
      apply merge_records_Ok in H as [Hr ->] end.
    exists v. split; [done|]. split; [done|]. split; [done|].
    split; [intros; apply assoc_merged|].
    rewrite existing_manifest; [done|]. apply merged_ok; [|done].
    by eapply existingArtifacts_ok.
  - intros (a & -> & Hr & -> & _ & _). cbn [mbind res_bind].
    by rewrite (proj2 (merge_records_Ok a records (merged a records))).
Qed.

Lemma publish_validated existing records v :
  buildDeploymentManifest existing [] = Ok v →
  buildDeploymentManifest v records = buildDeploymentManifest existing records.
Proof.
  unfold buildDeploymentManifest. intros H. inv_res. cbn [merge_records] in *. simplify_eq.
  match goal with H : existingArtifacts existing = Ok ?x |- _ =>
    pose proof (existingArtifacts_ok _ _ H) as Hok; rewrite H end.
  by rewrite existing_manifest.
Qed.

(** Publication: nothing is published against a malformed manifest; otherwise
    the cells are published in order, and a successful run returns the merge of the
    recorded manifest with exactly the records the publisher returned. *)
Theorem publish_deployment_sound {W Ev T} (existing : jsval) (cells : list T)
    (publish : T → eff W Ev DeployedRecord) (w w' : world W Ev) (r : res jsval) :
  publishDeployment existing cells publish w = (r, w') →
  ((∃ e, buildDeploymentManifest existing [] = Throw e ∧ r = Throw e ∧ w' = w) ∨
   (∃ e, mapM_eff publish cells w = (Throw e, w') ∧ r = Throw e) ∨
   (∃ records, mapM_eff publish cells w = (Ok records, w') ∧
      r = buildDeploymentManifest existing records)).
Proof.
  unfold publishDeployment, lift, mbind, eff_bind.
  destruct (buildDeploymentManifest existing []) as [v|e] eqn:E.
  2: { intros [= <- <-]. eauto. }
  destruct (mapM_eff publish cells w) as [[records|e] w1] eqn:Em.
  2: { intros [= <- <-]. eauto 6. }
  intros [= <- <-]. right. right. exists records. split; [done|].
  by apply publish_validated.
Qed.

(** ** The manifest as the demo reads it *)

Section demo.
Context {zod : Zod} {zod_laws : ZodLaws} {ccc : Ccc} {ccc_laws : CccLaws}.

Definition artifact_record (r : DeployedRecord) : DeploymentArtifact := {|
  da_name := dr_name r; da_dataHash := dr_dataHash r; da_hashType := dr_hashType r;
  da_txHash := dr_txHash r; da_index := num_Z (dr_index r);
  da_capacityShannons := dr_capacityShannons r |}.

Lemma positive_decimal s : test POSITIVE_DECIMAL s = true → decimal s.
Proof.
  unfold decimal. rewrite !test_lang. intros H. unfold DECIMAL.
  apply lang_alt_iff. by right.
Qed.

Lemma artifact_of_record r :
  record_ok r → artifact_wf (dr_name r) (artifact_record r) ∧
    artifact_val (artifact_record r) = record_val r.
Proof.
  intros [Hd Ht Htx (i & Hi & Hio) Hc]. unfold artifact_record, artifact_val, record_val.
  cbn. rewrite Hi. split; [|done]. cbn [num_Z].
  constructor; try done. by apply positive_decimal.
Qed.

Definition demo_manifest (lock verifier : DeployedRecord) : DeploymentManifest := {|
  dm_schema_version := 1; dm_network := "testnet"; dm_published := true;
  dm_hash_type := "data2"; dm_note := Some NOTE; dm_account_lock := artifact_record lock;
  dm_verifier_p256 := artifact_record verifier |}.

Lemma strict_refuses shape k fs v :
  assoc k fs = Some v → has_key k shape = false → safeParse (ZObject shape true) (JObj fs) = None.
Proof.
  intros Ha Hk. rewrite sp_object. cbn [andb].
  assert (forallb (λ kv, has_key kv.1 shape) fs = false) as ->; [|done].
  induction fs as [|[k' v'] fs IH]; [done|]. cbn in Ha |- *.
  destruct (String.eqb_spec k k') as [->|_]; [by rewrite Hk|].
  rewrite IH by done. apply andb_false_r.
Qed.

Definition artifacts_schema : schema :=
  ZObject [("account_lock", artifact_schema "account_lock");
           ("verifier_p256", artifact_schema "verifier_p256")] true.

Lemma manifest_refused artifacts :
  safeParse artifacts_schema (JObj artifacts) = None →
  safeParse DeploymentManifestSchema (manifest_val artifacts) = None.
Proof.
  intros Hn. rewrite deployment_schema_eq, sp_object.
  change (ZObject [("account_lock", _); _] true) with artifacts_schema.
  unfold manifest_val. cbn -[safeParse artifacts_schema NOTE]. rewrite Hn.
  repeat match goal with |- context [safeParse ?s ?v] => destruct (safeParse s v) end; done.
Qed.

(** C40 — From deployment to demo: the manifest the tool records for the phased
    selection is accepted by the demo's validator, which takes the account lock and
    the verifier from the published records; but a manifest with any further
    artifact, as a deployment of the full selection records, is refused, because
    the demo's schema is strict. *)
Theorem recorded_manifest_in_demo (lock verifier : DeployedRecord)
    (artifacts : list (string * jsval)) (name : string) (extra : jsval) :
  record_ok lock → record_ok verifier →
  dr_name lock = "account_lock" → dr_name verifier = "verifier_p256" →
  (m ← buildDeploymentManifest JUndef [lock; verifier]; validateDeployment m) =
    Ok (deployment_result (demo_manifest lock verifier)) ∧
  (assoc name artifacts = Some extra → name ≠ "account_lock" → name ≠ "verifier_p256" →
   validateDeployment (manifest_val artifacts) = Throw (invalidManifest "Deployment")).
Proof.
  intros Hl Hv Nl Nv. split.
  - unfold buildDeploymentManifest. cbn [existingArtifacts is_undef mbind res_bind].
    rewrite (proj2 (merge_records_Ok [] [lock; verifier] (merged [] [lock; verifier])))
      by (split; [constructor; [done|]; constructor; [done|constructor]|done]).
    cbn [mbind res_bind]. unfold merged. cbn [foldl]. rewrite Nl, Nv.
    destruct (artifact_of_record lock Hl) as [Wl El].
    destruct (artifact_of_record verifier Hv) as [Wv Ev']. rewrite Nl in Wl. rewrite Nv in Wv.
    assert (Hm : manifest_val (override (override [] ("account_lock", record_val lock))
      ("verifier_p256", record_val verifier)) = deployment_val (demo_manifest lock verifier)).
    { unfold deployment_val. cbn. by rewrite <- El, <- Ev'. }
    assert (Hwf : deployment_wf (demo_manifest lock verifier)).
    { constructor; try done. intros ? [= <-]. apply Nat.leb_le. reflexivity. }
    rewrite Hm. apply validateDeployment_val; [by apply deployment_parse | done].
  - intros Ha N1 N2. unfold validateDeployment.
    rewrite manifest_refused; [done|]. eapply strict_refuses; [exact Ha|].
    unfold has_key. cbn [assoc]. by rewrite !(proj2 (String.eqb_neq _ _)) by done.
Qed.
End demo.
