(* ===== verification/Publish.v ===== *)
(** * The deployment program ([tools/deploy/src/deploy.ts])

    The command line program that publishes the verified artifacts as code cells: what it
    prints, what it sends, and the manifest it writes. Network, wallet and disk are an
    interface; every call into them is an entry of the log. *)

From S2P Require Import Prelude Js JsString Regex Bytes Zod Constants Schemas Effects Json.
From S2P Require Import Ccc CccRef Manifests Artifacts Deployment.

(** What the command line programs of [tools/deploy] call. The wallet is the one of the
    key that [tool_signer] accepts. *)
Class Tool (W : Type) := {
  tool_path : string → string;
  tool_privateKey : option string;
  tool_signer : string → res unit;
  tool_exists : string → W → res bool * W;
  tool_readJson : string → W → res jsval * W;
  tool_write : string → string → W → res unit * W;
  tool_address : W → res string * W;
  tool_lock : W → res Script * W;
  tool_balance : W → res Z * W;
  tool_completeInputs : Transaction → W → res Transaction * W;
  tool_completeFee : Transaction → Z → W → res Transaction * W;
  tool_send : Transaction → W → res string * W;
  tool_wait : string → Z → Z → W → res unit * W;
  tool_getCellLive : string → Z → W → res (option Cell) * W }.

Inductive tool_event :=
  | TPrint (line : string)
  | TPrintError (line : string)
  | TExists (path : string)
  | TReadJson (path : string)
  | TAddress
  | TBalance
  | TLock
  | TInputs (tx : Transaction)
  | TFee (tx : Transaction) (feeRate : Z)
  | TSend (tx : Transaction)
  | TWait (txHash : string) (confirmations timeout : Z)
  | TGetCell (txHash : string) (index : Z)
  | TWrite (path text : string).

Definition FEE_RATE : Z := 1200.
Definition newline : string := String (Ascii.ascii_of_nat 10) "".

(** [tx] as [publishCell] builds it, before inputs and fee. *)
Definition code_transaction `{Ccc} (lock : Script) (cell : PlannedCell) : res Transaction :=
  Transaction_from {|
    tx_cellDeps := []; tx_inputs := [];
    tx_outputs := [{| co_capacity := pc_capacity cell; co_lock := lock; co_type := None |}];
    tx_outputsData := [hexFrom (pc_data cell)]; tx_witnesses := [] |}.

Definition cell_name (cell : PlannedCell) : string := id_name (pc_identity cell).
Definition cell_hash (cell : PlannedCell) : string := js_text (id_dataHash (pc_identity cell)).

(** The record of a cell that was read back; its data hash is then a string. *)
Definition published_record (cell : PlannedCell) (txHash : string) : DeployedRecord := {|
  dr_name := cell_name cell; dr_dataHash := as_str (id_dataHash (pc_identity cell));
  dr_hashType := "data2"; dr_txHash := txHash; dr_index := NInt 0;
  dr_capacityShannons := dec (pc_capacity cell) |}.

Section deploy.
Context {W : Type} {ccc : Ccc} {files : Files} {tool : Tool W}.
Context (repoRoot : string).
Notation M := (eff W tool_event).

Definition print (line : string) : M unit := call (TPrint line) (λ w, (Ok tt, w)).

Definition cell_lines (cell : PlannedCell) : list string := [
  "  " +:+ cell_name cell;
  "    path      " +:+ js_text (id_path (pc_identity cell));
  "    bytes     " +:+ toLocaleString (len (pc_data cell));
  "    data hash " +:+ cell_hash cell;
  "    capacity  " +:+ formatCkb (pc_capacity cell)].

Definition printPlan (cells : list PlannedCell) (total : Z) : M unit :=
  print ("Deployment plan (immutable code cells, hash_type data2)" +:+ newline);;
  iter_eff (λ cell, iter_eff print (cell_lines cell)) cells;;
  print (newline +:+ "  TOTAL capacity " +:+ formatCkb total +:+ " across " +:+
         dec (len cells) +:+ " cells");;
  print ("  (plus transaction fees, one transaction per cell)" +:+ newline).

Definition publishCell (cell : PlannedCell) : M DeployedRecord :=
  lock ← call TLock tool_lock;
  tx ← lift (code_transaction lock cell);
  tx ← call (TInputs tx) (tool_completeInputs tx);
  tx ← call (TFee tx FEE_RATE) (tool_completeFee tx FEE_RATE);
  txHash ← call (TSend tx) (tool_send tx);
  print ("    submitted " +:+ txHash);;
  call (TWait txHash 0 300000) (tool_wait txHash 0 300000);;
  published ← call (TGetCell txHash 0) (tool_getCellLive txHash 0);
  published ← lift (from_option_or
    (Error ("published cell " +:+ txHash +:+ ":0 not found after commitment")) published);
  data ← lift (bytesFrom (cell_outputData published));
  let onChainHash := hashCkb data in
  lift (throw_if (negb (is_str (id_dataHash (pc_identity cell)) onChainHash))
    (Error ("on-chain data hash for " +:+ cell_name cell +:+ " is " +:+ onChainHash +:+
            ", expected " +:+ cell_hash cell)));;
  print ("    verified  on-chain data hash matches " +:+ cell_hash cell);;
  mret (published_record cell txHash).

(** The callback that [main] gives to [publishDeployment]. *)
Definition publish (cell : PlannedCell) : M DeployedRecord :=
  print ("  publishing " +:+ cell_name cell +:+ " (" +:+ formatCkb (pc_capacity cell) +:+ ")");;
  publishCell cell.

Definition required_key : res string :=
  match tool_privateKey with
  | None | Some EmptyString => Throw (Error "CKB_PRIVKEY is not set; refusing to broadcast")
  | Some key => Ok key
  end.

Definition recorded_manifest (path : string) : M jsval :=
  found ← call (TExists path) (tool_exists path);
  if found : bool then call (TReadJson path) (tool_readJson path) else mret JUndef.

Definition broadcast (plan : DeploymentPlan) : M unit :=
  let outputPath := tool_path "deploy/testnet-deployments.json" in
  existing ← recorded_manifest outputPath;
  validatedExisting ← lift (buildDeploymentManifest existing []);
  key ← lift required_key;
  lift (tool_signer key);;
  address ← call TAddress tool_address;
  balance ← call TBalance tool_balance;
  print ("Deploying from " +:+ address);;
  print ("Balance " +:+ formatCkb balance +:+ newline);;
  lift (throw_if (balance <? dp_total plan)
    (Error ("insufficient balance: need at least " +:+ formatCkb (dp_total plan) +:+
            " plus fees, have " +:+ formatCkb balance)));;
  manifest ← publishDeployment validatedExisting (dp_cells plan) publish;
  let text := JSON_stringify_pretty manifest +:+ newline in
  call (TWrite outputPath text) (tool_write outputPath text);;
  print (newline +:+ "Wrote " +:+ outputPath).

Definition main (argv : list string) : M unit :=
  args ← lift (parseDeploymentArgs argv);
  plan ← lift (buildDeploymentPlan repoRoot (da_selection args) (NInt SECP256K1_LOCK_ARGS_LENGTH));
  printPlan (dp_cells plan) (dp_total plan);;
  if da_broadcast args then broadcast plan
  else print "Dry run. Re-run with --broadcast and CKB_PRIVKEY set to publish.".

(** The program, with its exit code. *)
Definition deploy (argv : list string) : M Z :=
  catch (main argv;; mret 0)
    (λ error,
      call (TPrintError (newline +:+ "Deployment failed: " +:+ exn_message error))
        (λ w, (Ok tt, w));;
      mret 1).
End deploy.

(** ** What a run may do *)

Definition sent (l : list tool_event) : list Transaction :=
  omap (λ e, match e with TSend tx => Some tx | _ => None end) l.
Definition written (l : list tool_event) : list (string * string) :=
  omap (λ e, match e with TWrite path text => Some (path, text) | _ => None end) l.
Definition is_print (e : tool_event) : bool :=
  match e with TPrint _ | TPrintError _ => true | _ => false end.

(** What the chain library's completion steps keep, and the form of a transaction hash. *)
Class ToolLaws {W} `{Tool W} : Prop := {
  tool_inputs_keeps tx w tx' w' : tool_completeInputs tx w = (Ok tx', w') →
    tx_outputs tx' = tx_outputs tx ∧ tx_outputsData tx' = tx_outputsData tx;
  tool_fee_keeps tx rate w tx' w' : tool_completeFee tx rate w = (Ok tx', w') →
    tx_outputs tx `prefix_of` tx_outputs tx' ∧ tx_outputsData tx `prefix_of` tx_outputsData tx';
  tool_send_hash tx w h w' : tool_send tx w = (Ok h, w') → hash32 h }.

Section correctness.
Context {W : Type} {ccc : Ccc} {ccc_laws : CccLaws} {files : Files}.
Context {tool : Tool W} {laws : ToolLaws}.
Context (repoRoot : string).
Notation M := (eff W tool_event).
Let outputPath := tool_path "deploy/testnet-deployments.json".

(** The environment answered a call with [a]. *)
Definition answers {A} (f : W → res A * W) (a : A) : Prop :=
  ∃ env env', f env = (Ok a, env').

(** The transaction that publishes a cell: its first output is the code cell, for the
    wallet's own lock. *)
Record publishes (cell : PlannedCell) (tx : Transaction) : Prop := {
  pu_output : ∃ lock, answers tool_lock lock ∧ head (tx_outputs tx) =
    Some {| co_capacity := pc_capacity cell; co_lock := lock; co_type := None |};
  pu_data : head (tx_outputsData tx) = Some (hexFromBytes (pc_data cell)) }.

(** The recorded cell is the one that was sent, and it was read back with its data hash. *)
Record landed (cell : PlannedCell) (tx : Transaction) (record : DeployedRecord) : Prop := {
  la_record : record = published_record cell (dr_txHash record);
  la_sent : answers (tool_send tx) (dr_txHash record);
  la_live : ∃ published data, answers (tool_getCellLive (dr_txHash record) 0) (Some published) ∧
    bytesFrom (cell_outputData published) = Ok data ∧
    id_dataHash (pc_identity cell) = JStr (hashCkb data) }.

Lemma answers_intro {A} (f : W → res A * W) env a env' : f env = (Ok a, env') → answers f a.
Proof. unfold answers. eauto. Qed.
#[local] Hint Resolve answers_intro : core.

Lemma print_run line (w w' : world W tool_event) r :
  print line w = (r, w') → r = Ok tt ∧ w_log w' = w_log w ++ [TPrint line].
Proof. unfold print. by intros [[= <- _] ?]%call_run. Qed.

(** One step of a run: a printed line, or a step that may fail. *)
Ltac tool_step H :=
  first [ let w1 := fresh "w" in let Hm := fresh "Hm" in let Hl := fresh "Hl" in
          apply eff_bind_cases in H as [(? & Hm & _)|(? & w1 & Hm & H)];
            [apply print_run in Hm as [? _]; discriminate|];
          apply print_run in Hm as [_ Hl]
        | run_step H ].

Definition publish_ok (cell : PlannedCell) (l : list tool_event) (r : res DeployedRecord)
    : Prop :=
  written l = [] ∧
  ((sent l = [] ∧ ∃ e, r = Throw e) ∨
   ∃ tx, sent l = [tx] ∧ publishes cell tx ∧ ∀ record, r = Ok record → landed cell tx record).

(** A run that failed before or after the transaction was sent. *)
Ltac unsent := eexists; split; [log_eq|]; split; [done|]; left; by eauto.
Ltac failed Hp := eexists; split; [log_eq|]; split; [done|]; right;
  eexists; split; [reflexivity|]; split; [exact Hp|done].

Lemma code_transaction_inv lock cell tx :
  0 < pc_capacity cell → code_transaction lock cell = Ok tx →
  tx_outputs tx = [{| co_capacity := pc_capacity cell; co_lock := lock; co_type := None |}] ∧
  tx_outputsData tx = [hexFromBytes (pc_data cell)].
Proof.
  intros Hc. unfold code_transaction. rewrite hexFrom_spec, Transaction_from_ok.
  - by intros [= <-].
  - by constructor.
  - cbn. repeat constructor. apply is_hex_text_of.
  - constructor.
Qed.

Lemma publish_run cell (w w' : world W tool_event) r :
  0 < pc_capacity cell → publish cell w = (r, w') →
  ∃ l, w_log w' = w_log w ++ l ∧ publish_ok cell l r.
Proof.
  intros Hc. unfold publish, publishCell. intros H.
  do 5 (tool_step H; [unsent..|]).
  match goal with H : _ = code_transaction _ _ |- _ => symmetry in H;
    apply code_transaction_inv in H as [Eo Ed]; [|done] end.
  match goal with H : tool_completeInputs _ _ = _ |- _ =>
    apply tool_inputs_keeps in H as [Eo' Ed'] end.
  match goal with H : tool_completeFee _ _ _ = _ |- _ =>
    apply tool_fee_keeps in H as [[lo Ho] [ld Hd]] end.
  match goal with Ho : tx_outputs ?t = _ |- _ =>
    match type of Hd with tx_outputsData t = _ => assert (Hp : publishes cell t) end end.
  { constructor.
    - eexists. split; [by eauto|]. by rewrite Ho, Eo', Eo.
    - by rewrite Hd, Ed', Ed. }
  do 8 (tool_step H; [failed Hp..|]). injection H as <- <-.
  eexists. split; [log_eq|]. split; [done|]. right. eexists. split; [reflexivity|].
  split; [exact Hp|]. intros record [= <-]. constructor; [done|cbn; by eauto|].
  repeat match goal with
    | H : Ok _ = from_option_or _ _ |- _ => symmetry in H; apply from_option_or_Ok in H as ->
    | H : Ok _ = throw_if _ _ |- _ => symmetry in H; apply throw_if_Ok in H; bool_simpl
    | H : is_str _ _ = true |- _ => apply is_str_true in H end.
  eexists _, _. by eauto.
Qed.

Lemma sent_app l1 l2 : sent (l1 ++ l2) = sent l1 ++ sent l2.
Proof. apply omap_app. Qed.
Lemma written_app l1 l2 : written (l1 ++ l2) = written l1 ++ written l2.
Proof. apply omap_app. Qed.

(** The cells are published in order, up to the first failure. *)
Definition cells_ok (cells : list PlannedCell) (l : list tool_event)
    (r : res (list DeployedRecord)) : Prop :=
  written l = [] ∧
  ∃ done, done `prefix_of` cells ∧ Forall2 publishes done (sent l) ∧
    ∀ records, r = Ok records → done = cells ∧ Forall3 landed cells (sent l) records.

Lemma cells_run cells (w w' : world W tool_event) r :
  Forall (λ c, 0 < pc_capacity c) cells → mapM_eff publish cells w = (r, w') →
  ∃ l, w_log w' = w_log w ++ l ∧ cells_ok cells l r.
Proof.
  intros Hc. revert w r. induction Hc as [|c cells Hc _ IH]; intros w r; cbn [mapM_eff].
  { intros [= <- <-]. exists []. split; [log_eq|]. split; [done|].
    exists []. split; [done|]. split; [constructor|]. intros ? [= <-]. split; [done|constructor]. }
  intros H. apply eff_bind_cases in H as [(e & H & ->)|(record & w1 & Hp & H)].
  { apply publish_run in H as (l & El & Hw & H); [|done]. exists l. split; [done|]. split; [done|].
    destruct H as [[-> _]|(tx & -> & Hp & _)].
    - exists []. split; [apply prefix_nil|]. by split; [constructor|].
    - exists [c]. split; [apply prefix_cons, prefix_nil|].
      by split; [constructor; [done|constructor]|]. }
  apply publish_run in Hp as (l & El & Hw & [[_ [e ?]]|(tx & Es & Hp & Hl)]); [done| |done].
  specialize (Hl _ eq_refl). apply eff_bind_cases in H.
  assert (Hrest : ∃ r', mapM_eff publish cells w1 = (r', w') ∧ r = cons record <$> r').
  { destruct H as [(e & H & ->)|(records & w2 & H & [= <- <-])]; eexists; by split; [exact H|]. }
  destruct Hrest as (r' & H' & ->). apply IH in H' as (l' & El' & Hw' & done & Hd & Hs & Hr).
  exists (l ++ l'). split; [log_eq|]. split; [by rewrite written_app, Hw, Hw'|].
  exists (c :: done). rewrite sent_app, Es. split; [by apply prefix_cons|].
  split; [by constructor|]. intros records. destruct r' as [records'|]; [|done].
  intros [= <-]. destruct (Hr _ eq_refl) as [-> ?]. split; [done|]. by constructor.
Qed.

(** The manifest on disk. *)
Definition recorded (existing : jsval) : Prop :=
  existing = JUndef ∧ answers (tool_exists outputPath) false ∨
  answers (tool_exists outputPath) true ∧ answers (tool_readJson outputPath) existing.

(** The checks before the first transaction. *)
Record funded (plan : DeploymentPlan) (existing : jsval) : Prop := {
  fu_key : ∃ key, tool_privateKey = Some key ∧ key ≠ "" ∧ tool_signer key = Ok tt;
  fu_balance : ∃ balance, answers tool_balance balance ∧ dp_total plan <= balance;
  fu_recorded : recorded existing;
  fu_manifest : ∃ m, buildDeploymentManifest existing [] = Ok m }.

(** What was written: the recorded manifest with the cells that landed. *)
Definition published (plan : DeploymentPlan) (existing : jsval) (l : list tool_event) : Prop :=
  ∃ done, done `prefix_of` dp_cells plan ∧ Forall2 publishes done (sent l) ∧
    (written l = [] ∨
     ∃ records m, Forall3 landed (dp_cells plan) (sent l) records ∧
       buildDeploymentManifest existing records = Ok m ∧
       written l = [(outputPath, JSON_stringify_pretty m +:+ newline)]).

Lemma published_after plan existing pre l :
  sent pre = [] → written pre = [] → published plan existing l →
  published plan existing (pre ++ l).
Proof. unfold published. by intros E1 E2 H; rewrite sent_app, written_app, E1, E2. Qed.

Definition broadcast_ok (plan : DeploymentPlan) (l : list tool_event) (r : res unit) : Prop :=
  (sent l = [] ∧ written l = [] ∧ ∃ e, r = Throw e) ∨
  ∃ existing, funded plan existing ∧ published plan existing l ∧
    (r = Ok tt → written l ≠ []).

Lemma recorded_run (w w' : world W tool_event) r :
  recorded_manifest outputPath w = (r, w') →
  ∃ l, w_log w' = w_log w ++ l ∧ sent l = [] ∧ written l = [] ∧
    ∀ existing, r = Ok existing → recorded existing.
Proof.
  unfold recorded_manifest. intros H. run_step H.
  { eexists. split; [log_eq|]. done. }
  destruct v.
  - apply call_run in H as [Hr Hl']. eexists. split; [log_eq|]. split; [done|].
    split; [done|]. intros existing ->. right. by eauto.
  - injection H as <- <-. eexists. split; [log_eq|]. split; [done|]. split; [done|].
    intros existing [= <-]. left. by eauto.
Qed.

(** The publication, started from the recorded manifest. *)
Lemma deployment_run plan existing v (w w' : world W tool_event) r :
  Forall (λ c, 0 < pc_capacity c) (dp_cells plan) →
  buildDeploymentManifest existing [] = Ok v →
  publishDeployment v (dp_cells plan) publish w = (r, w') →
  ∃ l, w_log w' = w_log w ++ l ∧ written l = [] ∧
    ∃ cells, cells `prefix_of` dp_cells plan ∧ Forall2 publishes cells (sent l) ∧
      ∀ m, r = Ok m → ∃ records, Forall3 landed (dp_cells plan) (sent l) records ∧
        buildDeploymentManifest existing records = Ok m.
Proof.
  intros Hc Hm H.
  assert (Hv : ∀ records, buildDeploymentManifest v records =
    buildDeploymentManifest existing records) by (intros; by apply publish_validated).
  apply publish_deployment_sound in H as [(e & Hb & _)|[(e & Hb & ->)|(records & Hb & Em)]];
    [rewrite Hv in Hb; congruence|..];
    apply cells_run in Hb as (l & El & Hw & cells & Hd & Hs & Hr); try exact Hc;
    exists l; do 2 (split; [done|]); exists cells; do 2 (split; [done|]).
  - done.
  - destruct (Hr _ eq_refl) as [-> Hrecords]. rewrite Hv in Em. intros m ->. by eauto.
Qed.

Lemma written_ne pre l : written l ≠ [] → written (pre ++ l) ≠ [].
Proof. rewrite written_app. by intros H [_ ?]%app_nil. Qed.

Lemma required_key_inv key :
  required_key = Ok key → tool_privateKey = Some key ∧ key ≠ "".
Proof. unfold required_key. destruct tool_privateKey as [[|c s]|]; try done. by intros [= <-]. Qed.

Lemma broadcast_run plan (w w' : world W tool_event) r :
  Forall (λ c, 0 < pc_capacity c) (dp_cells plan) → broadcast plan w = (r, w') →
  ∃ l, w_log w' = w_log w ++ l ∧ broadcast_ok plan l r.
Proof.
  intros Hc. unfold broadcast. cbv zeta. intros H.
  apply eff_bind_cases in H as [(e & H & ->)|(existing & w1 & Hrec & H)].
  { apply recorded_run in H as (l & El & Hs & Hw & _). exists l. split; [done|]. left. by eauto. }
  apply recorded_run in Hrec as (l0 & El & Hs & Hw & Hrec). specialize (Hrec _ eq_refl).
  assert (Hstop : ∀ l e (w2 : world W tool_event), w_log w2 = w_log w1 ++ l →
    sent l = [] → written l = [] →
    ∃ l, w_log w2 = w_log w ++ l ∧ broadcast_ok plan l (Throw e)).
  { intros l e w2 E S1 S2. exists (l0 ++ l). split; [log_eq|]. left.
    rewrite sent_app, written_app, Hs, Hw, S1, S2. by eauto. }
  assert (Hgo : ∀ l (w2 : world W tool_event), w_log w2 = w_log w1 ++ l →
    funded plan existing → published plan existing l → (r = Ok tt → written l ≠ []) →
    ∃ l, w_log w2 = w_log w ++ l ∧ broadcast_ok plan l r).
  { intros l w2 E Hf Hp Hr. exists (l0 ++ l). split; [log_eq|]. right. exists existing.
    unfold published. rewrite sent_app, written_app, Hs, Hw. done. }
  clear El Hs Hw.
  do 8 (tool_step H; [eapply Hstop; [log_eq|done..]..|]).
  match goal with H : _ = buildDeploymentManifest existing [] |- _ => symmetry in H; rename H into Hm end.
  match goal with H : _ = required_key |- _ => symmetry in H; apply required_key_inv in H as [Hk Hne] end.
  match goal with H : _ = tool_signer _ |- _ => symmetry in H; rename H into Hsigner end.
  match goal with H : _ = throw_if _ _ |- _ => symmetry in H; apply throw_if_Ok in H; bool_simpl end.
  assert (Hf : funded plan existing).
  { constructor; [|by eauto|exact Hrec|by eauto]. eexists. split; [exact Hk|].
    split; [done|]. by destruct v1. }
  apply eff_bind_cases in H as [(e & H & ->)|(m & w5 & Hp & H)].
  - apply (deployment_run plan existing v) in H as (l & El & Hw & cells & Hd & Hs & _); [|done..].
    eapply Hgo; [log_eq|exact Hf| |discriminate].
    apply (published_after _ _ [_; _; _; _]); [done..|]. exists cells. by eauto.
  - apply (deployment_run plan existing v) in Hp as (l & El & Hw & cells & Hd & Hs & Hm'); [|done..].
    destruct (Hm' m eq_refl) as (records & Hrecords & Em).
    assert (Hend : ∀ post (w6 : world W tool_event), w_log w6 = w_log w5 ++ post → sent post = [] →
      written post = [(outputPath, JSON_stringify_pretty m +:+ newline)] →
      ∃ l, w_log w6 = w_log w ++ l ∧ broadcast_ok plan l r).
    { intros post w6 E6 S W6. eapply Hgo; [log_eq|exact Hf| |].
      - apply (published_after _ _ [_; _; _; _]); [done..|]. exists cells.
        rewrite sent_app, written_app, Hw, S, W6, app_nil_r. by eauto 10.
      - intros _. apply (written_ne [_; _; _; _]). by rewrite written_app, Hw, W6. }
    run_step H; [eapply Hend; [log_eq|done..]|].
    apply print_run in H as [-> Hl']. eapply Hend; [log_eq|done..].
Qed.
(** ** Runs of the program *)

Definition plan_of (argv : list string) (args : DeploymentArgs) (plan : DeploymentPlan) : Prop :=
  parseDeploymentArgs argv = Ok args ∧
  buildDeploymentPlan repoRoot (da_selection args) (NInt SECP256K1_LOCK_ARGS_LENGTH) = Ok plan.

Record deployed (argv : list string) (l : list tool_event) (code : Z) : Prop := {
  de_code : code = 0 ∨ code = 1;
  de_dry : "--broadcast" ∉ argv → forallb is_print l = true;
  de_sent : sent l ≠ [] ∨ written l ≠ [] →
    ∃ args plan existing, plan_of argv args plan ∧ da_broadcast args = true ∧
      funded plan existing ∧ published plan existing l;
  de_done : code = 0 →
    ∃ args plan, plan_of argv args plan ∧ (da_broadcast args = true → written l ≠ []) }.

Lemma prints_quiet l : forallb is_print l = true → sent l = [] ∧ written l = [].
Proof.
  induction l as [|e l IH]; [done|]. cbn. intros [He Hl]%andb_true_iff.
  by destruct e; try discriminate He; apply IH.
Qed.

Definition prints (w w' : world W tool_event) : Prop :=
  ∃ l, w_log w' = w_log w ++ l ∧ forallb is_print l = true.
Lemma prints_trans w1 w2 w3 : prints w1 w2 → prints w2 w3 → prints w1 w3.
Proof.
  intros (l1 & E1 & H1) (l2 & E2 & H2). exists (l1 ++ l2).
  split; [by rewrite E2, E1, app_assoc|]. by rewrite forallb_app, H1, H2.
Qed.
Lemma print_prints line (w w' : world W tool_event) r :
  print line w = (r, w') → r = Ok tt ∧ prints w w'.
Proof. intros [-> Hl]%print_run. split; [done|]. by eexists. Qed.

Lemma iter_prints {A} (f : A → M unit) l (w w' : world W tool_event) r :
  (∀ x w1 w2 r', f x w1 = (r', w2) → r' = Ok tt ∧ prints w1 w2) →
  iter_eff f l w = (r, w') → r = Ok tt ∧ prints w w'.
Proof.
  intros Hf. revert w. induction l as [|x l IH]; intros w; cbn [iter_eff].
  - intros [= <- <-]. split; [done|]. exists []. by rewrite app_nil_r.
  - intros [(e & H & ->)|(a & w1 & H1 & H)]%eff_bind_cases; [by apply Hf in H as [? _]|].
    apply Hf in H1 as [_ H1]. apply IH in H as [-> H]. split; [done|]. by eapply prints_trans.
Qed.

Lemma printPlan_run cells total (w w' : world W tool_event) r :
  printPlan cells total w = (r, w') → r = Ok tt ∧ prints w w'.
Proof.
  unfold printPlan. intros H.
  apply eff_bind_cases in H as [(e & H & ->)|(a & w1 & H1 & H)]; [by apply print_prints in H as [? _]|].
  apply print_prints in H1 as [_ H1].
  apply eff_bind_cases in H as [(e & H & ->)|(b & w2 & H2 & H)].
  { apply iter_prints in H as [? _]; [done|].
    intros. by eapply iter_prints; [apply print_prints|]. }
  apply iter_prints in H2 as [_ H2]; [|intros; by eapply iter_prints; [apply print_prints|]].
  apply eff_bind_cases in H as [(e & H & ->)|(c & w3 & H3 & H)]; [by apply print_prints in H as [? _]|].
  apply print_prints in H3 as [_ H3]. apply print_prints in H as [-> H].
  split; [done|]. eauto using prints_trans.
Qed.

Lemma plan_capacities argv args plan :
  plan_of argv args plan → Forall (λ c, 0 < pc_capacity c) (dp_cells plan).
Proof.
  intros [_ H]. unfold buildDeploymentPlan in H. inv_res. cbn [dp_cells].
  match goal with H : mapM_res _ _ = Ok _ |- _ => apply mapM_res_Ok in H; rename H into Hc end.
  apply Forall_lookup. intros i c Hi. eapply Forall2_lookup_r in Hc as (n & _ & Hp); [|done].
  apply plan_cell_iff in Hp as (_ & _ & ->); [|by unfold SECP256K1_LOCK_ARGS_LENGTH].
  pose proof (len_nonneg (pc_data c)). unfold SECP256K1_LOCK_ARGS_LENGTH. lia.
Qed.
Definition main_ok (argv : list string) (l : list tool_event) (r : res unit) : Prop :=
  (forallb is_print l = true ∧
   (r = Ok tt → ∃ args plan, plan_of argv args plan ∧ da_broadcast args = false)) ∨
  ∃ args plan, plan_of argv args plan ∧ da_broadcast args = true ∧ broadcast_ok plan l r.

Lemma broadcast_after plan pre l r :
  forallb is_print pre = true → broadcast_ok plan l r → broadcast_ok plan (pre ++ l) r.
Proof.
  intros [S W']%prints_quiet. intros [(S' & W'' & H)|(existing & Hf & Hp & Hr)].
  - left. by rewrite sent_app, written_app, S, S', W', W''.
  - right. exists existing. split; [done|]. split; [by apply published_after|].
    intros E. by apply written_ne, Hr.
Qed.

Lemma main_run argv (w w' : world W tool_event) r :
  main repoRoot argv w = (r, w') → ∃ l, w_log w' = w_log w ++ l ∧ main_ok argv l r.
Proof.
  unfold main. intros H.
  run_step H; [exists []; split; [by rewrite app_nil_r|]; left; by split|].
  run_step H; [exists []; split; [by rewrite app_nil_r|]; left; by split|].
  match goal with H1 : _ = parseDeploymentArgs _, H2 : _ = buildDeploymentPlan _ _ _ |- _ =>
    assert (Hplan : plan_of argv v v0) by (by split); rename v into args, v0 into plan end.
  apply eff_bind_cases in H as [(e & H & ->)|(u & w1 & Hp & H)]; [by apply printPlan_run in H as [? _]|].
  apply printPlan_run in Hp as [_ (l1 & El & Hl1)].
  destruct (da_broadcast args) eqn:Eb.
  - apply broadcast_run in H as (l & El2 & Hb); [|by eapply plan_capacities].
    exists (l1 ++ l). split; [log_eq|]. right. exists args, plan. eauto using broadcast_after.
  - apply print_prints in H as (-> & l & El2 & Hl). exists (l1 ++ l). split; [log_eq|]. left.
    rewrite forallb_app, Hl1, Hl. eauto.
Qed.

Lemma main_deployed argv l r code :
  main_ok argv l r → code = 0 ∨ code = 1 → (code = 0 → r = Ok tt) →
  deployed argv l code.
Proof.
  intros Hm Hcode Hr. constructor; [done|..].
  - intros Hn. destruct Hm as [[Hl _]|(args & plan & [Hp _] & Hb & _)]; [done|].
    by apply deployment_args_safe in Hp as (_ & _ & _ & Hflag & _); destruct Hn; apply Hflag.
  - intros Hne. destruct Hm as [[Hl _]|(args & plan & Hp & Hb & [(S & W' & _)|(existing & Hf & Hpub & _)])].
    + apply prints_quiet in Hl as [S W']. rewrite S, W' in Hne. by destruct Hne.
    + rewrite S, W' in Hne. by destruct Hne.
    + by exists args, plan, existing.
  - intros E. specialize (Hr E). destruct Hm as [[_ H]|(args & plan & Hp & Hb & H)].
    + destruct (H Hr) as (args & plan & Hp & Hb). exists args, plan. split; [done|]. congruence.
    + exists args, plan. split; [done|]. intros _.
      destruct H as [(_ & _ & e & ?)|(existing & _ & _ & H)]; [congruence|by apply H].
Qed.

(** A message on the error stream changes nothing that is sent or written. *)
Lemma main_failed argv l e line :
  main_ok argv l (Throw e) → main_ok argv (l ++ [TPrintError line]) (Throw e).
Proof.
  intros [[Hl _]|(args & plan & Hp & Hb & H)].
  - left. split; [|done]. by rewrite forallb_app, Hl.
  - right. exists args, plan. split; [done|]. split; [done|].
    destruct H as [(S & W' & H)|(existing & Hf & Hp' & _)].
    + left. by rewrite sent_app, written_app, S, W'.
    + right. exists existing. split; [done|]. split; [|done].
      unfold published. by rewrite sent_app, written_app, !app_nil_r.
Qed.

(** C38 — Deployment: without [--broadcast] a run only prints. A transaction is sent or the
    manifest is written only for a verified plan of the selected artifacts, with a key, a
    balance of at least the planned total and a recorded manifest that is absent or
    well-formed; the transactions are, in order, the code cells of the plan, one for each,
    up to the first failure; and the manifest is written at most once, after all of them,
    as the merge of the recorded one with cells that were read back with their data hash.
    The exit code is 0 only when the plan was printed and, with the flag, written. *)
Theorem deploy_guarded (argv : list string) (env : W) (r : res Z) (w' : world W tool_event) :
  deploy repoRoot argv (World env []) = (r, w') →
  ∃ code, r = Ok code ∧ deployed argv (w_log w') code.
Proof.
  unfold deploy, catch. destruct ((main repoRoot argv;; mret 0) _) as [[code|e] w1] eqn:H.
  - intros [= <- <-]. exists code. split; [done|].
    apply eff_bind_Ok in H as ([] & w2 & H & [= <- <-]). apply main_run in H as (l & El & Hm).
    rewrite El. eapply main_deployed; [exact Hm|by left|done].
  - apply eff_bind_Throw in H as [H|(u & w2 & H & ?)]; [|done].
    apply main_run in H as (l & El & Hm). intros [= <- <-]. exists 1. split; [done|].
    cbn [w_log]. rewrite El. apply (main_deployed _ _ (Throw e)); [by apply main_failed|by right|done].
Qed.
End correctness.
