(* ===== verification/Atomic.v ===== *)
(** * Atomic files ([writeJsonAtomicFile] of [tools/deploy/src/bootstrap-lib.ts])

    A value is written to a temporary file beside its target, which replaces the target by
    one rename. The log keeps the files as they are after every call, which is what a crash
    at that point, or another process, would see. *)

From S2P Require Import Prelude Js JsString Zod Effects Json JsonLaws.
From Stdlib Require Import Ascii.
From stdpp Require Import gmap.
#[local] Open Scope Z_scope.

Notation disk := (gmap string string).

(** ** Paths *)

Fixpoint has_slash (s : string) : bool :=
  match s with
  | EmptyString => false
  | String c s' => Ascii.eqb c "/" || has_slash s'
  end.
(** The part after the last slash, and the part before it. *)
Fixpoint basename (s : string) : string :=
  match s with
  | EmptyString => ""
  | String _ s' => if has_slash s then basename s' else s
  end.
Fixpoint parent (s : string) : string :=
  match s with
  | EmptyString => ""
  | String c s' => if has_slash s' then String c (parent s') else ""
  end.
Definition dirname (s : string) : string :=
  if String.eqb (parent s) "" then "/" else parent s.
(** [resolve(directory, name)] for an absolute directory and a name without slashes. *)
Definition resolve (directory name : string) : string :=
  if String.eqb directory "/" then "/" +:+ name else directory +:+ "/" +:+ name.

(** ** The file system *)

Class FileSystem (W : Type) := {
  fs_files : W → disk;
  (** the file a descriptor is open for *)
  fs_opened : W → Z → option string;
  process_pid : Z;
  randomUUID : W → res string * W;
  openSync_wx : string → Z → W → res Z * W;
  writeFileSync : Z → string → W → res unit * W;
  fsyncSync : Z → W → res unit * W;
  closeSync : Z → W → res unit * W;
  renameSync : string → string → W → res unit * W;
  unlinkSync : string → W → res unit * W }.

Inductive file_op :=
  | FRandom
  | FOpen (path : string) (mode : Z)
  | FWrite (descriptor : Z) (text : string)
  | FSync (descriptor : Z)
  | FClose (descriptor : Z)
  | FRename (from to : string)
  | FUnlink (path : string).

Section atomic.
Context {W : Type} {fs : FileSystem W}.
Notation M := (eff W (file_op * disk)).

(** A call, recorded with the files it leaves. *)
Definition file_call {A} (op : file_op) (f : W → res A * W) : M A := λ w,
  let '(r, e) := f (w_env w) in (r, World e (w_log w ++ [(op, fs_files e)])).

Definition temporary_name (path uuid : string) : string :=
  "." +:+ basename path +:+ "." +:+ dec process_pid +:+ "." +:+ uuid +:+ ".tmp".
Definition temporary_of (path uuid : string) : string :=
  resolve (dirname path) (temporary_name path uuid).

Definition json_file (value : jsval) : string :=
  JSON_stringify_pretty value +:+ String (chr 10) "".

(** The statements of a [try] block after [m] run with what [m] returned; what [m] throws
    goes to the [catch] block as the variables are then. *)
Definition try_then {A} (m : M A) (handler : exn → M unit) (rest : A → M unit) : M unit := λ w,
  match m w with
  | (Ok a, w') => rest a w'
  | (Throw e, w') => handler e w'
  end.

(** The [catch] block, for the value of [descriptor]. *)
Definition discard (descriptor : option Z) (temporary : string) (error : exn) : M unit :=
  match descriptor with
  | Some d => file_call (FClose d) (closeSync d)
  | None => mret tt
  end;;
  catch (file_call (FUnlink temporary) (unlinkSync temporary)) (λ _, mret tt);;
  lift (Throw error).

Definition writeJsonAtomicFile (path : string) (value : jsval) : M unit :=
  uuid ← file_call FRandom randomUUID;
  let temporary := temporary_of path uuid in
  try_then (file_call (FOpen temporary 384) (openSync_wx temporary 384))
    (discard None temporary) (λ descriptor,
  try_then
    (file_call (FWrite descriptor (json_file value)) (writeFileSync descriptor (json_file value));;
     file_call (FSync descriptor) (fsyncSync descriptor);;
     file_call (FClose descriptor) (closeSync descriptor))
    (discard (Some descriptor) temporary) (λ _,
  try_then (file_call (FRename temporary path) (renameSync temporary path))
    (discard None temporary) (λ _, mret tt))).
End atomic.

(** ** What the calls do to the files *)

Class FileSystemLaws {W} `{FileSystem W} : Prop := {
  uuid_files w r w' : randomUUID w = (r, w') → fs_files w' = fs_files w;
  open_files p m w r w' : openSync_wx p m w = (r, w') →
    match r with
    | Ok d => fs_files w' = <[p := ""]> (fs_files w) ∧ fs_opened w' d = Some p
    | Throw _ => fs_files w' = fs_files w
    end;
  write_files d text w r w' p : fs_opened w d = Some p → writeFileSync d text w = (r, w') →
    match r with
    | Ok _ => fs_files w' = <[p := text]> (fs_files w)
    | Throw _ => ∃ part, fs_files w' = <[p := part]> (fs_files w)
    end;
  sync_files d w r w' : fsyncSync d w = (r, w') → fs_files w' = fs_files w;
  close_files d w r w' : closeSync d w = (r, w') → fs_files w' = fs_files w;
  rename_files p q w r w' : renameSync p q w = (r, w') →
    match r with
    | Ok _ => ∃ text, fs_files w !! p = Some text ∧ fs_files w' = <[q := text]> (delete p (fs_files w))
    | Throw _ => fs_files w' = fs_files w
    end;
  unlink_files p w r w' : unlinkSync p w = (r, w') →
    match r with
    | Ok _ => fs_files w' = delete p (fs_files w)
    | Throw _ => fs_files w' = fs_files w
    end }.

Section atomicity.
Context {W : Type} {fs : FileSystem W} {laws : FileSystemLaws}.
Notation M := (eff W (file_op * disk)).

(** ** Names *)

Lemma basename_parent s : has_slash s = true → s = parent s +:+ "/" +:+ basename s.
Proof.
  induction s as [|c s IH]; [done|]. cbn [has_slash parent basename]. intros H. rewrite H.
  destruct (has_slash s) eqn:E.
  - cbn. f_equal. by apply IH.
  - rewrite orb_false_r in H. apply Ascii.eqb_eq in H as ->. cbn. f_equal.
    clear IH. induction s as [|c s IH]; [done|]. cbn in E |- *. by rewrite E.
Qed.

(** The temporary file is not the target. *)
Lemma temporary_distinct path uuid : has_slash path = true → temporary_of path uuid ≠ path.
Proof.
  intros H E. apply (f_equal str_len) in E. rewrite (basename_parent path H) in E at 2.
  revert E. unfold temporary_of, temporary_name, resolve, dirname.
  destruct (String.eqb_spec (parent path) "") as [Ep|_].
  - rewrite Ep, String.eqb_refl, !str_len_app. cbn. lia.
  - destruct (String.eqb_spec (parent path) "/") as [Ep|_]; rewrite !str_len_app; [rewrite Ep|]; cbn; lia.
Qed.

(** ** Runs *)

Lemma file_call_run {A} op (f : W → res A * W) (w : world W (file_op * disk)) r w' :
  file_call op f w = (r, w') →
  f (w_env w) = (r, w_env w') ∧ w_log w' = w_log w ++ [(op, fs_files (w_env w'))].
Proof. unfold file_call. destruct (f (w_env w)) as [r1 e]. by intros [= <- <-]. Qed.
(** A run that starts and stays in files satisfying [P], and ends in files satisfying [Q]. *)
Definition stays (P Q : disk → Prop) (w w' : world W (file_op * disk)) : Prop :=
  ∃ l, w_log w' = w_log w ++ l ∧ Forall (λ e, P e.2) l ∧ Q (fs_files (w_env w')).

Lemma stays_here (P Q : disk → Prop) w : Q (fs_files (w_env w)) → stays P Q w w.
Proof. exists []. by rewrite app_nil_r. Qed.
Lemma stays_trans P Q R w1 w2 w3 : stays P Q w1 w2 → stays P R w2 w3 → stays P R w1 w3.
Proof.
  intros (l1 & E1 & H1 & _) (l2 & E2 & H2 & HR). exists (l1 ++ l2).
  split; [by rewrite E2, E1, app_assoc|]. split; [by apply Forall_app|done].
Qed.
Lemma stays_call {A} (P Q : disk → Prop) op (f : W → res A * W) (w w' : world W (file_op * disk)) r :
  file_call op f w = (r, w') → P (fs_files (w_env w')) → Q (fs_files (w_env w')) → stays P Q w w'.
Proof. intros [_ E]%file_call_run HP HQ. exists [(op, fs_files (w_env w'))]. by repeat constructor. Qed.

Section run.
Context (old : disk) (path temporary text : string).
Context (absent : old !! temporary = None).

(** The files before the rename, with or without a part of the temporary file. *)
Definition untouched (files : disk) : Prop :=
  files = old ∨ ∃ part, files = <[temporary := part]> old.
Definition replaced (files : disk) : Prop := files = <[path := text]> old.
Definition seen (files : disk) : Prop := untouched files ∨ replaced files.

Lemma untouched_seen files : untouched files → seen files.
Proof. by left. Qed.
#[local] Hint Resolve untouched_seen : core.

Lemma untouched_unlinked files : untouched files → untouched (delete temporary files).
Proof.
  intros [->|[part ->]]; left; [by apply delete_id|by rewrite delete_insert_eq, delete_id].
Qed.
Lemma untouched_written files part : untouched files → untouched (<[temporary := part]> files).
Proof. right. exists part. destruct H as [->|[x ->]]; [done|]. by rewrite insert_insert_eq. Qed.

Lemma discard_run d e (w w' : world W (file_op * disk)) r :
  untouched (fs_files (w_env w)) → discard d temporary e w = (r, w') →
  (∃ e', r = Throw e') ∧ stays seen untouched w w'.
Proof.
  intros Hu. unfold discard. intros H.
  assert (Hclose : ∀ r1 w1, match d with Some d => file_call (FClose d) (closeSync d)
    | None => mret tt end w = (r1, w1) → stays seen untouched w w1).
  { intros r1 w1 H1. destruct d as [d|]; [|injection H1 as <- <-; by apply stays_here].
    pose proof (file_call_run _ _ _ _ _ H1) as [Hc _]. apply close_files in Hc.
    eapply stays_call; [exact H1|rewrite Hc; auto..]. }
  apply eff_bind_cases in H as [(e1 & H & ->)|(u & w1 & H1 & H)]; [eauto|].
  apply Hclose in H1 as Hs1. destruct Hs1 as (l1 & E1 & Hl1 & Hu1).
  apply eff_bind_cases in H as [(e2 & H & ->)|(u2 & w2 & H2 & H)].
  { exfalso. unfold catch in H. by destruct (file_call _ _ w1) as [[]]. }
  assert (Hs2 : stays seen untouched w1 w2).
  { unfold catch in H2. destruct (file_call _ _ w1) as [r3 w3] eqn:H3.
    pose proof (file_call_run _ _ _ _ _ H3) as [Hf _]. apply unlink_files in Hf.
    assert (Hu3 : untouched (fs_files (w_env w3)))
      by (destruct r3; rewrite Hf; auto using untouched_unlinked).
    assert (w3 = w2) as <- by (destruct r3; by injection H2).
    eapply stays_call; [exact H3|auto..]. }
  apply lift_run in H as [-> ->]. split; [by eexists|].
  eapply stays_trans; [|exact Hs2]. by exists l1.
Qed.
(** The temporary file is filled, synced and closed. *)
Lemma fill_run d (w w' : world W (file_op * disk)) r :
  untouched (fs_files (w_env w)) → fs_opened (w_env w) d = Some temporary →
  (file_call (FWrite d text) (writeFileSync d text);;
   file_call (FSync d) (fsyncSync d);;
   file_call (FClose d) (closeSync d)) w = (r, w') →
  stays seen untouched w w' ∧
  (r = Ok tt → fs_files (w_env w') = <[temporary := text]> (fs_files (w_env w))).
Proof.
  intros Hu Ho H.
  assert (Hw : ∀ r1 w1, file_call (FWrite d text) (writeFileSync d text) w = (r1, w1) →
    stays seen untouched w w1 ∧
    (∀ u, r1 = Ok u → fs_files (w_env w1) = <[temporary := text]> (fs_files (w_env w)))).
  { intros r1 w1 H1. pose proof (file_call_run _ _ _ _ _ H1) as [Hf _].
    apply (write_files _ _ _ _ _ _ Ho) in Hf.
    assert (Hu1 : untouched (fs_files (w_env w1)))
      by (destruct r1; [|destruct Hf as [part Hf]]; rewrite Hf; by apply untouched_written).
    split; [eapply stays_call; [exact H1|auto..]|]. by intros u ->. }
  assert (Hkeep : ∀ A op (f : W → res A * W) r1 w1 w2, file_call op f w1 = (r1, w2) →
    (∀ e r e', f e = (r, e') → fs_files e' = fs_files e) → untouched (fs_files (w_env w1)) →
    stays seen untouched w1 w2 ∧ fs_files (w_env w2) = fs_files (w_env w1)).
  { intros A op f r1 w1 w2 H1 Hf Hu1. pose proof (file_call_run _ _ _ _ _ H1) as [Hf1 _].
    apply Hf in Hf1. split; [|done]. eapply stays_call; [exact H1|rewrite Hf1; auto..]. }
  apply eff_bind_cases in H as [(e & H & ->)|(u & w1 & H1 & H)]; [by apply Hw in H as [? _]|].
  apply Hw in H1 as [Hs1 Hf1]. specialize (Hf1 _ eq_refl).
  assert (Hu1 : untouched (fs_files (w_env w1))) by (rewrite Hf1; by apply untouched_written).
  apply eff_bind_cases in H as [(e & H & ->)|(u2 & w2 & H2 & H)].
  { apply Hkeep in H as [Hs2 _]; [|apply sync_files|done]. split; [by eapply stays_trans|done]. }
  apply Hkeep in H2 as [Hs2 Hf2]; [|apply sync_files|done].
  apply Hkeep in H as [Hs3 Hf3]; [|apply close_files|by rewrite Hf2].
  split; [by eauto using stays_trans|]. intros _. congruence.
Qed.

Lemma replace_run (w w' : world W (file_op * disk)) r :
  fs_files (w_env w) = <[temporary := text]> old →
  try_then (file_call (FRename temporary path) (renameSync temporary path))
    (discard None temporary) (λ _, mret tt) w = (r, w') →
  stays seen (λ files, match r with Ok _ => replaced files | Throw _ => untouched files end) w w'.
Proof.
  intros Hf. unfold try_then.
  destruct (file_call _ _ w) as [r1 w1] eqn:H1.
  pose proof (file_call_run _ _ _ _ _ H1) as [Hr _]. apply rename_files in Hr. destruct r1 as [u|e].
  - intros [= <- <-]. destruct Hr as (x & Hx & E).
    rewrite Hf, lookup_insert_eq in Hx. injection Hx as <-.
    rewrite Hf, delete_insert_eq, delete_id in E by done.
    eapply stays_call; [exact H1|by right|done].
  - intros H. assert (Hu : untouched (fs_files (w_env w1))) by (rewrite Hr, Hf; right; by eexists).
    apply discard_run in H as [[e' ->] Hs]; [|done].
    eapply stays_trans; [|exact Hs]. eapply (stays_call _ untouched); [exact H1|auto..].
Qed.
End run.

(** The random identifier is in the name of no file. *)
Definition fresh_name (path : string) (env : W) : Prop :=
  ∀ uuid env', randomUUID env = (Ok uuid, env') → fs_files env !! temporary_of path uuid = None.

Lemma write_run path value (w w' : world W (file_op * disk)) r :
  has_slash path = true → fresh_name path (w_env w) → writeJsonAtomicFile path value w = (r, w') →
  ∃ temporary, temporary ≠ path ∧
    stays (seen (fs_files (w_env w)) path temporary (json_file value))
      (λ files, match r with
                | Ok _ => replaced (fs_files (w_env w)) path (json_file value) files
                | Throw _ => untouched (fs_files (w_env w)) temporary files
                end) w w'.
Proof.
  intros Hp Hfresh. unfold writeJsonAtomicFile. cbv zeta. set (old := fs_files (w_env w)).
  intros [(e & H & ->)|(uuid & w1 & H1 & H)]%eff_bind_cases.
  { exists (temporary_of path ""). split; [by apply temporary_distinct|].
    pose proof (file_call_run _ _ _ _ _ H) as [Hf _]. apply uuid_files in Hf.
    eapply stays_call; [exact H|left; by left|by left]. }
  pose proof (file_call_run _ _ _ _ _ H1) as [Hf1 _].
  pose proof (Hfresh _ _ Hf1) as Habs. apply uuid_files in Hf1.
  set (t := temporary_of path uuid) in *. set (text := json_file value) in *.
  exists t. split; [by apply temporary_distinct|].
  assert (Hs1 : stays (seen old path t text) (untouched old t) w w1)
    by (eapply stays_call; [exact H1|left; by left|by left]).
  eapply stays_trans; [exact Hs1|]. clear Hs1. unfold try_then at 1 in H.
  destruct (file_call _ _ w1) as [r2 w2] eqn:H2.
  pose proof (file_call_run _ _ _ _ _ H2) as [Hf2 _]. apply open_files in Hf2.
  assert (Hu2 : untouched old t (fs_files (w_env w2))).
  { destruct r2; [destruct Hf2 as [-> _]|rewrite Hf2]; rewrite Hf1; [right; by eexists|by left]. }
  eapply stays_trans; [eapply (stays_call _ (untouched old t)); [exact H2|by left|done]|].
  destruct r2 as [d|e].
  2: { by apply (discard_run old path t text Habs) in H as [[e' ->] Hs]. }
  destruct Hf2 as [Hf2 Ho]. unfold try_then at 1 in H.
  match type of H with (let '(_, _) := ?m in _) = _ => destruct m as [r3 w3] eqn:H3 end.
  apply (fill_run old path t text) in H3 as [Hs3 Hf3]; [|done..].
  eapply stays_trans; [exact Hs3|]. destruct Hs3 as (_ & _ & _ & Hu3). destruct r3 as [[]|e].
  - apply (replace_run old path t text Habs) in H; [done|].
    rewrite (Hf3 eq_refl), Hf2, Hf1. by rewrite insert_insert_eq.
  - by apply (discard_run old path t text Habs) in H as [[e' ->] Hs].
Qed.

Context {json : Json} {json_laws : JsonLaws}.

(** C26 — Atomic writes: whatever calls fail, at every moment of the run the target holds its
    old content or the complete new text, from which the value is read back, and no file
    but the target and the temporary one is changed. A run that succeeds leaves the new
    text and no temporary file; one that fails leaves the target as it was. *)
Theorem atomic_write (path : string) (value : jsval) (env : W) (r : res unit)
    (w' : world W (file_op * disk)) :
  has_slash path = true → fresh_name path env → json_plain value = true →
  writeJsonAtomicFile path value (World env []) = (r, w') →
  ∃ temporary, temporary ≠ path ∧
    (∀ op files, (op, files) ∈ w_log w' →
       (files !! path = fs_files env !! path ∨
        ∃ text, files !! path = Some text ∧ json_parse text = Some value) ∧
       ∀ other, other ≠ path → other ≠ temporary → files !! other = fs_files env !! other) ∧
    match r with
    | Ok _ => fs_files (w_env w') = <[path := json_file value]> (fs_files env)
    | Throw _ => delete temporary (fs_files (w_env w')) = delete temporary (fs_files env)
    end.
Proof.
  intros Hp Hfresh Hv H. apply write_run in H as (t & Ht & l & El & Hl & Hr); [|done..].
  cbn [w_env w_log app] in *. exists t. split; [done|]. split.
  - intros op files Hin. rewrite El in Hin. rewrite Forall_forall in Hl.
    specialize (Hl _ Hin) as [[Hf|[part Hf]]|Hf]; unfold replaced in *; cbn in Hf; subst files.
    + split; [by left|done].
    + split; [left; by rewrite lookup_insert_ne|]. intros o _ Ho. by rewrite lookup_insert_ne.
    + split; [|intros o Ho _; by rewrite lookup_insert_ne].
      right. exists (json_file value). rewrite lookup_insert_eq. split; [done|].
      by apply json_parse_pretty.
  - destruct r; [done|]. destruct Hr as [->|[part ->]]; [done|]. by rewrite delete_insert_eq.
Qed.
End atomicity.
