(* ===== verification/Bootstrap.v ===== *)
(** * Account creation ([tools/deploy/src/bootstrap-lib.ts])

    The transaction that creates an account's state and asset cells, from the
    options to the recorded manifest. Signer, client and files are an interface;
    what the chain library's two completion steps keep is a named assumption. *)

From S2P Require Import Prelude Js JsString Regex Bytes Zod Constants Schemas Effects.
From S2P Require Import Ccc CccRef Wire Manifests Account Artifacts.

Definition BOOTSTRAP_FEE_RATE : Z := 1200.
Definition DEFAULT_ASSET_CAPACITY_CKB : Z := 200.
Definition ACCOUNT_LOCK_ARGS_LENGTH : Z := 33.
Definition TYPE_ID_ARGS_LENGTH : Z := 32.
Definition PLACEHOLDER_32 : string := "0x" +:+ str_repeat 32 "00".

Record BootstrapOptions := { bo_stateData : bytes; bo_assetCapacityCkb : Z }.

Inductive bootstrap_event :=
  | BReadJson (path : string)
  | BCompleteInputs (tx : Transaction)
  | BCompleteFee (tx : Transaction) (feeRate : Z)
  | BSendTransaction (tx : Transaction)
  | BWaitTransaction (txHash : string) (confirmations timeout : Z)
  | BWriteJson (path : string) (value : jsval).

(** The completion steps mutate the transaction; here they return the new one. *)
Class BootstrapDeps (W : Type) := {
  repo_path : string → string;
  bd_readJson : string → W → res jsval * W;
  bd_writeJsonAtomic : string → jsval → W → res unit * W;
  bd_completeInputs : Transaction → W → res Transaction * W;
  bd_completeFee : Transaction → Z → W → res Transaction * W;
  bd_sendTransaction : Transaction → W → res string * W;
  bd_waitTransaction : string → Z → Z → W → res unit * W }.

Definition data_hash_text (v : jsval) : bool :=
  match v with JStr s => test (hex_re "0x" 64) s | _ => false end.

Definition accountLockCodeHash (manifest : jsval) : res string :=
  throw_if (negb (is_object manifest)) (Error "testnet deployment manifest is missing");;
  let accountLock := prop (prop manifest "artifacts") "account_lock" in
  let dataHash := prop accountLock "dataHash" in
  throw_if (negb (is_num (prop manifest "schema_version") 1) ||
            negb (is_str (prop manifest "network") "testnet") ||
            negb (is_bool (prop manifest "published") true) ||
            negb (is_str (prop manifest "hash_type") "data2") ||
            negb (is_str (prop accountLock "hashType") "data2") ||
            negb (data_hash_text dataHash))
    (Error "testnet deployment manifest has no verified data2 AccountLock");;
  Ok (as_str dataHash).

(** The state and the asset capacity. *)
Definition validateOptions (options : BootstrapOptions) : res (Z * Z) :=
  throw_if (len (bo_stateData options) =? 0) (Error "AccountStateV1 state data is required");;
  throw_if (bo_assetCapacityCkb options <=? 0)
    (Error "asset capacity must be a positive whole number of CKB");;
  stateCapacity ← cellCapacityShannons (NInt ACCOUNT_LOCK_ARGS_LENGTH)
    (Some (NInt TYPE_ID_ARGS_LENGTH)) (NInt (len (bo_stateData options)));
  let assetCapacity := bo_assetCapacityCkb options * SHANNONS_PER_CKB in
  minimumAsset ← cellCapacityShannons (NInt ACCOUNT_LOCK_ARGS_LENGTH) None (NInt 0);
  throw_if (assetCapacity <? minimumAsset)
    (Error ("asset capacity is below the " +:+ dec minimumAsset +:+
            " shannon AccountLock cell minimum"));;
  Ok (stateCapacity, assetCapacity).

(** [tx.outputs[0].type = type; tx.outputs[0].lock = tx.outputs[1].lock = lock] *)
Definition set_identity (type lock : Script) (tx : Transaction) : Transaction := {|
  tx_cellDeps := tx_cellDeps tx; tx_inputs := tx_inputs tx;
  tx_outputs :=
    alter (λ o, {| co_capacity := co_capacity o; co_lock := lock; co_type := Some type |}) 0%nat
      (alter (λ o, {| co_capacity := co_capacity o; co_lock := lock; co_type := co_type o |}) 1%nat
         (tx_outputs tx));
  tx_outputsData := tx_outputsData tx; tx_witnesses := tx_witnesses tx |}.

Definition account_manifest (accountId codeHash lockArgs typeIdArgs txHash : string)
    (stateBytes : Z) : AccountManifest := {|
  am_schema_version := 1; am_network := "testnet"; am_account_id := accountId;
  am_code_hash := codeHash; am_hash_type := "data2"; am_args := lockArgs;
  am_type_id_args := typeIdArgs;
  am_state_out_point := {| mo_tx_hash := txHash; mo_index := 0 |};
  am_asset_out_point := {| mo_tx_hash := txHash; mo_index := 1 |};
  am_state_bytes := stateBytes |}.

Section bootstrap.
Context {W : Type} {ccc : Ccc} {deps : BootstrapDeps W}.
Notation M := (eff W bootstrap_event).

Definition readJson (path : string) : M jsval := call (BReadJson path) (bd_readJson path).

(** The placeholder transaction; its outputs are completed in place later. *)
Definition creation_transaction (codeHash stateHex : string) (stateCapacity assetCapacity : Z)
    : res Transaction :=
  lock ← accountLockScript codeHash PLACEHOLDER_32;
  type ← typeIdScript PLACEHOLDER_32;
  Transaction_from {|
    tx_cellDeps := []; tx_inputs := [];
    tx_outputs := [
      {| co_capacity := stateCapacity; co_lock := lock; co_type := Some type |};
      {| co_capacity := assetCapacity; co_lock := lock; co_type := None |}];
    tx_outputsData := [stateHex; "0x"]; tx_witnesses := [] |}.

(** Type ID, account and locks derived from the first input. *)
Definition identify (codeHash : string) (tx : Transaction)
    : res (string * string * Transaction) :=
  input0 ← from_option_or (Error "input collection returned no cells") (tx_inputs tx !! 0%nat);
  let typeIdArgs := hashTypeId input0 0 in
  type ← typeIdScript typeIdArgs;
  let accountId := Script_hash type in
  lock ← accountLockScript codeHash accountId;
  from_option_or (TypeError "") (tx_outputs tx !! 1%nat);;
  Ok (typeIdArgs, accountId, set_identity type lock tx).

Definition bootstrapAccount (options : BootstrapOptions) : M AccountManifest :=
  '(stateCapacity, assetCapacity) ← lift (validateOptions options);
  let accountPath := repo_path "deploy/testnet-account.json" in
  existing ← readJson accountPath;
  lift (throw_if (negb (is_null existing))
    (Error "deploy/testnet-account.json already exists; refusing to replace it"));;
  let deploymentPath := repo_path "deploy/testnet-deployments.json" in
  deployment ← readJson deploymentPath;
  codeHash ← lift (accountLockCodeHash deployment);
  let stateHex := hexFrom (bo_stateData options) in
  tx ← lift (creation_transaction codeHash stateHex stateCapacity assetCapacity);
  tx ← call (BCompleteInputs tx) (bd_completeInputs tx);
  '(typeIdArgs, accountId, tx) ← lift (identify codeHash tx);
  tx ← call (BCompleteFee tx BOOTSTRAP_FEE_RATE) (bd_completeFee tx BOOTSTRAP_FEE_RATE);
  lift (assertCreationConsistency tx codeHash stateHex);;
  txHash ← call (BSendTransaction tx) (bd_sendTransaction tx);
  call (BWaitTransaction txHash 0 300000) (bd_waitTransaction txHash 0 300000);;
  out0 ← lift (from_option_or (TypeError "") (tx_outputs tx !! 0%nat));
  let manifest := account_manifest accountId codeHash (args (co_lock out0)) typeIdArgs txHash
                    (len (bo_stateData options)) in
  call (BWriteJson accountPath (account_val manifest))
    (bd_writeJsonAtomic accountPath (account_val manifest));;
  mret manifest.
End bootstrap.

(** ** Correctness *)

(** What the chain library's completion steps keep: collecting inputs leaves the
    outputs and their data as they are, and completing the fee appends to inputs,
    outputs and data. *)
Class BootstrapLaws {W} `{BootstrapDeps W} : Prop := {
  completeInputs_keeps tx w tx' w' : bd_completeInputs tx w = (Ok tx', w') →
    tx_outputs tx' = tx_outputs tx ∧ tx_outputsData tx' = tx_outputsData tx;
  completeFee_keeps tx rate w tx' w' : bd_completeFee tx rate w = (Ok tx', w') →
    tx_inputs tx `prefix_of` tx_inputs tx' ∧ tx_outputs tx `prefix_of` tx_outputs tx' ∧
    tx_outputsData tx `prefix_of` tx_outputsData tx';
  sendTransaction_hash tx w h w' : bd_sendTransaction tx w = (Ok h, w') → hash32 h }.

Definition is_send (e : bootstrap_event) : bool :=
  match e with BSendTransaction _ => true | _ => false end.
Definition is_write (e : bootstrap_event) : bool :=
  match e with BWriteJson _ _ => true | _ => false end.

Section correctness.
Context {W : Type} {ccc : Ccc} {ccc_laws : CccLaws} {deps : BootstrapDeps W}.
Notation M := (eff W bootstrap_event).
Let account_path := repo_path "deploy/testnet-account.json".
Let deployment_path := repo_path "deploy/testnet-deployments.json".

(** What holds before a transaction is sent. *)
Record send_guarded (options : BootstrapOptions) (tx : Transaction) : Prop := {
  sg_fresh : ∃ e1 e2 : W, bd_readJson account_path e1 = (Ok JNull, e2);
  sg_consistent : ∃ (e1 e2 : W) deployment code,
    bd_readJson deployment_path e1 = (Ok deployment, e2) ∧
    accountLockCodeHash deployment = Ok code ∧
    creation_consistent tx code (hexFromBytes (bo_stateData options)) }.

Definition sends_guarded (options : BootstrapOptions) (l : list bootstrap_event) : Prop :=
  (length (filter is_send l) <= 1)%nat ∧
  (∀ tx, BSendTransaction tx ∈ l → send_guarded options tx) ∧
  (∀ path v, BWriteJson path v ∈ l → path = account_path ∧ ∃ tx, BSendTransaction tx ∈ l).

Lemma no_sends options l :
  filter is_send l = [] → filter is_write l = [] → sends_guarded options l.
Proof.
  intros Hs Hw. split; [rewrite Hs; simpl; lia|]. split.
  - intros tx Hin. assert (BSendTransaction tx ∈ filter is_send l) as Hf
      by by apply list_elem_of_filter. rewrite Hs in Hf. by apply not_elem_of_nil in Hf.
  - intros p v Hin. assert (BWriteJson p v ∈ filter is_write l) as Hf
      by by apply list_elem_of_filter. rewrite Hw in Hf. by apply not_elem_of_nil in Hf.
Qed.

(** Before the send, only reads and completions are logged. *)
Ltac quiet := eexists; split; [log_eq | by apply no_sends].

Lemma one_send options pre tx post :
  filter is_send (pre ++ post) = [] → filter is_write pre = [] →
  (∀ path v, BWriteJson path v ∈ post → path = account_path) →
  send_guarded options tx → sends_guarded options (pre ++ BSendTransaction tx :: post).
Proof.
  intros Hs Hw Hp Hg. assert (Hno : ∀ tx', BSendTransaction tx' ∉ pre ++ post).
  { intros tx' Hin. assert (BSendTransaction tx' ∈ filter is_send (pre ++ post)) as Hf
      by by apply list_elem_of_filter. rewrite Hs in Hf. by apply not_elem_of_nil in Hf. }
  split; [|split].
  - rewrite list.filter_app in *. apply app_nil in Hs as [-> Hs].
    rewrite filter_cons_True by done. rewrite Hs. simpl. lia.
  - intros tx' Hin. apply elem_of_app in Hin as [Hin|Hin].
    + destruct (Hno tx'). apply elem_of_app. by left.
    + apply elem_of_cons in Hin as [[= ->]|Hin]; [done|].
      destruct (Hno tx'). apply elem_of_app. by right.
  - intros path v Hin. split; [|exists tx; apply elem_of_app; right; by left].
    apply elem_of_app in Hin as [Hin|Hin].
    + assert (BWriteJson path v ∈ filter is_write pre) as Hf
        by by apply list_elem_of_filter. rewrite Hw in Hf. by apply not_elem_of_nil in Hf.
    + apply elem_of_cons in Hin as [[=]|Hin]. by eapply Hp.
Qed.

(** From the send on, the log holds one send after four quiet steps. *)
Ltac sent :=
  eexists; split;
    [log_eq
    |match goal with |- sends_guarded _ (?a :: ?b :: ?c :: ?d :: _ :: _) =>
       apply (one_send _ [a; b; c; d]) end;
     [reflexivity | reflexivity | intros ? ? Hin; rewrite ?elem_of_cons, ?elem_of_nil in Hin; naive_solver | assumption]].

(** A run that succeeds has read the recorded AccountLock code. *)
Lemma bootstrapAccount_reads options (w w' : world W bootstrap_event) m :
  bootstrapAccount options w = (Ok m, w') →
  ∃ env v env' code, bd_readJson deployment_path env = (Ok v, env') ∧
    accountLockCodeHash v = Ok code.
Proof.
  unfold bootstrapAccount, readJson. intros H.
  repeat match type of H with
  | mbind _ _ _ = _ =>
      apply eff_bind_Ok in H; let x := fresh "x" in let w1 := fresh "w" in
      destruct H as (x & w1 & ? & H); repeat destruct x as [x ?]; cbv beta iota in H
  end.
  repeat match goal with
  | H : lift _ _ = _ |- _ => apply lift_run in H as [? ?]
  | H : call _ _ _ = _ |- _ => apply call_run in H as [? _] end.
  eauto 10.
Qed.

Lemma bootstrap_guarded (options : BootstrapOptions)
    (w w' : world W bootstrap_event) (r : res AccountManifest) :
  bootstrapAccount options w = (r, w') →
  ∃ l, w_log w' = w_log w ++ l ∧ sends_guarded options l.
Proof.
  unfold bootstrapAccount, readJson. intros H.
  run_step H; [quiet|]. destruct v as [stateCapacity assetCapacity].
  run_step H; [quiet|]. run_step H; [quiet|]. run_step H; [quiet|].
  run_step H; [quiet|]. run_step H; [quiet|]. run_step H; [quiet|].
  run_step H; [quiet|].
  match goal with a : string * string * Transaction |- _ => destruct a as [[? ?] ?] end.
  run_step H; [quiet|]. run_step H; [quiet|].
  match goal with H : Ok _ = assertCreationConsistency ?tx ?code ?d |- _ =>
    symmetry in H; apply assertCreationConsistency_iff in H; rewrite hexFrom_spec in H;
    assert (Hg : send_guarded options tx) end.
  { constructor.
    - exists (w_env w), (w_env w0). apply (eq_trans Hm0). symmetry in Hm1.
      apply throw_if_Ok in Hm1. by destruct v.
    - exists (w_env w0), (w_env w1), v1, v2. done. }
  run_step H; [sent|]. run_step H; [sent|]. run_step H; [sent|]. run_step H; [sent|].
  injection H as <- <-. sent.
Qed.

(** Account creation is guarded: whatever happens, at most one transaction is
    sent; it is sent only after the account file was read and found absent, and
    only if it passed the creation check for the recorded AccountLock code and the
    requested state; and only the account file is ever written, after the send. *)
Theorem bootstrap_sends_guarded (options : BootstrapOptions)
    (w w' : world W bootstrap_event) (r : res AccountManifest) :
  bootstrapAccount options w = (r, w') →
  ∃ l, w_log w' = w_log w ++ l ∧ sends_guarded options l.
Proof. apply bootstrap_guarded. Qed.
End correctness.

Section success.
Context {W : Type} {zod : Zod} {zod_laws : ZodLaws} {ccc : Ccc} {ccc_laws : CccLaws}
  {deps : BootstrapDeps W} {laws : BootstrapLaws}.
Notation M := (eff W bootstrap_event).

Lemma accountLockCodeHash_hash32 v code : accountLockCodeHash v = Ok code → hash32 code.
Proof.
  unfold accountLockCodeHash. intros H. inv_res. bool_simpl.
  match goal with H : data_hash_text ?x = true |- hash32 (as_str ?x) =>
    destruct x; try discriminate H; by apply test_prefixed in H end.
Qed.

Lemma typeIdScript_spec a : is_hex_text a → typeIdScript a = Ok (state_type_script a).
Proof. intros. apply script_from_code; eauto with js. apply type_type. Qed.

Lemma accountLockScript_spec code id :
  hash32 code → length id = 32%nat →
  accountLockScript code (hexFromBytes id) =
    Ok {| codeHash := code; hashType := "data2"; args := lock_args_of id |}.
Proof.
  intros Hc Hid. unfold accountLockScript. rewrite accountLockArgs_spec by done.
  cbn [mbind res_bind]. apply script_from_code; [by apply hash32_hex_text| |apply data2_type].
  unfold lock_args_of. apply is_hex_text_of.
Qed.

Lemma hashTypeId_hash32 i : hash32 (hashTypeId i 0).
Proof. apply hash32_iff. destruct (hashTypeId_spec i 0) as (b & H & E). eauto. Qed.
Lemma Script_hash_hash32 s : hash32 (Script_hash s).
Proof. apply hash32_iff. destruct (Script_hash_spec s) as (b & H & E). eauto. Qed.

Lemma identify_inv code tx t id tx' :
  hash32 code → identify code tx = Ok (t, id, tx') →
  ∃ input b lock,
    tx_inputs tx !! 0%nat = Some input ∧ t = hashTypeId input 0 ∧
    id = Script_hash (state_type_script t) ∧ id = hexFromBytes b ∧ length b = 32%nat ∧
    lock = {| codeHash := code; hashType := "data2"; args := lock_args_of b |} ∧
    tx' = set_identity (state_type_script t) lock tx.
Proof.
  intros Hc. unfold identify. intros H.
  apply bind_Ok_iff in H as (input & Hi & H). apply from_option_or_Ok in Hi.
  rewrite typeIdScript_spec in H by apply hash32_hex_text, hashTypeId_hash32.
  cbn [mbind res_bind] in H.
  destruct (Script_hash_spec (state_type_script (hashTypeId input 0))) as (b & Hb & E).
  rewrite E, accountLockScript_spec in H by done. inv_res.
  exists input, b. eexists. repeat (split; [done|]). done.
Qed.

(** A manifest with these parts is valid for every deployment of that lock code. *)
Lemma account_manifest_valid d code b t txHash n :
  codeHash (accountLockCode d) = code → hash32 code → hash32 t → hash32 txHash →
  length b = 32%nat → Script_hash (state_type_script t) = hexFromBytes b →
  0 < n <= MAX_SAFE_INTEGER →
  let m := account_manifest (hexFromBytes b) code (lock_args_of b) t txHash n in
  validateAccount (account_val m) d = Ok (account_result m d).
Proof.
  intros Hd Hc Ht Htx Hb Hid Hn m.
  assert (Hdrop : str_drop 4 (lock_args_of b) = str_drop 2 (hexFromBytes b)).
  { unfold lock_args_of. by rewrite !hexFromBytes_digits. }
  assert (Hwf : account_wf m).
  { constructor; cbn; try done.
    - apply hash32_iff. eauto.
    - apply lock_args_iff. eauto. }
  apply validateAccount_val; [by apply account_parse|done|].
  constructor; try done. by apply lock_args_bind.
Qed.

Lemma validateOptions_inv options sc ac :
  validateOptions options = Ok (sc, ac) → 0 < len (bo_stateData options) ∧ 0 < sc ∧ 0 < ac.
Proof.
  unfold validateOptions. intros H. pose proof (len_nonneg (bo_stateData options)).
  apply bind_Ok_iff in H as ([] & Hdata & H). apply throw_if_Ok in Hdata.
  pose proof (cellCapacity_spec ACCOUNT_LOCK_ARGS_LENGTH (Some TYPE_ID_ARGS_LENGTH)
    (len (bo_stateData options)) ltac:(done) ltac:(done) ltac:(by intros ? [= <-])) as E1.
  pose proof (cellCapacity_spec ACCOUNT_LOCK_ARGS_LENGTH None 0
    ltac:(done) ltac:(done) ltac:(done)) as E2.
  cbn [fmap option_fmap option_map] in E1, E2. rewrite E1, E2 in H. inv_res. bool_simpl.
  unfold ACCOUNT_LOCK_ARGS_LENGTH, TYPE_ID_ARGS_LENGTH, SHANNONS_PER_CKB in *.
  split_and!; lia.
Qed.

(** The outputs of the placeholder transaction. *)
Lemma creation_transaction_inv code b sc ac tx :
  hash32 code → 0 < sc → 0 < ac → creation_transaction code (hexFromBytes b) sc ac = Ok tx →
  ∃ lock type, tx_outputs tx = [
    {| co_capacity := sc; co_lock := lock; co_type := Some type |};
    {| co_capacity := ac; co_lock := lock; co_type := None |}].
Proof.
  intros Hc Hs Ha. unfold creation_transaction. intros H.
  apply bind_Ok_iff in H as (lock & _ & H). apply bind_Ok_iff in H as (type & _ & H).
  rewrite Transaction_from_ok in H.
  - injection H as <-. cbn. eauto.
  - cbn. repeat (constructor; [done|]). constructor.
  - cbn. constructor; [apply is_hex_text_of|]. constructor; [apply is_hex_text_0x|]. constructor.
  - constructor.
Qed.

(** The identity written into the placeholder transaction survives the fee step. *)
Lemma completed_identity t lock sc ac l0 t0 (tx tx' : Transaction) input :
  tx_outputs tx = [
    {| co_capacity := sc; co_lock := l0; co_type := Some t0 |};
    {| co_capacity := ac; co_lock := l0; co_type := None |}] →
  tx_inputs tx !! 0%nat = Some input →
  tx_inputs (set_identity t lock tx) `prefix_of` tx_inputs tx' →
  tx_outputs (set_identity t lock tx) `prefix_of` tx_outputs tx' →
  head (tx_inputs tx') = Some input ∧
  tx_outputs tx' !! 0%nat = Some {| co_capacity := sc; co_lock := lock; co_type := Some t |}.
Proof.
  intros Ho Hi Hpi Hpo. unfold set_identity in *. cbn [tx_inputs tx_outputs] in *.
  rewrite Ho in Hpo. split.
  - destruct Hpi as [k ->]. destruct (tx_inputs tx); [done|]. exact Hi.
  - destruct Hpo as [k ->]. done.
Qed.

Lemma bootstrapAccount_run (options : BootstrapOptions)
    (w w' : world W bootstrap_event) (m : AccountManifest) :
  bootstrapAccount options w = (Ok m, w') →
  len (bo_stateData options) <= MAX_SAFE_INTEGER →
  ∃ l tx code input,
    (w_log w' = w_log w ++ l ++ [BSendTransaction tx;
       BWaitTransaction (mo_tx_hash (am_state_out_point m)) 0 300000;
       BWriteJson (repo_path "deploy/testnet-account.json") (account_val m)] ∧
     creation_consistent tx code (hexFromBytes (bo_stateData options)) ∧
     head (tx_inputs tx) = Some input ∧
     am_type_id_args m = hashTypeId input 0 ∧
     am_account_id m = Script_hash (state_type_script (am_type_id_args m)) ∧
     am_state_bytes m = len (bo_stateData options) ∧
     ∀ d, codeHash (accountLockCode d) = code →
       validateAccount (account_val m) d = Ok (account_result m d)) ∧
    ∃ env v env', bd_readJson (repo_path "deploy/testnet-deployments.json") env = (Ok v, env') ∧
      accountLockCodeHash v = Ok code.
Proof.
  unfold bootstrapAccount, readJson. intros H Hsize. inv_run.
  repeat match goal with H : call _ _ _ = _ |- _ => apply call_run in H as [? ?] end.
  repeat match goal with
    | H : Ok _ = validateOptions _ |- _ => symmetry in H; rename H into Hopt
    | H : Ok _ = accountLockCodeHash _ |- _ => symmetry in H; rename H into Hcode
    | H : Ok _ = creation_transaction _ _ _ _ |- _ => symmetry in H; rename H into Hnew
    | H : Ok _ = identify _ _ |- _ => symmetry in H; rename H into Hident
    | H : Ok _ = assertCreationConsistency _ _ _ |- _ => symmetry in H; rename H into Hcons
    | H : from_option_or _ _ = Ok _ |- _ => apply from_option_or_Ok in H; rename H into Hlook end.
  match goal with H : bd_completeInputs _ _ = _ |- _ => rename H into Hinputs end.
  match goal with H : bd_completeFee _ _ _ = _ |- _ => rename H into Hfee end.
  match goal with H : bd_sendTransaction _ _ = _ |- _ => rename H into Hsend end.
  apply validateOptions_inv in Hopt as (Hn & Hsc & Hac).
  pose proof (accountLockCodeHash_hash32 _ _ Hcode) as H32. rewrite hexFrom_spec in *.
  destruct (creation_transaction_inv _ _ _ _ _ H32 Hsc Hac Hnew) as (l0 & t0 & Eo).
  apply completeInputs_keeps in Hinputs as [Eo' _]. rewrite Eo in Eo'.
  destruct (identify_inv _ _ _ _ _ H32 Hident) as (input & b & lock & Hi & -> & -> & Hb & Hl & -> & ->).
  apply completeFee_keeps in Hfee as (Hpi & Hpo & _).
  destruct (completed_identity _ _ _ _ _ _ _ _ _ Eo' Hi Hpi Hpo) as [Hhead Hout].
  apply sendTransaction_hash in Hsend. rewrite Hout in Hlook. injection Hlook as <-.
  eexists [BReadJson _; BReadJson _; BCompleteInputs _; BCompleteFee _ _], _, _, input.
  split; [|by eauto]. split; [log_eq|]. split; [by eapply assertCreationConsistency_iff|].
  do 4 (split; [done|]). intros d Hd. rewrite Hb.
  cbn [co_lock args]. apply account_manifest_valid; try done. apply hashTypeId_hash32.
Qed.

(** C25 — A created account is usable: when creation succeeds, the manifest it
    returns is the one it wrote, after sending a transaction that passed the
    creation check and waiting for it; it names the outputs of that transaction,
    its identifier is the hash of the Type ID script derived from the transaction's
    first input, and the demo's validator accepts it for every deployment of the
    same AccountLock code. *)
Theorem bootstrap_account_sound (options : BootstrapOptions)
    (w w' : world W bootstrap_event) (m : AccountManifest) :
  bootstrapAccount options w = (Ok m, w') →
  len (bo_stateData options) <= MAX_SAFE_INTEGER →
  ∃ l tx code input,
    w_log w' = w_log w ++ l ++ [BSendTransaction tx;
      BWaitTransaction (mo_tx_hash (am_state_out_point m)) 0 300000;
      BWriteJson (repo_path "deploy/testnet-account.json") (account_val m)] ∧
    creation_consistent tx code (hexFromBytes (bo_stateData options)) ∧
    head (tx_inputs tx) = Some input ∧
    am_type_id_args m = hashTypeId input 0 ∧
    am_account_id m = Script_hash (state_type_script (am_type_id_args m)) ∧
    am_state_bytes m = len (bo_stateData options) ∧
    ∀ d, codeHash (accountLockCode d) = code →
      validateAccount (account_val m) d = Ok (account_result m d).
Proof.
  intros H Hn. destruct (bootstrapAccount_run _ _ _ _ H Hn) as (l & tx & code & input & Hx & _).
  eauto.
Qed.
End success.
