(* ===== verification/Creation.v ===== *)
(** * The account creation program ([tools/deploy/src/bootstrap.ts])

    The command line program around [Bootstrap]: its arguments, the plan it prints, and
    the library call it makes when asked to broadcast. *)

From S2P Require Import Prelude Js JsString Regex Bytes Zod Constants Schemas Effects Json.
From S2P Require Import Ccc CccRef Wire Manifests Account Artifacts Deployment Publish.
From S2P Require Import Bootstrap.

(** A run of the library inside the program: its calls become entries of the program's
    log. *)
Definition embed {W Ev Ev' A} (f : Ev → Ev') (m : eff W Ev A) : eff W Ev' A := λ w,
  let '(r, w') := m (World (w_env w) []) in
  (r, World (w_env w') (w_log w ++ (f <$> w_log w'))).

Lemma embed_run {W Ev Ev' A} (f : Ev → Ev') (m : eff W Ev A) w r w' :
  embed f m w = (r, w') → ∃ w1, m (World (w_env w) []) = (r, w1) ∧
    w_log w' = w_log w ++ (f <$> w_log w1).
Proof. unfold embed. destruct (m _) as [r1 w1]. intros [= <- <-]. by exists w1. Qed.

Inductive creation_event :=
  | CTool (e : tool_event)
  | CBootstrap (e : bootstrap_event).

Record Options := { op_statePath : string; op_assetCapacityCkb : Z; op_broadcast : bool }.

(** [argv[argv.indexOf(flag) + 1]]. *)
Fixpoint flag_value (flag : string) (argv : list string) : option string :=
  match argv with
  | [] => None
  | argument :: argv' => if String.eqb argument flag then head argv' else flag_value flag argv'
  end.

Definition parseArgs (argv : list string) : res Options :=
  statePath ← match flag_value "--state" argv with
              | None | Some EmptyString =>
                  Throw (Error "--state <path> is required; produce it with the export_account_state example")
              | Some path => Ok path
              end;
  let assetRaw := default "200" (flag_value "--asset-capacity" argv) in
  throw_if (negb (test (RPlus (RCls is_digit)) assetRaw))
    (Error ("--asset-capacity must be a whole number of CKB, got " +:+ assetRaw));;
  Ok {| op_statePath := statePath; op_assetCapacityCkb := default 0 (parse_digits 10 assetRaw None);
        op_broadcast := existsb (String.eqb "--broadcast") argv |}.

Section creation.
Context {W : Type} {ccc : Ccc} {files : Files} {tool : Tool W}.
(** [writeJsonAtomicFile], [repoRoot], and [resolve] from the working directory. *)
Context (writeJsonAtomicFile : string → jsval → W → res unit * W) (repoRoot : string)
  (resolve_cwd : string → string).
Notation M := (eff W creation_event).

Definition readJsonOrNull (path : string) : W → res jsval * W := λ w,
  let '(found, w1) := tool_exists path w in
  match found with
  | Throw e => (Throw e, w1)
  | Ok false => (Ok JNull, w1)
  | Ok true => tool_readJson path w1
  end.

(** The dependencies that [main] gives to [bootstrapAccount]. *)
Definition creation_deps : BootstrapDeps W := {|
  repo_path := tool_path; bd_readJson := readJsonOrNull;
  bd_writeJsonAtomic := writeJsonAtomicFile;
  bd_completeInputs := tool_completeInputs; bd_completeFee := tool_completeFee;
  bd_sendTransaction := tool_send; bd_waitTransaction := tool_wait |}.

Definition say (line : string) : M unit := embed CTool (print line).

Definition resolveAccountLockCodeHash : M (jsval * bool) :=
  let testnetPath := tool_path "deploy/testnet-deployments.json" in
  found ← call (CTool (TExists testnetPath)) (tool_exists testnetPath);
  dataHash ← (if found : bool then
                manifest ← call (CTool (TReadJson testnetPath)) (tool_readJson testnetPath);
                lift (throw_if (nullish manifest) (TypeError "Cannot read properties of null"));;
                mret (prop (prop (prop manifest "artifacts") "account_lock") "dataHash")
              else mret JUndef);
  if negb (falsy dataHash) then mret (dataHash, true)
  else
    identities ← lift (readLocalArtifactIdentities repoRoot);
    identity ← lift (from_option_or
      (Error "no account_lock identity in deploy/reference-deployments.json")
      (assoc "account_lock" identities));
    mret (id_dataHash identity, false).

Definition creation_lines (codeHash : jsval) (deployed : bool) (stateBytes stateCapacity
    assetCapacity : Z) : list string := [
  "Account creation plan" +:+ newline;
  "  AccountLock code hash " +:+ js_text codeHash;
  "  AccountLock published  " +:+ (if deployed then "yes" else "NOT YET");
  "  state bytes            " +:+ dec stateBytes;
  "  state cell capacity    " +:+ formatCkb stateCapacity;
  "  asset cell capacity    " +:+ formatCkb assetCapacity;
  "  total                  " +:+ formatCkb (stateCapacity + assetCapacity) +:+ newline] ++
  (if deployed then [] else [
  "  WARNING: no deploy/testnet-deployments.json. Creation does not execute" +:+ newline +:+
  "  AccountLock, so this transaction would succeed, but the account cannot" +:+ newline +:+
  "  be spent until that code cell is published." +:+ newline]).

(** The capacities of the plan. *)
Definition planned_capacities (stateData : bytes) (assetCapacityCkb : Z) : res (Z * Z) :=
  stateCapacity ← cellCapacityShannons (NInt ACCOUNT_LOCK_ARGS_LENGTH)
    (Some (NInt TYPE_ID_ARGS_LENGTH)) (NInt (len stateData));
  let assetCapacity := assetCapacityCkb * SHANNONS_PER_CKB in
  minimumAsset ← cellCapacityShannons (NInt ACCOUNT_LOCK_ARGS_LENGTH) None (NInt 0);
  throw_if (assetCapacity <? minimumAsset)
    (Error ("--asset-capacity " +:+ formatCkb assetCapacity +:+ " is below the " +:+
            formatCkb minimumAsset +:+ " minimum for an AccountLock-locked cell"));;
  Ok (stateCapacity, assetCapacity).

Definition broadcast_creation (options : BootstrapOptions) : M unit :=
  key ← lift required_key;
  lift (tool_signer key);;
  address ← call (CTool TAddress) tool_address;
  say ("Creating from " +:+ address +:+ newline);;
  manifest ← embed CBootstrap (bootstrapAccount (deps := creation_deps) options);
  say ("  account id " +:+ am_account_id manifest);;
  say ("  lock args  " +:+ am_args manifest);;
  say ("  committed  " +:+ mo_tx_hash (am_state_out_point manifest));;
  say (newline +:+ "Wrote " +:+ tool_path "deploy/testnet-account.json").

Definition creation_main (argv : list string) : M unit :=
  options ← lift (parseArgs argv);
  stateData ← lift (read_bytes (resolve_cwd (op_statePath options)));
  lift (throw_if (len stateData =? 0) (Error (op_statePath options +:+ " is empty")));;
  '(codeHash, deployed) ← resolveAccountLockCodeHash;
  '(stateCapacity, assetCapacity) ←
    lift (planned_capacities stateData (op_assetCapacityCkb options));
  iter_eff say (creation_lines codeHash deployed (len stateData) stateCapacity assetCapacity);;
  if op_broadcast options then
    broadcast_creation {| bo_stateData := stateData;
                          bo_assetCapacityCkb := op_assetCapacityCkb options |}
  else say "Dry run. Re-run with --broadcast and CKB_PRIVKEY set to create.".

(** The program, with its exit code. *)
Definition create (argv : list string) : M Z :=
  catch (creation_main argv;; mret 0)
    (λ error,
      call (CTool (TPrintError (newline +:+ "Account creation failed: " +:+ exn_message error)))
        (λ w, (Ok tt, w));;
      mret 1).
End creation.

(** ** What a run may do *)

Definition boots (l : list creation_event) : list bootstrap_event :=
  omap (λ e, match e with CBootstrap e => Some e | _ => None end) l.

(** Printing and reading. *)
Definition harmless (e : creation_event) : bool :=
  match e with
  | CTool (TPrint _ | TPrintError _ | TExists _ | TReadJson _ | TAddress) => true
  | _ => false
  end.

Section correctness.
Context {W : Type} {ccc : Ccc} {ccc_laws : CccLaws} {files : Files} {tool : Tool W}.
Context (writeJsonAtomicFile : string → jsval → W → res unit * W) (repoRoot : string)
  (resolve_cwd : string → string).
Notation M := (eff W creation_event).
Notation deps := (creation_deps writeJsonAtomicFile).
Let deploymentPath := tool_path "deploy/testnet-deployments.json".

Lemma boots_app l1 l2 : boots (l1 ++ l2) = boots l1 ++ boots l2.
Proof. apply omap_app. Qed.
Lemma boots_embedded l : boots (CBootstrap <$> l) = l.
Proof. induction l as [|e l IH]; [done|]. cbn. by f_equal. Qed.
Lemma boots_harmless l : forallb harmless l = true → boots l = [].
Proof.
  induction l as [|e l IH]; [done|]. cbn. intros [He Hl]%andb_true_iff.
  destruct e; [by apply IH|discriminate].
Qed.

(** Code that only prints and reads. *)
Definition quiet {A} (m : M A) : Prop :=
  ∀ w r w', m w = (r, w') → ∃ l, w_log w' = w_log w ++ l ∧ forallb harmless l = true.

Lemma quiet_lift {A} (x : res A) : quiet (lift x).
Proof. intros w r w' [-> ->]%lift_run. exists []. by rewrite app_nil_r. Qed.
Lemma quiet_ret {A} (x : A) : quiet (mret x).
Proof. intros w r w' [= <- <-]. exists []. by rewrite app_nil_r. Qed.
Lemma quiet_call {A} ev (f : W → res A * W) : harmless ev = true → quiet (call ev f).
Proof. intros He w r w' [_ Hl]%call_run. exists [ev]. split; [done|]. cbn. by rewrite He. Qed.
Lemma quiet_bind {A B} (m : M A) (f : A → M B) :
  quiet m → (∀ x, quiet (f x)) → quiet (m ≫= f).
Proof.
  intros Hm Hf w r w' [(e & H & _)|(x & w1 & H1 & H2)]%eff_bind_cases; [by eapply Hm|].
  apply Hm in H1 as (l1 & E1 & Q1). apply Hf in H2 as (l2 & E2 & Q2).
  exists (l1 ++ l2). split; [by rewrite E2, E1, app_assoc|]. by rewrite forallb_app, Q1, Q2.
Qed.
Lemma quiet_say line : quiet (say line).
Proof.
  intros w r w' (w1 & H & Hl)%embed_run. apply print_run in H as [_ E].
  exists [CTool (TPrint line)]. by rewrite Hl, E.
Qed.
Lemma quiet_iter {A} (f : A → M unit) l : (∀ x, quiet (f x)) → quiet (iter_eff f l).
Proof. intros Hf. induction l; cbn [iter_eff]; auto using quiet_ret, quiet_bind. Qed.
#[local] Hint Resolve quiet_lift quiet_ret quiet_say quiet_iter quiet_bind : core.
#[local] Hint Extern 1 (quiet (call _ _)) => apply quiet_call; reflexivity : core.

Lemma quiet_resolve : quiet (resolveAccountLockCodeHash repoRoot).
Proof.
  unfold resolveAccountLockCodeHash. apply quiet_bind; [auto|]. intros found.
  apply quiet_bind; [destruct found; auto 10|]. intros v. destruct (negb _); auto 10.
Qed.
(** The library runs at most once, between harmless steps, and only with a key. *)
Inductive trace (options : BootstrapOptions) (l : list creation_event) (r : res unit) : Prop :=
  | tr_refused e : forallb harmless l = true → r = Throw e → trace options l r
  | tr_run l1 l2 env rb wb key :
      l = l1 ++ (CBootstrap <$> w_log wb) ++ l2 →
      forallb harmless l1 = true → forallb harmless l2 = true →
      tool_privateKey = Some key → key ≠ "" → tool_signer key = Ok tt →
      bootstrapAccount (deps := deps) options (World env []) = (rb, wb) →
      (r = Ok tt → ∃ m, rb = Ok m) →
      trace options l r.

Lemma broadcast_creation_run options (w w' : world W creation_event) r :
  broadcast_creation writeJsonAtomicFile options w = (r, w') →
  ∃ l, w_log w' = w_log w ++ l ∧ trace options l r.
Proof.
  unfold broadcast_creation. intros H.
  run_step H; [exists []; split; [by rewrite app_nil_r|]; by eapply tr_refused|].
  match goal with H : _ = required_key |- _ => symmetry in H; apply required_key_inv in H as [Hk Hne] end.
  run_step H; [exists []; split; [by rewrite app_nil_r|]; by eapply tr_refused|].
  match goal with H : Ok ?u = tool_signer _ |- _ => symmetry in H; destruct u; rename H into Hsigner end.
  run_step H; [eexists; split; [done|]; by eapply tr_refused|].
  apply eff_bind_cases in H as [(e & H & ->)|(u & w1 & H1 & H)].
  { apply quiet_say in H as (l & El & Hq). eexists. split; [log_eq|].
    by eapply tr_refused; [cbn; exact Hq|]. }
  apply quiet_say in H1 as (l1 & El1 & Hq1).
  assert (Hrun : ∀ rb wb l2, bootstrapAccount (deps := deps) options (World (w_env w1) []) = (rb, wb) →
    forallb harmless l2 = true → (r = Ok tt → ∃ m, rb = Ok m) →
    trace options (CTool TAddress :: l1 ++ (CBootstrap <$> w_log wb) ++ l2) r).
  { intros rb wb l2 Hb H2 Hr. by eapply (tr_run _ _ _ (CTool TAddress :: l1)). }
  apply eff_bind_cases in H as [(e & H & ->)|(m & w2 & H2 & H)].
  - apply embed_run in H as (wb & Hb & El2). eexists. split; [log_eq|].
    rewrite <- (app_nil_r (CBootstrap <$> _)). by eapply Hrun.
  - apply embed_run in H2 as (wb & Hb & El2).
    match type of H with ?m _ = _ => assert (Hq : quiet m) by auto 10 end.
    apply Hq in H as (l2 & El3 & Hq2). eexists. split; [log_eq|]. eapply Hrun; eauto.
Qed.

(** Without a published manifest the library refuses. *)
Definition unpublished : Prop := ∀ env, ∃ env', tool_exists deploymentPath env = (Ok false, env').

Lemma unpublished_reads env v env' :
  unpublished → readJsonOrNull deploymentPath env = (Ok v, env') → v = JNull.
Proof.
  intros Hu. unfold readJsonOrNull. destruct (Hu env) as [env1 ->]. by intros [= <- _].
Qed.

Lemma unpublished_refused options env rb (wb : world W bootstrap_event) :
  unpublished → bootstrapAccount (deps := deps) options (World env []) = (rb, wb) →
  (∃ e, rb = Throw e) ∧ ∀ tx, BSendTransaction tx ∉ w_log wb.
Proof.
  intros Hu H. split.
  - destruct rb as [m|e]; [|by eauto]. exfalso.
    apply bootstrapAccount_reads in H as (env1 & v & env2 & code & Hr & Hc).
    apply unpublished_reads in Hr as ->; [|done]. discriminate Hc.
  - intros tx Hin. apply bootstrap_guarded in H as (l & El & _ & Hg & _). cbn in El.
    rewrite El in Hin. destruct (Hg tx Hin) as [_ (env1 & env2 & v & code & Hr & Hc & _)].
    apply unpublished_reads in Hr as ->; [|done]. discriminate Hc.
Qed.
(** ** Runs of the program *)

Definition options_of (argv : list string) (options : Options) (stateData : bytes) : Prop :=
  parseArgs argv = Ok options ∧ read_bytes (resolve_cwd (op_statePath options)) = Ok stateData ∧
  stateData ≠ [].
Definition bootstrap_options (options : Options) (stateData : bytes) : BootstrapOptions := {|
  bo_stateData := stateData; bo_assetCapacityCkb := op_assetCapacityCkb options |}.

Definition main_trace (argv : list string) (l : list creation_event) (r : res unit) : Prop :=
  (forallb harmless l = true ∧ (r = Ok tt → ∃ options data,
     options_of argv options data ∧ op_broadcast options = false)) ∨
  ∃ options data, options_of argv options data ∧ op_broadcast options = true ∧
    trace (bootstrap_options options data) l r.

Lemma trace_after options pre l r :
  forallb harmless pre = true → trace options l r → trace options (pre ++ l) r.
Proof.
  intros Hp [e Hl Hr|l1 l2 env rb wb key -> H1 H2 Hk Hne Hs Hb Hr].
  - eapply tr_refused; [by rewrite forallb_app, Hp|exact Hr].
  - eapply (tr_run _ _ _ (pre ++ l1) l2); [by rewrite app_assoc|by rewrite forallb_app, Hp|done..].
Qed.

(** A harmless step of [main] that fails ends the run. *)
Lemma main_trace_quiet argv l e : forallb harmless l = true → main_trace argv l (Throw e).
Proof. intros H. left. by split. Qed.

Lemma creation_main_run argv (w w' : world W creation_event) r :
  creation_main writeJsonAtomicFile repoRoot resolve_cwd argv w = (r, w') →
  ∃ l, w_log w' = w_log w ++ l ∧ main_trace argv l r.
Proof.
  unfold creation_main. intros H.
  do 3 (run_step H; [exists []; split; [by rewrite app_nil_r|]; by apply main_trace_quiet|]).
  match goal with H1 : Ok ?o = parseArgs _, H2 : Ok ?d = read_bytes _, H3 : _ = throw_if _ _ |- _ =>
    assert (Ho : options_of argv o d) by (symmetry in H3; apply throw_if_Ok in H3;
      split; [done|]; split; [done|]; by intros ->);
    rename o into options, d into data end.
  apply eff_bind_cases in H as [(e & H & ->)|([code dep] & w1 & H1 & H)].
  { apply quiet_resolve in H as (l & El & Hq). eauto using main_trace_quiet. }
  apply quiet_resolve in H1 as (l1 & El1 & Hq1).
  run_step H; [exists l1; by split; [|apply main_trace_quiet]|].
  match goal with c : (Z * Z)%type |- _ => destruct c as [stateCapacity assetCapacity] end.
  apply eff_bind_cases in H as [(e & H & ->)|(u & w2 & H2 & H)].
  { apply quiet_iter in H as (l & El & Hq); [|apply quiet_say]. exists (l1 ++ l).
    split; [log_eq|]. apply main_trace_quiet. by rewrite forallb_app, Hq1. }
  apply quiet_iter in H2 as (l2 & El2 & Hq2); [|apply quiet_say].
  assert (Hq : forallb harmless (l1 ++ l2) = true) by by rewrite forallb_app, Hq1.
  destruct (op_broadcast options) eqn:Eb.
  - apply broadcast_creation_run in H as (l & El & Ht). exists ((l1 ++ l2) ++ l).
    split; [log_eq|]. right. exists options, data. eauto using trace_after.
  - apply quiet_say in H as (l & El & Hq3). exists ((l1 ++ l2) ++ l). split; [log_eq|].
    left. rewrite forallb_app, Hq. eauto.
Qed.

Record created (argv : list string) (l : list creation_event) (code : Z) : Prop := {
  cr_code : code = 0 ∨ code = 1;
  cr_harmless : ∀ e, CTool e ∈ l → harmless (CTool e) = true;
  cr_library : boots l ≠ [] → ∃ options data key,
    options_of argv options data ∧ "--broadcast" ∈ argv ∧
    tool_privateKey = Some key ∧ key ≠ "" ∧ tool_signer key = Ok tt ∧
    sends_guarded (deps := deps) (bootstrap_options options data) (boots l);
  cr_done : code = 0 → ∃ options data, options_of argv options data ∧
    (op_broadcast options = true → ∃ m env wb,
       bootstrapAccount (deps := deps) (bootstrap_options options data) (World env []) = (Ok m, wb) ∧
       boots l = w_log wb);
  cr_unpublished : unpublished →
    (∀ tx, BSendTransaction tx ∉ boots l) ∧ ("--broadcast" ∈ argv → code = 1) }.

Lemma broadcast_flag argv options :
  parseArgs argv = Ok options → op_broadcast options = true ↔ "--broadcast" ∈ argv.
Proof.
  intros H. assert (E : op_broadcast options = existsb (String.eqb "--broadcast") argv)
    by (unfold parseArgs in H; inv_res; reflexivity).
  rewrite E, list_elem_of_In. split; intros Hin.
  - by apply existsb_exists in Hin as (x & ? & <-%String.eqb_eq).
  - apply existsb_exists. eexists. by split; [|apply String.eqb_refl].
Qed.

Lemma boots_trace l1 l2 (wb : world W bootstrap_event) :
  forallb harmless l1 = true → forallb harmless l2 = true →
  boots (l1 ++ (CBootstrap <$> w_log wb) ++ l2) = w_log wb.
Proof.
  intros H1 H2. rewrite !boots_app, boots_embedded.
  by rewrite (boots_harmless l1), (boots_harmless l2), app_nil_r.
Qed.

Lemma harmless_in l e : forallb harmless l = true → CTool e ∈ l → harmless (CTool e) = true.
Proof. intros H Hin. eapply forallb_forall in H; [exact H|by apply list_elem_of_In]. Qed.

(** The trace of [main] gives the properties of the run, whatever its exit code. *)
Lemma quiet_created argv l code :
  forallb harmless l = true → code = 0 ∨ code = 1 →
  (code = 0 → ∃ options data, options_of argv options data ∧ op_broadcast options = false) →
  created argv l code.
Proof.
  intros Hl Hcode Hdone. pose proof (boots_harmless _ Hl) as Hb. constructor; [done|..].
  - intros e. by apply harmless_in.
  - by intros [].
  - intros E. destruct (Hdone E) as (options & data & Ho & Hf). exists options, data.
    split; [done|]. congruence.
  - intros _. split; [intros tx; rewrite Hb; apply not_elem_of_nil|].
    intros Hin. destruct Hcode as [E|]; [|done]. exfalso.
    destruct (Hdone E) as (options & data & (Hp & _) & Hf).
    apply (broadcast_flag _ _ Hp) in Hin. congruence.
Qed.

Lemma run_created argv options data l r code :
  options_of argv options data → op_broadcast options = true →
  trace (bootstrap_options options data) l r →
  code = 0 ∨ code = 1 → (code = 0 → r = Ok tt) → created argv l code.
Proof.
  intros Ho Hf [e Hl Hr|l1 l2 env rb wb key -> H1 H2 Hk Hne Hs Hb Hr] Hcode Hzero.
  { apply quiet_created; [done..|]. intros E. specialize (Hzero E). congruence. }
  pose proof (boots_trace l1 l2 wb H1 H2) as Hw.
  assert (Hflag : "--broadcast" ∈ argv) by (eapply broadcast_flag; [apply Ho|done]).
  constructor; [done|..].
  - intros e. rewrite !elem_of_app. intros [Hin|[Hin|Hin]]; [exact (harmless_in _ _ H1 Hin)| |exact (harmless_in _ _ H2 Hin)].
    by apply list_elem_of_fmap in Hin as (x & [=] & _).
  - intros _. exists options, data, key. rewrite Hw. do 5 (split; [done|]).
    apply bootstrap_guarded in Hb as (l & El & Hg). cbn in El. by rewrite El.
  - intros E. exists options, data. split; [done|]. intros _.
    destruct (Hr (Hzero E)) as [m ->]. exists m, env, wb. done.
  - intros Hu. rewrite Hw. destruct (unpublished_refused _ _ _ _ Hu Hb) as [[e ->] Hno].
    split; [done|]. intros _. destruct Hcode as [E|]; [|done].
    destruct (Hr (Hzero E)) as [m ?]. congruence.
Qed.

(** C39 — The creation program: only the library sends or writes, and it runs only with the
    flag, a key the wallet accepts, readable non-empty state and well-formed arguments; its
    sends are guarded as its own theorem says. The exit code is 0 only after a dry run or a
    creation that succeeded. While no manifest of published contracts exists, no creation is
    ever sent and every run with the flag fails, although the plan that the program prints
    says that such a transaction would succeed. *)
Theorem creation_guarded (argv : list string) (env : W) (r : res Z)
    (w' : world W creation_event) :
  create writeJsonAtomicFile repoRoot resolve_cwd argv (World env []) = (r, w') →
  ∃ code, r = Ok code ∧ created argv (w_log w') code.
Proof.
  unfold create, catch. destruct ((creation_main _ _ _ argv;; mret 0) _) as [[code|e] w1] eqn:H.
  - intros [= <- <-]. exists code. split; [done|].
    apply eff_bind_Ok in H as ([] & w2 & H & [= <- <-]).
    apply creation_main_run in H as (l & -> & [[Hl Hr]|(options & data & Ho & Hf & Ht)]).
    + apply quiet_created; [done|by left|auto].
    + eapply run_created; [done..|by left|done].
  - apply eff_bind_Throw in H as [H|(u & w2 & H & ?)]; [|done].
    apply creation_main_run in H as (l & El & Hm). intros [= <- <-]. exists 1. split; [done|].
    cbn [w_log]. cbn in El. rewrite El. destruct Hm as [[Hl Hr]|(options & data & Ho & Hf & Ht)].
    + apply quiet_created; [by rewrite forallb_app, Hl|by right|done].
    + eapply (run_created _ options data _ (Throw e)); [done..| |by right|done].
      destruct Ht as [e' Hl Hr|l1 l2 env' rb wb key -> H1 H2 Hk Hne Hs Hb Hr].
      * eapply tr_refused; [|done]. by rewrite forallb_app, Hl.
      * eapply (tr_run _ _ _ l1 (l2 ++ [_])); [by rewrite <- !app_assoc|done| |done..].
        by rewrite forallb_app, H2.
Qed.
End correctness.
