(* ===== verification/Service.v ===== *)
(** * The local service ([demo/src/server/errors.ts], [config.ts], [service.ts])

    API errors, the server's configuration, and the service behind the HTTP routes.
    A request runs as a program that awaits the service's dependencies one call at a
    time; requests interleave at those calls. What the service shares between
    requests (the creation in progress and the verification of the deployment) is the
    state of a transition system. *)

From S2P Require Import Prelude Js JsString Regex Bytes Zod Constants Schemas Ccc CccRef.
From S2P Require Import Manifests.

(** ** Errors *)

Definition ApiError (code : string) (status : Z) (safeMessage : string) : exn :=
  Exn (CApiError code status) safeMessage.
Definition is_ApiError (e : exn) : bool :=
  match exn_class e with CApiError _ _ => true | _ => false end.

Definition error_body (code message : string) : jsval :=
  JObj [("error", JObj [("code", JStr code); ("message", JStr message)])].

Definition toSafeErrorBody (error : exn) : jsval :=
  match exn_class error with
  | CApiError code _ => error_body code (exn_message error)
  | _ => error_body "INTERNAL_ERROR" "Unexpected local server error"
  end.

(** ** Configuration *)

(** [env.CKB_PRIVKEY ?? ""] must match [/^0x[0-9a-fA-F]{64}$/]. *)
Definition PRIVATE_KEY : re := RSeq (RLit "0x") (RRep 64 (RCls is_hex)).

Record ServerConfig := {
  host : string; port : Z; clientOrigin : string; rpId : string; network : string;
  privateKey : string }.

Definition loadServerConfig (CKB_PRIVKEY : option string) : res ServerConfig :=
  let privateKey := default "" CKB_PRIVKEY in
  throw_if (negb (test PRIVATE_KEY privateKey))
    (ApiError "KEY_UNAVAILABLE" 500 "CKB_PRIVKEY is missing or invalid");;
  Ok {| host := "127.0.0.1"; port := API_PORT; clientOrigin := CLIENT_ORIGIN; rpId := RP_ID;
        network := "testnet"; privateKey := privateKey |}.

(** ** Programs that await the service's dependencies *)

(** One constructor per operation of [DemoServiceDeps]; [VerifyDeployment] awaits the
    shared promise of [verifyDeployment], and [Funder] the pair of promises for the
    funder's address and balance. *)
Inductive prog (A : Type) :=
  | Done (r : res A)
  | GetDeploymentCell (txHash : string) (index : Z) (k : res (option string) → prog A)
  | GetStateCell (outPoint : ManifestOutPoint) (k : res (option string) → prog A)
  | ReadAccountManifest (k : res jsval → prog A)
  | FunderBalance (k : res Z → prog A)
  | Funder (k : res (string * Z) → prog A)
  | ExportState (request : BootstrapRequest) (k : res bytes → prog A)
  | CreateAccount (stateData : bytes) (k : res jsval → prog A)
  | VerifyDeployment (k : res unit → prog A).
Arguments Done {A} r.
Arguments GetDeploymentCell {A} txHash index k.
Arguments GetStateCell {A} outPoint k.
Arguments ReadAccountManifest {A} k.
Arguments FunderBalance {A} k.
Arguments Funder {A} k.
Arguments ExportState {A} request k.
Arguments CreateAccount {A} stateData k.
Arguments VerifyDeployment {A} k.

(** Continue the result of a program, a value or an exception, with another. *)
Fixpoint and_then {A B} (m : prog A) (f : res A → prog B) : prog B :=
  match m with
  | Done r => f r
  | GetDeploymentCell h i k => GetDeploymentCell h i (λ x, and_then (k x) f)
  | GetStateCell o k => GetStateCell o (λ x, and_then (k x) f)
  | ReadAccountManifest k => ReadAccountManifest (λ x, and_then (k x) f)
  | FunderBalance k => FunderBalance (λ x, and_then (k x) f)
  | Funder k => Funder (λ x, and_then (k x) f)
  | ExportState q k => ExportState q (λ x, and_then (k x) f)
  | CreateAccount d k => CreateAccount d (λ x, and_then (k x) f)
  | VerifyDeployment k => VerifyDeployment (λ x, and_then (k x) f)
  end.

#[export] Instance prog_ret : MRet prog := λ A a, Done (Ok a).
#[export] Instance prog_bind : MBind prog := λ A B f m,
  and_then m (λ r, match r with Ok a => f a | Throw e => Done (Throw e) end).
(** [try { m } catch (e) { h }]. *)
Definition try_catch {A} (m : prog A) (h : exn → prog A) : prog A :=
  and_then m (λ r, match r with Ok a => Done (Ok a) | Throw e => h e end).

(** ** The service *)

Definition ACCOUNT_LOCK_ARGS_LENGTH : Z := 33.
Definition TYPE_ID_ARGS_LENGTH : Z := 32.
Definition BOOTSTRAP_FEE_RESERVE : Z := SHANNONS_PER_CKB.

Definition accountStateCapacity (stateLength : Z) : Z :=
  (8 + (32 + 1 + ACCOUNT_LOCK_ARGS_LENGTH) + (32 + 1 + TYPE_ID_ARGS_LENGTH) + stateLength) *
  SHANNONS_PER_CKB.

Definition requiredBalance (stateLength : Z) : Z :=
  accountStateCapacity stateLength + INITIAL_ASSET + BOOTSTRAP_FEE_RESERVE.

Definition isConfirmationTimeout (error : exn) : bool :=
  match exn_class error with
  | CLibrary name => String.eqb name "ErrorClientWaitTransactionTimeout"
  | _ => false
  end.

Definition ACCOUNT_MISMATCH : exn :=
  ApiError "ACCOUNT_MISMATCH" 409 "Recorded account does not match this testnet deployment".
Definition UNVERIFIED : exn :=
  ApiError "DEPLOYMENT_INVALID" 500 "Published testnet code cells could not be verified".
Definition INVALID_BOOTSTRAP : exn :=
  ApiError "INVALID_REQUEST" 400 "Invalid account bootstrap request".
Definition OTHER_CREATION : exn :=
  ApiError "ACCOUNT_MISMATCH" 409 "A different account creation is already in progress".

(** [if (error instanceof ApiError) throw error; throw e]. *)
Definition api_or (e error : exn) : exn := if is_ApiError error then error else e.

Section service.
Context {zod : Zod} {ccc : Ccc}.

Definition parseAccount (value : jsval) (deployment : DeploymentManifest)
    : res (option AccountManifest) :=
  if is_null value then Ok None
  else match safeParse AccountManifestSchema value with
       | None => Throw ACCOUNT_MISMATCH
       | Some data =>
           let m := account_of data in
           throw_if (negb (String.eqb (am_code_hash m) (da_dataHash (dm_account_lock deployment))))
             ACCOUNT_MISMATCH;;
           Ok (Some m)
       end.

(** [createDemoService] checks the deployment before it returns a service. *)
Definition service_deployment (value : jsval) : res DeploymentManifest :=
  data ← from_option_or (ApiError "DEPLOYMENT_INVALID" 500 "Testnet deployment is invalid")
           (safeParse DeploymentManifestSchema value);
  Ok (deployment_of data).

Variable deployment : DeploymentManifest.

Definition account : prog (option AccountManifest) :=
  ReadAccountManifest (λ r, Done (v ← r; parseAccount v deployment)).

(** The loop of [verifyDeployment] over the artifacts. *)
Fixpoint verify_artifacts (artifacts : list DeploymentArtifact) : prog unit :=
  match artifacts with
  | [] => mret tt
  | artifact :: artifacts' =>
      cell ← GetDeploymentCell (da_txHash artifact) (da_index artifact) Done;
      Done (match cell with
            | None => Throw UNVERIFIED
            | Some outputData =>
                h ← hashCkb_hex outputData;
                throw_if (negb (String.eqb h (da_dataHash artifact))) UNVERIFIED
            end);;
      verify_artifacts artifacts'
  end.
Definition verification : prog unit :=
  verify_artifacts [dm_account_lock deployment; dm_verifier_p256 deployment].

Definition bootstrapOnce (request : BootstrapRequest) : prog AccountManifest :=
  VerifyDeployment Done;;
  stateData ← try_catch (ExportState request Done)
    (λ error, Done (Throw (api_or
       (ApiError "BOOTSTRAP_FAILED" 500 "Account state export failed") error)));
  existing ← account;
  match existing with
  | Some existing =>
      live ← GetStateCell (am_state_out_point existing) Done;
      Done (throw_if
        (match live with
         | None => true
         | Some outputData =>
             negb (am_state_bytes existing =? len stateData) ||
             negb (String.eqb (toLowerCase outputData) (hexFromBytes stateData))
         end)
        (ApiError "ACCOUNT_MISMATCH" 409 "Existing account does not match this passkey"));;
      mret existing
  | None =>
      balance ← FunderBalance Done;
      Done (throw_if (balance <? requiredBalance (len stateData))
        (ApiError "INSUFFICIENT_BALANCE" 409
           "Backend funder balance is insufficient for account creation"));;
      try_catch
        (created ← CreateAccount stateData Done;
         parsed ← Done (parseAccount created deployment);
         Done (from_option_or
           (ApiError "BOOTSTRAP_FAILED" 500 "Account creation returned no manifest") parsed))
        (λ error, Done (Throw
           (if isConfirmationTimeout error
            then ApiError "CONFIRMATION_TIMEOUT" 504
                   "Account transaction was submitted but confirmation timed out"
            else api_or (ApiError "BOOTSTRAP_FAILED" 500 "Account creation failed") error)))
  end.

Definition status_val (address : string) (balance : Z) (current : option AccountManifest)
    : jsval := JObj [
  ("schemaVersion", JNum (NInt 1)); ("network", JStr "testnet");
  ("origin", JStr CLIENT_ORIGIN); ("rpId", JStr RP_ID); ("deploymentVerified", JBool true);
  ("deployment", deployment_val deployment); ("funderAddress", JStr address);
  ("funderBalanceShannons", JStr (dec balance));
  ("account", match current with Some m => account_val m | None => JNull end)].

(** The account manifest is read synchronously, before either funder promise can
    settle, so its failure rejects the combined promise first. *)
Definition status : prog jsval :=
  VerifyDeployment Done;;
  currentAccount ← account;
  '(address, balance) ← Funder Done;
  mret (status_val address balance currentAccount).
End service.

(** ** Runs *)

(** A call and its answer. *)
Inductive dep_call :=
  | CGetDeploymentCell (txHash : string) (index : Z) (answer : res (option string))
  | CGetStateCell (outPoint : ManifestOutPoint) (answer : res (option string))
  | CReadAccountManifest (answer : res jsval)
  | CFunderBalance (answer : res Z)
  | CFunder (answer : res (string * Z))
  | CExportState (request : BootstrapRequest) (answer : res bytes)
  | CCreateAccount (stateData : bytes) (answer : res jsval)
  | CVerifyDeployment (answer : res unit).

(** The call a program awaits, answered. *)
Inductive answers {A} : prog A → dep_call → prog A → Prop :=
  | a_deployment h i k x : answers (GetDeploymentCell h i k) (CGetDeploymentCell h i x) (k x)
  | a_state o k x : answers (GetStateCell o k) (CGetStateCell o x) (k x)
  | a_account k x : answers (ReadAccountManifest k) (CReadAccountManifest x) (k x)
  | a_balance k x : answers (FunderBalance k) (CFunderBalance x) (k x)
  | a_funder k x : answers (Funder k) (CFunder x) (k x)
  | a_export q k x : answers (ExportState q k) (CExportState q x) (k x)
  | a_create d k x : answers (CreateAccount d k) (CCreateAccount d x) (k x)
  | a_verify k x : answers (VerifyDeployment k) (CVerifyDeployment x) (k x).

(** A complete run: the calls with their answers, and the result. *)
Inductive runs {A} : prog A → list dep_call → res A → Prop :=
  | runs_done r : runs (Done r) [] r
  | runs_call p c p' l r : answers p c p' → runs p' l r → runs p (c :: l) r.

(** One step of a run of a known program. *)
Ltac run_inv H :=
  let Ha := fresh "Ha" in let Hr := fresh "Hr" in
  inversion H as [|? ? ? ? ? Ha Hr]; subst; clear H;
  [..|inversion Ha; subst; clear Ha; rename Hr into H].

(** Every program terminates, whatever the answers: an oracle determines a run. *)
Record oracle := {
  o_deployment : string → Z → res (option string);
  o_state : ManifestOutPoint → res (option string);
  o_account : res jsval; o_balance : res Z; o_funder : res (string * Z);
  o_export : BootstrapRequest → res bytes; o_create : bytes → res jsval;
  o_verify : res unit }.

Fixpoint execute {A} (o : oracle) (p : prog A) : list dep_call * res A :=
  match p with
  | Done r => ([], r)
  | GetDeploymentCell h i k =>
      let x := o_deployment o h i in
      let '(l, r) := execute o (k x) in (CGetDeploymentCell h i x :: l, r)
  | GetStateCell q k =>
      let x := o_state o q in
      let '(l, r) := execute o (k x) in (CGetStateCell q x :: l, r)
  | ReadAccountManifest k =>
      let '(l, r) := execute o (k (o_account o)) in (CReadAccountManifest (o_account o) :: l, r)
  | FunderBalance k =>
      let '(l, r) := execute o (k (o_balance o)) in (CFunderBalance (o_balance o) :: l, r)
  | Funder k => let '(l, r) := execute o (k (o_funder o)) in (CFunder (o_funder o) :: l, r)
  | ExportState q k =>
      let x := o_export o q in let '(l, r) := execute o (k x) in (CExportState q x :: l, r)
  | CreateAccount d k =>
      let x := o_create o d in let '(l, r) := execute o (k x) in (CCreateAccount d x :: l, r)
  | VerifyDeployment k =>
      let '(l, r) := execute o (k (o_verify o)) in (CVerifyDeployment (o_verify o) :: l, r)
  end.

Lemma execute_runs {A} o (p : prog A) : runs p (execute o p).1 (execute o p).2.
Proof.
  induction p as [r|h i k IH|q k IH|k IH|k IH|k IH|q k IH|d k IH|k IH]; cbn [execute];
    [constructor|..];
    match goal with |- context [execute o (k ?x)] => specialize (IH x) end;
    destruct (execute _ _); (eapply runs_call; [constructor|exact IH]).
Qed.

(** ** Account creation requests *)

Definition is_creation (c : dep_call) : bool :=
  match c with CCreateAccount _ _ => true | _ => false end.

Section creation.
Context {zod : Zod} {ccc : Ccc}.
Variable deployment : DeploymentManifest.

(** A recorded account of this deployment. *)
Definition recorded (value : jsval) (m : AccountManifest) : Prop :=
  parseAccount value deployment = Ok (Some m).

(** What a request that is answered with an account has established. *)
Inductive account_answer (request : BootstrapRequest) (l : list dep_call)
    (m : AccountManifest) : Prop :=
  | existing_account stateData value live :
      l = [CVerifyDeployment (Ok tt); CExportState request (Ok stateData);
           CReadAccountManifest (Ok value);
           CGetStateCell (am_state_out_point m) (Ok (Some live))] →
      recorded value m → am_state_bytes m = len stateData →
      toLowerCase live = hexFromBytes stateData → account_answer request l m
  | created_account stateData balance value :
      l = [CVerifyDeployment (Ok tt); CExportState request (Ok stateData);
           CReadAccountManifest (Ok JNull); CFunderBalance (Ok balance);
           CCreateAccount stateData (Ok value)] →
      requiredBalance (len stateData) <= balance → recorded value m →
      account_answer request l m.

(** An exception that is not translated: reading the manifest, the state cell or the
    balance failed. *)
Definition raw_failure (l : list dep_call) (e : exn) : Prop :=
  CReadAccountManifest (Throw e) ∈ l ∨ CFunderBalance (Throw e) ∈ l ∨
  (∃ o, CGetStateCell o (Throw e) ∈ l) ∨ CVerifyDeployment (Throw e) ∈ l.

Record creation_safe (request : BootstrapRequest) (l : list dep_call)
    (r : res AccountManifest) : Prop := {
  cs_once : (length (filter is_creation l) <= 1)%nat;
  cs_guarded : ∀ stateData x, CCreateAccount stateData x ∈ l →
    ∃ balance, requiredBalance (len stateData) <= balance ∧
      l = [CVerifyDeployment (Ok tt); CExportState request (Ok stateData);
           CReadAccountManifest (Ok JNull); CFunderBalance (Ok balance);
           CCreateAccount stateData x];
  cs_ok : ∀ m, r = Ok m → account_answer request l m;
  cs_throw : ∀ e, r = Throw e → is_ApiError e = true ∨ raw_failure l e }.

Lemma parseAccount_null v : parseAccount v deployment = Ok None → v = JNull.
Proof.
  unfold parseAccount. destruct v; try done; cbn [is_null]; destruct (safeParse _ _); try done;
    destruct (throw_if _ _); done.
Qed.

Lemma parseAccount_api v e : parseAccount v deployment = Throw e → is_ApiError e = true.
Proof.
  unfold parseAccount. destruct (is_null v); [done|]. destruct (safeParse _ _).
  - intros [[_ ->]%throw_if_Throw|(? & _ & [=])]%bind_Throw_iff. done.
  - by intros [= <-].
Qed.

Lemma api_or_api e error : is_ApiError e = true → is_ApiError (api_or e error) = true.
Proof. unfold api_or. by destruct (is_ApiError error) eqn:E. Qed.

Lemma creation_fails request l e :
  filter is_creation l = [] → is_ApiError e = true ∨ raw_failure l e →
  creation_safe request l (Throw e).
Proof.
  intros Hl He. constructor.
  - rewrite Hl. simpl. lia.
  - intros d x Hin. assert (CCreateAccount d x ∈ filter is_creation l) as Hf
      by by apply list_elem_of_filter. rewrite Hl in Hf. by apply not_elem_of_nil in Hf.
  - done.
  - by intros ? [= <-].
Qed.

Lemma creates request d v balance x r :
  v = JNull → requiredBalance (len d) <= balance →
  (∀ m, r = Ok m → ∃ value, x = Ok value ∧ recorded value m) →
  (∀ e, r = Throw e → is_ApiError e = true) →
  creation_safe request
    [CVerifyDeployment (Ok tt); CExportState request (Ok d); CReadAccountManifest (Ok v);
     CFunderBalance (Ok balance); CCreateAccount d x] r.
Proof.
  intros -> Hb Hok He. constructor.
  - done.
  - intros d' x'. rewrite !elem_of_cons, elem_of_nil.
    intros [[=]|[[=]|[[=]|[[=]|[[= -> ->]|[]]]]]]. eauto.
  - intros m Hm. destruct (Hok m Hm) as (value & -> & Hr). by eapply created_account.
  - eauto.
Qed.

(** A membership in a short list. *)
Ltac member := rewrite ?elem_of_cons; tauto.
Ltac raw := right; unfold raw_failure;
  first [left; member | right; left; member | do 2 right; left; eexists; member
        | do 3 right; member].
Ltac fails := apply creation_fails; [reflexivity|];
  first [by left | left; by eapply parseAccount_api | left; by apply api_or_api | raw].

Lemma bootstrapOnce_safe request l r :
  runs (bootstrapOnce deployment request) l r → creation_safe request l r.
Proof.
  unfold bootstrapOnce. cbn [mbind prog_bind and_then try_catch account]. intros H.
  run_inv H. destruct x as [[]|e]; [|run_inv H; fails]. cbn [and_then] in H.
  run_inv H. destruct x as [d|e]; [|run_inv H; fails]. cbn [and_then] in H.
  run_inv H. destruct x as [v|e]; [|run_inv H; fails]. cbn [and_then mbind res_bind] in H.
  destruct (parseAccount v deployment) as [[m|]|e] eqn:Ev; [| |run_inv H; fails].
  - run_inv H. destruct x as [live|e]; [|run_inv H; fails]. cbn [and_then] in H.
    destruct (throw_if _ _) as [u|e] eqn:Et.
    + apply throw_if_Ok in Et. destruct live as [live|]; [|done]. bool_simpl.
      run_inv H. constructor; [simpl; lia| | |done].
      * intros d' x. rewrite !elem_of_cons, elem_of_nil. naive_solver.
      * intros ? [= <-]. by eapply existing_account.
    + apply throw_if_Throw in Et as [_ ->]. run_inv H. fails.
  - apply parseAccount_null in Ev as ->.
    run_inv H. destruct x as [balance|e]; [|run_inv H; fails]. cbn [and_then] in H.
    destruct (throw_if _ _) as [u|e] eqn:Et.
    2: { apply throw_if_Throw in Et as [_ ->]. run_inv H. fails. }
    apply throw_if_Ok in Et. bool_simpl.
    run_inv H. cbn [and_then] in H. destruct x as [v|e].
    + cbn [and_then] in H. destruct (parseAccount v deployment) as [[m|]|e] eqn:Ev;
        cbn [and_then from_option_or] in H.
      * run_inv H. apply creates; try done. intros ? [= <-]. eauto.
      * run_inv H. apply creates; [done|done|done|]. intros ? [= <-]. done.
      * run_inv H. apply creates; [done|done|done|]. intros ? [= <-].
        destruct (isConfirmationTimeout e); [done|]. by apply api_or_api.
    + cbn [and_then] in H. run_inv H. apply creates; [done|done|done|]. intros ? [= <-].
      destruct (isConfirmationTimeout e); [done|]. by apply api_or_api.
Qed.
End creation.
