(* ===== verification/Requests.v ===== *)
(** * Concurrent requests ([demo/src/server/service.ts])

    The state the service shares between requests, its handlers, and the transition
    system in which requests and the verification of the deployment interleave at
    their awaits. *)

From S2P Require Import Prelude Js JsString Regex Bytes Zod Constants Schemas Ccc CccRef.
From S2P Require Import Manifests Service.

(** A verification of the deployment: running, or the settled shared promise. *)
Inductive verifying := VRunning (p : prog unit) | VSettled (r : res unit).

(** A request: between two calls, waiting for a verification, or settled. *)
Inductive run_state :=
  | Running (p : prog jsval)
  | Waiting (verification : nat) (k : res unit → prog jsval)
  | Settled (r : res jsval).
Record request_run := { rr_creates : option string; rr_state : run_state }.

Record service_state := {
  deploymentVerification : option nat;
  verifications : list verifying;
  active : option (string * nat);
  request_runs : list request_run }.

Definition new_service : service_state := {|
  deploymentVerification := None; verifications := []; active := None; request_runs := [] |}.

(** What a handler gives its caller: a rejected promise, or the promise of a run. *)
Inductive reply := Rejected (e : exn) | Promised (run : nat).

Definition settled (r : request_run) : bool :=
  match rr_state r with Settled _ => true | _ => false end.

Definition set_run (i : nat) (r : run_state) (s : service_state) : service_state := {|
  deploymentVerification := deploymentVerification s; verifications := verifications s;
  active := active s;
  request_runs :=
    alter (λ run, {| rr_creates := rr_creates run; rr_state := r |}) i (request_runs s) |}.
Definition start_run (creates : option string) (p : prog jsval) (s : service_state)
    : service_state := {|
  deploymentVerification := deploymentVerification s; verifications := verifications s;
  active := match creates with
            | Some publicKey => Some (publicKey, length (request_runs s))
            | None => active s
            end;
  request_runs := request_runs s ++ [{| rr_creates := creates; rr_state := Running p |}] |}.
Definition set_verification (v : nat) (x : verifying) (current : option nat)
    (s : service_state) : service_state := {|
  deploymentVerification := current; verifications := <[v := x]> (verifications s);
  active := active s; request_runs := request_runs s |}.

(** The result of a program as the value the HTTP layer serializes. *)
Definition as_value {A} (f : A → jsval) (p : prog A) : prog jsval :=
  a ← p; mret (f a).
Definition account_json (m : option AccountManifest) : jsval :=
  match m with Some m => account_val m | None => JNull end.

Section requests.
Context {zod : Zod} {ccc : Ccc}.
Variable deployment : DeploymentManifest.

(** ** Handlers *)

Definition handle_bootstrap (requestValue : jsval) (s : service_state)
    : reply * service_state :=
  match safeParse BootstrapRequestSchema requestValue with
  | None => (Rejected INVALID_BOOTSTRAP, s)
  | Some data =>
      let request := request_of data in
      match active s with
      | Some (publicKey, i) =>
          if String.eqb publicKey (br_publicKey request) then (Promised i, s)
          else (Rejected OTHER_CREATION, s)
      | None =>
          (Promised (length (request_runs s)),
           start_run (Some (br_publicKey request))
             (as_value account_val (bootstrapOnce deployment request)) s)
      end
  end.
Definition handle_status (s : service_state) : reply * service_state :=
  (Promised (length (request_runs s)), start_run None (status deployment) s).
Definition handle_account (s : service_state) : reply * service_state :=
  (Promised (length (request_runs s)),
   start_run None (as_value account_json (account deployment)) s).

(** ** Steps *)

(** [verifyDeployment()]: the promise in place, or a new verification. *)
Definition verifyDeployment (s : service_state) : nat * service_state :=
  match deploymentVerification s with
  | Some v => (v, s)
  | None =>
      (length (verifications s),
       {| deploymentVerification := Some (length (verifications s));
          verifications := verifications s ++ [VRunning (verification deployment)];
          active := active s; request_runs := request_runs s |})
  end.

(** The [catch] of a verification resets the promise and translates the error. *)
Definition settle_verification (v : nat) (r : res unit) (s : service_state) : service_state :=
  match r with
  | Ok _ => set_verification v (VSettled (Ok tt)) (deploymentVerification s) s
  | Throw error => set_verification v (VSettled (Throw (api_or UNVERIFIED error))) None s
  end.

(** The [finally] of a creation releases it. *)
Definition release (i : nat) (s : service_state) : service_state := {|
  deploymentVerification := deploymentVerification s; verifications := verifications s;
  active := match active s with
            | Some (publicKey, j) => if (j =? i)%nat then None else Some (publicKey, j)
            | None => None
            end;
  request_runs := request_runs s |}.

Inductive label :=
  | LBootstrap (requestValue : jsval) (r : reply)
  | LStatus (r : reply)
  | LAccount (r : reply)
  | LCall (run : nat) (c : dep_call)
  | LVerificationCall (verification : nat) (c : dep_call)
  | LSettle (run : nat) (r : res jsval)
  | LInternal.

Inductive step : service_state → label → service_state → Prop :=
  | s_bootstrap v s r s' : handle_bootstrap v s = (r, s') → step s (LBootstrap v r) s'
  | s_status s r s' : handle_status s = (r, s') → step s (LStatus r) s'
  | s_account s r s' : handle_account s = (r, s') → step s (LAccount r) s'
  | s_call s i run p c p' :
      request_runs s !! i = Some run → rr_state run = Running p → answers p c p' →
      (∀ r, c ≠ CVerifyDeployment r) → step s (LCall i c) (set_run i (Running p') s)
  | s_verify s i run k v s' :
      request_runs s !! i = Some run → rr_state run = Running (VerifyDeployment k) →
      verifyDeployment s = (v, s') → step s LInternal (set_run i (Waiting v k) s')
  | s_resume s i run v k r :
      request_runs s !! i = Some run → rr_state run = Waiting v k →
      verifications s !! v = Some (VSettled r) →
      step s (LCall i (CVerifyDeployment r)) (set_run i (Running (k r)) s)
  | s_verification_call s v p c p' :
      verifications s !! v = Some (VRunning p) → answers p c p' →
      step s (LVerificationCall v c)
        (set_verification v (VRunning p') (deploymentVerification s) s)
  | s_verification_done s v r :
      verifications s !! v = Some (VRunning (Done r)) →
      step s LInternal (settle_verification v r s)
  | s_settle s i run r :
      request_runs s !! i = Some run → rr_state run = Running (Done r) →
      step s (LSettle i r) (release i (set_run i (Settled r) s)).

Inductive steps : service_state → list label → service_state → Prop :=
  | steps_nil s : steps s [] s
  | steps_snoc s1 l1 s2 l s3 : steps s1 l1 s2 → step s2 l s3 → steps s1 (l1 ++ [l]) s3.

(** ** Invariant *)

(** A program after some of its calls. *)
Inductive partial {A} (p : prog A) : list dep_call → prog A → Prop :=
  | partial_nil : partial p [] p
  | partial_snoc l p' c p'' :
      partial p l p' → answers p' c p'' → partial p (l ++ [c]) p''.

Definition run_call (i : nat) (l : label) : option dep_call :=
  match l with LCall j c => if (j =? i)%nat then Some c else None | _ => None end.
Definition verification_call (v : nat) (l : label) : option dep_call :=
  match l with LVerificationCall w c => if (w =? v)%nat then Some c else None | _ => None end.
(** The calls of a run and of a verification, in a trace. *)
Definition calls_of (i : nat) (tr : list label) : list dep_call := omap (run_call i) tr.
Definition checks_of (v : nat) (tr : list label) : list dep_call := omap (verification_call v) tr.

(** The program a run was started with. *)
Definition started (run : request_run) (p : prog jsval) : Prop :=
  match rr_creates run with
  | Some publicKey => ∃ request, br_publicKey request = publicKey ∧
      p = as_value account_val (bootstrapOnce deployment request)
  | None => p = status deployment ∨ p = as_value account_json (account deployment)
  end.
Definition run_at (tr : list label) (i : nat) (run : request_run) : Prop :=
  ∃ p, started run p ∧
    match rr_state run with
    | Running q => partial p (calls_of i tr) q
    | Waiting v k => partial p (calls_of i tr) (VerifyDeployment k)
    | Settled r => runs p (calls_of i tr) r
    end.
Definition verification_at (tr : list label) (v : nat) (x : verifying) : Prop :=
  match x with
  | VRunning q => partial (verification deployment) (checks_of v tr) q
  | VSettled (Ok _) => runs (verification deployment) (checks_of v tr) (Ok tt)
  | VSettled (Throw e) => is_ApiError e = true
  end.

(** The creation in progress is the active one, and conversely; the current
    verification is the one that has not failed; every run and every verification is
    where its calls in the trace have brought its program; and a run waits for a
    verification that exists. *)
Record service_ok (tr : list label) (s : service_state) : Prop := {
  so_active : ∀ publicKey i, active s = Some (publicKey, i) ↔
    ∃ run, request_runs s !! i = Some run ∧ rr_creates run = Some publicKey ∧
      settled run = false;
  so_current : ∀ v, deploymentVerification s = Some v ↔
    ∃ x, verifications s !! v = Some x ∧ (∀ e, x ≠ VSettled (Throw e));
  so_runs : ∀ i run, request_runs s !! i = Some run → run_at tr i run;
  so_verifications : ∀ v x, verifications s !! v = Some x → verification_at tr v x;
  so_waits : ∀ i run v k, request_runs s !! i = Some run → rr_state run = Waiting v k →
    ∃ x, verifications s !! v = Some x;
  so_fresh_run : ∀ i, (length (request_runs s) <= i)%nat → calls_of i tr = [];
  so_fresh_verification : ∀ v, (length (verifications s) <= v)%nat → checks_of v tr = [] }.

Lemma calls_snoc i tr l :
  calls_of i (tr ++ [l]) =
  calls_of i tr ++ match run_call i l with Some c => [c] | None => [] end.
Proof. unfold calls_of. rewrite omap_app. simpl. by destruct (run_call i l). Qed.
Lemma checks_snoc v tr l :
  checks_of v (tr ++ [l]) =
  checks_of v tr ++ match verification_call v l with Some c => [c] | None => [] end.
Proof. unfold checks_of. rewrite omap_app. simpl. by destruct (verification_call v l). Qed.

(** A label that is no call of any run or verification changes no projection. *)
Definition silent (l : label) : Prop :=
  (∀ i, run_call i l = None) ∧ (∀ v, verification_call v l = None).
Lemma calls_silent i tr l : silent l → calls_of i (tr ++ [l]) = calls_of i tr.
Proof. intros [H _]. by rewrite calls_snoc, H, app_nil_r. Qed.
Lemma checks_silent v tr l : silent l → checks_of v (tr ++ [l]) = checks_of v tr.
Proof. intros [_ H]. by rewrite checks_snoc, H, app_nil_r. Qed.

Lemma service_ok_silent tr l s : silent l → service_ok tr s → service_ok (tr ++ [l]) s.
Proof.
  intros Hl [Ha Hc Hr Hv Hw Hfr Hfv]. constructor; try done.
  - intros i run Hi. destruct (Hr i run Hi) as (p & Hp & H). exists p. split; [done|].
    by rewrite calls_silent.
  - intros v x Hx. specialize (Hv v x Hx). unfold verification_at in *.
    by rewrite checks_silent.
  - intros i Hi. rewrite calls_silent by done. by apply Hfr.
  - intros i Hi. rewrite checks_silent by done. by apply Hfv.
Qed.

Lemma partial_runs {A} (p : prog A) l r : partial p l (Done r) → runs p l r.
Proof.
  assert (H : ∀ q, partial p l q → ∀ l' r, runs q l' r → runs p (l ++ l') r).
  { clear. induction 1 as [|l p' c p'' _ IH Ha]; intros l' r Hr; [done|].
    rewrite <- app_assoc. apply IH. by eapply runs_call. }
  intros Hp. rewrite <- (app_nil_r l). eapply H; [done|constructor].
Qed.

Lemma service_ok_new : service_ok [] new_service.
Proof. constructor; cbn; naive_solver. Qed.

(** Starting a run. *)
Lemma service_ok_start tr s creates p :
  service_ok tr s → (∀ publicKey, creates = Some publicKey → active s = None) →
  started {| rr_creates := creates; rr_state := Running p |} p →
  service_ok tr (start_run creates p s).
Proof.
  intros [Ha Hc Hr Hv Hw Hfr Hfv] Hnew Hp.
  assert (Hlook : ∀ i run, request_runs (start_run creates p s) !! i = Some run →
    request_runs s !! i = Some run ∨ (i = length (request_runs s) ∧
      run = {| rr_creates := creates; rr_state := Running p |})).
  { intros i run Hi. cbn in Hi. apply lookup_app_Some in Hi as [Hi|[Hge Hi]]; [by left|right].
    apply list_lookup_singleton_Some in Hi as [? <-]. split; [lia|done]. }
  constructor; cbn; try done.
  - intros pk i. destruct creates as [pk'|].
    + assert (Hno : ∀ j run, request_runs s !! j = Some run → ∀ q, rr_creates run = Some q →
        settled run = true).
      { intros j run Hj q Hq. destruct (settled run) eqn:E; [done|].
        assert (active s = Some (q, j)) as Hx by (apply Ha; eauto).
        by rewrite (Hnew pk' eq_refl) in Hx. }
      split.
      * intros [= -> <-]. eexists. split; [apply list_lookup_middle; done|]. done.
      * intros (run & Hi & Hq & Hs). destruct (Hlook i run Hi) as [Ho|[-> ->]].
        -- by rewrite (Hno i run Ho pk Hq) in Hs.
        -- by injection Hq as ->.
    + rewrite Ha. split; intros (run & Hi & Hq & Hs).
      * exists run. split; [by apply lookup_app_l_Some|done].
      * destruct (Hlook i run Hi) as [Ho|[-> ->]]; [eauto|done].
  - intros i run Hi. destruct (Hlook i run Hi) as [Ho|[-> ->]]; [by apply Hr|].
    exists p. split; [done|]. cbn. rewrite (Hfr _ (Nat.le_refl _)). constructor.
  - intros i run v k Hi Hst. destruct (Hlook i run Hi) as [Ho|[-> ->]]; [by eapply Hw|done].
  - intros i. rewrite length_app. cbn. intros. apply Hfr. lia.
Qed.

Lemma lookup_set_run i st s j run :
  request_runs (set_run i st s) !! j = Some run →
  (j ≠ i ∧ request_runs s !! j = Some run) ∨
  (j = i ∧ ∃ old, request_runs s !! i = Some old ∧
     run = {| rr_creates := rr_creates old; rr_state := st |}).
Proof.
  cbn. destruct (decide (j = i)) as [->|Hne].
  - rewrite list_lookup_alter_eq. intros (old & Hold & ->)%fmap_Some. eauto.
  - rewrite list_lookup_alter_ne by done. auto.
Qed.

Lemma lookup_set_run_ne i st s j run :
  j ≠ i → request_runs s !! j = Some run → request_runs (set_run i st s) !! j = Some run.
Proof. intros. cbn. by rewrite list_lookup_alter_ne. Qed.
Lemma lookup_set_run_eq i st s run :
  request_runs s !! i = Some run →
  request_runs (set_run i st s) !! i =
    Some {| rr_creates := rr_creates run; rr_state := st |}.
Proof. intros H. cbn. by rewrite list_lookup_alter_eq, H. Qed.

(** Calls of one run: nothing changes for the others. *)
Lemma calls_other i j tr c : j ≠ i → calls_of j (tr ++ [LCall i c]) = calls_of j tr.
Proof.
  intros. rewrite calls_snoc. cbn. by rewrite (proj2 (Nat.eqb_neq _ _)), app_nil_r by done.
Qed.
Lemma calls_same i tr c : calls_of i (tr ++ [LCall i c]) = calls_of i tr ++ [c].
Proof. rewrite calls_snoc. cbn. by rewrite Nat.eqb_refl. Qed.
Lemma checks_other v w tr c :
  w ≠ v → checks_of w (tr ++ [LVerificationCall v c]) = checks_of w tr.
Proof.
  intros. rewrite checks_snoc. cbn. by rewrite (proj2 (Nat.eqb_neq _ _)), app_nil_r by done.
Qed.
Lemma checks_same v tr c : checks_of v (tr ++ [LVerificationCall v c]) = checks_of v tr ++ [c].
Proof. rewrite checks_snoc. cbn. by rewrite Nat.eqb_refl. Qed.

(** Moving an unsettled run to another unsettled state. *)
Lemma service_ok_run tr tr' s i run st :
  service_ok tr s → request_runs s !! i = Some run → settled run = false →
  (∀ r, st ≠ Settled r) → (∀ j, j ≠ i → calls_of j tr' = calls_of j tr) →
  (∀ v, checks_of v tr' = checks_of v tr) →
  run_at tr' i {| rr_creates := rr_creates run; rr_state := st |} →
  (∀ v k, st = Waiting v k → ∃ x, verifications s !! v = Some x) →
  service_ok tr' (set_run i st s).
Proof.
  intros [Ha Hc Hr Hv Hw Hfr Hfv] Hi Hs Hst Hcalls Hchecks Hat Hwait.
  assert (Hnew : settled {| rr_creates := rr_creates run; rr_state := st |} = false)
    by (destruct st; naive_solver).
  constructor; cbn [deploymentVerification verifications active set_run]; try done.
  - intros pk j. rewrite Ha. split; intros (r & Hj & Hq & Hu).
    + destruct (decide (j = i)) as [->|Hne].
      * rewrite Hi in Hj. injection Hj as <-. eexists. split; [by apply lookup_set_run_eq|done].
      * exists r. split; [by apply lookup_set_run_ne|done].
    + apply lookup_set_run in Hj as [[Hne Hj]|(-> & old & Hold & ->)]; [eauto|].
      rewrite Hi in Hold. injection Hold as <-. eauto.
  - intros j r Hj. apply lookup_set_run in Hj as [[Hne Hj]|(-> & old & Hold & ->)].
    + destruct (Hr j r Hj) as (p & Hp & H). exists p. split; [done|]. by rewrite Hcalls.
    + rewrite Hi in Hold. by injection Hold as <-.
  - intros v x Hx. specialize (Hv v x Hx). unfold verification_at in *. by rewrite Hchecks.
  - intros j r v k Hj Hk. apply lookup_set_run in Hj as [[Hne Hj]|(-> & old & Hold & ->)].
    + by eapply Hw.
    + by eapply Hwait.
  - intros j. cbn. rewrite length_alter. intros Hj. rewrite Hcalls; [by apply Hfr|].
    intros ->. apply lookup_lt_Some in Hi. lia.
  - intros v Hlen. rewrite Hchecks. by apply Hfv.
Qed.

(** Settling a run releases the creation it was. *)
Lemma service_ok_settle tr s i run r :
  service_ok tr s → request_runs s !! i = Some run → rr_state run = Running (Done r) →
  service_ok tr (release i (set_run i (Settled r) s)).
Proof.
  intros [Ha Hc Hr Hv Hw Hfr Hfv] Hi Hst.
  constructor; cbn [deploymentVerification verifications active release set_run]; try done.
  - intros pk j. change (request_runs _) with (request_runs (set_run i (Settled r) s)).
    split.
    + destruct (active s) as [[q k]|] eqn:Ea; [|done].
      destruct (Nat.eqb_spec k i) as [->|Hne]; [done|]. intros [= -> ->].
      destruct (proj1 (Ha pk j) eq_refl) as (run' & Hj & H). exists run'.
      split; [by apply lookup_set_run_ne|done].
    + intros (run' & Hj & Hq & Hu).
      apply lookup_set_run in Hj as [[Hne Hj]|(-> & old & Hold & ->)]; [|done].
      assert (active s = Some (pk, j)) as -> by (apply Ha; eauto).
      by rewrite (proj2 (Nat.eqb_neq j i)).
  - intros j run' Hj.
    apply (lookup_set_run i (Settled r) s) in Hj as [[Hne Hj]|(-> & old & Hold & ->)]; [by apply Hr|].
    rewrite Hi in Hold. injection Hold as <-. destruct (Hr i run Hi) as (p & Hp & H).
    exists p. split; [done|]. rewrite Hst in H. by apply partial_runs.
  - intros j run' v k Hj Hk.
    apply (lookup_set_run i (Settled r) s) in Hj as [[Hne Hj]|(-> & old & Hold & ->)]; [|done].
    by eapply Hw.
  - intros j. cbn. rewrite length_alter. apply Hfr.
Qed.

(** Starting or joining a verification. *)
Lemma service_ok_verify tr s v s' :
  service_ok tr s → verifyDeployment s = (v, s') →
  service_ok tr s' ∧ request_runs s' = request_runs s ∧ ∃ x, verifications s' !! v = Some x.
Proof.
  intros H. pose proof H as [Ha Hc Hr Hv Hw Hfr Hfv]. unfold verifyDeployment.
  destruct (deploymentVerification s) as [w|] eqn:Ed; intros [= <- <-].
  { split; [done|]. split; [done|]. destruct (proj1 (Hc w) eq_refl) as (x & Hx & _). eauto. }
  assert (Hfail : ∀ u x, verifications s !! u = Some x → ∃ e, x = VSettled (Throw e)).
  { intros u x Hx. destruct x as [q|[[]|e]]; [..|eauto];
      (assert (None = Some u) as [=]; apply Hc; eexists; split; [done|]; by intros). }
  split; [|split; [done|cbn; eexists; by apply list_lookup_middle]].
  constructor; cbn; try done.
  - intros u. split.
    + intros [= <-]. eexists. split; [by apply list_lookup_middle|done].
    + intros (x & Hx & Hn). apply lookup_app_Some in Hx as [Hx|[Hge Hx]].
      * destruct (Hfail u x Hx) as [e ->]. by destruct (Hn e).
      * apply list_lookup_singleton_Some in Hx as [? _]. f_equal. lia.
  - intros u x Hx. apply lookup_app_Some in Hx as [Hx|[Hge Hx]]; [by apply Hv|].
    apply list_lookup_singleton_Some in Hx as [? <-]. cbn.
    rewrite Hfv by lia. constructor.
  - intros i run u k Hi Hk. destruct (Hw i run u k Hi Hk) as [x Hx].
    exists x. by apply lookup_app_l_Some.
  - intros u. rewrite length_app. cbn. intros. apply Hfv. lia.
Qed.

Lemma lookup_set_verification v x c s u y :
  verifications (set_verification v x c s) !! u = Some y →
  (u ≠ v ∧ verifications s !! u = Some y) ∨ (u = v ∧ y = x).
Proof.
  cbn. intros H. apply list_lookup_insert_Some in H as [(-> & <- & _)|(Hne & Hx)]; auto.
Qed.

(** A verification that was running moves on; [current] says whether it failed. *)
Lemma service_ok_verification tr tr' s v p x current :
  service_ok tr s → verifications s !! v = Some (VRunning p) →
  (∀ i, calls_of i tr' = calls_of i tr) → (∀ w, w ≠ v → checks_of w tr' = checks_of w tr) →
  verification_at tr' v x →
  (current = if x is VSettled (Throw _) then None else deploymentVerification s) →
  service_ok tr' (set_verification v x current s).
Proof.
  intros [Ha Hc Hr Hv Hw Hfr Hfv] Hp Hcalls Hchecks Hat Hcur.
  assert (Hlt := lookup_lt_Some _ _ _ Hp).
  assert (Hv0 : deploymentVerification s = Some v) by (apply Hc; eauto).
  assert (Hnew : verifications (set_verification v x current s) !! v = Some x)
    by (cbn; by rewrite list_lookup_insert_eq).
  constructor; cbn [deploymentVerification active request_runs set_verification]; try done.
  - intros u. split.
    + intros Hu. rewrite Hcur, Hv0 in Hu. exists x.
      destruct x as [q|[[]|e]]; try done; injection Hu as <-; (split; [exact Hnew|done]).
    + intros (y & Hy & Hn). apply lookup_set_verification in Hy as [[Hne Hy]|[-> ->]].
      * assert (deploymentVerification s = Some u) by (apply Hc; eauto). congruence.
      * rewrite Hcur. destruct x as [q|[[]|e]]; [done|done|]. by destruct (Hn e).
  - intros i run Hi. destruct (Hr i run Hi) as (q & Hq & H). exists q. split; [done|].
    by rewrite Hcalls.
  - intros u y Hy. apply lookup_set_verification in Hy as [[Hne Hy]|[-> ->]]; [|done].
    specialize (Hv u y Hy). unfold verification_at in *. by rewrite Hchecks.
  - intros i run u k Hi Hk. destruct (Hw i run u k Hi Hk) as [y Hy].
    destruct (decide (u = v)) as [->|Hne]; [eauto|]. exists y. cbn.
    by rewrite list_lookup_insert_ne.
  - intros i Hi. rewrite Hcalls. by apply Hfr.
  - intros u. cbn. rewrite length_insert. intros Hu. rewrite Hchecks by lia. by apply Hfv.
Qed.

Lemma verification_at_done tr v r :
  verification_at tr v (VRunning (Done r)) →
  verification_at tr v (VSettled (match r with Ok _ => Ok tt
                                  | Throw e => Throw (api_or UNVERIFIED e) end)).
Proof.
  cbn. intros H. apply partial_runs in H. destruct r as [[]|e]; [done|].
  by apply api_or_api.
Qed.

Lemma running_settled i s run p :
  request_runs s !! i = Some run → rr_state run = Running p → settled run = false.
Proof. unfold settled. by intros _ ->. Qed.

Lemma run_at_call tr i run p c p' :
  run_at tr i run → rr_state run = Running p → answers p c p' →
  run_at (tr ++ [LCall i c]) i {| rr_creates := rr_creates run; rr_state := Running p' |}.
Proof.
  intros (q & Hq & H) Hst Ha. exists q. split; [done|]. rewrite Hst in H.
  cbn [rr_state]. rewrite calls_same. by eapply partial_snoc.
Qed.

Lemma service_ok_step tr s l s' :
  service_ok tr s → step s l s' → service_ok (tr ++ [l]) s'.
Proof.
  intros H Hstep. pose proof H as [Ha Hc Hr Hv Hw Hfr Hfv].
  destruct Hstep as [v s r s' Hh|s r s' Hh|s r s' Hh|s i run p c p' Hi Hp Hcall Hnv
    |s i run k v s' Hi Hp Hver|s i run v k r Hi Hp Hx|s v p c p' Hp Hcall|s v r Hp|s i run r Hi Hp].
  - apply service_ok_silent; [done|]. unfold handle_bootstrap in Hh.
    destruct (safeParse _ _) as [data|]; [|by injection Hh as <- <-].
    destruct (active s) as [[pk i]|] eqn:Ea.
    + destruct (String.eqb _ _); by injection Hh as <- <-.
    + injection Hh as <- <-. apply service_ok_start; [done|done|]. by exists (request_of data).
  - apply service_ok_silent; [done|]. injection Hh as <- <-.
    apply service_ok_start; [done|done|]. by left.
  - apply service_ok_silent; [done|]. injection Hh as <- <-.
    apply service_ok_start; [done|done|]. by right.
  - eapply (service_ok_run tr); try done.
    + by eapply running_settled.
    + intros. by apply calls_other.
    + intros. by rewrite checks_snoc, app_nil_r.
    + by eapply run_at_call; [apply Hr| |].
  - apply service_ok_silent; [done|].
    destruct (service_ok_verify _ _ _ _ H Hver) as (H' & Er & x & Hx).
    assert (Hi' : request_runs s' !! i = Some run) by by rewrite Er.
    eapply (service_ok_run tr); try done.
    + by eapply running_settled.
    + destruct (Hr i run Hi) as (q & Hq & Hst). exists q. split; [done|]. by rewrite Hp in Hst.
    + intros w k' [= <- <-]. eauto.
  - eapply (service_ok_run tr); try done.
    + unfold settled. by rewrite Hp.
    + intros. by apply calls_other.
    + intros. by rewrite checks_snoc, app_nil_r.
    + destruct (Hr i run Hi) as (q & Hq & Hst). exists q. split; [done|]. rewrite Hp in Hst.
      cbn [rr_state]. rewrite calls_same. eapply partial_snoc; [done|constructor].
  - eapply (service_ok_verification tr); try done.
    + intros. by rewrite calls_snoc, app_nil_r.
    + intros. by apply checks_other.
    + cbn. rewrite checks_same. eapply partial_snoc; [|done]. exact (Hv _ _ Hp).
  - apply service_ok_silent; [done|]. pose proof (verification_at_done _ _ _ (Hv _ _ Hp)) as Hd.
    destruct r as [[]|e]; by eapply (service_ok_verification tr).
  - apply service_ok_silent; [done|]. by eapply service_ok_settle.
Qed.

Lemma steps_ok tr s s' : steps s tr s' → ∀ tr0, service_ok tr0 s → service_ok (tr0 ++ tr) s'.
Proof.
  induction 1 as [s|s1 l1 s2 l s3 _ IH Hs]; intros tr0 H0; [by rewrite app_nil_r|].
  rewrite app_assoc. eapply service_ok_step; [by apply IH|done].
Qed.

(** The states the service can reach, with the trace that led there. *)
Definition reachable (tr : list label) (s : service_state) : Prop := steps new_service tr s.
Lemma reachable_ok tr s : reachable tr s → service_ok tr s.
Proof. intros H. apply (steps_ok _ _ _ H []), service_ok_new. Qed.

(** ** What a run establishes *)

Lemma runs_and_then {A B} (m : prog A) (f : res A → prog B) l r :
  runs (and_then m f) l r → ∃ l1 l2 r1, l = l1 ++ l2 ∧ runs m l1 r1 ∧ runs (f r1) l2 r.
Proof.
  revert l. induction m as [r1|h n k IH|q k IH|k IH|k IH|k IH|q k IH|d k IH|k IH]; intros l H;
    cbn [and_then] in H; [exists [], l, r1; repeat split; [constructor|done]|..];
    (run_inv H; apply IH in H as (l1 & l2 & r1 & -> & H1 & H2);
     eexists (_ :: l1), l2, r1; split; [reflexivity|]; split; [|done];
     eapply runs_call; [constructor|done]).
Qed.

Lemma runs_as_value {A} (f : A → jsval) (m : prog A) l r :
  runs (as_value f m) l r → ∃ x, runs m l x ∧ r = f <$> x.
Proof.
  unfold as_value, mbind, prog_bind. intros (l1 & l2 & r1 & -> & H1 & H2)%runs_and_then.
  destruct r1 as [a|e]; run_inv H2; rewrite app_nil_r; eauto.
Qed.

(** The published code cell of an artifact was read and has the recorded hash. *)
Definition checked (calls : list dep_call) (artifact : DeploymentArtifact) : Prop :=
  ∃ outputData,
    CGetDeploymentCell (da_txHash artifact) (da_index artifact) (Ok (Some outputData)) ∈ calls ∧
    hashCkb_hex outputData = Ok (da_dataHash artifact).

Lemma verify_artifacts_checked artifacts l u :
  runs (verify_artifacts artifacts) l (Ok u) → Forall (checked l) artifacts.
Proof.
  revert l. induction artifacts as [|a artifacts IH]; intros l H; [constructor|].
  cbn [verify_artifacts mbind prog_bind and_then] in H. run_inv H.
  destruct x as [[data|]|e]; cbn [and_then] in H; [|run_inv H|run_inv H].
  destruct (h ← hashCkb_hex data; _) as [w|e] eqn:E; [|run_inv H].
  apply bind_Ok_iff in E as (h & Eh & E). apply throw_if_Ok in E. bool_simpl. subst h.
  constructor.
  - exists data. split; [by left|done].
  - apply IH in H. revert H. apply Forall_impl. intros b (d & Hin & Hd). exists d.
    split; [by right|done].
Qed.

(** C28 — One creation at a time: in every reachable state at most one account
    creation is in progress, and it is the one the service records as active; and every
    creation that settled made, in the interleaved trace, the calls of one undisturbed
    run: it created an account at most once, only with a verified deployment, no
    recorded account and a sufficient balance, and answered with an account only if it
    recorded or created that account. *)
Theorem creations_serialized (tr : list label) (s : service_state) :
  reachable tr s →
  (∀ publicKey i, active s = Some (publicKey, i) ↔
    ∃ run, request_runs s !! i = Some run ∧ rr_creates run = Some publicKey ∧
      settled run = false) ∧
  (∀ i j a b p q, request_runs s !! i = Some a → request_runs s !! j = Some b →
    rr_creates a = Some p → rr_creates b = Some q → settled a = false → settled b = false →
    i = j) ∧
  (∀ i publicKey r,
    request_runs s !! i = Some {| rr_creates := Some publicKey; rr_state := Settled r |} →
    ∃ request result, br_publicKey request = publicKey ∧ r = account_val <$> result ∧
      creation_safe deployment request (calls_of i tr) result).
Proof.
  intros [Ha _ Hr _ _ _ _]%reachable_ok. split; [done|]. split.
  - intros i j a b p q Hi Hj Hp Hq Hu Hv.
    assert (active s = Some (p, i)) by (apply Ha; eauto).
    assert (active s = Some (q, j)) by (apply Ha; eauto). congruence.
  - intros i pk r Hi. destruct (Hr i _ Hi) as (p & (request & Hpk & ->) & Hrun).
    apply runs_as_value in Hrun as (x & Hx & ->). exists request, x.
    split; [done|]. split; [done|]. by apply bootstrapOnce_safe.
Qed.

(** Replies to creation requests: an invalid request is refused; while another
    key's creation is in progress a request is refused and nothing changes; otherwise
    the caller gets the promise of an unsettled creation for its own key, the one in
    progress if there is one and a new one if there is none. *)
Theorem bootstrap_reply (tr : list label) (s s' : service_state) (requestValue : jsval)
    (r : reply) :
  reachable tr s → handle_bootstrap requestValue s = (r, s') →
  match safeParse BootstrapRequestSchema requestValue with
  | None => r = Rejected INVALID_BOOTSTRAP ∧ s' = s
  | Some data =>
      let key := br_publicKey (request_of data) in
      (∃ other i run, r = Rejected OTHER_CREATION ∧ s' = s ∧ other ≠ key ∧
         request_runs s !! i = Some run ∧ rr_creates run = Some other ∧ settled run = false) ∨
      (∃ i run, r = Promised i ∧ active s' = Some (key, i) ∧
         request_runs s' !! i = Some run ∧ rr_creates run = Some key ∧ settled run = false ∧
         (s' = s ∨ active s = None ∧ i = length (request_runs s)))
  end.
Proof.
  intros [Ha _ _ _ _ _ _]%reachable_ok. unfold handle_bootstrap.
  destruct (safeParse _ _) as [data|]; [|by intros [= <- <-]].
  destruct (active s) as [[pk i]|] eqn:Ea.
  - destruct (proj1 (Ha pk i) eq_refl) as (run & Hi & Hc & Hs).
    destruct (String.eqb_spec pk (br_publicKey (request_of data))) as [->|Hne];
      intros [= <- <-].
    + right. exists i, run. auto 10.
    + left. exists pk, i, run. auto 10.
  - intros [= <- <-]. right. eexists _, _. split; [done|]. split; [done|].
    split; [by apply list_lookup_middle|]. auto.
Qed.

(** Verification of the deployment: at most one verification that has not failed
    exists, and all requests share it; a request goes on only after the published cells
    of both artifacts were read in that verification and have the recorded hashes; a
    failure it sees is an error of the API, after which the next request verifies
    anew; and once a verification succeeded no further cell is read for one. *)
Theorem verification_shared (tr : list label) (s s' : service_state) (l : label) :
  reachable tr s → step s l s' →
  (∀ v w x y, verifications s !! v = Some x → verifications s !! w = Some y →
     (∀ e, x ≠ VSettled (Throw e)) → (∀ e, y ≠ VSettled (Throw e)) → v = w) ∧
  (∀ i, l = LCall i (CVerifyDeployment (Ok tt)) → ∃ v,
     Forall (checked (checks_of v tr))
       [dm_account_lock deployment; dm_verifier_p256 deployment]) ∧
  (∀ i e, l = LCall i (CVerifyDeployment (Throw e)) → is_ApiError e = true) ∧
  (∀ v u, verifications s !! v = Some (VSettled (Ok u)) →
     verifications s' = verifications s ∧ ∀ w c, l ≠ LVerificationCall w c).
Proof.
  intros [_ Hc _ Hv _ _ _]%reachable_ok Hstep. split; [|split; [|split]].
  - intros v w x y Hx Hy Hnx Hny.
    assert (deploymentVerification s = Some v) by (apply Hc; eauto).
    assert (deploymentVerification s = Some w) by (apply Hc; eauto). congruence.
  - intros i ->. inversion Hstep as [| | |? ? ? ? ? ? ? ? ? Hn| |? ? ? v k ? ? ? Hx| | |]; subst.
    + by destruct (Hn (Ok tt)).
    + exists v. apply (Hv v) in Hx. by eapply verify_artifacts_checked.
  - intros i e ->. inversion Hstep as [| | |? ? ? ? ? ? ? ? ? Hn| |? ? ? v k ? ? ? Hx| | |]; subst.
    + by destruct (Hn (Throw e)).
    + by apply (Hv v) in Hx.
  - intros v u Hx.
    assert (Hcur : deploymentVerification s = Some v) by (apply Hc; eexists; split; [done|]; by intros).
    assert (Hrun : ∀ w p, verifications s !! w ≠ Some (VRunning p)).
    { intros w p Hw. assert (deploymentVerification s = Some w) by (apply Hc; eauto).
      congruence. }
    destruct Hstep as [? ? ? ? Hh|? ? ? Hh|? ? ? Hh| |? ? ? ? ? ? ? ? Hver| |? w p ? ? Hw|? w r Hw|];
      try (split; [|by intros]); try done.
    + unfold handle_bootstrap in Hh. repeat case_match; by injection Hh as <- <-.
    + by injection Hh as <- <-.
    + by injection Hh as <- <-.
    + unfold verifyDeployment in Hver. rewrite Hcur in Hver. by injection Hver as <- <-.
    + by destruct (Hrun w p).
    + by destruct (Hrun w (Done r)).
Qed.
End requests.
