(* ===== verification/Completion.v ===== *)
(** * Every request completes

    The interleavings of [Requests] are finite: a request is paid for in advance with a
    budget of steps, from which its own calls, its part in a verification and its end are
    taken. Nothing waits for ever, and what is left at the end is as good as new. *)

From S2P Require Import Prelude Js JsString Bytes Zod Constants Schemas Ccc Manifests Service Requests.

(** ** Budgets *)

(** A list whose elements cost a total. *)
Section totals.
Context {A : Type} (cost : nat → A → Prop).

Inductive total : list A → nat → Prop :=
  | total_nil : total [] 0
  | total_cons x l m n : cost m x → total l n → total (x :: l) (m + n).

Lemma total_snoc l n x m : total l n → cost m x → total (l ++ [x]) (m + n).
Proof.
  intros H Hx. induction H as [|y l k n Hy _ IH]; cbn [app].
  - apply (total_cons x [] m 0); [done|constructor].
  - rewrite Nat.add_assoc, (Nat.add_comm m k), <- Nat.add_assoc. by constructor.
Qed.

(** Changing an element changes its share only. *)
Lemma total_alter l n i x :
  total l n → l !! i = Some x →
  ∃ m r, cost m x ∧ n = (m + r)%nat ∧
    ∀ f m', cost m' (f x) → total (alter f i l) (m' + r).
Proof.
  intros H. revert i. induction H as [|y l m n Hy Hl IH]; intros [|i] Hi; try discriminate Hi.
  - injection Hi as ->. exists m, n. split; [done|]. split; [done|]. intros f m' Hf.
    by constructor.
  - destruct (IH i Hi) as (k & r & Hk & -> & Hr). exists k, (m + r)%nat.
    split; [done|]. split; [lia|]. intros f m' Hf. replace (m' + (m + r))%nat with (m + (m' + r))%nat by lia.
    constructor; [done|]. by apply Hr.
Qed.
End totals.

(** What a program may cost: a step for its end and for every call, and five for the
    verification of the deployment (to ask for it, three for the verification itself if
    it is not there, and to go on). *)
Inductive costs {A} : nat → prog A → Prop :=
  | costs_done n r : costs (S n) (Done r)
  | costs_verify n k : (∀ r, costs n (k r)) → costs (5 + n) (VerifyDeployment k)
  | costs_call n p : (∀ k, p ≠ VerifyDeployment k) →
      (∀ c p', answers p c p' → costs n p') → costs (S n) p.

Lemma costs_pos {A} n (p : prog A) : costs n p → (0 < n)%nat.
Proof. destruct 1; lia. Qed.
Lemma costs_answer {A} n (p : prog A) c p' :
  costs n p → answers p c p' → ∃ m, costs m p' ∧ (m < n)%nat.
Proof.
  intros H Ha. destruct H as [n r|n k H|n p _ H]; [by inversion Ha| |eauto].
  inversion Ha; subst. eexists. split; [apply H|lia].
Qed.
Lemma costs_wait {A} n (k : res unit → prog A) :
  costs n (VerifyDeployment k) → ∃ m, n = (5 + m)%nat ∧ ∀ r, costs m (k r).
Proof. inversion 1 as [|m k' H'|m p Hn]; subst; [eauto|by destruct (Hn k)]. Qed.
Lemma costs_le {A} n m (p : prog A) : costs n p → (n <= m)%nat → costs m p.
Proof.
  intros H. revert m. induction H as [n r|n k _ IH|n p Hn _ IH]; intros m Hm.
  - destruct m as [|m]; [lia|constructor].
  - replace m with (5 + (m - 5))%nat by lia. constructor. intros r. apply IH. lia.
  - destruct m as [|m]; [lia|]. constructor; [done|]. intros c p' Ha. apply (IH c); [done|lia].
Qed.

(** Walks through a program whose calls are known: its cost is the longest path. *)
Ltac walk_program :=
  cbn [mbind prog_bind mret prog_ret and_then];
  first
    [ apply costs_done
    | match goal with |- costs _ (match ?x with _ => _ end) => destruct x; walk_program end
    | match goal with
      | |- costs _ (and_then (match ?x with _ => _ end) _) => destruct x; walk_program
      | |- costs _ (and_then (and_then (match ?x with _ => _ end) _) _) =>
          destruct x; walk_program
      end
    | match goal with |- costs (S _) (VerifyDeployment _) =>
        apply (costs_verify _ _); intros ?; walk_program end
    | apply costs_call; [by intros|];
      let Ha := fresh in intros ? ? Ha; inversion Ha; subst; clear Ha; walk_program ].

Section completion.
Context {zod : Zod} {ccc : Ccc} (deployment : DeploymentManifest).
Notation step := (step deployment).
Notation steps := (steps deployment).
Notation reachable := (reachable deployment).

(** Two cells are read, and the verification ends. *)
Lemma verification_costs : costs 3 (verification deployment).
Proof. unfold verification, verify_artifacts. walk_program. Qed.
Lemma bootstrap_costs request :
  costs 10 (as_value account_val (bootstrapOnce deployment request)).
Proof. unfold as_value, bootstrapOnce, account, try_catch. walk_program. Qed.
Lemma status_costs : costs 8 (status deployment).
Proof. unfold status, account. walk_program. Qed.
Lemma account_costs : costs 2 (as_value account_json (account deployment)).
Proof. unfold as_value, account. walk_program. Qed.

(** ** The budget of a state *)

Definition run_cost (n : nat) (run : request_run) : Prop :=
  match rr_state run with
  | Running p => costs n p
  | Waiting _ k => ∃ m, n = S m ∧ ∀ r, costs m (k r)
  | Settled _ => True
  end.
Definition verification_cost (n : nat) (x : verifying) : Prop :=
  match x with VRunning p => costs n p | VSettled _ => True end.

Definition is_request (l : label) : bool :=
  match l with LBootstrap _ _ | LStatus _ | LAccount _ => true | _ => false end.
(** The requests of a trace. *)
Definition requests (tr : list label) : nat := length (List.filter is_request tr).

(** The steps so far and the budget of what is under way are covered by the requests:
    eleven steps each, which an account creation can need. *)
Definition STEPS : nat := 11.
Definition funded (tr : list label) (s : service_state) : Prop :=
  ∃ a b, total run_cost (request_runs s) a ∧ total verification_cost (verifications s) b ∧
    (length tr + a + b <= STEPS * requests tr)%nat.

Lemma requests_app tr tr' : requests (tr ++ tr') = (requests tr + requests tr')%nat.
Proof. unfold requests. by rewrite List.filter_app, length_app. Qed.
Lemma length_snoc {A} (l : list A) x : length (l ++ [x]) = S (length l).
Proof. rewrite length_app. cbn. lia. Qed.
Lemma requests_snoc tr l :
  requests (tr ++ [l]) = (requests tr + if is_request l then 1 else 0)%nat.
Proof. rewrite requests_app. unfold requests at 2. cbn. by destruct (is_request l). Qed.

Lemma funded_new : funded [] new_service.
Proof. exists 0%nat, 0%nat. split; [constructor|]. split; [constructor|]. cbn. lia. Qed.

(** A new request brings its budget. *)
Lemma funded_start tr s l creates p :
  is_request l = true → costs 10 p → funded tr s →
  funded (tr ++ [l]) (start_run creates p s).
Proof.
  intros Hl Hp (a & b & Ha & Hb & H). exists (10 + a)%nat, b.
  split; [by apply total_snoc|]. split; [done|].
  rewrite requests_snoc, Hl, length_snoc. unfold STEPS in *. lia.
Qed.
Lemma funded_refused tr s l : is_request l = true → funded tr s → funded (tr ++ [l]) s.
Proof.
  intros Hl (a & b & Ha & Hb & H). exists a, b. split; [done|]. split; [done|].
  rewrite requests_snoc, Hl, length_snoc. unfold STEPS in *. lia.
Qed.

(** A step of a run, or of a verification, makes it cheaper. *)
Lemma funded_run tr s l i run st :
  request_runs s !! i = Some run → is_request l = false →
  (∀ n, run_cost n run → ∃ m,
     run_cost m {| rr_creates := rr_creates run; rr_state := st |} ∧ (m < n)%nat) →
  funded tr s → funded (tr ++ [l]) (set_run i st s).
Proof.
  intros Hi Hl Hc (a & b & Ha & Hb & H).
  destruct (total_alter _ _ _ _ _ Ha Hi) as (n & r & Hn & -> & Hr).
  destruct (Hc n Hn) as (m & Hm & Hlt). exists (m + r)%nat, b.
  split; [by apply Hr|]. split; [done|]. rewrite requests_snoc, Hl, length_snoc. lia.
Qed.
Lemma alter_const {A} (l : list A) i x : <[i:=x]> l = alter (λ _, x) i l.
Proof. revert i. by induction l as [|y l IH]; intros [|i]; cbn; rewrite ?IH. Qed.
Lemma funded_verification tr s l v x y current :
  verifications s !! v = Some x → is_request l = false →
  (∀ n, verification_cost n x → ∃ m, verification_cost m y ∧ (m < n)%nat) →
  funded tr s → funded (tr ++ [l]) (set_verification v y current s).
Proof.
  intros Hv Hl Hc (a & b & Ha & Hb & H).
  destruct (total_alter _ _ _ _ _ Hb Hv) as (n & r & Hn & -> & Hr).
  destruct (Hc n Hn) as (m & Hm & Hlt). exists a, (m + r)%nat.
  split; [done|]. split; [cbn [set_verification verifications]; rewrite alter_const; by apply Hr|].
  rewrite requests_snoc, Hl, length_snoc. lia.
Qed.

(** Asking for the verification pays for it if it is not there. *)
Lemma funded_verify tr s l i run k v s' :
  request_runs s !! i = Some run → rr_state run = Running (VerifyDeployment k) →
  verifyDeployment deployment s = (v, s') → is_request l = false →
  funded tr s → funded (tr ++ [l]) (set_run i (Waiting v k) s').
Proof.
  intros Hi Hp Hv Hl (a & b & Ha & Hb & H).
  destruct (total_alter _ _ _ _ _ Ha Hi) as (n & r & Hn & -> & Hr).
  unfold run_cost in Hn. rewrite Hp in Hn. apply costs_wait in Hn as (m & -> & Hk).
  assert (Hs : request_runs s' = request_runs s ∧ ∃ b', total verification_cost (verifications s') b' ∧
    (b' <= 3 + b)%nat).
  { unfold verifyDeployment in Hv. destruct (deploymentVerification s); injection Hv as <- <-.
    - split; [done|]. exists b. split; [done|lia].
    - split; [done|]. exists (3 + b)%nat. split; [|done].
      apply total_snoc; [done|]. exact verification_costs. }
  destruct Hs as (Er & b' & Hb' & Hle). exists (S m + r)%nat, b'.
  split; [cbn [set_run request_runs]; rewrite Er; apply Hr; by exists m|]. split; [done|].
  rewrite requests_snoc, Hl, length_snoc. lia.
Qed.

Lemma funded_step tr s l s' : funded tr s → step s l s' → funded (tr ++ [l]) s'.
Proof.
  intros H Hstep.
  destruct Hstep as [v s r s' Hh|s r s' Hh|s r s' Hh|s i run p c p' Hi Hp Hcall Hnv
    |s i run k v s' Hi Hp Hver|s i run v k r Hi Hp Hx|s v p c p' Hp Hcall|s v r Hp|s i run r Hi Hp].
  - unfold handle_bootstrap in Hh. destruct (safeParse _ _) as [data|].
    2: { injection Hh as <- <-. by apply funded_refused. }
    destruct (active s) as [[pk i]|].
    + destruct (String.eqb _ _); injection Hh as <- <-; by apply funded_refused.
    + injection Hh as <- <-. apply funded_start; [done|apply bootstrap_costs|done].
  - injection Hh as <- <-. apply funded_start; [done| |done].
    eapply costs_le; [apply status_costs|lia].
  - injection Hh as <- <-. apply funded_start; [done| |done].
    eapply costs_le; [apply account_costs|lia].
  - eapply funded_run; [done|done| |done]. intros n Hn. unfold run_cost in *.
    rewrite Hp in Hn. by eapply costs_answer.
  - by eapply funded_verify.
  - eapply funded_run; [done|done| |done]. intros n Hn. unfold run_cost in *.
    rewrite Hp in Hn. destruct Hn as (m & -> & Hk). exists m. split; [apply Hk|lia].
  - eapply funded_verification; [done|done| |done]. intros n Hn.
    by eapply costs_answer.
  - assert (Hd : ∀ x current, (∃ r, x = VSettled r) →
      funded (tr ++ [LInternal]) (set_verification v x current s)).
    { intros x current [r' ->]. eapply funded_verification; [done|done| |done].
      intros n Hn%costs_pos. exists 0%nat. split; [done|lia]. }
    destruct r as [u|e]; apply Hd; eauto.
  - assert (Hf : funded (tr ++ [LSettle i r]) (set_run i (Settled r) s)); [|done].
    eapply funded_run; [done|done| |done]. intros n Hn. unfold run_cost in Hn. rewrite Hp in Hn.
    apply costs_pos in Hn. exists 0%nat. split; [done|lia].
Qed.

Lemma steps_funded tr s s' : steps s tr s' → ∀ tr0, funded tr0 s → funded (tr0 ++ tr) s'.
Proof.
  induction 1 as [s|s1 l1 s2 l s3 _ IH Hs]; intros tr0 H0; [by rewrite app_nil_r|].
  rewrite app_assoc. eapply funded_step; [by apply IH|done].
Qed.

(** ** Progress *)

(** The answer of a call is the oracle's; the answer to a wait for the verification
    is the promise's. *)
Definition given (o : oracle) (c : dep_call) : Prop :=
  match c with
  | CGetDeploymentCell h n x => x = o_deployment o h n
  | CGetStateCell q x => x = o_state o q
  | CReadAccountManifest x => x = o_account o
  | CFunderBalance x => x = o_balance o
  | CFunder x => x = o_funder o
  | CExportState q x => x = o_export o q
  | CCreateAccount d x => x = o_create o d
  | CVerifyDeployment _ => True
  end.
(** A step that is no new request and whose call, if any, the oracle answers. *)
Definition follows (o : oracle) (l : label) : Prop :=
  match l with
  | LCall _ c | LVerificationCall _ c => given o c
  | LSettle _ _ | LInternal => True
  | _ => False
  end.
Definition enabled (o : oracle) (s : service_state) : Prop := ∃ l s', step s l s' ∧ follows o l.

(** A program is at its end, waits for the verification, or calls. *)
Lemma program_next {A} (o : oracle) (p : prog A) :
  (∃ r, p = Done r) ∨ (∃ k, p = VerifyDeployment k) ∨
  ∃ c p', answers p c p' ∧ given o c ∧ ∀ r, c ≠ CVerifyDeployment r.
Proof.
  destruct p; [by left; eauto|..|by right; left; eauto]; right; right;
    (eexists _, _; split; [constructor|]; split; [reflexivity|by intros]).
Qed.

Lemma verification_enabled o s v p :
  verifications s !! v = Some (VRunning p) → enabled o s.
Proof.
  intros Hv. destruct (program_next o p) as [[r ->]|[[k ->]|(c & p' & Ha & Hg & _)]].
  - eexists _, _. split; [by eapply s_verification_done|done].
  - eexists _, _. split; [eapply (s_verification_call _ _ _ _ (CVerifyDeployment (o_verify o))); [done|constructor]|done].
  - eexists _, _. split; [by eapply s_verification_call|done].
Qed.

(** No request waits for something that does not come. *)
Lemma run_enabled o tr s i run :
  service_ok deployment tr s → request_runs s !! i = Some run → settled run = false →
  enabled o s.
Proof.
  intros Hok Hi Hs. destruct run as [creates [p|v k|r]]; [| |done].
  - destruct (program_next o p) as [[r ->]|[[k ->]|(c & p' & Ha & Hg & Hn)]].
    + eexists _, _. split; [by eapply s_settle|done].
    + destruct (verifyDeployment deployment s) as [v s1] eqn:Hv.
      eexists _, _. split; [by eapply s_verify|done].
    + eexists _, _. split; [by eapply s_call|done].
  - destruct (so_waits _ _ _ Hok i _ v k Hi eq_refl) as [[p|r] Hx].
    + by eapply verification_enabled.
    + eexists _, _. split; [by eapply s_resume|done].
Qed.

(** Nothing is left to do but to receive requests. *)
Definition quiet (s : service_state) : Prop := ∀ l s', step s l s' → is_request l = true.
Lemma enabled_loud o s : enabled o s → ¬ quiet s.
Proof. intros (l & s' & Hs & Hf) Hq. apply Hq in Hs. by destruct l. Qed.

Definition some_oracle : oracle :=
  let e {A} : res A := Throw (Error "") in
  {| o_deployment _ _ := e; o_state _ := e; o_account := e; o_balance := e; o_funder := e;
     o_export _ := e; o_create _ := e; o_verify := e |}.

(** The service as a client finds it who comes alone: every request has its answer, no
    creation is in progress, and a verification is kept only if it succeeded. *)
Record at_rest (s : service_state) : Prop := {
  ar_runs : ∀ i run, request_runs s !! i = Some run → settled run = true;
  ar_active : active s = None;
  ar_verifications : ∀ v x, verifications s !! v = Some x → ∃ r, x = VSettled r;
  ar_current : ∀ v, deploymentVerification s = Some v →
    verifications s !! v = Some (VSettled (Ok tt)) }.

Lemma quiet_at_rest tr s : service_ok deployment tr s → quiet s → at_rest s.
Proof.
  intros Hok Hq.
  assert (Hruns : ∀ i run, request_runs s !! i = Some run → settled run = true).
  { intros i run Hi. destruct (settled run) eqn:E; [done|].
    by destruct (enabled_loud some_oracle s (run_enabled _ _ _ _ _ Hok Hi E)). }
  assert (Hver : ∀ v x, verifications s !! v = Some x → ∃ r, x = VSettled r).
  { intros v [p|r] Hx; [|eauto].
    by destruct (enabled_loud some_oracle s (verification_enabled _ _ _ _ Hx)). }
  constructor; [done| |done|].
  - destruct (active s) as [[pk i]|] eqn:E; [|done].
    destruct (proj1 (so_active _ _ _ Hok pk i) E) as (run & Hi & _ & Hu).
    by rewrite (Hruns i run Hi) in Hu.
  - intros v Hv. destruct (proj1 (so_current _ _ _ Hok v) Hv) as (x & Hx & Hn).
    destruct (Hver v x Hx) as [[[]|e] ->]; [done|]. by destruct (Hn e).
Qed.

Lemma at_rest_quiet s : at_rest s → quiet s.
Proof.
  intros [Hr _ Hv _] l s' Hs.
  assert (Hrun : ∀ i run, request_runs s !! i = Some run → ∃ r, rr_state run = Settled r).
  { intros i run Hi%Hr. unfold settled in Hi. destruct (rr_state run); [done|done|eauto]. }
  destruct Hs as [| | |s i run p c p' Hi Hp _ _|s i run k v s' Hi Hp _|s i run v k r Hi Hp _
    |s v p c p' Hp _|s v r Hp|s i run r Hi Hp]; try reflexivity;
    try (destruct (Hrun i run Hi) as [r' E]; rewrite E in Hp; discriminate Hp);
    destruct (Hv v _ Hp) as [r' E]; discriminate E.
Qed.

(** C31 — Every request completes, in every order: the requests that were received pay for
    eleven steps each, so however requests and verifications interleave and whatever the
    dependencies answer, no schedule goes on longer without new requests; while a request
    has no result some step is possible, with any answers to the calls that are open; and
    when no step is left every request has its result, no creation is recorded as in
    progress, and the verification that is kept is a successful one, so that the next
    valid creation request starts a creation, and the next request goes on with that
    verification or reads the published cells anew. *)
Theorem requests_complete (tr : list label) (s : service_state) :
  reachable tr s →
  (∀ tr' s', steps s tr' s' → requests tr' = 0%nat →
     (length tr + length tr' <= 11 * requests tr)%nat) ∧
  (∀ o i run, request_runs s !! i = Some run → settled run = false → enabled o s) ∧
  (quiet s → at_rest s ∧
     (∀ requestValue data, safeParse BootstrapRequestSchema requestValue = Some data →
        ∃ s', handle_bootstrap deployment requestValue s =
          (Promised (length (request_runs s)), s')) ∧
     ∀ v s', verifyDeployment deployment s = (v, s') →
       (verifications s !! v = Some (VSettled (Ok tt)) ∧ s' = s) ∨
       verifications s' = verifications s ++ [VRunning (verification deployment)]).
Proof.
  intros Hr. pose proof (reachable_ok _ _ _ Hr) as Hok. split; [|split].
  - intros tr' s' Hs Hn. pose proof (steps_funded _ _ _ Hr [] funded_new) as Hf.
    apply (steps_funded _ _ _ Hs) in Hf as (a & b & _ & _ & H).
    unfold STEPS in H. rewrite app_nil_l, length_app, requests_app, Hn in H. lia.
  - intros o i run Hi Hs. by eapply run_enabled.
  - intros Hq. pose proof (quiet_at_rest _ _ Hok Hq) as Hrest. split; [done|]. split.
    + intros v data Hd. unfold handle_bootstrap. rewrite Hd, (ar_active _ Hrest). eauto.
    + intros v s' H. unfold verifyDeployment in H.
      destruct (deploymentVerification s) as [v'|] eqn:E; injection H as <- <-; [left|by right].
      split; [by apply (ar_current _ Hrest)|done].
Qed.
End completion.
