(* ===== verification/Http.v ===== *)
(** * The HTTP routes ([demo/src/server/http.ts])

    Which requests reach the service, and what is answered to every request. A request
    carries the headers the handler reads and its body as a sequence of chunks; the log
    records the calls into the service and the responses sent. *)

From S2P Require Import Prelude Js JsString Regex Bytes Zod Constants Schemas Effects Json.
From S2P Require Import Ccc CccRef Service.
From Stdlib Require Import Ascii.

Definition REQUIRED_HOST : string := "127.0.0.1:" +:+ dec API_PORT.
Definition BODY_LIMIT : Z := 16 * 1024.

(** A header is absent, or its text. The HTTP parser passes on only decimal content
    lengths. The body ends, or fails with an error. *)
Record HttpRequest := {
  rq_method : string; rq_url : string; rq_host : option string; rq_origin : option string;
  rq_contentType : option string; rq_contentLength : option Z;
  rq_chunks : list bytes; rq_error : option exn }.

Record HttpResponse := { rs_status : Z; rs_headers : list (string * string); rs_body : string }.

Inductive http_event :=
  | HStatus | HAccount | HBootstrap (request : BootstrapRequest)
  | HRespond (response : HttpResponse).

Class DemoService (W : Type) := {
  sv_status : W → res jsval * W;
  sv_account : W → res jsval * W;
  sv_bootstrap : BootstrapRequest → W → res jsval * W }.

(** [new URL(url, "http://127.0.0.1").pathname], which may throw. *)
Class UrlParser := url_pathname : string → res string.

(** [s.trim()] on code units below 256. *)
Definition is_trimmed (c : ascii) : bool :=
  let n := code c in ((9 <=? n) && (n <=? 13)) || (n =? 32) || (n =? 160).
Fixpoint trim_start (s : string) : string :=
  match s with String c s' => if is_trimmed c then trim_start s' else s | EmptyString => "" end.
Fixpoint trim_end (s : string) : string :=
  match s with
  | EmptyString => ""
  | String c s' =>
      let r := trim_end s' in if String.eqb r "" && is_trimmed c then "" else String c r
  end.
Definition trim (s : string) : string := trim_end (trim_start s).
(** [s.split(c, 1)[0]]. *)
Fixpoint before (c : ascii) (s : string) : string :=
  match s with
  | String d s' => if Ascii.eqb c d then "" else String d (before c s')
  | EmptyString => ""
  end.

Definition json_headers (allowOrigin : bool) : list (string * string) := [
  ("Content-Type", "application/json; charset=utf-8"); ("Vary", "Origin");
  ("Cache-Control", "no-store"); ("X-Content-Type-Options", "nosniff");
  ("Content-Security-Policy", "default-src 'none'; frame-ancestors 'none'")] ++
  (if allowOrigin then [("Access-Control-Allow-Origin", CLIENT_ORIGIN)] else []).

Definition json_response (headers : list (string * string)) (status : Z) (value : jsval)
    (allowOrigin : bool) : HttpResponse := {|
  rs_status := status; rs_headers := headers ++ json_headers allowOrigin;
  rs_body := JSON_stringify value +:+ String (chr 10) "" |}.

Definition TOO_LARGE : exn := ApiError "INVALID_REQUEST" 413 "Request body is too large".

(** The [data] events: the chunks are collected until the limit is exceeded. *)
Fixpoint read_chunks (chunks : list bytes) (body : bytes) : res bytes :=
  match chunks with
  | [] => Ok body
  | chunk :: chunks' =>
      throw_if (len body + len chunk >? BODY_LIMIT) TOO_LARGE;;
      read_chunks chunks' (body ++ chunk)
  end.
Definition readBody (request : HttpRequest) : res bytes :=
  body ← read_chunks (rq_chunks request) [];
  match rq_error request with Some e => Throw e | None => Ok body end.

Section http.
Context {W : Type} {zod : Zod} {json : Json} {service : DemoService W} {url : UrlParser}.
Notation M := (eff W http_event).

Definition send (response : HttpResponse) : M unit := λ w,
  (Ok tt, World (w_env w) (w_log w ++ [HRespond response])).
Definition sendJson (status : Z) (value : jsval) : M unit :=
  send (json_response [] status value true).
Definition methodNotAllowed (allowed : string) : M unit :=
  send (json_response [("Allow", allowed)] 405
          (error_body "INVALID_REQUEST" "Method not allowed") true).

(** The body of a creation request: its headers, its bytes, its JSON, its schema. *)
Definition bootstrap_request (request : HttpRequest) : res BootstrapRequest :=
  throw_if (negb (String.eqb (trim (before ";" (default "" (rq_contentType request))))
                             "application/json"))
    (ApiError "INVALID_REQUEST" 415 "Content-Type must be application/json");;
  throw_if (default 0 (rq_contentLength request) >? BODY_LIMIT) TOO_LARGE;;
  value ← match (body ← readBody request;
                 from_option_or (Exn CSyntaxError "") (json_parse_buffer body)) with
          | Ok value => Ok value
          | Throw error => Throw (api_or
              (ApiError "INVALID_REQUEST" 400 "Request body must be valid JSON") error)
          end;
  parsed ← from_option_or (ApiError "INVALID_REQUEST" 400 "Invalid account bootstrap request")
             (safeParse BootstrapRequestSchema value);
  Ok (request_of parsed).

Definition local (request : HttpRequest) : bool :=
  bool_decide (rq_host request = Some REQUIRED_HOST) &&
  bool_decide (rq_origin request = Some CLIENT_ORIGIN).

(** The routes, for a path. *)
Definition route (path : string) (request : HttpRequest) : M unit :=
  if String.eqb path "/api/status" then
    if negb (String.eqb (rq_method request) "GET") then methodNotAllowed "GET"
    else value ← call HStatus sv_status; sendJson 200 value
  else if String.eqb path "/api/account" then
    if negb (String.eqb (rq_method request) "GET") then methodNotAllowed "GET"
    else value ← call HAccount sv_account; sendJson 200 value
  else if String.eqb path "/api/account/bootstrap" then
    if negb (String.eqb (rq_method request) "POST") then methodNotAllowed "POST"
    else
      parsed ← lift (bootstrap_request request);
      value ← call (HBootstrap parsed) (sv_bootstrap parsed);
      sendJson 200 value
  else sendJson 404 (error_body "INVALID_REQUEST" "Route not found").

Definition handleRequest (request : HttpRequest) : M unit :=
  if negb (local request)
  then send (json_response [] 403
               (error_body "BAD_ORIGIN" "Request must come from the local demo") false)
  else path ← lift (url_pathname (rq_url request)); route path request.

Definition is_respond (ev : http_event) : bool :=
  match ev with HRespond _ => true | _ => false end.
Definition error_status (error : exn) : Z :=
  match exn_class error with CApiError _ status => status | _ => 500 end.

(** The [catch] clause of the listener. *)
Definition answer_error (error : exn) : M unit := λ w,
  if existsb is_respond (w_log w) then (Ok tt, w)
  else sendJson (error_status error) (toSafeErrorBody error) w.
(** The listener of [createHttpServer]; the log starts empty with every request. *)
Definition serve (request : HttpRequest) : M unit :=
  catch (handleRequest request) answer_error.
End http.

(** ** What is answered *)

(** Errors of the API that its schema and the protocol can carry. *)
Definition api_error_ok (e : exn) : Prop :=
  match exn_class e with
  | CApiError code status =>
      code ∈ API_ERROR_CODES ∧ (str_len (exn_message e) <= 240)%nat ∧ 400 <= status <= 599
  | _ => True
  end.

Section answers.
Context {W : Type} {zod : Zod} {zod_laws : ZodLaws} {json : Json} {service : DemoService W}.
Context {url : UrlParser}.
Notation world := (world W http_event).

(** The service answered the call of a log entry with [r]. *)
Definition service_answer (ev : http_event) (r : res jsval) : Prop :=
  ∃ env env', match ev with
              | HStatus => sv_status env = (r, env')
              | HAccount => sv_account env = (r, env')
              | HBootstrap request => sv_bootstrap request env = (r, env')
              | HRespond _ => False
              end.

(** The request names the local host and the demo's origin. *)
Definition from_demo (request : HttpRequest) : Prop :=
  rq_host request = Some "127.0.0.1:8790" ∧ rq_origin request = Some "http://localhost:5173".

Lemma local_iff request : local request = true ↔ from_demo request.
Proof.
  assert (E : REQUIRED_HOST = "127.0.0.1:8790") by (vm_compute; reflexivity).
  unfold local, from_demo. by rewrite andb_true_iff, !bool_decide_eq_true, E.
Qed.

(** The only requests that reach the service. *)
Definition admitted (request : HttpRequest) (ev : http_event) : Prop :=
  from_demo request ∧
  match ev with
  | HStatus => url_pathname (rq_url request) = Ok "/api/status" ∧ rq_method request = "GET"
  | HAccount => url_pathname (rq_url request) = Ok "/api/account" ∧ rq_method request = "GET"
  | HBootstrap q =>
      url_pathname (rq_url request) = Ok "/api/account/bootstrap" ∧
      rq_method request = "POST" ∧
      trim (before ";" (default "" (rq_contentType request))) = "application/json" ∧
      len (concat (rq_chunks request)) <= BODY_LIMIT ∧
      ∃ v, json_parse_buffer (concat (rq_chunks request)) = Some v ∧
        safeParse BootstrapRequestSchema v = Some (request_val q) ∧ request_wf q
  | HRespond _ => False
  end.

Record answered (request : HttpRequest) (calls : list http_event) (response : HttpResponse)
    : Prop := {
  an_calls : calls = [] ∨ ∃ ev, calls = [ev] ∧ admitted request ev;
  an_origin : ("Access-Control-Allow-Origin", CLIENT_ORIGIN) ∈ rs_headers response ↔
    from_demo request;
  an_foreign : ¬ from_demo request → rs_status response = 403 ∧ calls = [];
  an_ok : rs_status response = 200 → ∃ ev value,
    calls = [ev] ∧ service_answer ev (Ok value) ∧
    rs_body response = JSON_stringify value +:+ String (chr 10) "";
  an_error : rs_status response ≠ 200 → ∃ code message,
    rs_body response = JSON_stringify (error_body code message) +:+ String (chr 10) "" ∧
    safeParse ApiErrorBodySchema (error_body code message) = Some (error_body code message);
  an_internal : ∀ ev e, calls = [ev] → is_ApiError e = false →
    (∀ r, service_answer ev r → r = Throw e) →
    rs_status response = 500 ∧
    rs_body response = JSON_stringify
      (error_body "INTERNAL_ERROR" "Unexpected local server error") +:+ String (chr 10) "" }.

Lemma read_chunks_Ok chunks body data :
  read_chunks chunks body = Ok data → data = body ++ concat chunks ∧
  (len body <= BODY_LIMIT → len data <= BODY_LIMIT).
Proof.
  revert body. induction chunks as [|c chunks IH]; intros body; cbn [read_chunks concat].
  - intros [= <-]. by rewrite app_nil_r.
  - intros (u & Hc%throw_if_Ok & H)%bind_Ok_iff. apply IH in H as [-> Hl].
    rewrite Z.gtb_ltb in Hc. bool_simpl. rewrite len_app in Hl. rewrite <- app_assoc in *.
    split; [done|]. intros _. apply Hl. lia.
Qed.

Lemma bootstrap_request_Ok request q :
  bootstrap_request request = Ok q →
  trim (before ";" (default "" (rq_contentType request))) = "application/json" ∧
  len (concat (rq_chunks request)) <= BODY_LIMIT ∧
  ∃ v, json_parse_buffer (concat (rq_chunks request)) = Some v ∧
    safeParse BootstrapRequestSchema v = Some (request_val q) ∧ request_wf q.
Proof.
  unfold bootstrap_request, readBody. intros H. inv_res. bool_simpl.
  match goal with H : match ?m with _ => _ end = Ok _ |- _ => destruct m as [x|e] eqn:Em; [|done] end.
  apply bind_Ok_iff in Em as (data & Hd & Hj). apply from_option_or_Ok in Hj.
  apply bind_Ok_iff in Hd as (body & Hr & Hb). destruct (rq_error request); [done|].
  injection Hb as ->. apply read_chunks_Ok in Hr as [-> Hl]. injection H2 as ->.
  cbn [app] in *. split; [done|]. split; [apply Hl; by vm_compute|].
  destruct (request_record _ _ H3) as (r & -> & Hw). rewrite request_of_val. eauto.
Qed.

(** An error that is answered with a body the client's schema accepts. *)
Definition answerable (e : exn) : Prop := api_error_ok e ∧ is_ApiError e = true.

Lemma read_chunks_Throw chunks body e : read_chunks chunks body = Throw e → e = TOO_LARGE.
Proof.
  revert body. induction chunks as [|c chunks IH]; intros body; cbn [read_chunks]; [done|].
  intros [[_ ->]%throw_if_Throw|(u & _ & H)]%bind_Throw_iff; [done|]. by eapply IH.
Qed.

(** A fixed code and message. *)
Ltac code := cbn; unfold API_ERROR_CODES; repeat split;
  first [apply list_elem_of_In; cbn; tauto|lia].

Lemma too_large_answerable : answerable TOO_LARGE.
Proof. split; [code|done]. Qed.

Lemma bootstrap_request_Throw request e :
  (∀ e', rq_error request = Some e' → is_ApiError e' = false) →
  bootstrap_request request = Throw e → answerable e.
Proof.
  intros Hreq. unfold bootstrap_request.
  intros [[_ ->]%throw_if_Throw|(? & _ & H)]%bind_Throw_iff; [split; [code|done]|]. revert H.
  intros [[_ ->]%throw_if_Throw|(? & _ & H)]%bind_Throw_iff; [apply too_large_answerable|]. revert H.
  intros [H|(v & _ & H)]%bind_Throw_iff; revert H.
  - destruct (body ← readBody request; _) as [y|e'] eqn:Em; [done|]. intros [= <-].
    unfold api_or. destruct (is_ApiError e') eqn:He; [|split; [code|done]].
    assert (e' = TOO_LARGE) as ->; [|apply too_large_answerable].
    apply bind_Throw_iff in Em as [Em|(b & _ & Em)].
    + apply bind_Throw_iff in Em as [Em|(b & _ & Em)]; [by eapply read_chunks_Throw|].
      destruct (rq_error request) as [e0|]; [|done]. injection Em as ->.
      by rewrite (Hreq e' eq_refl) in He.
    + destruct (json_parse_buffer b); cbn in Em; [done|]. by injection Em as <-.
  - intros [H|(p & _ & H)]%bind_Throw_iff; [|done]. destruct (safeParse _ _); cbn in H; [done|].
    injection H as <-. split; [code|done].
Qed.

Lemma error_body_parses code message :
  code ∈ API_ERROR_CODES → (str_len message <= 240)%nat →
  safeParse ApiErrorBodySchema (error_body code message) = Some (error_body code message).
Proof.
  intros Hc Hm. unfold ApiErrorBodySchema, error_body, z_strict, z_object. sp_eval.
  rewrite sp_enum, sp_string.
  assert (existsb (is_str (JStr code)) API_ERROR_CODES = true) as ->.
  { apply existsb_exists. exists code. split; [by apply list_elem_of_In|]. apply String.eqb_refl. }
  cbn [forallb str_check]. by rewrite (proj2 (Nat.leb_le _ _) Hm).
Qed.

Lemma safe_body e : api_error_ok e → ∃ code message,
  toSafeErrorBody e = error_body code message ∧ error_status e ≠ 200 ∧
  safeParse ApiErrorBodySchema (error_body code message) = Some (error_body code message).
Proof.
  unfold api_error_ok, toSafeErrorBody, error_status.
  destruct (exn_class e) as [| | | | |n| | |c st|c st|n];
    try (intros _; eexists _, _; split; [reflexivity|]; split; [done|];
         apply error_body_parses; cbn; [code|lia]).
  intros (Hc & Hm & Hs). eexists _, _. split; [reflexivity|]. split; [lia|].
  by apply error_body_parses.
Qed.

Lemma cors_header headers status value allow :
  (∀ v, ("Access-Control-Allow-Origin", v) ∉ headers) →
  ("Access-Control-Allow-Origin", CLIENT_ORIGIN) ∈
    rs_headers (json_response headers status value allow) ↔ allow = true.
Proof.
  intros Hh. cbn [json_response rs_headers]. unfold json_headers.
  rewrite !elem_of_app, !elem_of_cons, elem_of_nil. split.
  - intros [H|[H|H]]; [by apply Hh in H|naive_solver|]. destruct allow; [done|].
    by apply not_elem_of_nil in H.
  - intros ->. right. right. by left.
Qed.

Hypothesis url_errors : ∀ u e, url_pathname u = Throw e → is_ApiError e = false.
Hypothesis service_errors : ∀ ev e, service_answer ev (Throw e) → api_error_ok e.

(** The three kinds of answer to a local request. *)
Lemma answered_value request ev value :
  admitted request ev → service_answer ev (Ok value) →
  answered request [ev] (json_response [] 200 value true).
Proof.
  intros Ha Hs. pose proof (proj1 Ha) as Hl. constructor.
  - right. eauto.
  - rewrite cors_header by (intros v; apply not_elem_of_nil). by split.
  - by intros [].
  - intros _. exists ev, value. by repeat split.
  - done.
  - intros ev' e [= <-] _ H. by specialize (H _ Hs).
Qed.

Lemma answered_error request calls e :
  from_demo request → api_error_ok e →
  (calls = [] ∨ ∃ ev, calls = [ev] ∧ admitted request ev ∧ service_answer ev (Throw e)) →
  answered request calls (json_response [] (error_status e) (toSafeErrorBody e) true).
Proof.
  intros Hl He Hc. destruct (safe_body e He) as (code & message & Hb & Hs & Hp). constructor.
  - destruct Hc as [->|(ev & -> & Ha & _)]; [by left|right; eauto].
  - rewrite cors_header by (intros v; apply not_elem_of_nil). by split.
  - by intros [].
  - done.
  - intros _. exists code, message. split; [|done]. cbn. by rewrite Hb.
  - intros ev e' -> Hapi H. destruct Hc as [|(ev' & [= <-] & _ & Hans)]; [done|].
    specialize (H _ Hans). injection H as <-.
    unfold is_ApiError in Hapi. unfold error_status, toSafeErrorBody. cbn.
    by destruct (exn_class e).
Qed.

Lemma answered_refusal request headers status message :
  from_demo request → status ≠ 200 → (str_len message <= 240)%nat →
  (∀ v, ("Access-Control-Allow-Origin", v) ∉ headers) →
  answered request [] (json_response headers status (error_body "INVALID_REQUEST" message) true).
Proof.
  intros Hl Hs Hm Hh. constructor; try done.
  - by left.
  - rewrite cors_header by done. by split.
  - intros _. eexists _, message. split; [reflexivity|]. apply error_body_parses; [|done].
    unfold API_ERROR_CODES. apply list_elem_of_In. cbn. tauto.
Qed.

(** One call into the service, and the answer to it. *)
Lemma serve_call request ev (f : W → res jsval * W) (w w' : world) r :
  admitted request ev → (∀ env x env', f env = (x, env') → service_answer ev x) →
  is_respond ev = false → w_log w = [] →
  catch (value ← call ev f; sendJson 200 value) answer_error w = (r, w') →
  ∃ calls response, r = Ok tt ∧ w_log w' = calls ++ [HRespond response] ∧
    answered request calls response.
Proof.
  intros Ha Hf Hev Hlog. unfold catch, mbind, eff_bind.
  destruct (call ev f w) as [[v|e] w1] eqn:Ec; apply call_run in Ec as [Ec El];
    rewrite Hlog in El; cbn [app] in El; apply Hf in Ec.
  - intros [= <- <-]. eexists [ev], _. cbn. rewrite El. split; [done|]. split; [reflexivity|].
    by apply answered_value.
  - unfold answer_error. rewrite El. cbn [existsb]. rewrite Hev. intros [= <- <-].
    eexists [ev], _. cbn. rewrite El. split; [done|]. split; [reflexivity|].
    apply answered_error; [apply Ha|by eapply service_errors|right; eauto].
Qed.

Lemma foreign_error e : is_ApiError e = false → api_error_ok e.
Proof. unfold is_ApiError, api_error_ok. by destruct (exn_class e). Qed.

(** A run that only sends, and one that fails before any call. *)
Lemma serve_send request response (w w' : world) r :
  w_log w = [] → answered request [] response →
  catch (send response) answer_error w = (r, w') →
  ∃ calls response, r = Ok tt ∧ w_log w' = calls ++ [HRespond response] ∧
    answered request calls response.
Proof. intros Hlog Ha [= <- <-]. exists [], response. cbn. by rewrite Hlog. Qed.

Lemma serve_throw {A} request e (f : A → eff W http_event unit) (w w' : world) r :
  from_demo request → w_log w = [] → api_error_ok e →
  catch (x ← lift (Throw e); f x) answer_error w = (r, w') →
  ∃ calls response, r = Ok tt ∧ w_log w' = calls ++ [HRespond response] ∧
    answered request calls response.
Proof.
  intros Hl Hlog He H. unfold catch, mbind, eff_bind, lift, answer_error in H.
  rewrite Hlog in H. cbn in H. injection H as <- <-. eexists [], _. cbn. rewrite Hlog.
  split; [done|]. split; [reflexivity|]. apply answered_error; [done..|by left].
Qed.

Lemma not_allowed request m (w w' : world) r :
  from_demo request → w_log w = [] →
  catch (methodNotAllowed m) answer_error w = (r, w') →
  ∃ calls response, r = Ok tt ∧ w_log w' = calls ++ [HRespond response] ∧
    answered request calls response.
Proof.
  intros Hl Hlog H. eapply serve_send; [done| |exact H].
  apply answered_refusal; [done|done|cbn; lia|].
  intros v. rewrite elem_of_cons, elem_of_nil. naive_solver.
Qed.

(** C32 — The HTTP boundary: every request gets exactly one response. A request that does not
    name the local host and the demo's origin is answered 403 without the origin header;
    the service is called at most once, only by a request of the route's method, and for a
    creation only with a JSON media type, a body within the limit and a valid request. A
    200 carries what the service returned; every other response carries an error body the
    client's schema accepts, and an error that is not one of the API is answered by a fixed
    500. *)
Theorem http_gate (request : HttpRequest) (w w' : world) (r : res unit) :
  (∀ e, rq_error request = Some e → is_ApiError e = false) →
  w_log w = [] → serve request w = (r, w') →
  ∃ calls response, r = Ok tt ∧ w_log w' = calls ++ [HRespond response] ∧
    answered request calls response.
Proof.
  intros Hreq Hlog. unfold serve, handleRequest.
  destruct (local request) eqn:Hl; cbn [negb].
  1: apply local_iff in Hl.
  2: { intros H. eapply serve_send; [done| |exact H]. constructor; try done.
       - by left.
       - rewrite cors_header by (intros v; apply not_elem_of_nil). by rewrite <- local_iff, Hl.
       - intros _. eexists _, _. split; [reflexivity|]. apply error_body_parses; code. }
  destruct (url_pathname (rq_url request)) as [path|e] eqn:Hurl.
  2: { intros H. eapply serve_throw; [done|done| |exact H]. by eapply foreign_error, url_errors. }
  change (x ← lift (Ok path); route x request) with (route path request). unfold route.
  destruct (String.eqb_spec path "/api/status") as [->|_].
  { destruct (String.eqb_spec (rq_method request) "GET") as [Hm|]; cbn [negb];
      [|by apply not_allowed].
    apply (serve_call request HStatus); [by repeat split; try apply Hl|intros; eexists _, _; eassumption|done..]. }
  destruct (String.eqb_spec path "/api/account") as [->|_].
  { destruct (String.eqb_spec (rq_method request) "GET") as [Hm|]; cbn [negb];
      [|by apply not_allowed].
    apply (serve_call request HAccount); [by repeat split; try apply Hl|intros; eexists _, _; eassumption|done..]. }
  destruct (String.eqb_spec path "/api/account/bootstrap") as [->|_].
  - destruct (String.eqb_spec (rq_method request) "POST") as [Hm|]; cbn [negb];
      [|by apply not_allowed].
    destruct (bootstrap_request request) as [q|e] eqn:Hq.
    2: { apply serve_throw; [done|done|]. by eapply bootstrap_request_Throw. }
    apply bootstrap_request_Ok in Hq.
    apply (serve_call request (HBootstrap q));
      [split; [done|]; split; [done|]; split; [done|exact Hq]|intros; eexists _, _; eassumption|done..].
  - apply serve_send; [done|]. apply answered_refusal; [done|done|cbn; lia|].
    intros v. apply not_elem_of_nil.
Qed.
End answers.
