(* ===== verification/Api.v ===== *)
(** * The client's API ([demo/src/client/api.ts])

    Requests to the local server, and what the client makes of the responses. Behind the
    development server's proxy ([demo/vite.config.ts]) a call of the client is a call of
    the service: results, errors and statuses arrive as the service gave them. *)

From S2P Require Import Prelude Js JsString Regex Bytes Zod Constants Schemas Effects Json.
From S2P Require Import JsonLaws Ccc CccRef Service Http.
From Stdlib Require Import Ascii.

Definition JSON_CONTENT_TYPE : string := "application/json; charset=utf-8".

Definition DemoApiError (code message : string) (status : option Z) : exn :=
  Exn (CDemoApiError code status) message.
Definition invalidResponse : exn :=
  DemoApiError "INVALID_RESPONSE" "Local API returned an invalid response" None.
Definition API_UNAVAILABLE : exn :=
  DemoApiError "API_UNAVAILABLE" "Local API is unavailable" None.

(** The options that vary; credentials are omitted and nothing is cached. *)
Record FetchOptions := {
  fo_path : string; fo_method : string; fo_headers : list (string * string);
  fo_body : option string }.
Record FetchResponse := {
  fr_ok : bool; fr_status : Z; fr_contentType : option string; fr_json : res jsval }.
Class Fetch (W : Type) := fetch : FetchOptions → W → res FetchResponse * W.

Inductive api_event := AFetch (options : FetchOptions).

Definition fetch_options (path method : string) (body : option string) : FetchOptions := {|
  fo_path := path; fo_method := method;
  fo_headers := ("Accept", "application/json") ::
    match body with Some _ => [("Content-Type", "application/json")] | None => [] end;
  fo_body := body |}.

Section api.
Context {W : Type} {zod : Zod} {fetcher : Fetch W}.
Notation M := (eff W api_event).

Definition requestJson (path method : string) (body : option string) (schema : schema)
    : M jsval :=
  let options := fetch_options path method body in
  response ← catch (call (AFetch options) (fetch options)) (λ _, lift (Throw API_UNAVAILABLE));
  lift (throw_if (negb (bool_decide (fr_contentType response = Some JSON_CONTENT_TYPE)))
    invalidResponse);;
  value ← lift (match fr_json response with
                | Ok value => Ok value
                | Throw _ => Throw invalidResponse
                end);
  if negb (fr_ok response)
  then
    data ← lift (from_option_or invalidResponse (safeParse ApiErrorBodySchema value));
    let error := prop data "error" in
    lift (Throw (DemoApiError (as_str (prop error "code")) (as_str (prop error "message"))
                              (Some (fr_status response))))
  else lift (from_option_or invalidResponse (safeParse schema value)).

Definition api_status : M jsval := requestJson "/api/status" "GET" None DemoStatusSchema.
Definition api_account : M jsval :=
  requestJson "/api/account" "GET" None (ZNullable AccountManifestSchema).
Definition api_bootstrap (requestValue : jsval) : M jsval :=
  match safeParse BootstrapRequestSchema requestValue with
  | None => lift (Throw (DemoApiError "INVALID_REQUEST" "Invalid account bootstrap request" None))
  | Some data =>
      requestJson "/api/account/bootstrap" "POST" (Some (JSON_stringify data))
        AccountManifestSchema
  end.
End api.

(** ** The proxy *)

(** The development server passes requests under [/api] to the API's origin: it sets the
    host and the origin, and keeps the rest. *)
Definition proxied (o : FetchOptions) : HttpRequest := {|
  rq_method := fo_method o; rq_url := fo_path o; rq_host := Some REQUIRED_HOST;
  rq_origin := Some CLIENT_ORIGIN; rq_contentType := assoc "Content-Type" (fo_headers o);
  rq_contentLength := (λ b, len (utf8_encode b)) <$> fo_body o;
  rq_chunks := match fo_body o with Some b => [utf8_encode b] | None => [] end;
  rq_error := None |}.

(** What [fetch] makes of a response. *)
Definition received `{Json} (r : HttpResponse) : FetchResponse := {|
  fr_ok := (200 <=? rs_status r) && (rs_status r <=? 299); fr_status := rs_status r;
  fr_contentType := assoc "Content-Type" (rs_headers r);
  fr_json := from_option_or (Exn CSyntaxError "") (json_parse (rs_body r)) |}.

Definition last_response (l : list http_event) : option HttpResponse :=
  match list.last l with Some (HRespond r) => Some r | _ => None end.

(** [fetch] through the proxy to the server of a service. *)
Definition loopback {W} `{Zod, Json, DemoService W, UrlParser} : Fetch W := λ o env,
  let '(_, w) := serve (proxied o) (World env []) in
  (match last_response (w_log w) with
   | Some r => Ok (received r)
   | None => Throw (TypeError "Failed to fetch")
   end, w_env w).

(** What a client makes of the service's result. *)
Definition client_result `{Zod} (schema : schema) (r : res jsval) : res jsval :=
  match r with
  | Ok v => from_option_or invalidResponse (safeParse schema v)
  | Throw e =>
      match exn_class e with
      | CApiError code status => Throw (DemoApiError code (exn_message e) (Some status))
      | _ => Throw (DemoApiError "INTERNAL_ERROR" "Unexpected local server error" (Some 500))
      end
  end.

(** The schema of the body every error response carries. *)
Lemma prop_error code message :
  as_str (prop (prop (error_body code message) "error") "code") = code ∧
  as_str (prop (prop (error_body code message) "error") "message") = message.
Proof. done. Qed.

Section transparent.
Context {W : Type} {zod : Zod} {zod_laws : ZodLaws} {json : Json} {json_laws : JsonLaws}.
Context {service : DemoService W} {url : UrlParser}.
#[local] Instance network : Fetch W := loopback.
Notation world := (world W api_event).

(** The parser leaves the paths of the API alone. *)
Hypothesis url_paths :
  ∀ path, path ∈ ["/api/status"; "/api/account"; "/api/account/bootstrap"] →
    url_pathname path = Ok path.
(** The service returns values JSON can carry, or errors its error type allows. *)
Hypothesis service_values : ∀ ev v, service_answer ev (Ok v) → json_plain v = true.
Hypothesis service_errors : ∀ ev e, service_answer ev (Throw e) → api_error_ok e.

(** The response to a request that called the service. *)
Definition answer (r : res jsval) : HttpResponse :=
  match r with
  | Ok v => json_response [] 200 v true
  | Throw e => json_response [] (error_status e) (toSafeErrorBody e) true
  end.

Lemma call_answer (ev : http_event) (f : W → res jsval * W) env r env' :
  f env = (r, env') → is_respond ev = false →
  catch (value ← call ev f; sendJson 200 value) answer_error (World env [])
    = (Ok tt, World env' [ev; HRespond (answer r)]).
Proof.
  intros Hf Hev. unfold catch, mbind, eff_bind, call. cbn [w_env w_log]. rewrite Hf.
  destruct r as [v|e]; [done|]. unfold answer_error. cbn. by rewrite Hev.
Qed.

Lemma error_status_bounds e : api_error_ok e → 400 <= error_status e <= 599.
Proof. unfold api_error_ok, error_status. destruct (exn_class e); try lia. Qed.

(** A JSON response, read by the client. *)
Definition read_response (schema : schema) (ok : bool) (status : Z) (value : jsval) : res jsval :=
  if ok then from_option_or invalidResponse (safeParse schema value)
  else data ← from_option_or invalidResponse (safeParse ApiErrorBodySchema value);
       let error := prop data "error" in
       Throw (DemoApiError (as_str (prop error "code")) (as_str (prop error "message"))
                           (Some status)).

Lemma request_run path method body schema (w : world) response value env' :
  fetch (fetch_options path method body) (w_env w) = (Ok response, env') →
  fr_contentType response = Some JSON_CONTENT_TYPE → fr_json response = Ok value →
  requestJson path method body schema w =
    (read_response schema (fr_ok response) (fr_status response) value,
     World env' (w_log w ++ [AFetch (fetch_options path method body)])).
Proof.
  intros Hf Ht Hj. unfold requestJson, catch, mbind, eff_bind, call. cbv beta zeta.
  rewrite Hf. unfold lift at 1. rewrite Ht, bool_decide_true by done.
  unfold lift at 1. rewrite Hj. unfold read_response, mbind, res_bind.
  destruct (fr_ok response); cbn [negb]; [done|]. unfold lift.
  by destruct (from_option_or _ _).
Qed.

Definition carried (r : res jsval) : Prop :=
  match r with Ok v => json_plain v = true | Throw e => api_error_ok e end.
Lemma service_carried ev r : service_answer ev r → carried r.
Proof. destruct r; intros H; [by eapply service_values|by eapply service_errors]. Qed.

Lemma request_answered path method body schema (w : world) r env' :
  fetch (fetch_options path method body) (w_env w) = (Ok (received (answer r)), env') →
  carried r →
  requestJson path method body schema w =
    (client_result schema r,
     World env' (w_log w ++ [AFetch (fetch_options path method body)])).
Proof.
  intros Hf Hs. destruct r as [v|e]; cbn [answer client_result] in *.
  - rewrite (request_run _ _ _ _ _ _ v _ Hf); [done|done|].
    unfold received. cbn [fr_json json_response rs_body].
    by rewrite json_parse_line.
  - pose proof (error_status_bounds e Hs). destruct (safe_body e Hs) as (code & message & Hb & _ & Hp). rewrite Hb in Hf.
    rewrite (request_run _ _ _ _ _ _ (error_body code message) _ Hf); [|done|].
    2: { unfold received. cbn [fr_json json_response rs_body]. by rewrite json_parse_line. }
    f_equal. unfold received. cbn [fr_ok fr_status json_response rs_status].
    rewrite (proj2 (Z.leb_gt _ 299)), andb_false_r by lia.
    unfold read_response. rewrite Hp. cbn.
    unfold toSafeErrorBody, error_status in *. destruct (exn_class e); by inversion Hb.
Qed.

(** The requests of the client reach the service. *)
Lemma get_status env r env' :
  sv_status env = (r, env') →
  fetch (fetch_options "/api/status" "GET" None) env = (Ok (received (answer r)), env').
Proof.
  intros H. unfold fetch, network, loopback, serve.
  assert (handleRequest (proxied (fetch_options "/api/status" "GET" None)) =
    (value ← call HStatus sv_status; sendJson 200 value)) as ->.
  { unfold handleRequest. cbn [local proxied]. rewrite url_paths; [done|].
    apply list_elem_of_In. cbn. tauto. }
  by rewrite (call_answer _ _ _ _ _ H).
Qed.

Lemma get_account env r env' :
  sv_account env = (r, env') →
  fetch (fetch_options "/api/account" "GET" None) env = (Ok (received (answer r)), env').
Proof.
  intros H. unfold fetch, network, loopback, serve.
  assert (handleRequest (proxied (fetch_options "/api/account" "GET" None)) =
    (value ← call HAccount sv_account; sendJson 200 value)) as ->.
  { unfold handleRequest. cbn [local proxied]. rewrite url_paths; [done|].
    apply list_elem_of_In. cbn. tauto. }
  by rewrite (call_answer _ _ _ _ _ H).
Qed.

Lemma ascii_escape s : str_all is_ascii s = true → str_all is_ascii (escape s) = true.
Proof.
  induction s as [|c s IH]; [done|]. cbn [str_all escape]. intros [Hc Hs]%andb_true_iff.
  rewrite str_all_app, IH, andb_true_r by done. revert Hc.
  by destruct c as [[] [] [] [] [] [] [] []].
Qed.

Lemma request_ascii q :
  request_wf q → str_all is_ascii (JSON_stringify (request_val q)) = true.
Proof.
  intros [(h & Hk & _ & Hh) [_ Hc]]. unfold request_val.
  cbn -[str_all escape].
  repeat first [rewrite str_all_app | progress cbn [str_all]].
  rewrite !(ascii_escape (br_publicKey q)), !(ascii_escape (br_credentialId q)); [done| |].
  - apply (str_all_impl is_base64url); [|done]. by intros [[] [] [] [] [] [] [] []].
  - rewrite Hk, str_all_app. cbn [str_all]. apply (str_all_impl is_hex_lower); [|done].
    by intros [[] [] [] [] [] [] [] []].
Qed.

Definition bootstrap_options (q : BootstrapRequest) : FetchOptions :=
  fetch_options "/api/account/bootstrap" "POST" (Some (JSON_stringify (request_val q))).
Definition body_size (q : BootstrapRequest) : Z :=
  len (utf8_encode (JSON_stringify (request_val q))).

(** The server reads back the request that was posted, when the body fits. *)
Lemma posted_request q :
  request_wf q →
  bootstrap_request (proxied (bootstrap_options q)) =
    if body_size q <=? BODY_LIMIT then Ok q else Throw TOO_LARGE.
Proof.
  intros Hq. unfold bootstrap_request, readBody.
  change (rq_contentType _) with (Some "application/json").
  change (rq_contentLength _) with (Some (body_size q)).
  change (rq_chunks _) with [utf8_encode (JSON_stringify (request_val q))].
  change (rq_error _) with (@None exn). cbn [default]. rewrite Z.gtb_ltb.
  destruct (Z.leb_spec (body_size q) BODY_LIMIT) as [Hl|Hl].
  2: { by rewrite (proj2 (Z.ltb_lt _ _)). }
  rewrite (proj2 (Z.ltb_ge _ _)) by done. cbn [read_chunks app].
  change (len [] + len _) with (body_size q). rewrite Z.gtb_ltb, (proj2 (Z.ltb_ge _ _)) by done.
  unfold throw_if, mbind, res_bind.
  rewrite json_parse_ascii, json_parse_compact by (done || by apply request_ascii).
  cbn [from_option_or]. rewrite request_parse by done. cbn [from_option_or].
  by rewrite request_of_val.
Qed.

Lemma post_bootstrap q env r env' :
  request_wf q →
  (if body_size q <=? BODY_LIMIT then sv_bootstrap q env = (r, env')
   else (r, env') = (Throw TOO_LARGE, env)) →
  fetch (bootstrap_options q) env = (Ok (received (answer r)), env').
Proof.
  intros Hq H. unfold fetch, network, loopback, serve.
  assert (handleRequest (proxied (bootstrap_options q)) =
    (parsed ← lift (bootstrap_request (proxied (bootstrap_options q)));
     value ← call (HBootstrap parsed) (sv_bootstrap parsed); sendJson 200 value)) as ->.
  { unfold handleRequest. change (rq_url _) with "/api/account/bootstrap".
    rewrite url_paths; [done|]. apply list_elem_of_In. cbn. tauto. }
  rewrite posted_request by done. destruct (body_size q <=? BODY_LIMIT).
  - change (catch (parsed ← lift (Ok q); _) answer_error) with
      (catch (value ← call (HBootstrap q) (sv_bootstrap q); sendJson 200 value) answer_error).
    by rewrite (call_answer _ _ _ _ _ H).
  - by injection H as -> ->.
Qed.

(** C33 — The development server's proxy and the HTTP layer are transparent to the client:
    each method of the client returns what its schema makes of the service's value, or the
    service's error with its code, message and status (any other error as a fixed one),
    after one request. A creation request that is no valid request sends nothing; one whose
    body exceeds the server's limit is refused without a call to the service. *)
Theorem client_transparent (w : world) :
  (∀ r env', sv_status (w_env w) = (r, env') →
    api_status w = (client_result DemoStatusSchema r,
      World env' (w_log w ++ [AFetch (fetch_options "/api/status" "GET" None)]))) ∧
  (∀ r env', sv_account (w_env w) = (r, env') →
    api_account w = (client_result (ZNullable AccountManifestSchema) r,
      World env' (w_log w ++ [AFetch (fetch_options "/api/account" "GET" None)]))) ∧
  (∀ v, safeParse BootstrapRequestSchema v = None → ∃ e, api_bootstrap v w = (Throw e, w)) ∧
  (∀ v d, safeParse BootstrapRequestSchema v = Some d →
    ∃ q, d = request_val q ∧ request_wf q ∧
    ∀ r env',
      (if body_size q <=? BODY_LIMIT then sv_bootstrap q (w_env w) = (r, env')
       else (r, env') = (Throw TOO_LARGE, w_env w)) →
      api_bootstrap v w = (client_result AccountManifestSchema r,
        World env' (w_log w ++ [AFetch (bootstrap_options q)]))).
Proof.
  split; [|split; [|split]].
  - intros r env' H. apply request_answered; [by apply get_status|].
    apply (service_carried HStatus). by eexists _, _.
  - intros r env' H. apply request_answered; [by apply get_account|].
    apply (service_carried HAccount). by eexists _, _.
  - intros v H. unfold api_bootstrap. rewrite H. by eexists.
  - intros v d H. destruct (request_record _ _ H) as (q & -> & Hq). exists q.
    split; [done|]. split; [done|]. intros r env' Hr. unfold api_bootstrap. rewrite H.
    apply request_answered; [by apply post_bootstrap|]. destruct (body_size q <=? BODY_LIMIT).
    + apply (service_carried (HBootstrap q)). by eexists _, _.
    + injection Hr as -> ->. apply too_large_answerable.
Qed.
End transparent.
