(* ===== verification/Wizard.v ===== *)
(** * The wizard's decisions ([demo/src/client/App.tsx])

    Which step the interface shows for what the server, the browser's storage and the
    receipts say, as functions of plain data. The components that act on it are in
    [Steps] and the sessions they take part in in [Session]. *)

From S2P Require Import Prelude Js JsString Regex Bytes Zod Constants Schemas Json JsonLaws.
From S2P Require Import Effects Ccc CccRef Protocol Manifests Passkey.

(** ** The server's status *)

Record DemoStatus := {
  st_schemaVersion : Z; st_network : string; st_origin : string; st_rpId : string;
  st_deploymentVerified : bool; st_deployment : DeploymentManifest;
  st_funderAddress : string; st_funderBalanceShannons : string;
  st_account : option AccountManifest }.

Definition account_or_null (a : option AccountManifest) : jsval :=
  match a with Some m => account_val m | None => JNull end.
Definition account_of_nullable (v : jsval) : option AccountManifest :=
  match v with JNull => None | _ => Some (account_of v) end.

Definition status_of (v : jsval) : DemoStatus := {|
  st_schemaVersion := as_int (prop v "schemaVersion"); st_network := as_str (prop v "network");
  st_origin := as_str (prop v "origin"); st_rpId := as_str (prop v "rpId");
  st_deploymentVerified := as_bool (prop v "deploymentVerified");
  st_deployment := deployment_of (prop v "deployment");
  st_funderAddress := as_str (prop v "funderAddress");
  st_funderBalanceShannons := as_str (prop v "funderBalanceShannons");
  st_account := account_of_nullable (prop v "account") |}.

Record status_wf (s : DemoStatus) : Prop := {
  swf_deployment : deployment_wf (st_deployment s);
  swf_account : ∀ m, st_account s = Some m → account_wf m;
  swf_balance : decimal (st_funderBalanceShannons s) }.

(** ** The wizard *)

Inductive WizardStage :=
  loading | needs_passkey | needs_account | ready_to_spend | submitted | committed | blocked.

Inductive WizardState :=
  | LoadingState
  | ActionableState (stage : WizardStage) (status : DemoStatus)
      (account : option AccountManifest) (passkey : option PasskeyRecord)
  | ReceiptState (stage : WizardStage) (status : DemoStatus) (receipt : Receipt)
  | BlockedState (status : option DemoStatus) (heading message : string).

Definition stage_of (state : WizardState) : WizardStage :=
  match state with
  | LoadingState => loading
  | ActionableState stage _ _ _ | ReceiptState stage _ _ => stage
  | BlockedState _ _ _ => blocked
  end.

Section wizard.
Context {W : Type} {zod : Zod} {ccc : Ccc} {browser : Browser W}.

Definition sameAccount (statusAccount account : option AccountManifest) : bool :=
  String.eqb (JSON_stringify (account_or_null statusAccount))
             (JSON_stringify (account_or_null account)).

Definition validate_optional (account : option AccountManifest) (deployment : VerifiedDeployment)
    : res unit :=
  match account with
  | Some m => validateAccount (account_val m) deployment;; Ok tt
  | None => Ok tt
  end.

Definition reconcile (status : DemoStatus) (account : option AccountManifest)
    (passkey : option PasskeyRecord) : WizardState :=
  let block := BlockedState (Some status) in
  if negb (st_deploymentVerified status)
  then block "Local setup is blocked"
             "The published AccountLock deployment has not been verified."
  else
  match (deployment ← validateDeployment (deployment_val (st_deployment status));
         validate_optional (st_account status) deployment;;
         validate_optional account deployment) with
  | Throw _ =>
      block "Local setup is blocked"
            "The server returned account data that does not match the verified deployment."
  | Ok _ =>
      if negb (sameAccount (st_account status) account)
      then block "Account access is blocked"
             "The server account state changed between checks. Restart the local demo and inspect the account manifest before continuing."
      else
      match passkeyCapabilityProblem with
      | Some capabilityProblem => block "Passkeys are unavailable" capabilityProblem
      | None =>
          match account, passkey with
          | Some _, None =>
              block "Account access is blocked"
                "An account exists on testnet, but local passkey metadata is missing. Use the browser profile that created this account; do not create a replacement."
          | None, None => ActionableState needs_passkey status None None
          | None, Some _ => ActionableState needs_account status None passkey
          | Some _, Some _ => ActionableState ready_to_spend status account passkey
          end
      end
  end.

Definition withReceipt (state : WizardState) (receiptValue : option jsval) : WizardState :=
  match receiptValue with
  | None => state
  | Some value =>
      match state with
      | LoadingState | BlockedState _ _ _ => state
      | ActionableState ready_to_spend status _ _ =>
          match safeParse TransactionReceiptSchema value with
          | None => BlockedState (Some status) "Receipt cannot be reconciled"
                      "The stored transaction receipt is malformed."
          | Some data =>
              let receipt := receipt_of data in
              ReceiptState (if String.eqb (rc_status receipt) "committed"
                            then committed else submitted) status receipt
          end
      | ActionableState _ status _ _ | ReceiptState _ status _ =>
          BlockedState (Some status) "Receipt cannot be reconciled"
            "The transaction receipt does not match the current local account state."
      end
  end.
End wizard.

(** ** What the wizard's states say *)

Definition demo_status_val (s : DemoStatus) : jsval := JObj [
  ("schemaVersion", JNum (NInt (st_schemaVersion s))); ("network", JStr (st_network s));
  ("origin", JStr (st_origin s)); ("rpId", JStr (st_rpId s));
  ("deploymentVerified", JBool (st_deploymentVerified s));
  ("deployment", deployment_val (st_deployment s));
  ("funderAddress", JStr (st_funderAddress s));
  ("funderBalanceShannons", JStr (st_funderBalanceShannons s));
  ("account", account_or_null (st_account s))].

Section facts.
Context {W : Type} {zod : Zod} {zod_laws : ZodLaws} {ccc : Ccc} {ccc_laws : CccLaws}.
Context {browser : Browser W}.

Lemma account_of_nullable_val a : account_of_nullable (account_or_null a) = a.
Proof. destruct a as [m|]; [|done]. exact (f_equal Some (account_of_val m)). Qed.

Lemma nullable_account v d :
  safeParse (ZNullable AccountManifestSchema) v = Some d →
  ∃ a, d = account_or_null a ∧ ∀ m, a = Some m → account_wf m.
Proof.
  intros [->|H]%nullable_inv; [by exists None|].
  destruct (account_record _ _ H) as (m & -> & Hm). exists (Some m). split; [done|].
  by intros ? [= <-].
Qed.

(** A required field comes from the object. *)
Lemma field_inv k s shape fs ds :
  (∀ t, s ≠ ZOptional t) → parse_fields safeParse ((k, s) :: shape) fs = Some ds →
  ∃ v v' rest, assoc k fs = Some v ∧ safeParse s v = Some v' ∧
    parse_fields safeParse shape fs = Some rest ∧ ds = (k, v') :: rest.
Proof.
  intros Hs. cbn [parse_fields]. destruct (assoc k fs).
  - repeat case_match; intros; simplify_eq. eauto 7.
  - destruct s; try done. intros _. by edestruct Hs.
Qed.

Lemma status_of_val s : status_of (demo_status_val s) = s.
Proof.
  unfold status_of, demo_status_val.
  cbn -[deployment_of account_of_nullable account_or_null deployment_val].
  rewrite deployment_of_val, account_of_nullable_val. by destruct s.
Qed.

(** What [api.status()] resolves to. *)
Lemma status_record v d :
  is_json v = true → safeParse DemoStatusSchema v = Some d →
  ∃ s, d = demo_status_val s ∧ status_wf s.
Proof.
  unfold DemoStatusSchema, z_strict, z_object. intros Hj H.
  apply object_inv in H as (fs & ds & -> & -> & H).
  do 9 (apply field_inv in H as (? & ? & ? & ? & ? & H & ->); [|done]).
  apply fields_nil_inv in H as ->.
  repeat match goal with
    | H : safeParse (ZLitStr _) _ = _ |- _ => apply lit_str_inv in H as ->
    | H : safeParse (ZLitNum _) _ = _ |- _ => apply lit_num_inv in H as ->
    | H : safeParse ZBoolean _ = _ |- _ => apply boolean_inv in H as [? ->]
    | H : safeParse decimalString _ = _ |- _ => apply decimal_inv in H as (? & -> & ?)
    | H : safeParse (ZString _) _ = _ |- _ => apply string_inv in H as (? & -> & _)
    | H : safeParse (ZNullable _) _ = _ |- _ => apply nullable_account in H as (? & -> & ?)
    | H : safeParse DeploymentManifestSchema _ = _ |- _ =>
        apply deployment_record in H as (? & -> & ?); [|by eapply is_json_assoc]
    end.
  match goal with
  |- ∃ s, JObj [_; _; _; _; (_, JBool ?b); (_, deployment_val ?m); (_, JStr ?f); (_, JStr ?n);
                (_, account_or_null ?a)] = _ ∧ _ =>
    exists (Build_DemoStatus 1 "testnet" CLIENT_ORIGIN RP_ID b m f n a)
  end.
  by split.
Qed.

(** ** When the wizard lets the user act *)

(** The two reads of the account agree; both were validated. *)
Record consistent (status : DemoStatus) (account : option AccountManifest) : Prop := {
  cs_verified : st_deploymentVerified status = true;
  cs_same : st_account status = account;
  cs_bound : ∀ m, account = Some m →
    account_bound m (deployment_result (st_deployment status)) }.

Definition stage_for (account : option AccountManifest) (passkey : option PasskeyRecord)
    : option WizardStage :=
  match account, passkey with
  | None, None => Some needs_passkey
  | None, Some _ => Some needs_account
  | Some _, Some _ => Some ready_to_spend
  | Some _, None => None
  end.

Lemma account_plain m : account_wf m → json_plain (account_val m) = true.
Proof.
  intros [Hv _ _ _ _ _ _ [_ Hs] [_ Ha] Hb _]. unfold index_ok, MAX_SAFE_INTEGER in *.
  cbn -[Z.leb Z.abs]. rewrite Hv.
  rewrite !(proj2 (Z.leb_le _ _)) by (unfold MAX_SAFE_INTEGER; lia). done.
Qed.

(** Serialized accounts are compared as the accounts they are. *)
Lemma sameAccount_iff a b :
  (∀ m, a = Some m → account_wf m) → (∀ m, b = Some m → account_wf m) →
  sameAccount a b = true ↔ a = b.
Proof.
  intros Ha Hb. unfold sameAccount. rewrite String.eqb_eq. split; [|by intros ->].
  assert (Hp : ∀ x, (∀ m, x = Some m → account_wf m) → json_plain (account_or_null x) = true)
    by (intros [m|] Hx; [by apply account_plain, Hx|done]).
  intros E. apply (f_equal (json_parse (Json := json_ref))) in E.
  rewrite !json_parse_compact in E by auto.
  assert (E' : account_or_null a = account_or_null b) by congruence.
  by rewrite <- (account_of_nullable_val a), E', account_of_nullable_val.
Qed.

Lemma validate_optional_Ok a d :
  (∀ m, a = Some m → account_wf m) →
  (∃ u, validate_optional a d = Ok u) ↔ ∀ m, a = Some m → account_bound m d.
Proof.
  destruct a as [m|]; intros Ha; [|by split; [|exists tt]]. cbn [validate_optional]. split.
  - intros (u & (v & Hv & _)%bind_Ok_iff) m' [= <-].
    apply validateAccount_inv in Hv as (m' & Hp & _ & Hb & _).
    rewrite account_parse in Hp by auto.
    assert (E : account_val m = account_val m') by congruence.
    by rewrite <- (account_of_val m), E, account_of_val.
  - intros Hb. exists tt. rewrite (validateAccount_val _ m) by auto using account_parse. done.
Qed.

Lemma reconcile_cases status account passkey :
  status_wf status → (∀ m, account = Some m → account_wf m) →
  (consistent status account ∧ passkeyCapabilityProblem = None ∧
   ∃ stage, stage_for account passkey = Some stage ∧
     reconcile status account passkey = ActionableState stage status account passkey) ∨
  (¬ (consistent status account ∧ passkeyCapabilityProblem = None ∧
      is_Some (stage_for account passkey)) ∧
   ∃ heading message,
     reconcile status account passkey = BlockedState (Some status) heading message).
Proof.
  intros [Hd Hs _] Ha. unfold reconcile.
  destruct (st_deploymentVerified status) eqn:Hver; cbn [negb].
  2: { right. split; [|eauto]. intros ([? _ _] & _). congruence. }
  rewrite (validateDeployment_val _ (st_deployment status)) by auto using deployment_parse.
  cbn [mbind res_bind]. set (d := deployment_result _).
  destruct (validate_optional (st_account status) d) as [u|e] eqn:E1.
  2: { right. split; [|eauto]. intros ([_ <- Hb] & _).
       destruct (proj2 (validate_optional_Ok _ d Hs) Hb) as [u Hu]. congruence. }
  cbn [mbind res_bind]. destruct (validate_optional account d) as [u'|e] eqn:E2.
  2: { right. split; [|eauto]. intros ([_ _ Hb] & _).
       destruct (proj2 (validate_optional_Ok _ d Ha) Hb) as [u' Hu]. congruence. }
  destruct (sameAccount (st_account status) account) eqn:Esame; cbn [negb].
  2: { right. split; [|eauto]. intros ([_ Hsame _] & _).
       rewrite (proj2 (sameAccount_iff _ _ Hs Ha) Hsame) in Esame. done. }
  apply sameAccount_iff in Esame; [|done|done].
  destruct passkeyCapabilityProblem eqn:Ecap; [right; split; [naive_solver|eauto]|].
  assert (Hc : consistent status account)
    by (constructor; [done|done|apply validate_optional_Ok; eauto]).
  destruct account, passkey; cbn [stage_for].
  1, 3, 4: left; split; [done|]; split; [done|]; by eexists.
  right. split; [|eauto]. by intros (_ & _ & x & ?).
Qed.

(** The wizard's decision: an action is offered exactly when the deployment is verified,
    the two reads of the account agree and are bound to the deployment, the browser can use
    passkeys, and an account does not lack its passkey; the step is then determined by which
    of the two exist. In every other case the wizard blocks. *)
Theorem reconcile_exact (status : DemoStatus) (account : option AccountManifest)
    (passkey : option PasskeyRecord) :
  status_wf status → (∀ m, account = Some m → account_wf m) →
  (∀ stage st a p,
     reconcile status account passkey = ActionableState stage st a p ↔
     (st, a, p) = (status, account, passkey) ∧ consistent status account ∧
     passkeyCapabilityProblem = None ∧ stage_for account passkey = Some stage) ∧
  ((∀ stage st a p, reconcile status account passkey ≠ ActionableState stage st a p) →
   ∃ heading message, reconcile status account passkey = BlockedState (Some status) heading message).
Proof.
  intros Hs Ha. destruct (reconcile_cases status account passkey Hs Ha)
    as [(Hc & Hcap & stage & Hst & ->)|(Hn & h & m & ->)].
  - split; [|by intros H; edestruct H]. intros stage' st a p. split.
    + by intros [= <- <- <- <-].
    + intros ([= -> -> ->] & _ & _ & E). congruence.
  - split; [|eauto]. intros stage st a p. split; [done|].
    intros (_ & Hc & Hcap & E). destruct Hn. eauto.
Qed.

(** A validated account can be validated again, as rendering the spend step does. *)
Lemma ready_account status m :
  status_wf status → account_wf m → consistent status (Some m) →
  (deployment ← validateDeployment (deployment_val (st_deployment status));
   validateAccount (account_val m) deployment)
  = Ok (account_result m (deployment_result (st_deployment status))).
Proof.
  intros [Hd _ _] Hm [_ _ Hb].
  rewrite (validateDeployment_val _ (st_deployment status)) by auto using deployment_parse.
  cbn [mbind res_bind]. by apply validateAccount_val; auto using account_parse.
Qed.
End facts.
