(* ===== verification/Steps.v ===== *)
(** * The steps of the wizard ([demo/src/client/components])

    The state of each step component, when its button can be pressed, and what it does
    with the outcome of the operation it awaited. A component's state and its action lock
    are one value; the promises it waits for are in [Session]. *)

From S2P Require Import Prelude Js JsString Regex Bytes Zod Constants Schemas Json.
From S2P Require Import Effects Base64 Ccc CccRef Protocol Manifests Storage Chain Passkey.
From S2P Require Import Service Http Api Wizard Artifacts.
From Stdlib Require Import Ascii.

(** [PasskeyStep] *)
Inductive PasskeyStepState :=
  | PkReady | PkPending | PkCancelled
  | PkSuccess (record : PasskeyRecord)
  | PkBlocked (message : string).

(** [BootstrapStep] *)
Inductive BootstrapStepState :=
  | BsReady | BsPending
  | BsSuccess (account : AccountManifest)
  | BsError (message : string) (blocking : bool).

(** [SpendStep]; the phase of [working] is authorizing or submitting. *)
Inductive SpendPhase := authorizing | submitting.
Inductive SpendState :=
  | SpPreparing
  | SpReady (prepared : PreparedSpend) (notice : option string)
  | SpWorking (prepared : PreparedSpend) (phase : SpendPhase)
  | SpSubmitted (prepared : PreparedSpend)
  | SpBlocked (message : string) (prepared : option PreparedSpend).

(** [Receipt] *)
Record ReceiptView := {
  rv_checking : bool; rv_notice : option string; rv_error : option string }.

(** ** Passkey creation *)

Definition INVALID_METADATA : string :=
  "The browser did not return valid public metadata for this passkey.".

(** The [catch] clause of [createPasskey]. *)
Definition passkey_failure (error : exn) : PasskeyStepState :=
  if is_PasskeyCancelledError error then PkCancelled
  else if is_PasskeyProtocolError error
  then PkBlocked "The browser returned an incompatible passkey response. Use current Chromium on secure localhost."
  else PkBlocked "The passkey public metadata could not be validated or saved.".

(** The button is shown and enabled. *)
Definition passkey_enabled {W} `{Browser W} (st : PasskeyStepState) : bool :=
  match passkeyCapabilityProblem with
  | Some _ => false
  | None => match st with PkReady | PkCancelled => true | _ => false end
  end.

(** ** Account creation *)

Definition safeBootstrapError (error : exn) : string * bool :=
  match exn_class error with
  | CDemoApiError code _ =>
      if String.eqb code "INSUFFICIENT_BALANCE" then
        ("The local funder does not have enough CKB for the account cells and transaction fee. Fund it, then try again.", false)
      else if String.eqb code "BOOTSTRAP_FAILED" then
        ("Account creation may have failed before or after submission. Restart the local demo and inspect account state before taking another action.", true)
      else if String.eqb code "ACCOUNT_MISMATCH" then
        ("The existing account does not match this passkey. Use the browser profile that created it and inspect the account manifest.", true)
      else if String.eqb code "CONFIRMATION_TIMEOUT" then
        ("Account creation may have been submitted, but commitment was not confirmed. Restart the local demo to reconcile the account before taking another action.", true)
      else if String.eqb code "DEPLOYMENT_INVALID" || String.eqb code "KEY_UNAVAILABLE" ||
              String.eqb code "INVALID_RESPONSE" then
        ("The local account setup is incompatible or incomplete. Inspect the deployment and localhost service before continuing.", true)
      else if String.eqb code "API_UNAVAILABLE" then
        ("The account request outcome is unknown. Restart the local demo to reconcile account state before taking another action.", true)
      else
        ("The account request outcome could not be verified. Restart the local demo and inspect account state before continuing.", true)
  | _ =>
      ("The account request outcome is unknown. Restart the local demo to reconcile account state before taking another action.", true)
  end.

Definition bootstrap_failure (error : exn) : BootstrapStepState :=
  let '(message, blocking) := safeBootstrapError error in BsError message blocking.

(** The account that the server's answer is validated to. *)
Definition created_account `{Zod, Ccc} (status : DemoStatus) (answer : res jsval)
    : res AccountManifest :=
  candidate ← answer;
  deployment ← validateDeployment (deployment_val (st_deployment status));
  account ← validateAccount candidate deployment;
  Ok (va_manifest account).

Definition bootstrap_enabled (st : BootstrapStepState) : bool :=
  match st with
  | BsReady => true
  | BsError _ blocking => negb blocking
  | BsPending | BsSuccess _ => false
  end.

(** ** Spending *)

Definition lower_char (c : ascii) : ascii := if in_range "A" "Z" c then chr (code c + 32) else c.
(** [/credential/i.test(s)]. *)
Fixpoint mentions_credential (s : string) : bool :=
  startsWith "credential" (str_map lower_char s) ||
  match s with EmptyString => false | String _ s' => mentions_credential s' end.

Definition is_TypeError (e : exn) : bool :=
  match exn_class e with CTypeError => true | _ => false end.

(** The [catch] clause of [authorize]. *)
Definition spend_failure (prepared : PreparedSpend) (error : exn) : SpendState :=
  if is_PasskeyCancelledError error then
    SpReady prepared (Some
      "Passkey authorization was cancelled. The reviewed transaction is unchanged.")
  else if is_TypeError error && mentions_credential (exn_message error) then
    SpBlocked "The returned credential did not match the reviewed spend. Nothing was submitted."
              (Some prepared)
  else
    SpBlocked "The spend outcome could not be completed safely. Reconcile the transaction and live cells before trying again."
              (Some prepared).

Definition UNPREPARED : SpendState :=
  SpBlocked "The live AccountState and AccountLock asset cells could not be verified for this spend." None.
Definition CHANGED (prepared : PreparedSpend) : SpendState :=
  SpBlocked "The transaction changed while passkey authorization was open. Nothing was submitted."
            (Some prepared).

(** What follows the assertion: [reviewed] is the prepared spend when the button was
    pressed, [prepared] the same object when the authenticator has answered. *)
Definition authorized `{Zod, Ccc, Json} (reviewed prepared : PreparedSpend)
    (passkey : PasskeyRecord) (assertion : res AssertionMaterial) : SpendState + Transaction :=
  match assertion with
  | Throw error => inl (spend_failure prepared error)
  | Ok assertion =>
      if negb (String.eqb (Transaction_hash (transaction prepared))
                          (Transaction_hash (transaction reviewed))) ||
         negb (String.eqb (hexFromBytes (ps_authorizationDigest prepared))
                          (hexFromBytes (ps_authorizationDigest reviewed)))
      then inl (CHANGED prepared)
      else match finalizeSpend prepared (passkey_val passkey) assertion with
           | Throw error => inl (spend_failure prepared error)
           | Ok tx => inr tx
           end
  end.

Definition spend_enabled (st : SpendState) : option PreparedSpend :=
  match st with SpReady prepared _ => Some prepared | _ => None end.

Definition dependencyName (name : string) : string :=
  if String.eqb name "account_lock" then "AccountLock code"
  else if String.eqb name "verifier_p256" then "P-256 verifier code"
  else "AccountState cell".

(** [formatCkb] of the components, for decimal text. *)
Definition formatCkb (shannons : Z) : string :=
  let whole := Z.quot shannons 100000000 in
  let fraction := strip_trailing "0" (padStart 8 "0" (dec (Z.rem shannons 100000000))) in
  if String.eqb fraction "" then dec whole +:+ " CKB"
  else dec whole +:+ "." +:+ fraction +:+ " CKB".

(** The balance in [StatusHeader]. The grouping expression puts a comma before every third
    digit from the right, as the printing of [Artifacts] does. *)
Definition groupedDecimal (value : Z) : string := toLocaleString value.
Definition formatCkbBalance (shannons : Z) : string :=
  let whole := Z.quot shannons 100000000 in
  let fraction := strip_trailing "0" (padStart 8 "0" (dec (Z.rem shannons 100000000))) in
  groupedDecimal whole +:+
  (if String.eqb fraction "" then "" else "." +:+ fraction) +:+ " CKB".

(** ** The receipt *)

Definition receipt_link_ok (receipt : Receipt) : bool :=
  String.eqb (rc_explorerUrl receipt) (EXPLORER_URL +:+ rc_txHash receipt).

(** The receipt is shown, with its [Copy] button. *)
Definition receipt_shown `{Zod} (receipt : Receipt) : bool :=
  match safeParse TransactionReceiptSchema (receipt_val receipt) with
  | None => false
  | Some _ => receipt_link_ok receipt
  end.
(** The [Check again] button is shown and enabled. *)
Definition check_enabled `{Zod} (receipt : Receipt) (st : ReceiptView) : bool :=
  receipt_shown receipt && negb (String.eqb (rc_status receipt) "committed") &&
  negb (rv_checking st).
