(* ===== verification/Session.v ===== *)
(** * Sessions of the wizard ([demo/src/client/App.tsx] and its step components)

    The interface as a transition system. A step is a commit of React, a press of an
    enabled button, or the settlement of one pending promise. A button runs the handler of
    the last commit, with the values that commit closed over, while the action locks are
    those of the mounted component; the updates of a press are committed before anything
    else happens, those of a settled promise at any later time.

    The chain client is configured, as in [main.tsx]. Development-only double effects are
    not modelled. *)

From S2P Require Import Prelude Js JsString Regex Bytes Zod Constants Schemas Json.
From S2P Require Import Effects Ccc CccRef Protocol Manifests Storage Chain Passkey.
From S2P Require Import Service Http Api Wizard Steps.

(** The mounted component, with its action lock; the spend step knows the run of its effect
    that is current. *)
Inductive component :=
  | NoStep
  | PasskeyStep (state : PasskeyStepState) (lock : bool)
  | BootstrapStep (state : BootstrapStepState) (lock : bool)
  | SpendStep (effect : nat) (state : SpendState) (lock : bool)
  | ReceiptStep (state : ReceiptView) (lock : bool).

(** Pending promises. [id] is the component instance that waits, [closure] the state of
    [App] its handlers closed over. *)
Inductive task :=
  | TLoad (passkey : option PasskeyRecord)
  | TRegister (id : nat) (closure : WizardState)
  | TBootstrap (id : nat) (closure : WizardState) (status : DemoStatus) (passkey : PasskeyRecord)
  | TRefresh (passkey : PasskeyRecord) (afterCommit : bool)
  | TPrepare (id effect : nat) (account : VerifiedAccount) (funderAddress : string)
      (passkey : PasskeyRecord)
  | TAssert (id : nat) (closure : WizardState) (passkey : PasskeyRecord) (reviewed : PreparedSpend)
  | TSubmit (id : nat) (closure : WizardState) (prepared : PreparedSpend) (tx : Transaction)
  | TConfirm (id : nat) (closure : WizardState) (prepared : option PreparedSpend)
      (receipt : Receipt)
  | TCopy (id : nat).

(** What the user's browser, account or the chain is asked for, and how creations end. *)
Inductive session_event :=
  | SRegister
  | SCreateAccount (request : BootstrapRequest)
  | SCreated (answer : res AccountManifest)
  | SAssert (reviewed : PreparedSpend) (passkey : PasskeyRecord)
  | SSubmit (tx : Transaction)
  | SConfirm (receipt : Receipt).

(** The state of [App]; [a_dirty] tells that it has updates that are not committed. *)
Record AppState := {
  a_state : WizardState; a_receipt : option Receipt; a_postCommitError : option string;
  a_reconciledCommit : option string; a_dirty : bool }.

(** The last commit: the component, [App]'s state and what it displayed. *)
Record view := { v_component : component; v_closure : WizardState; v_displayed : WizardState }.

Record session := Session {
  s_app : AppState; s_next : nat; s_id : nat; s_component : component; s_view : view;
  s_tasks : list task; s_log : list session_event }.

(** ** Updates *)

Definition set_app (a : AppState) (s : session) : session :=
  Session a (s_next s) (s_id s) (s_component s) (s_view s) (s_tasks s) (s_log s).
Definition set_component (c : component) (s : session) : session :=
  Session (s_app s) (s_next s) (s_id s) c (s_view s) (s_tasks s) (s_log s).
Definition set_tasks (l : list task) (s : session) : session :=
  Session (s_app s) (s_next s) (s_id s) (s_component s) (s_view s) l (s_log s).
Definition add_task (t : task) (s : session) : session := set_tasks (s_tasks s ++ [t]) s.
Definition record_event (e : session_event) (s : session) : session :=
  Session (s_app s) (s_next s) (s_id s) (s_component s) (s_view s) (s_tasks s) (s_log s ++ [e]).
(** The identifier of a new instance or of a new run of an effect. *)
Definition fresh (s : session) : session :=
  Session (s_app s) (S (s_next s)) (s_id s) (s_component s) (s_view s) (s_tasks s) (s_log s).
Definition mount (c : component) (s : session) : session :=
  Session (s_app s) (S (s_next s)) (s_next s) c (s_view s) (s_tasks s) (s_log s).

Definition set_state (v : WizardState) (s : session) : session :=
  let a := s_app s in
  set_app {| a_state := v; a_receipt := a_receipt a; a_postCommitError := a_postCommitError a;
             a_reconciledCommit := a_reconciledCommit a; a_dirty := true |} s.
Definition set_receipt (r : Receipt) (s : session) : session :=
  let a := s_app s in
  set_app {| a_state := a_state a; a_receipt := Some r; a_postCommitError := a_postCommitError a;
             a_reconciledCommit := a_reconciledCommit a; a_dirty := true |} s.
Definition set_postCommitError (e : option string) (s : session) : session :=
  let a := s_app s in
  set_app {| a_state := a_state a; a_receipt := a_receipt a; a_postCommitError := e;
             a_reconciledCommit := a_reconciledCommit a; a_dirty := true |} s.
Definition set_reconciledCommit (h : string) (s : session) : session :=
  let a := s_app s in
  set_app {| a_state := a_state a; a_receipt := a_receipt a;
             a_postCommitError := a_postCommitError a; a_reconciledCommit := Some h;
             a_dirty := a_dirty a |} s.

(** An update of an instance, which may have been unmounted. *)
Definition update (id : nat) (f : component → component) (s : session) : session :=
  if decide (s_id s = id) then set_component (f (s_component s)) s else s.
Definition finish_passkey (st : PasskeyStepState) (c : component) : component :=
  match c with PasskeyStep _ _ => PasskeyStep st false | _ => c end.
Definition finish_bootstrap (st : BootstrapStepState) (c : component) : component :=
  match c with BootstrapStep _ _ => BootstrapStep st false | _ => c end.
Definition set_spend (st : SpendState) (c : component) : component :=
  match c with SpendStep effect _ lock => SpendStep effect st lock | _ => c end.
Definition unlock_spend (c : component) : component :=
  match c with SpendStep effect st _ => SpendStep effect st false | _ => c end.
Definition set_view (f : ReceiptView → ReceiptView) (c : component) : component :=
  match c with ReceiptStep st lock => ReceiptStep (f st) lock | _ => c end.
Definition unlock_receipt (c : component) : component :=
  match c with ReceiptStep st _ => ReceiptStep st false | _ => c end.
Definition set_checking (b : bool) (v : ReceiptView) : ReceiptView :=
  {| rv_checking := b; rv_notice := rv_notice v; rv_error := rv_error v |}.
Definition set_notice (n : string) (v : ReceiptView) : ReceiptView :=
  {| rv_checking := rv_checking v; rv_notice := Some n; rv_error := rv_error v |}.
Definition set_error (e : option string) (v : ReceiptView) : ReceiptView :=
  {| rv_checking := rv_checking v; rv_notice := rv_notice v; rv_error := e |}.

Section session.
Context {WB WS WF WC : Type} {zod : Zod} {ccc : Ccc} {json : Json}.
Context {browser : Browser WB} {storage : Storage WS} {fetcher : Fetch WF}.
Context {client : SpendClient WC}.
(** The receipt [App] is given, and whether the browser has a clipboard. *)
Context (receipt_prop : option jsval) (clipboard : bool).

(** ** Commits *)

Definition displayed (a : AppState) : WizardState :=
  withReceipt (a_state a)
    (match a_receipt a with Some r => Some (receipt_val r) | None => receipt_prop end).

(** The account that rendering passes to the spend step. *)
Definition spend_account (status : DemoStatus) (account : AccountManifest) : res VerifiedAccount :=
  deployment ← validateDeployment (deployment_val (st_deployment status));
  validateAccount (account_val account) deployment.

(** The effect of the spend step, which depends on the identity of the account object. *)
Definition start_prepare (account : VerifiedAccount) (status : DemoStatus)
    (passkey : PasskeyRecord) (lock : bool) (s : session) : session :=
  let effect := s_next s in
  add_task (TPrepare (s_id s) effect account (st_funderAddress status) passkey)
    (set_component (SpendStep effect SpPreparing lock) (fresh s)).

Definition EMPTY_VIEW : ReceiptView :=
  {| rv_checking := false; rv_notice := None; rv_error := None |}.

(** The component that [App] renders: one of the same kind keeps its state. *)
Definition rendered (d : WizardState) (s : session) : res session :=
  match d with
  | ActionableState needs_passkey _ _ _ => Ok
      (match s_component s with PasskeyStep _ _ => s | _ => mount (PasskeyStep PkReady false) s end)
  | ActionableState needs_account _ _ (Some _) => Ok
      (match s_component s with
       | BootstrapStep _ _ => s
       | _ => mount (BootstrapStep BsReady false) s
       end)
  | ActionableState ready_to_spend status (Some account) (Some passkey) =>
      verified ← spend_account status account;
      Ok (match s_component s with
          | SpendStep _ _ lock => start_prepare verified status passkey lock s
          | _ => start_prepare verified status passkey false (mount NoStep s)
          end)
  | ReceiptState _ _ _ => Ok
      (match s_component s with ReceiptStep _ _ => s | _ => mount (ReceiptStep EMPTY_VIEW false) s end)
  | _ => Ok (match s_component s with NoStep => s | _ => mount NoStep s end)
  end.

Definition commit (v : view) (s : session) : session :=
  let a := s_app s in
  Session {| a_state := a_state a; a_receipt := a_receipt a;
             a_postCommitError := a_postCommitError a;
             a_reconciledCommit := a_reconciledCommit a; a_dirty := false |}
    (s_next s) (s_id s) (s_component s) v (s_tasks s) (s_log s).

(** A commit renders [App] only when it has updates; rendering may throw. *)
Definition render (s : session) : res session :=
  if a_dirty (s_app s) then
    let d := displayed (s_app s) in
    s' ← rendered d s;
    Ok (commit {| v_component := s_component s'; v_closure := a_state (s_app s);
                  v_displayed := d |} s')
  else
    Ok (commit {| v_component := s_component s; v_closure := v_closure (s_view s);
                  v_displayed := v_displayed (s_view s) |} s).

(** ** The handlers of [App] *)

Definition API_ERROR (error : exn) : WizardState :=
  BlockedState None "Local setup is blocked"
    (match exn_class error with
     | CDemoApiError _ _ => exn_message error
     | _ => "Local API is unavailable"
     end).

(** [Promise.all([api.status(), api.account()])], settled. *)
Definition refreshed_state (passkey : option PasskeyRecord)
    (r : res (DemoStatus * option AccountManifest)) : WizardState :=
  match r with
  | Ok (status, account) => reconcile status account passkey
  | Throw error => API_ERROR error
  end.

Definition handlePasskeyCreated (closure : WizardState) (passkey : PasskeyRecord)
    (s : session) : session :=
  match closure with
  | ActionableState needs_passkey status account _ =>
      set_state (reconcile status account (Some passkey)) s
  | _ => s
  end.

Definition handleAccountCreated (closure : WizardState) (s : session) : session :=
  match closure with
  | ActionableState needs_account _ _ (Some passkey) => add_task (TRefresh passkey false) s
  | _ => s
  end.

Definition handleSpendReceipt (closure : WizardState) (value : jsval) (s : session) : session :=
  match safeParse TransactionReceiptSchema value with
  | None => set_state (BlockedState None "Receipt cannot be reconciled"
                         "The transaction receipt is malformed.") s
  | Some data =>
      let nextReceipt := receipt_of data in
      let s := set_receipt nextReceipt s in
      match closure with
      | ActionableState ready_to_spend _ _ (Some passkey) =>
          if negb (String.eqb (rc_status nextReceipt) "committed") ||
             bool_decide (a_reconciledCommit (s_app s) = Some (rc_txHash nextReceipt))
          then s
          else add_task (TRefresh passkey true)
                 (set_postCommitError None (set_reconciledCommit (rc_txHash nextReceipt) s))
      | _ => s
      end
  end.
(** ** Presses

    A handler runs with the state its component had at the last commit. *)

Definition createPasskey (closure : WizardState) (state : PasskeyStepState) (s : session)
    : session :=
  match s_component s with
  | PasskeyStep _ lock =>
      if lock || bool_decide (passkeyCapabilityProblem ≠ None) ||
         match state with PkBlocked _ => true | _ => false end
      then s
      else add_task (TRegister (s_id s) closure)
             (record_event SRegister (set_component (PasskeyStep PkPending true) s))
  | _ => s
  end.

Definition bootstrap_request_of (passkey : PasskeyRecord) : BootstrapRequest :=
  {| br_publicKey := pk_publicKey passkey; br_credentialId := pk_credentialId passkey |}.
Definition createAccount (closure : WizardState) (state : BootstrapStepState)
    (status : DemoStatus) (passkey : PasskeyRecord) (s : session) : session :=
  match s_component s with
  | BootstrapStep _ lock =>
      if lock || match state with BsError _ blocking => blocking | _ => false end
      then s
      else add_task (TBootstrap (s_id s) closure status passkey)
             (record_event (SCreateAccount (bootstrap_request_of passkey))
                (set_component (BootstrapStep BsPending true) s))
  | _ => s
  end.

Definition authorize (closure : WizardState) (state : SpendState) (prepared : PreparedSpend)
    (passkey : PasskeyRecord) (s : session) : session :=
  match s_component s with
  | SpendStep effect _ lock =>
      if lock || match state with SpReady _ _ => false | _ => true end
      then s
      else add_task (TAssert (s_id s) closure passkey prepared)
             (record_event (SAssert prepared passkey)
                (set_component (SpendStep effect (SpWorking prepared authorizing) true) s))
  | _ => s
  end.

Definition checkAgain (closure : WizardState) (receipt : Receipt) (s : session) : session :=
  match s_component s with
  | ReceiptStep st lock =>
      if lock || String.eqb (rc_status receipt) "committed" then s
      else
        let submitted := with_status receipt "submitted" in
        add_task (TConfirm (s_id s) closure None submitted)
          (record_event (SConfirm submitted)
             (set_component (ReceiptStep (set_error None (set_checking true st)) true) s))
  | _ => s
  end.

Definition copyHash (s : session) : session :=
  match s_component s with
  | ReceiptStep st lock =>
      if clipboard
      then add_task (TCopy (s_id s)) (set_component (ReceiptStep (set_error None st) lock) s)
      else set_component (ReceiptStep (set_error (Some
             "Clipboard access is unavailable. Select the full transaction hash instead.") st) lock) s
  | _ => s
  end.

(** The enabled buttons of the last commit, and what a press does. *)
Definition presses (s : session) : list session :=
  let v := s_view s in
  match v_component v, v_displayed v with
  | PasskeyStep st _, _ =>
      if passkey_enabled st then [createPasskey (v_closure v) st s] else []
  | BootstrapStep st _, ActionableState _ status _ (Some passkey) =>
      if bootstrap_enabled st then [createAccount (v_closure v) st status passkey s] else []
  | SpendStep _ st _, ActionableState _ _ _ (Some passkey) =>
      match spend_enabled st with
      | Some prepared => [authorize (v_closure v) st prepared passkey s]
      | None => []
      end
  | ReceiptStep st _, ReceiptState _ _ receipt =>
      (if receipt_shown receipt then [copyHash s] else []) ++
      (if check_enabled receipt st then [checkAgain (v_closure v) receipt s] else [])
  | _, _ => []
  end.

(** ** Settled promises *)

(** [createPasskey] after [register]: [save] is the outcome of storing the record. *)
Definition registered_with (id : nat) (closure : WizardState) (r : res PasskeyRecord)
    (save : res unit) (s : session) : session :=
  match r with
  | Throw error => update id (finish_passkey (passkey_failure error)) s
  | Ok candidate =>
      match safeParse PasskeyRecordSchema (passkey_val candidate) with
      | None => update id (finish_passkey (PkBlocked INVALID_METADATA)) s
      | Some data =>
          match save with
          | Throw error => update id (finish_passkey (passkey_failure error)) s
          | Ok _ =>
              handlePasskeyCreated closure (passkey_of data)
                (update id (finish_passkey (PkSuccess (passkey_of data))) s)
          end
      end
  end.

Definition account_created (id : nat) (closure : WizardState) (status : DemoStatus)
    (answer : res jsval) (s : session) : session :=
  let s := record_event (SCreated (created_account status answer)) s in
  match created_account status answer with
  | Throw error => update id (finish_bootstrap (bootstrap_failure error)) s
  | Ok account =>
      handleAccountCreated closure (update id (finish_bootstrap (BsSuccess account)) s)
  end.

Definition refreshed_after (passkey : PasskeyRecord) (afterCommit : bool)
    (r : res (DemoStatus * option AccountManifest)) (s : session) : session :=
  if afterCommit then
    match r with
    | Ok (status, account) =>
        match reconcile status account (Some passkey) with
        | BlockedState _ _ message => set_postCommitError (Some message) s
        | state => set_state state s
        end
    | Throw _ => set_postCommitError (Some
        "The committed transaction is preserved, but authoritative account state could not be refreshed.") s
    end
  else set_state (refreshed_state (Some passkey) r) s.

Definition prepared_with (id effect : nat) (r : res PreparedSpend) (s : session) : session :=
  update id (λ c, match c with
                  | SpendStep current st lock =>
                      if decide (current = effect)
                      then SpendStep current (match r with
                                              | Ok prepared => SpReady prepared None
                                              | Throw _ => UNPREPARED
                                              end) lock
                      else c
                  | _ => c
                  end) s.

Definition asserted_with (id : nat) (closure : WizardState) (passkey : PasskeyRecord)
    (reviewed now : PreparedSpend) (r : res AssertionMaterial) (s : session) : session :=
  match authorized reviewed now passkey r with
  | inl st => update id (λ c, unlock_spend (set_spend st c)) s
  | inr tx =>
      add_task (TSubmit id closure now tx)
        (record_event (SSubmit tx) (update id (set_spend (SpWorking now submitting)) s))
  end.

Definition submitted_with (id : nat) (closure : WizardState) (prepared : PreparedSpend)
    (r : res Receipt) (s : session) : session :=
  match r with
  | Throw error => update id (λ c, unlock_spend (set_spend (spend_failure prepared error) c)) s
  | Ok receipt =>
      add_task (TConfirm id closure (Some prepared) receipt)
        (record_event (SConfirm receipt)
           (handleSpendReceipt closure (receipt_val receipt)
              (update id (set_spend (SpSubmitted prepared)) s)))
  end.

(** The confirmation of [authorize], which has a prepared spend, or of [checkAgain]. *)
Definition confirmed_with (id : nat) (closure : WizardState) (prepared : option PreparedSpend)
    (r : res Receipt) (s : session) : session :=
  match prepared, r with
  | Some _, Ok receipt => update id unlock_spend (handleSpendReceipt closure (receipt_val receipt) s)
  | Some p, Throw error => update id (λ c, unlock_spend (set_spend (spend_failure p error) c)) s
  | None, Ok receipt =>
      update id (λ c, unlock_receipt (set_view (set_checking false) c))
        (handleSpendReceipt closure (receipt_val receipt) s)
  | None, Throw _ =>
      update id (λ c, unlock_receipt (set_view (λ v, set_checking false (set_error (Some
        "The existing transaction could not be checked. No new transaction was sent.") v)) c)) s
  end.

Definition copied_with (id : nat) (r : res unit) (s : session) : session :=
  update id (set_view (match r with
                       | Ok _ => set_notice "Transaction hash copied."
                       | Throw _ => set_error (Some
                           "The transaction hash could not be copied. Select the full value instead.")
                       end)) s.

(** [Promise.all] of the status and the account: either rejection may be the first. *)
Inductive refreshed : res (DemoStatus * option AccountManifest) → Prop :=
  | both_fulfilled w1 w1' w2 w2' status account :
      api_status w1 = (Ok status, w1') → api_account w2 = (Ok account, w2') →
      refreshed (Ok (status_of status, account_of_nullable account))
  | status_rejected w w' e : api_status w = (Throw e, w') → refreshed (Throw e)
  | account_rejected w w' e : api_account w = (Throw e, w') → refreshed (Throw e).

(** The outcomes a promise can settle with are those of the function that was called. *)
Inductive settles : task → session → session → Prop :=
  | st_load passkey r s :
      refreshed r →
      settles (TLoad passkey) s (set_state (refreshed_state passkey r) s)
  | st_register id closure r save s w w' :
      registerPasskey w = (r, w') →
      (∀ candidate data, r = Ok candidate →
         safeParse PasskeyRecordSchema (passkey_val candidate) = Some data →
         ∃ v v', savePasskeyRecord data v = (save, v')) →
      settles (TRegister id closure) s (registered_with id closure r save s)
  | st_bootstrap id closure status passkey r s w w' :
      api_bootstrap (request_val (bootstrap_request_of passkey)) w = (r, w') →
      settles (TBootstrap id closure status passkey) s (account_created id closure status r s)
  | st_refresh passkey afterCommit r s :
      refreshed r →
      settles (TRefresh passkey afterCommit) s (refreshed_after passkey afterCommit r s)
  | st_prepare id effect account funderAddress passkey r s w w' :
      prepareSpend account funderAddress (passkey_val passkey) w = (r, w') →
      settles (TPrepare id effect account funderAddress passkey) s (prepared_with id effect r s)
  | st_assert id closure passkey reviewed now r s w w' :
      requestAssertion (ps_authorizationDigest reviewed) (passkey_val passkey) w = (r, w') →
      settles (TAssert id closure passkey reviewed) s
              (asserted_with id closure passkey reviewed now r s)
  | st_submit id closure prepared tx r s w w' :
      submitSpend tx w = (r, w') →
      settles (TSubmit id closure prepared tx) s (submitted_with id closure prepared r s)
  | st_confirm id closure prepared receipt r s w w' :
      confirmSpend (receipt_val receipt) w = (r, w') →
      settles (TConfirm id closure prepared receipt) s (confirmed_with id closure prepared r s)
  | st_copy id r s : settles (TCopy id) s (copied_with id r s).

(** ** Sessions *)

(** After the first commit and its effect, which loads the stored passkey. *)
Definition started (passkey : option PasskeyRecord) : session := {|
  s_app := {| a_state := LoadingState; a_receipt := None; a_postCommitError := None;
              a_reconciledCommit := None; a_dirty := false |};
  s_next := 1; s_id := 0; s_component := NoStep;
  s_view := {| v_component := NoStep; v_closure := LoadingState; v_displayed := LoadingState |};
  s_tasks := [TLoad passkey]; s_log := [] |}.

Inductive step : session → session → Prop :=
  | s_commit s s' : render s = Ok s' → step s s'
  | s_press s s1 s' : s1 ∈ presses s → render s1 = Ok s' → step s s'
  | s_settle s l1 t l2 s' :
      s_tasks s = l1 ++ t :: l2 → settles t (set_tasks (l1 ++ l2) s) s' → step s s'.

Inductive reachable : session → Prop :=
  | r_start passkey w w' :
      loadPasskeyRecord w = (Ok passkey, w') → reachable (started passkey)
  | r_step s s' : reachable s → step s s' → reachable s'.
End session.
