(* ===== verification/Sessions.v ===== *)
(** * What a session of the wizard guarantees

    The states a session reaches, phase by phase, and from them: rendering never throws,
    at most one transaction is submitted and it is the reviewed one, and an account creation
    is repeated only after the server refused it for lack of funds. *)

From S2P Require Import Prelude Js JsString Regex Bytes Zod Constants Schemas Json JsonLaws.
From S2P Require Import Effects Base64 Ccc CccRef Protocol Manifests Storage Chain Spending.
From S2P Require Import Passkey Service Http Api Wizard Steps Session.
From stdpp Require Import sets.

(** ** Logs *)

Definition is_insufficient (e : session_event) : bool :=
  match e with
  | SCreated (Throw error) =>
      match exn_class error with
      | CDemoApiError code _ => String.eqb code "INSUFFICIENT_BALANCE"
      | _ => false
      end
  | _ => false
  end.
Definition is_create (e : session_event) : bool :=
  match e with SCreateAccount _ => true | _ => false end.
Definition is_submit (e : session_event) : bool :=
  match e with SSubmit _ => true | _ => false end.

(** Every creation request so far was refused for lack of funds. *)
Fixpoint retryable (l : list session_event) : bool :=
  match l with
  | [] => true
  | e :: l' => (negb (is_create e) || existsb is_insufficient l') && retryable l'
  end.
(** Before every creation request, those before it were. *)
Definition creations_ok (l : list session_event) : Prop :=
  ∀ l1 q l2, l = l1 ++ SCreateAccount q :: l2 → retryable l1 = true ∧ request_wf q.

Lemma snoc_split {A} (l : list A) e l1 x l2 :
  l ++ [e] = l1 ++ x :: l2 → (l2 = [] ∧ l1 = l ∧ x = e) ∨ ∃ l2', l2 = l2' ++ [e] ∧ l = l1 ++ x :: l2'.
Proof.
  intros H. destruct l2 as [|y l2] using rev_ind.
  - left. apply app_inj_tail in H as [-> ->]. done.
  - right. exists l2. rewrite app_comm_cons, app_assoc in H. by apply app_inj_tail in H as [-> ->].
Qed.

Lemma creations_snoc l e :
  creations_ok l → (∀ q, e = SCreateAccount q → retryable l = true ∧ request_wf q) →
  creations_ok (l ++ [e]).
Proof.
  intros Hl He l1 q l2 [(-> & -> & <-)|(l2' & -> & ->)]%snoc_split; [by apply He|by eapply Hl].
Qed.

Lemma retryable_snoc l e : is_create e = false → retryable l = true → retryable (l ++ [e]) = true.
Proof.
  intros He. induction l as [|x l IH]; cbn; [by rewrite He|].
  rewrite existsb_app. intros [Hx Hl]%andb_true_iff. rewrite IH by done.
  destruct (is_create x); [|done]. cbn in *. by rewrite Hx.
Qed.
Lemma retryable_insufficient l e :
  is_create e = false → is_insufficient e = true → retryable (l ++ [e]) = true.
Proof.
  intros Hc He. induction l as [|x l IH]; cbn; [by rewrite Hc|].
  rewrite existsb_app, IH. cbn. rewrite He, orb_true_r. by rewrite orb_true_r.
Qed.

Section sessions.
Context {WB WS WF WC : Type} {zod : Zod} {zod_laws : ZodLaws} {ccc : Ccc} {ccc_laws : CccLaws}.
Context {json : Json} {browser : Browser WB} {storage : Storage WS} {storage_laws : StorageLaws}.
Context {fetcher : Fetch WF} {client : SpendClient WC}.
Context (receipt_prop : option jsval) (clipboard : bool).

(** Responses are JSON values; the chain client does not know the class of cancellations. *)
Hypothesis fetch_json : ∀ o (w w' : WF) response value,
  fetch o w = (Ok response, w') → fr_json response = Ok value → is_json value = true.
Hypothesis client_errors : ∀ tx v (w w' : WC) e,
  sendTransaction tx v w = (Throw e, w') → is_PasskeyCancelledError e = false.

Notation render := (render receipt_prop).
Notation presses := (presses clipboard).
Notation displayed := (displayed receipt_prop).

(** A submission: the assertion that authorized it was requested for the transaction that
    was reviewed, and what is submitted has its hash and digest. *)
Record authorized_by (reviewed : PreparedSpend) (passkey : PasskeyRecord) (tx : Transaction)
    : Prop := {
  ab_passkey : passkey_wf passkey;
  ab_finalized : ∃ now assertion (w w' : world WB passkey_event),
    requestAssertion (ps_authorizationDigest reviewed) (passkey_val passkey) w
      = (Ok assertion, w') ∧
    ps_authorizationDigest now = ps_authorizationDigest reviewed ∧
    finalizeSpend now (passkey_val passkey) assertion = Ok tx;
  ab_hash : Transaction_hash tx = Transaction_hash (transaction reviewed) }.

Definition unsubmitted (l : list session_event) : Prop := existsb is_submit l = false.
(** At most one submission, right after the request of its assertion. *)
Definition submissions_ok (l : list session_event) : Prop :=
  ∀ l1 tx l2, l = l1 ++ SSubmit tx :: l2 →
    unsubmitted l1 ∧ unsubmitted l2 ∧
    ∃ l0 reviewed passkey, l1 = l0 ++ [SAssert reviewed passkey] ∧ authorized_by reviewed passkey tx.

Lemma submissions_none l : unsubmitted l → submissions_ok l.
Proof.
  unfold unsubmitted. intros H l1 tx l2 ->. rewrite existsb_app in H. cbn in H.
  by rewrite orb_true_r in H.
Qed.
Lemma unsubmitted_snoc l e : is_submit e = false → unsubmitted l → unsubmitted (l ++ [e]).
Proof. unfold unsubmitted. intros He Hl. rewrite existsb_app, Hl. cbn. by rewrite He. Qed.
Lemma submissions_snoc l e : is_submit e = false → submissions_ok l → submissions_ok (l ++ [e]).
Proof.
  intros He Hl l1 tx l2 [(_ & _ & <-)|(l2' & -> & ->)]%snoc_split; [done|].
  destruct (Hl l1 tx l2' eq_refl) as (H1 & H2 & H3). split; [done|]. split; [|done].
  by apply unsubmitted_snoc.
Qed.
Lemma submissions_first l reviewed passkey tx :
  unsubmitted (l ++ [SAssert reviewed passkey]) → authorized_by reviewed passkey tx →
  submissions_ok ((l ++ [SAssert reviewed passkey]) ++ [SSubmit tx]).
Proof.
  intros Hl Ha l1 tx' l2 [(-> & -> & [= ->])|(l2' & _ & H)]%snoc_split.
  - split; [done|]. split; [done|]. eauto.
  - exfalso. unfold unsubmitted in Hl. rewrite H, existsb_app in Hl. cbn in Hl.
    by rewrite orb_true_r in Hl.
Qed.

Record log_ok (l : list session_event) : Prop := {
  lo_creations : creations_ok l; lo_submissions : submissions_ok l }.
Lemma log_ok_snoc l e :
  is_create e = false → is_submit e = false → log_ok l → log_ok (l ++ [e]).
Proof.
  intros Hc Hs [H1 H2]. split; [|by apply submissions_snoc].
  apply creations_snoc; [done|]. intros q ->. done.
Qed.

(** ** States of [App] *)

Definition good (state : WizardState) : Prop :=
  match state with
  | LoadingState | BlockedState _ _ _ => True
  | ReceiptState _ _ _ => False
  | ActionableState stage status account passkey =>
      status_wf status ∧ (∀ m, account = Some m → account_wf m) ∧
      (∀ p, passkey = Some p → passkey_wf p) ∧ consistent status account ∧
      passkeyCapabilityProblem = None ∧ stage_for account passkey = Some stage
  end.
Definition is_loading (state : WizardState) : bool :=
  match state with LoadingState => true | _ => false end.
Definition is_blocked (state : WizardState) : bool :=
  match state with BlockedState _ _ _ => true | _ => false end.

Lemma reconcile_good status account passkey :
  status_wf status → (∀ m, account = Some m → account_wf m) →
  (∀ p, passkey = Some p → passkey_wf p) →
  good (reconcile status account passkey) ∧ is_loading (reconcile status account passkey) = false.
Proof.
  intros Hs Ha Hp. destruct (reconcile_cases status account passkey Hs Ha)
    as [(Hc & Hcap & stage & Hst & ->)|(_ & h & m & ->)]; [|done].
  split; [|done]. by do 5 (split; [done|]).
Qed.

Lemma requestJson_Ok path method body schema (w w' : world WF api_event) v :
  requestJson path method body schema w = (Ok v, w') →
  ∃ value, is_json value = true ∧ safeParse schema value = Some v.
Proof.
  unfold requestJson. intros H. apply eff_bind_Ok in H as (response & w1 & Hf & H).
  unfold catch in Hf. destruct (call _ _ w) as [[r|e] w2] eqn:Ec; [|done].
  injection Hf as -> ->. apply call_run in Ec as [Ec _].
  inv_run. destruct (fr_json response) as [value|] eqn:Ej; [|done].
  match goal with H : Ok _ = Ok _ |- _ => injection H as -> end.
  exists value. split; [by eapply fetch_json|].
  destruct (fr_ok response); cbn [negb] in H.
  - apply lift_run in H as [H _]. symmetry in H. by apply from_option_or_Ok in H.
  - apply eff_bind_Ok in H as (? & ? & _ & H). by apply lift_run in H as [? _].
Qed.

Lemma refreshed_good r :
  refreshed r → match r with
                | Ok (status, account) => status_wf status ∧ ∀ m, account = Some m → account_wf m
                | Throw _ => True
                end.
Proof.
  destruct 1 as [w1 w1' w2 w2' status account H1 H2| |]; [|done..].
  apply requestJson_Ok in H1 as (v1 & Hj & H1). apply requestJson_Ok in H2 as (v2 & _ & H2).
  destruct (status_record _ _ Hj H1) as (st & -> & Hst). rewrite status_of_val.
  destruct (nullable_account _ _ H2) as (a & -> & Ha). by rewrite account_of_nullable_val.
Qed.

Lemma refreshed_state_good passkey r :
  refreshed r → (∀ p, passkey = Some p → passkey_wf p) →
  good (refreshed_state passkey r) ∧ is_loading (refreshed_state passkey r) = false.
Proof.
  intros Hr%refreshed_good Hp. destruct r as [[st a]|e]; [|done].
  destruct Hr. by apply reconcile_good.
Qed.
(** ** Phases *)

(** No press of this component asks for anything but the state of a submitted transaction. *)
Definition calm (c : component) : Prop :=
  match c with
  | NoStep | ReceiptStep _ _ => True
  | PasskeyStep st _ => passkey_enabled st = false
  | BootstrapStep st _ => bootstrap_enabled st = false
  | SpendStep _ st _ => spend_enabled st = None
  end.

(** Only the receipt, or no component. *)
Definition closed (c : component) : Prop :=
  match c with NoStep | ReceiptStep _ _ => True | _ => False end.
Lemma closed_calm c : closed c → calm c.
Proof. by destruct c. Qed.

Definition receipt_value (a : AppState) : option jsval :=
  match a_receipt a with Some r => Some (receipt_val r) | None => receipt_prop end.

(** Promises that outlive the spend. *)
Definition harmless (t : task) : Prop :=
  match t with
  | TRefresh p afterCommit => afterCommit = true ∧ passkey_wf p
  | TConfirm _ closure _ _ => good closure
  | TCopy _ => True
  | _ => False
  end.

(** What was committed is the current state of [App], an actionable one. *)
Record current (stage : WizardStage) (status : DemoStatus) (account : option AccountManifest)
    (passkey : option PasskeyRecord) (s : session) : Prop := {
  cu_state : a_state (s_app s) = ActionableState stage status account passkey;
  cu_good : good (ActionableState stage status account passkey);
  cu_receipt : receipt_value (s_app s) = None;
  cu_clean : a_dirty (s_app s) = false;
  cu_closure : v_closure (s_view s) = ActionableState stage status account passkey;
  cu_displayed : v_displayed (s_view s) = ActionableState stage status account passkey }.

(** The spend step, by the promise it waits for. *)
Inductive spending (passkey : PasskeyRecord) (id effect : nat) (closure : WizardState)
    (shown : SpendState) : SpendState → bool → list task → list session_event → Prop :=
  | sp_preparing account funder l :
      spend_enabled shown = None → unsubmitted l →
      spending passkey id effect closure shown SpPreparing false
        [TPrepare id effect account funder passkey] l
  | sp_ready st l :
      unsubmitted l → spending passkey id effect closure shown st false [] l
  | sp_authorizing prepared reviewed l :
      spend_enabled shown = None → unsubmitted (l ++ [SAssert reviewed passkey]) →
      spending passkey id effect closure shown (SpWorking prepared authorizing) true
        [TAssert id closure passkey reviewed] (l ++ [SAssert reviewed passkey])
  | sp_submitting prepared tx l :
      spend_enabled shown = None →
      spending passkey id effect closure shown (SpWorking prepared submitting) true
        [TSubmit id closure prepared tx] l
  | sp_failed st l :
      spend_enabled shown = None → spend_enabled st = None →
      spending passkey id effect closure shown st false [] l.

Inductive phase (s : session) : Prop :=
  | ph_loading passkey :
      a_state (s_app s) = LoadingState → a_receipt (s_app s) = None →
      a_dirty (s_app s) = false → s_component s = NoStep → v_component (s_view s) = NoStep →
      s_tasks s = [TLoad passkey] → (∀ p, passkey = Some p → passkey_wf p) → s_log s = [] →
      phase s
  | ph_turning :
      good (a_state (s_app s)) → is_loading (a_state (s_app s)) = false →
      a_receipt (s_app s) = None → a_dirty (s_app s) = true → calm (v_component (s_view s)) →
      s_tasks s = [] → unsubmitted (s_log s) → creations_ok (s_log s) →
      match s_component s with
      | NoStep => retryable (s_log s) = true
      | PasskeyStep st lock =>
          lock = false ∧ passkey_enabled st = false ∧ retryable (s_log s) = true
      | BootstrapStep st lock =>
          lock = false ∧ bootstrap_enabled st = false ∧ stage_of (a_state (s_app s)) ≠ needs_passkey
      | SpendStep _ _ _ | ReceiptStep _ _ => False
      end →
      phase s
  | ph_passkey status account st st' lock :
      current needs_passkey status account None s →
      s_component s = PasskeyStep st false → v_component (s_view s) = PasskeyStep st' lock →
      s_tasks s = [] → unsubmitted (s_log s) → creations_ok (s_log s) →
      retryable (s_log s) = true → phase s
  | ph_registering status account st' lock :
      current needs_passkey status account None s →
      s_component s = PasskeyStep PkPending true → v_component (s_view s) = PasskeyStep st' lock →
      passkey_enabled st' = false →
      s_tasks s = [TRegister (s_id s) (a_state (s_app s))] →
      unsubmitted (s_log s) → creations_ok (s_log s) → retryable (s_log s) = true → phase s
  | ph_account status passkey st st' lock :
      current needs_account status None (Some passkey) s →
      s_component s = BootstrapStep st false → v_component (s_view s) = BootstrapStep st' lock →
      (bootstrap_enabled st = true ∨ bootstrap_enabled st' = true → retryable (s_log s) = true) →
      s_tasks s = [] → unsubmitted (s_log s) → creations_ok (s_log s) → phase s
  | ph_creating status passkey st' lock :
      current needs_account status None (Some passkey) s →
      s_component s = BootstrapStep BsPending true →
      v_component (s_view s) = BootstrapStep st' lock → bootstrap_enabled st' = false →
      s_tasks s = [TBootstrap (s_id s) (a_state (s_app s)) status passkey] →
      unsubmitted (s_log s) → creations_ok (s_log s) → phase s
  | ph_created status passkey st st' lock :
      current needs_account status None (Some passkey) s →
      s_component s = BootstrapStep st false → bootstrap_enabled st = false →
      v_component (s_view s) = BootstrapStep st' lock → bootstrap_enabled st' = false →
      s_tasks s = [TRefresh passkey false] →
      unsubmitted (s_log s) → creations_ok (s_log s) → phase s
  | ph_spend status account passkey effect st lock effect' st' lock' :
      current ready_to_spend status (Some account) (Some passkey) s →
      s_component s = SpendStep effect st lock →
      v_component (s_view s) = SpendStep effect' st' lock' → log_ok (s_log s) →
      spending passkey (s_id s) effect (a_state (s_app s)) st' st lock (s_tasks s) (s_log s) →
      phase s
  | ph_final :
      good (a_state (s_app s)) → is_loading (a_state (s_app s)) = false →
      good (v_closure (s_view s)) →
      (receipt_value (s_app s) = None →
         is_blocked (a_state (s_app s)) = true ∧ ∀ p b, TRefresh p b ∉ s_tasks s) →
      calm (v_component (s_view s)) → (a_dirty (s_app s) = false → closed (s_component s)) →
      Forall harmless (s_tasks s) → log_ok (s_log s) →
      phase s.
(** ** Commits keep the phase *)

Lemma pending_disabled : passkey_enabled PkPending = false.
Proof. unfold passkey_enabled. by destruct passkeyCapabilityProblem. Qed.

(** Committing without updates of [App]. *)
Lemma render_clean s :
  a_dirty (s_app s) = false →
  render s = Ok (commit {| v_component := s_component s; v_closure := v_closure (s_view s);
                           v_displayed := v_displayed (s_view s) |} s).
Proof. intros H. unfold Session.render. by rewrite H. Qed.

Lemma current_commit stage status account passkey c s :
  current stage status account passkey s →
  current stage status account passkey
    (commit {| v_component := c; v_closure := v_closure (s_view s);
               v_displayed := v_displayed (s_view s) |} s).
Proof. intros []. by constructor. Qed.

Lemma spending_shown passkey id effect closure shown st lock tasks l :
  spending passkey id effect closure shown st lock tasks l →
  spending passkey id effect closure st st lock tasks l.
Proof. destruct 1; by constructor. Qed.

Lemma clean_phase s :
  phase s → a_dirty (s_app s) = false →
  ∃ s', render s = Ok s' ∧ phase s'.
Proof.
  intros H Hd. rewrite render_clean by done. eexists. split; [reflexivity|].
  destruct H as [pk|? ? ? Hd'|status account st st' lock Hc HC|status account st' lock Hc HC
                |status pk st st' lock Hc HC HV Hr|status pk st' lock Hc HC
                |status pk st st' lock Hc HC Hst
                |status account pk eff st lock eff' st' lock' Hc HC HV Hl Hs|].
  - eapply ph_loading; done.
  - congruence.
  - eapply ph_passkey; try done; by apply current_commit.
  - eapply ph_registering; try done; [by apply current_commit|by apply pending_disabled].
  - eapply ph_account; try done; [by apply current_commit|]. intros []; auto.
  - eapply ph_creating; try done; by apply current_commit.
  - eapply ph_created; try done; by apply current_commit.
  - eapply ph_spend; try done; [by apply current_commit|]. by eapply spending_shown.
  - eapply ph_final; try done; auto using closed_calm.
Qed.

(** What is displayed when a receipt takes over, or nothing can be done. *)
Lemma displayed_final a :
  good (a_state a) → is_loading (a_state a) = false →
  (receipt_value a = None → is_blocked (a_state a) = true) →
  match displayed a with
  | ReceiptState _ _ _ | BlockedState _ _ _ => True
  | _ => False
  end.
Proof.
  unfold Session.displayed. fold (receipt_value a). intros Hg Hl Hn.
  destruct (receipt_value a) as [v|].
  - destruct (a_state a) as [|[] st ac pk| |]; try done. cbn [withReceipt].
    by destruct (safeParse _ v).
  - specialize (Hn eq_refl). by destruct (a_state a).
Qed.

Lemma final_render s :
  good (a_state (s_app s)) → is_loading (a_state (s_app s)) = false →
  (receipt_value (s_app s) = None →
     is_blocked (a_state (s_app s)) = true ∧ ∀ p b, TRefresh p b ∉ s_tasks s) →
  a_dirty (s_app s) = true → Forall harmless (s_tasks s) → log_ok (s_log s) →
  ∃ s', render s = Ok s' ∧ phase s'.
Proof.
  intros Hg Hl Hn Hd Ht Hlog.
  pose proof (displayed_final (s_app s) Hg Hl (λ H, proj1 (Hn H))) as Hdisp.
  unfold Session.render. rewrite Hd.
  destruct (displayed (s_app s)) as [| |stage status r|status h m]; try done; cbn [rendered mbind res_bind];
    (eexists; split; [reflexivity|]); destruct (s_component s) eqn:EC;
    apply ph_final; cbn; try done; try (intros _); rewrite ?EC; done.
Qed.

Lemma turning_render s :
  good (a_state (s_app s)) → is_loading (a_state (s_app s)) = false →
  a_receipt (s_app s) = None → a_dirty (s_app s) = true → s_tasks s = [] →
  unsubmitted (s_log s) → creations_ok (s_log s) →
  match s_component s with
  | NoStep => retryable (s_log s) = true
  | PasskeyStep st lock =>
          lock = false ∧ passkey_enabled st = false ∧ retryable (s_log s) = true
  | BootstrapStep st lock =>
      lock = false ∧ bootstrap_enabled st = false ∧ stage_of (a_state (s_app s)) ≠ needs_passkey
  | SpendStep _ _ _ | ReceiptStep _ _ => False
  end →
  ∃ s', render s = Ok s' ∧ phase s'.
Proof.
  intros Hg Hl Hr Hd Ht Hu Hc HC.
  destruct (receipt_value (s_app s)) eqn:Hrv.
  { apply final_render; try done; [by rewrite Hrv|by rewrite Ht|split; [done|by apply submissions_none]]. }
  destruct (is_blocked (a_state (s_app s))) eqn:Hb.
  { apply final_render; try done;
      [intros _; split; [done|rewrite Ht; intros ??; apply not_elem_of_nil]|by rewrite Ht
      |split; [done|by apply submissions_none]]. }
  assert (Hdisp : displayed (s_app s) = a_state (s_app s))
    by (unfold Session.displayed; fold (receipt_value (s_app s)); by rewrite Hrv).
  unfold Session.render. rewrite Hd, Hdisp.
  destruct (a_state (s_app s)) as [|stage status account pk| |] eqn:Est; try done.
  pose proof Hg as (Hwf & Ha & Hp & Hcons & Hcap & Hst).
  destruct account as [m|], pk as [k|]; cbn in Hst; try done; injection Hst as <-; cbn [rendered].
  - unfold spend_account. rewrite (ready_account status m) by auto. cbn [mbind res_bind].
    eexists. split; [reflexivity|].
    destruct (s_component s) eqn:EC; try done;
      (eapply ph_spend; [by constructor|reflexivity|reflexivity
        |split; [done|by apply submissions_none]|]; cbn; rewrite Ht, Est; cbn;
       apply sp_preparing; [done|exact Hu]).
  - cbn [mbind res_bind]. eexists. split; [reflexivity|].
    destruct (s_component s) as [|st lk|st lk|e st lk|st lk] eqn:EC; try done.
    + eapply ph_account; [by constructor|reflexivity|reflexivity| |done..]. by intros _.
    + destruct HC as (_ & _ & HC).
      eapply ph_account; [by constructor|reflexivity|reflexivity| |done..]. by intros _.
    + destruct HC as (-> & Hst & _).
      eapply ph_account; [by constructor|exact EC|exact EC| |done..].
      rewrite Hst. by intros [].
  - cbn [mbind res_bind]. eexists. split; [reflexivity|].
    destruct (s_component s) as [|st lk|st lk|e st lk|st lk] eqn:EC; try done.
    + eapply ph_passkey; [by constructor|reflexivity|reflexivity|done..].
    + destruct HC as (-> & _ & HC). eapply ph_passkey; [by constructor|exact EC|exact EC|done..].
    + destruct HC as (_ & _ & []). done.
Qed.

Lemma render_phase s : phase s → ∃ s', render s = Ok s' ∧ phase s'.
Proof.
  intros H. destruct (a_dirty (s_app s)) eqn:Hd; [|by apply clean_phase].
  destruct H as [? ? ? Hd'|Hg Hl Hr _ Hcalm Ht Hu Hc HC|? ? ? ? ? Hc|? ? ? ? Hc|? ? ? ? ? Hc
                |? ? ? ? Hc|? ? ? ? ? Hc|? ? ? ? ? ? ? ? ? Hc|Hg Hl Hcl Hn Hcalm Hcc Ht Hlog].
  2: by apply turning_render.
  8: by apply final_render.
  all: try (destruct Hc; congruence). congruence.
Qed.
(** ** Presses keep the phase *)

Lemma render_unique s s' : phase s → render s = Ok s' → phase s'.
Proof. intros H E. destruct (render_phase s H) as (s1 & E1 & H1). congruence. Qed.

Lemma calm_presses s s1 :
  calm (v_component (s_view s)) → s1 ∈ presses s →
  ∃ st lock status stage receipt,
    v_component (s_view s) = ReceiptStep st lock ∧
    v_displayed (s_view s) = ReceiptState stage status receipt ∧
    (s1 = copyHash clipboard s ∨ s1 = checkAgain (v_closure (s_view s)) receipt s).
Proof.
  unfold Session.presses. intros Hc H.
  destruct (v_component (s_view s)) as [|st lk|st lk|e st lk|st lk]; cbn [calm] in Hc.
  - by apply not_elem_of_nil in H.
  - rewrite Hc in H. by apply not_elem_of_nil in H.
  - rewrite Hc in H. destruct (v_displayed _) as [|? ? ? []| |]; by apply not_elem_of_nil in H.
  - rewrite Hc in H. destruct (v_displayed _) as [|? ? ? []| |]; by apply not_elem_of_nil in H.
  - destruct (v_displayed _) as [| |stage status r|]; try by apply not_elem_of_nil in H.
    exists st, lk, status, stage, r. split; [done|]. split; [done|].
    apply elem_of_app in H as [H|H]; [left|right];
      match type of H with _ ∈ (if ?b then _ else _) => destruct b end;
      by (apply list_elem_of_singleton in H || apply not_elem_of_nil in H).
Qed.

Lemma turning_press s s1 s' :
  phase s → calm (v_component (s_view s)) →
  match s_component s with ReceiptStep _ _ => False | _ => True end →
  s1 ∈ presses s → render s1 = Ok s' → phase s'.
Proof.
  intros Hp Hc HC H Hr.
  destruct (calm_presses s s1 Hc H) as (st & lk & status & stage & r & _ & _ & E).
  assert (s1 = s) as ->; [|by eapply render_unique].
  unfold copyHash, checkAgain in E. destruct (s_component s); try done; by destruct E.
Qed.

Lemma passkey_press s s1 s' status account st st' lock :
  current needs_passkey status account None s →
  s_component s = PasskeyStep st false → v_component (s_view s) = PasskeyStep st' lock →
  s_tasks s = [] → unsubmitted (s_log s) → creations_ok (s_log s) → retryable (s_log s) = true →
  s1 ∈ presses s → render s1 = Ok s' → phase s'.
Proof.
  intros Hc HC HV Ht Hu Hcr Hre H Hr. unfold Session.presses in H. rewrite HV in H.
  destruct (passkey_enabled st') eqn:Hen; [|by apply not_elem_of_nil in H].
  apply list_elem_of_singleton in H as ->. unfold createPasskey in Hr. rewrite HC in Hr.
  unfold passkey_enabled in Hen. destruct passkeyCapabilityProblem eqn:Hcap; [done|].
  rewrite bool_decide_false in Hr by tauto.
  assert (match st' with PkBlocked _ => true | _ => false end = false) as Hb by by destruct st'.
  rewrite Hb in Hr. cbn [orb] in Hr. rewrite render_clean in Hr by apply Hc.
  injection Hr as <-. destruct Hc as [E1 E2 E3 E4 E5 E6].
  eapply ph_registering; cbn; rewrite ?E5, ?Ht, ?E1; try reflexivity.
  - by constructor.
  - apply pending_disabled.
  - by apply unsubmitted_snoc.
  - by apply creations_snoc.
  - by apply retryable_snoc.
Qed.

Lemma passkey_request_wf p : passkey_wf p → request_wf (bootstrap_request_of p).
Proof. intros []. by split. Qed.

Lemma account_press s s1 s' status pk st st' lock :
  current needs_account status None (Some pk) s →
  s_component s = BootstrapStep st false → v_component (s_view s) = BootstrapStep st' lock →
  (bootstrap_enabled st' = true → retryable (s_log s) = true) →
  s_tasks s = [] → unsubmitted (s_log s) → creations_ok (s_log s) →
  s1 ∈ presses s → render s1 = Ok s' → phase s'.
Proof.
  intros Hc HC HV Hre Ht Hu Hcr H Hr. unfold Session.presses in H. rewrite HV in H.
  destruct Hc as [E1 E2 E3 E4 E5 E6]. rewrite E6 in H.
  destruct (bootstrap_enabled st') eqn:Hen; [|by apply not_elem_of_nil in H].
  apply list_elem_of_singleton in H as ->. unfold createAccount in Hr. rewrite HC in Hr.
  assert (match st' with BsError _ b => b | _ => false end = false) as Hb
    by (destruct st' as [| | |? []]; done).
  rewrite Hb in Hr. cbn [orb] in Hr. rewrite render_clean in Hr by done. injection Hr as <-.
  eapply ph_creating; cbn; rewrite ?E5, ?Ht, ?E1; try reflexivity.
  - by constructor.
  - by apply unsubmitted_snoc.
  - apply creations_snoc; [done|]. intros q [= <-]. split; [auto|].
    apply passkey_request_wf. destruct E2 as (_ & _ & Hp & _). by apply Hp.
Qed.

Lemma spend_press s s1 s' status account pk effect st lock effect' st' lock' :
  current ready_to_spend status (Some account) (Some pk) s →
  s_component s = SpendStep effect st lock → v_component (s_view s) = SpendStep effect' st' lock' →
  log_ok (s_log s) →
  spending pk (s_id s) effect (a_state (s_app s)) st' st lock (s_tasks s) (s_log s) →
  s1 ∈ presses s → render s1 = Ok s' → phase s'.
Proof.
  intros Hc HC HV Hl Hs H Hr. unfold Session.presses in H. rewrite HV in H.
  destruct Hc as [E1 E2 E3 E4 E5 E6]. rewrite E6 in H.
  destruct (spend_enabled st') as [p|] eqn:Hen; [|by apply not_elem_of_nil in H].
  apply list_elem_of_singleton in H as ->. unfold authorize in Hr. rewrite HC in Hr.
  inversion Hs as [| ? ? Hu | | |]; subst; try congruence.
  destruct st' as [|p' n| | |]; try done. injection Hen as ->. cbn [orb] in Hr.
  rewrite render_clean in Hr by done. injection Hr as <-.
  eapply ph_spend; cbn; rewrite ?E5, ?E1; [by constructor|reflexivity|reflexivity| |].
  - by apply log_ok_snoc.
  - match goal with H : [] = s_tasks s |- _ => rewrite <- H end. cbn [app]. apply sp_authorizing; [done|by apply unsubmitted_snoc].
Qed.
Lemma final_press s s1 :
  good (a_state (s_app s)) → is_loading (a_state (s_app s)) = false →
  good (v_closure (s_view s)) →
  (receipt_value (s_app s) = None →
     is_blocked (a_state (s_app s)) = true ∧ ∀ p b, TRefresh p b ∉ s_tasks s) →
  calm (v_component (s_view s)) → (a_dirty (s_app s) = false → closed (s_component s)) →
  Forall harmless (s_tasks s) → log_ok (s_log s) →
  s1 ∈ presses s → phase s1.
Proof.
  intros Hg Hl Hcl Hn Hc Hcc Ht Hlog H.
  destruct (calm_presses s s1 Hc H) as (st & lk & status & stage & r & HV & _ & E).
  assert (Hadd : ∀ t, harmless t → (∀ p b, t ≠ TRefresh p b) →
    receipt_value (s_app s) = None →
    is_blocked (a_state (s_app s)) = true ∧ ∀ p b, TRefresh p b ∉ s_tasks s ++ [t]).
  { intros t _ Hne Hr. destruct (Hn Hr) as [Hb Hno]. split; [done|]. intros p b.
    rewrite elem_of_app, list_elem_of_singleton. intros [Hin|Heq]; [by eapply Hno|].
    by eapply Hne. }
  assert (Hsame : phase s) by (by eapply ph_final).
  destruct E as [-> | ->]; unfold copyHash, checkAgain;
    destruct (s_component s) as [| | | |v lock]; try done.
  - destruct clipboard; apply ph_final; cbn; rewrite ?HV; try done.
    + by apply Hadd.
    + apply Forall_app. by repeat constructor.
  - destruct (lock || _); [done|]. apply ph_final; cbn; rewrite ?HV; try done.
    + by apply Hadd.
    + apply Forall_app. by repeat constructor.
    + by apply log_ok_snoc.
Qed.

Lemma press_phase s s1 s' : phase s → s1 ∈ presses s → render s1 = Ok s' → phase s'.
Proof.
  intros Hp H Hr. pose proof Hp as Hp'.
  destruct Hp' as [? ? ? ? HC HV|? ? ? ? Hcalm ? ? ? HC| | ? ? ? ? ? HC HV Hen| |? ? ? ? ? HC HV Hen
                  |? ? ? ? ? ? HC ? HV Hen| |].
  - eapply turning_press; try done; [by rewrite HV|by rewrite HC].
  - eapply turning_press; try done. by destruct (s_component s).
  - by eapply passkey_press.
  - eapply turning_press; try done; [by rewrite HV|by rewrite HC].
  - eapply account_press; try done. auto.
  - eapply turning_press; try done; [by rewrite HV|by rewrite HC].
  - eapply turning_press; try done; [by rewrite HV|by rewrite HC].
  - by eapply spend_press.
  - eapply render_unique; [|done]. by eapply final_press.
Qed.
(** ** Settled promises keep the phase *)

Lemma submit_error tx (w w' : world WC chain_event) r :
  submitSpend tx w = (r, w') → ∀ e, r = Throw e → is_PasskeyCancelledError e = false.
Proof.
  unfold submitSpend. intros H. run_step H.
  { intros ? [= <-]. symmetry in Hm. by apply throw_if_Throw in Hm as [_ ->]. }
  run_step H; [intros ? [= <-]; by eapply client_errors|].
  run_step H; [intros ? [= <-]; destruct (tx_outputs tx !! 1%nat); [done|by injection Hm1 as ->]|].
  run_step H; [intros ? [= <-]; unfold zparse in Hm2; destruct (safeParse _ _); [done|by injection Hm2 as ->]|].
  unfold mret, eff_ret in H. by injection H as <- _.
Qed.

Lemma spend_failure_disabled p e :
  is_PasskeyCancelledError e = false → spend_enabled (spend_failure p e) = None.
Proof. intros He. unfold spend_failure. rewrite He. by destruct (_ && _). Qed.

Lemma finalize_hash prepared pk assertion tx :
  finalizeSpend prepared pk assertion = Ok tx →
  Transaction_hash tx = Transaction_hash (transaction prepared).
Proof. unfold finalizeSpend. intros H. inv_res. bool_simpl. congruence. Qed.

Lemma authorized_inr reviewed now pk (assertion : res AssertionMaterial) tx
    (w w' : world WB passkey_event) :
  passkey_wf pk →
  requestAssertion (ps_authorizationDigest reviewed) (passkey_val pk) w = (assertion, w') →
  authorized reviewed now pk assertion = inr tx → authorized_by reviewed pk tx.
Proof.
  intros Hpk Hr. unfold authorized. destruct assertion as [a|]; [|done].
  destruct (_ || _) eqn:E; [done|]. destruct (finalizeSpend _ _ _) as [tx'|] eqn:Ef; [|done].
  intros [= ->]. bool_simpl. constructor; [done| |].
  - exists now, a, w, w'. split; [done|]. split; [by apply hexFromBytes_inj|done].
  - rewrite (finalize_hash _ _ _ _ Ef). done.
Qed.

(** After a receipt, what is displayed no longer offers an action. *)
Record receipt_handled (s s' : session) : Prop := {
  rh_state : good (a_state (s_app s')) ∧ is_loading (a_state (s_app s')) = false;
  rh_final : receipt_value (s_app s') = None →
    receipt_value (s_app s) = None ∧ is_blocked (a_state (s_app s')) = true ∧ s_tasks s' = s_tasks s;
  rh_dirty : a_dirty (s_app s') = true;
  rh_tasks : s_tasks s' = s_tasks s ∨ ∃ p, s_tasks s' = s_tasks s ++ [TRefresh p true] ∧ passkey_wf p;
  rh_view : s_view s' = s_view s;
  rh_id : s_id s' = s_id s;
  rh_component : s_component s' = s_component s;
  rh_log : s_log s' = s_log s }.

Lemma handle_receipt closure value s :
  good closure → good (a_state (s_app s)) → is_loading (a_state (s_app s)) = false →
  receipt_handled s (handleSpendReceipt closure value s).
Proof.
  intros Hcl Hg Hl. unfold handleSpendReceipt.
  destruct (safeParse _ value) as [d|]; [|constructor; cbn; auto].
  assert (Hset : receipt_handled s (set_receipt (receipt_of d) s)) by (constructor; cbn; auto; done).
  destruct closure as [|[] st ac [k|]| |]; try exact Hset.
  destruct (_ || _); [exact Hset|].
  destruct Hcl as (_ & _ & Hp & _). constructor; cbn; auto; [done|right; eauto].
Qed.
Lemma single_task {A} (x : A) l1 t l2 : [x] = l1 ++ t :: l2 → t = x ∧ l1 ++ l2 = [].
Proof.
  destruct l1 as [|y l1]; cbn; [by intros [= -> <-]|].
  intros [= _ H]. by destruct l1.
Qed.

Lemma current_tasks stage status account pk l s :
  current stage status account pk s → current stage status account pk (set_tasks l s).
Proof. intros []. by constructor. Qed.
Lemma current_update stage status account pk id f s :
  current stage status account pk s → current stage status account pk (update id f s).
Proof. intros []. unfold update. by destruct (decide _); constructor. Qed.
Lemma update_own f s : update (s_id s) f s = set_component (f (s_component s)) s.
Proof. unfold update. by rewrite decide_True. Qed.

Lemma loading_settle passkey s s' :
  a_receipt (s_app s) = None → s_component s = NoStep → v_component (s_view s) = NoStep →
  (∀ p, passkey = Some p → passkey_wf p) → s_log s = [] → s_tasks s = [] →
  settles (TLoad passkey) s s' → phase s'.
Proof.
  intros Hr HC HV Hp Hl Ht H. inversion H as [pk r ? Href| | | | | | | |]; subst.
  destruct (refreshed_state_good passkey r Href Hp).
  apply ph_turning; cbn; rewrite ?HV, ?HC, ?Hl; try done. by intros l1 q l2 ?%app_cons_not_nil.
Qed.

Lemma registering_settle status account st' lock s s' :
  current needs_passkey status account None s →
  s_component s = PasskeyStep PkPending true → v_component (s_view s) = PasskeyStep st' lock →
  passkey_enabled st' = false → s_tasks s = [] →
  unsubmitted (s_log s) → creations_ok (s_log s) → retryable (s_log s) = true →
  settles (TRegister (s_id s) (a_state (s_app s))) s s' → phase s'.
Proof.
  intros Hc HC HV Hen Ht Hu Hcr Hre H. inversion H as [|id cl r save ? w w' _ _| | | | | | |]; subst.
  assert (Hback : ∀ st, phase (update (s_id s) (finish_passkey st) s)).
  { intros st. rewrite update_own, HC. cbn [finish_passkey].
    eapply ph_passkey; try done; destruct Hc; by constructor. }
  unfold registered_with. destruct r as [c|e]; [|apply Hback].
  destruct (safeParse PasskeyRecordSchema (passkey_val c)) as [d|] eqn:Ep; [|apply Hback].
  destruct save as [u|e]; [|apply Hback].
  destruct (passkey_record _ _ Ep) as (p & -> & Hp). rewrite passkey_of_val.
  rewrite update_own, HC. cbn [finish_passkey].
  destruct Hc as [E1 (Hw & Ha & _) E3 _ _ _]. unfold handlePasskeyCreated. rewrite E1.
  destruct (reconcile_good status account (Some p) Hw Ha) as [Hg Hl]; [by intros ? [= <-]|].
  unfold receipt_value in E3.
  apply ph_turning; cbn; rewrite ?HV; try done.
  - by destruct (a_receipt (s_app s)).
  - split; [done|]. split; [|done]. unfold passkey_enabled. by destruct passkeyCapabilityProblem.
Qed.

Lemma failure_insufficient e :
  bootstrap_enabled (bootstrap_failure e) = true → is_insufficient (SCreated (Throw e)) = true.
Proof.
  unfold bootstrap_failure, safeBootstrapError. cbn [is_insufficient].
  destruct (exn_class e) as [| | | | |n| | |c st|c st|n]; try done.
  by repeat match goal with |- context [if ?b then (_, _) else _] => destruct b end.
Qed.

Lemma creating_settle status pk st' lock s s' :
  current needs_account status None (Some pk) s →
  s_component s = BootstrapStep BsPending true →
  v_component (s_view s) = BootstrapStep st' lock → bootstrap_enabled st' = false →
  s_tasks s = [] → unsubmitted (s_log s) → creations_ok (s_log s) →
  settles (TBootstrap (s_id s) (a_state (s_app s)) status pk) s s' → phase s'.
Proof.
  intros Hc HC HV Hen Ht Hu Hcr H. inversion H as [| |id cl st p r ? w w' _| | | | | |]; subst.
  destruct Hc as [E1 E2 E3 E4 E5 E6]. unfold account_created.
  destruct (created_account status r) as [m|e]; unfold update; cbn [record_event s_id];
    rewrite decide_True by done; cbn [set_component s_component record_event];
    rewrite HC; cbn [finish_bootstrap].
  - unfold handleAccountCreated. rewrite E1.
    eapply ph_created; cbn; rewrite ?Ht, ?HV; try reflexivity; try done; try by constructor.
    + by apply unsubmitted_snoc.
    + by apply creations_snoc.
  - eapply ph_account; cbn; rewrite ?HV; try reflexivity; try done; try by constructor.
    + rewrite Hen. intros [He|]; [|done].
      apply retryable_insufficient; [done|]. by apply failure_insufficient.
    + by apply unsubmitted_snoc.
    + by apply creations_snoc.
Qed.

Lemma created_settle status pk st st' lock s s' :
  current needs_account status None (Some pk) s →
  s_component s = BootstrapStep st false → bootstrap_enabled st = false →
  v_component (s_view s) = BootstrapStep st' lock → bootstrap_enabled st' = false →
  s_tasks s = [] → unsubmitted (s_log s) → creations_ok (s_log s) →
  settles (TRefresh pk false) s s' → phase s'.
Proof.
  intros Hc HC Hst HV Hen Ht Hu Hcr H. inversion H as [| | |p a r ? Href| | | | |]; subst.
  destruct Hc as [E1 (_ & _ & Hp & _) E3 _ _ _].
  destruct (refreshed_state_good (Some pk) r Href Hp) as [Hg Hl].
  unfold receipt_value in E3. cbn [refreshed_after].
  apply ph_turning; cbn; rewrite ?HV, ?HC; try done.
  - by destruct (a_receipt (s_app s)).
  - split; [done|]. split; [done|]. destruct (refreshed_state _ r) as [|stage ? ac k| |] eqn:Er; try done.
    destruct r as [[stt acc]|e]; [|done]. cbn in Er.
    destruct (refreshed_good _ Href) as [Hw Ha].
    destruct (reconcile_cases stt acc (Some pk) Hw Ha) as [(_ & _ & g & Hs & E)|(_ & h & m & E)];
      rewrite Er in E; [|done]. injection E as -> _ _ _. destruct acc; cbn in Hs; by injection Hs as <-.
Qed.
(** The spend step after its only promise has settled. *)
Lemma spend_continues status account pk effect effect' st' lock' st s :
  current ready_to_spend status (Some account) (Some pk) s →
  s_component s = SpendStep effect st false →
  v_component (s_view s) = SpendStep effect' st' lock' → log_ok (s_log s) → s_tasks s = [] →
  unsubmitted (s_log s) ∨ spend_enabled st' = None ∧ spend_enabled st = None →
  phase s.
Proof.
  intros Hc HC HV Hl Ht H. eapply ph_spend; try done. rewrite Ht.
  destruct H as [H|[H1 H2]]; [by apply sp_ready|by apply sp_failed].
Qed.

Lemma preparing_settle status account pk effect effect' st' lock' acc funder s s' :
  current ready_to_spend status (Some account) (Some pk) s →
  s_component s = SpendStep effect SpPreparing false →
  v_component (s_view s) = SpendStep effect' st' lock' → log_ok (s_log s) → s_tasks s = [] →
  unsubmitted (s_log s) → settles (TPrepare (s_id s) effect acc funder pk) s s' → phase s'.
Proof.
  intros Hc HC HV Hl Ht Hu H. inversion H as [| | | |id e a f p r ? w w' _| | | |]; subst.
  unfold prepared_with. rewrite update_own, HC, decide_True by done.
  eapply spend_continues; cbn; try done; [|by left]. destruct Hc. by constructor.
Qed.

Lemma authorizing_settle status account pk effect effect' st' lock' prepared reviewed l s s' :
  current ready_to_spend status (Some account) (Some pk) s →
  s_component s = SpendStep effect (SpWorking prepared authorizing) true →
  v_component (s_view s) = SpendStep effect' st' lock' → spend_enabled st' = None →
  log_ok (s_log s) → s_tasks s = [] → s_log s = l ++ [SAssert reviewed pk] →
  unsubmitted (s_log s) →
  settles (TAssert (s_id s) (a_state (s_app s)) pk reviewed) s s' → phase s'.
Proof.
  intros Hc HC HV Hen Hl Ht El Hu H.
  inversion H as [| | | | |id cl p rv now r ? w w' Hr| | |]; subst. unfold asserted_with.
  destruct (authorized reviewed now pk r) as [st|tx] eqn:Ea.
  - rewrite update_own, HC. eapply spend_continues; cbn; try done; [|by left].
    destruct Hc. by constructor.
  - rewrite update_own, HC. cbn [set_spend].
    assert (Hpk : passkey_wf pk) by (destruct Hc as [_ (_ & _ & Hp & _) _ _ _ _]; by apply Hp).
    pose proof (authorized_inr _ _ _ _ _ _ _ Hpk Hr Ea) as Hab.
    eapply ph_spend; cbn; [destruct Hc; by constructor|reflexivity|exact HV| |].
    + destruct Hl as [Hl _]. split; [by apply creations_snoc|]. rewrite El in *.
      by apply submissions_first.
    + rewrite Ht. by apply sp_submitting.
Qed.

Lemma submitting_settle status account pk effect effect' st' lock' prepared tx s s' :
  current ready_to_spend status (Some account) (Some pk) s →
  s_component s = SpendStep effect (SpWorking prepared submitting) true →
  v_component (s_view s) = SpendStep effect' st' lock' → spend_enabled st' = None →
  log_ok (s_log s) → s_tasks s = [] →
  settles (TSubmit (s_id s) (a_state (s_app s)) prepared tx) s s' → phase s'.
Proof.
  intros Hc HC HV Hen Hl Ht H.
  inversion H as [| | | | | |id cl p t r ? w w' Hr| |]; subst. unfold submitted_with.
  destruct r as [receipt|e]; rewrite update_own, HC; cbn [set_spend unlock_spend].
  - destruct Hc as [E1 E2 E3 E4 E5 E6].
    assert (Hg : good (a_state (s_app s))) by by rewrite E1.
    assert (Hld : is_loading (a_state (s_app s)) = false) by by rewrite E1.
    set (s1 := set_component _ s).
    destruct (handle_receipt (a_state (s_app s)) (receipt_val receipt) s1 Hg Hg Hld)
      as [[Hg' Hl'] Hfin Hd Htasks Hv Hid Hcomp Hlog].
    set (s2 := handleSpendReceipt _ _ s1) in *.
    change (s_tasks s1) with (s_tasks s) in *. rewrite Ht in *.
    apply ph_final; cbn [record_event add_task set_tasks s_app s_tasks s_view s_log s_component];
      rewrite ?Hv, ?Hlog; cbn [s_view s_log s1 set_component]; rewrite ?HV, ?E5; try done.
    + intros Hrv. destruct (Hfin Hrv) as (_ & Hb & Ht2). split; [done|]. intros p b.
      rewrite Ht2, elem_of_app, list_elem_of_singleton. intros [Hin|Heq]; [|done].
      by apply not_elem_of_nil in Hin.
    + by rewrite Hd.
    + apply Forall_app. split; [|by apply Forall_singleton].
      destruct Htasks as [->|(q & -> & Hq)]; [by constructor|]. apply Forall_singleton. by split.
    + by apply log_ok_snoc.
  - eapply (spend_continues status account pk effect effect' st' lock'); try done.
    + destruct Hc. by constructor.
    + right. split; [done|]. apply spend_failure_disabled. by eapply submit_error.
Qed.
(** The fields an update of the component leaves. *)
Lemma update_fields id f s :
  s_app (update id f s) = s_app s ∧ s_view (update id f s) = s_view s ∧
  s_tasks (update id f s) = s_tasks s ∧ s_log (update id f s) = s_log s.
Proof. unfold update. by destruct (decide _). Qed.
Lemma update_closed id f s :
  (∀ c, closed c → closed (f c)) → closed (s_component s) → closed (s_component (update id f s)).
Proof. intros Hf Hc. unfold update. destruct (decide _); cbn; auto. Qed.

(** Updates of the component in the final phase. *)
Lemma final_update id f s :
  (∀ c, closed c → closed (f c)) →
  good (a_state (s_app s)) → is_loading (a_state (s_app s)) = false →
  good (v_closure (s_view s)) →
  (receipt_value (s_app s) = None →
     is_blocked (a_state (s_app s)) = true ∧ ∀ p b, TRefresh p b ∉ s_tasks s) →
  calm (v_component (s_view s)) → (a_dirty (s_app s) = false → closed (s_component s)) →
  Forall harmless (s_tasks s) → log_ok (s_log s) → phase (update id f s).
Proof.
  intros Hf Hg Hl Hcl Hn Hc Hcc Ht Hlog.
  destruct (update_fields id f s) as (Ea & Ev & Et & El).
  apply ph_final; rewrite ?Ea, ?Ev, ?Et, ?El; try done.
  intros Hd. apply update_closed; auto.
Qed.

Lemma final_settle t s s' :
  good (a_state (s_app s)) → is_loading (a_state (s_app s)) = false →
  good (v_closure (s_view s)) →
  (receipt_value (s_app s) = None →
     is_blocked (a_state (s_app s)) = true ∧ (∀ p b, TRefresh p b ∉ s_tasks s) ∧
     ∀ p b, t ≠ TRefresh p b) →
  calm (v_component (s_view s)) → (a_dirty (s_app s) = false → closed (s_component s)) →
  harmless t → Forall harmless (s_tasks s) → log_ok (s_log s) →
  settles t s s' → phase s'.
Proof.
  intros Hg Hl Hcl Hn Hc Hcc Hh Ht Hlog H.
  assert (Hn' : receipt_value (s_app s) = None →
    is_blocked (a_state (s_app s)) = true ∧ ∀ p b, TRefresh p b ∉ s_tasks s)
    by (intros Hr; destruct (Hn Hr) as (? & ? & _); done).
  destruct H as [| | |p a r ? Href| | | |id cl p rc r ? w w' _|id r ?]; try done.
  - destruct Hh as [-> Hp].
    assert (Hsome : receipt_value (s_app s) ≠ None)
      by (intros Hr; destruct (Hn Hr) as (_ & _ & Hne); by eapply Hne).
    assert (Herr : ∀ m, phase (set_postCommitError (Some m) s))
      by (intros m; apply ph_final; cbn; try done; by intros ?%Hsome).
    cbn [refreshed_after]. destruct r as [[st ac]|e]; [|apply Herr].
    destruct (refreshed_good _ Href) as [Hw Ha].
    destruct (reconcile_good st ac (Some p) Hw Ha) as [Hg' Hl']; [by intros ? [= <-]|].
    destruct (reconcile st ac (Some p)) eqn:Er; try apply Herr;
      (apply ph_final; cbn; try done; by intros ?%Hsome).
  - assert (Hup : ∀ f, (∀ c, closed c → closed (f c)) → phase (update id f s))
      by (intros f Hf; by apply final_update).
    assert (Hok : ∀ f value, (∀ c, closed c → closed (f c)) →
      phase (update id f (handleSpendReceipt cl value s))).
    { intros f value Hf.
      destruct (handle_receipt cl value s Hh Hg Hl) as [[Hg' Hl'] Hfin Hd Htasks Hv _ Hcomp Hlg].
      apply final_update; rewrite ?Hv, ?Hlg, ?Hd; try done.
      - intros Hr. destruct (Hfin Hr) as (Hr' & Hb & ->). split; [done|]. by apply Hn'.
      - destruct Htasks as [->|(q & -> & Hq)]; [done|]. apply Forall_app. split; [done|].
        apply Forall_singleton. by split. }
    destruct p as [p|], r as [rc'|e]; cbn [confirmed_with];
      first [apply Hok|apply Hup]; by intros [].
  - by apply final_update; [intros []|..].
Qed.
Lemma settle_phase s l1 t l2 s' :
  phase s → s_tasks s = l1 ++ t :: l2 → settles t (set_tasks (l1 ++ l2) s) s' → phase s'.
Proof.
  intros Hp Et H.
  destruct Hp as [pk E1 E2 E3 HC HV ET Hpk El|? ? ? ? ? ET|? ? ? ? ? ? ? ? ET
    |status ac st' lk Hc HC HV Hen ET Hu Hcr Hre|? ? ? ? ? ? ? ? ? ET
    |status pk st' lk Hc HC HV Hen ET Hu Hcr|status pk st st' lk Hc HC Hst HV Hen ET Hu Hcr
    |status acc pk eff st lk eff' st' lk' Hc HC HV Hl Hs|Hg Hld Hcl Hn Hcalm Hcc Ht Hlog].
  - rewrite ET in Et. apply single_task in Et as [-> Eq]; rewrite Eq in H. apply (loading_settle pk (set_tasks [] s)); try exact H; done.
  - rewrite ET in Et. by destruct l1.
  - rewrite ET in Et. by destruct l1.
  - rewrite ET in Et. apply single_task in Et as [-> Eq]; rewrite Eq in H.
    apply (registering_settle status ac st' lk (set_tasks [] s)); try exact H; try done. by apply current_tasks.
  - rewrite ET in Et. by destruct l1.
  - rewrite ET in Et. apply single_task in Et as [-> Eq]; rewrite Eq in H.
    apply (creating_settle status pk st' lk (set_tasks [] s)); try exact H; try done. by apply current_tasks.
  - rewrite ET in Et. apply single_task in Et as [-> Eq]; rewrite Eq in H.
    apply (created_settle status pk st st' lk (set_tasks [] s)); try exact H; try done. by apply current_tasks.
  - inversion Hs as [a f l Hen Hu|? ? Hu|p rv l Hen Hu|p tx l Hen|? ? Hen Hst]; subst;
      match goal with E : _ = s_tasks s |- _ => rewrite <- E in Et end;
      try (by destruct l1); apply single_task in Et as [-> Eq]; rewrite Eq in H.
    + apply (preparing_settle status acc pk eff eff' st' lk' a f (set_tasks [] s));
        try exact H; try done. by apply current_tasks.
    + apply (authorizing_settle status acc pk eff eff' st' lk' p rv l (set_tasks [] s));
        try exact H; try done; [by apply current_tasks|].
      cbn [set_tasks s_log]. by match goal with E : _ = s_log s |- _ => rewrite <- E end.
    + apply (submitting_settle status acc pk eff eff' st' lk' p tx (set_tasks [] s));
        try exact H; try done. by apply current_tasks.
  - rewrite Et in *. apply Forall_app in Ht as [Ht1 Ht2]. inversion Ht2; subst.
    eapply final_settle; try exact H; try done; [|by apply Forall_app].
    intros Hr. destruct (Hn Hr) as [Hb Hno]. split; [done|]. split.
    + intros p b Hin. apply (Hno p b). apply elem_of_app in Hin as [Hin|Hin]; set_solver.
    + intros p b ->. apply (Hno p b). set_solver.
Qed.

Lemma start_phase passkey (w w' : world WS storage_event) :
  loadPasskeyRecord w = (Ok passkey, w') → phase (started passkey).
Proof.
  intros H. apply load_run in H as (l & _ & H). eapply ph_loading; cbn; try reflexivity.
  intros p ->. by inversion H; subst; try match goal with H : ∀ o, _ → o = None |- _ =>
    discriminate (H _ eq_refl) end.
Qed.

Notation reachable := (Session.reachable receipt_prop clipboard).
Lemma reachable_phase s : reachable s → phase s.
Proof.
  induction 1 as [pk w w' H|s s' _ IH Hs]; [by eapply start_phase|].
  destruct Hs as [s s' Hr|s s1 s' Hin Hr|s l1 t l2 s' Et H].
  - by eapply render_unique.
  - by eapply press_phase.
  - by eapply settle_phase.
Qed.
(** ** What holds in every session *)

Lemma phase_good s : phase s → good (a_state (s_app s)).
Proof.
  destruct 1 as [? E| |? ? ? ? ? Hc|? ? ? ? Hc|? ? ? ? ? Hc|? ? ? ? Hc|? ? ? ? ? Hc
                |? ? ? ? ? ? ? ? ? Hc|]; try done; [by rewrite E|..];
    destruct Hc as [-> Hg _ _ _ _]; exact Hg.
Qed.

Lemma phase_log s : phase s → log_ok (s_log s).
Proof.
  destruct 1 as [? _ _ _ _ _ _ _ ->|? ? ? ? ? ? Hu Hc|? ? ? ? ? ? ? ? ? Hu Hc|? ? ? ? ? ? ? ? ? Hu Hc
                |? ? ? ? ? ? ? ? ? ? Hu Hc|? ? ? ? ? ? ? ? ? Hu Hc|? ? ? ? ? ? ? ? ? ? ? Hu Hc
                |? ? ? ? ? ? ? ? ? ? ? ? Hl|]; try done;
    try (split; [exact Hc|by apply submissions_none]).
  split; [|by apply submissions_none]. by intros l1 q l2 ?%app_cons_not_nil.
Qed.

Lemma retryable_spec l l1 q l2 :
  retryable l = true → l = l1 ++ SCreateAccount q :: l2 →
  ∃ e, e ∈ l2 ∧ is_insufficient e = true.
Proof.
  intros H ->. induction l1 as [|x l1 IH]; cbn in H; apply andb_true_iff in H as [H H'].
  - cbn in H. apply existsb_exists in H as (e & He & Hi). exists e. split; [|done].
    by apply list_elem_of_In.
  - by apply IH.
Qed.

(** C23 — The wizard is never stuck in rendering and never acts on unchecked data: in every
    reachable session the next commit succeeds (the account shown by the spend step
    validates), and an action is offered only for a well-formed status of a verified
    deployment, an account that both reads agreed on and that is bound to it, and a
    well-formed passkey, at the step these determine. *)
Theorem wizard_renders (s : session) :
  reachable s →
  (∃ s', render s = Ok s') ∧
  ∀ stage status account passkey,
    a_state (s_app s) = ActionableState stage status account passkey →
    status_wf status ∧ consistent status account ∧ stage_for account passkey = Some stage ∧
    (∀ m, account = Some m → account_wf m) ∧ (∀ p, passkey = Some p → passkey_wf p).
Proof.
  intros Hr%reachable_phase. split.
  - destruct (render_phase s Hr) as (s' & E & _). eauto.
  - intros stage status account passkey E. apply phase_good in Hr. rewrite E in Hr.
    destruct Hr as (? & ? & ? & ? & _ & ?). done.
Qed.

(** C22 — One submission: a session submits at most one transaction, whatever is pressed, and
    however slowly the browser renders. It does so right after an assertion was requested for
    the transaction under review, with the assertion's outcome, and the submitted transaction
    has the hash that was reviewed. *)
Theorem submits_once (s : session) : reachable s → submissions_ok (s_log s).
Proof. intros Hr%reachable_phase%phase_log. apply Hr. Qed.

(** Account creation: a session asks for an account with the well-formed request of its
    passkey, and asks again only after the server answered the request before that the funder
    lacks the balance. No other failure and no unknown outcome is retried. *)
Theorem creations_retried (s : session) (l1 : list session_event) (q : BootstrapRequest)
    (l2 : list session_event) :
  reachable s → s_log s = l1 ++ SCreateAccount q :: l2 →
  request_wf q ∧
  ∀ l3 q' l4, l1 = l3 ++ SCreateAccount q' :: l4 → ∃ e, e ∈ l4 ∧ is_insufficient e = true.
Proof.
  intros Hr%reachable_phase%phase_log E. destruct (lo_creations _ Hr l1 q l2 E) as [Hre Hq].
  split; [done|]. intros l3 q' l4 E'. by eapply retryable_spec.
Qed.
End sessions.
