(* ===== verification/Pages.v ===== *)
(** * The pages of the wizard ([demo/src/client/App.tsx] and its components)

    What each component renders, as trees of elements: the tag, its attributes, the handler
    of a button, and the children. Text literals of the markup are kept in UTF-8. The
    handlers close over the values that the component was rendered with. *)

From S2P Require Import Prelude Js JsString Regex Bytes Zod Constants Schemas Json.
From S2P Require Import Effects Base64 Ccc CccRef Protocol Manifests Storage Chain Passkey.
From S2P Require Import Service Http Api Wizard Artifacts Steps Session.

(** The [onClick] of the buttons. *)
Inductive handler :=
  | HCreatePasskey
  | HCreateAccount (status : DemoStatus) (passkey : PasskeyRecord)
  | HAuthorize (prepared : PreparedSpend) (passkey : PasskeyRecord)
  | HCopyHash
  | HCheckAgain (receipt : Receipt).

Inductive attribute := AText (s : string) | AFlag (b : bool) | AHandler (h : handler).
Inductive node :=
  | Text (s : string)
  | Element (tag : string) (attributes : list (string * attribute)) (children : list node).

(** [{condition && (...)}] *)
Definition when_ (condition : bool) (nodes : list node) : list node :=
  if condition then nodes else [].

Definition text_element (tag class text : string) : node :=
  Element tag [("className", AText class)] [Text text].
Definition heading (id text : string) : node := Element "h2" [("id", AText id)] [Text text].
Definition card (class labelledby : string) (children : list node) : node :=
  Element "section" [("className", AText class); ("aria-labelledby", AText labelledby)] children.
(** [<div><dt>term</dt><dd>details</dd></div>] *)
Definition definition (term : string) (details : list node) : node :=
  Element "div" [] [Element "dt" [] [Text term]; Element "dd" [] details].
Definition status_line (children : list node) : node :=
  Element "p" [("role", AText "status"); ("aria-live", AText "polite");
               ("className", AText "inline-status")] children.
Definition alert (live : string) (text : string) : node :=
  Element "p" [("role", AText "alert"); ("aria-live", AText live);
               ("className", AText "inline-error")] [Text text].
Definition quiet_alert (text : string) : node :=
  Element "p" [("role", AText "alert"); ("className", AText "inline-error")] [Text text].
Definition spinner : node :=
  Element "span" [("className", AText "spinner"); ("aria-hidden", AText "true")] [].
Definition button (class : string) (disabled busy : bool) (h : handler) (text : string) : node :=
  Element "button" [("type", AText "button"); ("className", AText class);
                    ("disabled", AFlag disabled); ("aria-busy", AFlag busy);
                    ("onClick", AHandler h)] [Text text].

(** [BigInt(text)] of the decimal text that the schemas let through. *)
Definition BigInt (text : string) : Z := default 0 (parse_digits 10 text None).

(** ** [StatusHeader.tsx] *)

Definition StatusHeader_view (status : option DemoStatus) : node :=
  Element "header" [("className", AText "status-header")] [
    Element "div" [("className", AText "brand-row")] [
      Element "div" [] [
        text_element "p" "brand-kicker" "CKB / PASSKEY";
        Element "h1" [] [Text "Crypto-agile account"]];
      Element "span" [("className", AText "network-indicator");
                      ("aria-label", AText "CKB testnet connection")] [
        Element "span" [("className", AText "network-dot"); ("aria-hidden", AText "true")] [];
        Text "Testnet"]];
    Element "ul" [("className", AText "safety-labels");
                  ("aria-label", AText "Demo safety labels")] [
      Element "li" [] [Text "CKB testnet"];
      Element "li" [] [Text "localhost"];
      Element "li" [] [Text "Unaudited reference"]];
    Element "section" [("className", AText "service-summary");
                       ("aria-label", AText "Local service status")] [
      match status with
      | None => text_element "p" "service-pending"
                  "Waiting for the local API and deployment status."
      | Some status =>
          let item class term text := Element "div" [("className", AText class)] [
            Element "dt" [] [Text term]; Element "dd" [] [Text text]] in
          Element "dl" [] [
            item "summary-item summary-address" "Backend funder" (st_funderAddress status);
            item "summary-item" "Public balance"
              (formatCkbBalance (BigInt (st_funderBalanceShannons status)));
            item "summary-item" "Deployment"
              (if st_deploymentVerified status then "Code cells verified"
               else "Verification required")]
      end]].

(** ** [PasskeyStep.tsx] *)

Definition passkey_status (state : PasskeyStepState) : list node :=
  match state with
  | PkReady => []
  | PkCancelled =>
      [status_line [Text "Passkey creation was cancelled. You can try again when ready."]]
  | PkPending =>
      [status_line [spinner; Text "Waiting for your browser to create the passkey…"]]
  | PkBlocked message => [alert "assertive" message]
  | PkSuccess record => [
      status_line [Text "Passkey public metadata is saved in this browser."];
      Element "dl" [("className", AText "key-summary")] [
        definition "Passkey public key" [Text (pk_publicKey record)];
        definition "Passkey key ID" [Text (pk_keyId record)]]]
  end.

Definition PasskeyStep_view (capabilityProblem : option string) (state : PasskeyStepState)
    : node :=
  let pending := match state with PkPending => true | _ => false end in
  let blocked := match state with PkBlocked _ => true | _ => false end in
  let success := match state with PkSuccess _ => true | _ => false end in
  card "step-card" "passkey-step-heading" (
    [text_element "p" "step-number" "STEP 01 / 03";
     heading "passkey-step-heading" "Create your passkey";
     text_element "p" "step-copy" "Create a device-bound P-256 credential. Only its public key and credential ID stay in this browser. The browser does not expose the passkey private key."] ++
    match capabilityProblem with Some problem => [alert "assertive" problem] | None => [] end ++
    passkey_status state ++
    when_ (bool_decide (capabilityProblem = None) && negb success)
      [button "primary-action" (pending || blocked) pending HCreatePasskey
         (if pending then "Creating passkey" else "Create passkey")] ++
    [text_element "p" "action-note" "No mainnet funds. No browser-held CKB private key."]).

(** ** [BootstrapStep.tsx] *)

Definition bootstrap_status (state : BootstrapStepState) : list node :=
  match state with
  | BsReady => []
  | BsPending => [status_line [spinner;
      Text "Submitting account creation and waiting for testnet commitment…"]]
  | BsError message blocking =>
      [alert (if blocking then "assertive" else "polite") message]
  | BsSuccess account => [
      status_line [Text "Account creation is committed. Rechecking authoritative account state…"];
      Element "a" [("className", AText "secondary-action");
                   ("href", AText (EXPLORER_URL +:+ mo_tx_hash (am_state_out_point account)));
                   ("target", AText "_blank"); ("rel", AText "noreferrer")]
        [Text "View account creation in explorer"]]
  end.

Definition BootstrapStep_view (status : DemoStatus) (passkey : PasskeyRecord)
    (state : BootstrapStepState) : node :=
  let pending := match state with BsPending => true | _ => false end in
  let blocking := match state with BsError _ blocking => blocking | _ => false end in
  let success := match state with BsSuccess _ => true | _ => false end in
  card "step-card" "bootstrap-step-heading" (
    [text_element "p" "step-number" "STEP 02 / 03";
     heading "bootstrap-step-heading" "Create your testnet account";
     text_element "p" "step-copy" "The localhost funder will publish one AccountState cell and one 200 CKB AccountLock asset for this passkey.";
     Element "dl" [("className", AText "review-summary")] [
       definition "Passkey public key" [Text (pk_publicKey passkey)];
       definition "Passkey key ID" [Text (pk_keyId passkey)];
       definition "Account asset" [Text "200 CKB"];
       definition "Local funder" [Text (st_funderAddress status)];
       definition "AccountLock data hash"
         [Text (da_dataHash (dm_account_lock (st_deployment status)))];
       definition "P-256 verifier data hash"
         [Text (da_dataHash (dm_verifier_p256 (st_deployment status)))]]] ++
    bootstrap_status state ++
    when_ (negb success)
      [button "primary-action" (pending || blocking) pending (HCreateAccount status passkey)
         (if pending then "Creating testnet account" else "Create testnet account")] ++
    [text_element "p" "action-note" "The browser sends only the credential ID and public key to localhost."]).

(** ** [SpendStep.tsx] *)

Definition state_prepared (state : SpendState) : option PreparedSpend :=
  match state with
  | SpPreparing => None
  | SpReady prepared _ | SpWorking prepared _ | SpSubmitted prepared => Some prepared
  | SpBlocked _ prepared => prepared
  end.

Definition dependency_item (dependency : string * string * Z) : node :=
  let '(name, txHash, index) := dependency in
  Element "li" [] [
    Element "span" [] [Text (dependencyName name)];
    Element "code" [] [Text txHash; Text ":"; Text (dec index)]].

(** What is reviewed. *)
Definition review_summary (prepared : PreparedSpend) : list node :=
  let r := review prepared in
  [Element "dl" [("className", AText "review-summary")] [
     definition "Input capacity" [Text (formatCkb (BigInt (inputCapacityShannons r)))];
     definition "Transfer to local funder"
       [Text (formatCkb (BigInt (transferCapacityShannons r)))];
     definition "AccountLock change" [Text (formatCkb (BigInt (changeCapacityShannons r)))];
     definition "Transaction fee" [Text (formatCkb (BigInt (feeShannons r)))];
     definition "Live asset input"
       [Text (inputOutPoint r).1; Text ":"; Text (dec (inputOutPoint r).2)];
     definition "Authorization digest" [Text (hexFromBytes (ps_authorizationDigest prepared))]];
   Element "div" [("className", AText "dependency-summary")] [
     Element "h3" [] [Text "Verified dependencies"];
     Element "ol" [("className", AText "dependency-list")]
       (dependency_item <$> dependencies r)]].

Definition spend_status (state : SpendState) : list node :=
  match state with
  | SpReady _ (Some notice) => [status_line [Text notice]]
  | SpWorking _ phase => [status_line [spinner;
      Text (match phase with
            | authorizing => "Waiting for passkey authorization…"
            | submitting => "Submitting the authorized transaction exactly once…"
            end)]]
  | SpBlocked message _ => [alert "assertive" message]
  | _ => []
  end.

Definition spend_button (passkey : PasskeyRecord) (state : SpendState) : list node :=
  let pending := match state with SpWorking _ _ => true | _ => false end in
  let blocked := match state with SpBlocked _ _ => true | _ => false end in
  match state_prepared state, state with
  | None, _ | _, SpSubmitted _ => []
  | Some prepared, _ =>
      [button "primary-action" (pending || blocked) pending (HAuthorize prepared passkey)
         (match state with
          | SpWorking _ authorizing => "Waiting for passkey"
          | SpWorking _ submitting => "Submitting transaction"
          | _ => "Authorize 100 CKB spend"
          end)]
  end.

Definition SpendStep_view (passkey : PasskeyRecord) (state : SpendState) : node :=
  card "step-card" "spend-step-heading" (
    [text_element "p" "step-number" "STEP 03 / 03";
     heading "spend-step-heading" "Authorize your first spend";
     text_element "p" "step-copy" "Review the exact fixed transfer, fee, change, live input, and code dependencies before your passkey authorizes this transaction."] ++
    match state with
    | SpPreparing => [status_line [spinner;
        Text "Discovering live account cells and preparing the transaction…"]]
    | _ => []
    end ++
    match state_prepared state with Some prepared => review_summary prepared | None => [] end ++
    spend_status state ++
    spend_button passkey state ++
    [text_element "p" "action-note" "The passkey challenge commits to the reviewed transaction. No browser-held CKB private key."]).

(** ** [Receipt.tsx] *)

Definition receipt_error (text : string) : node := quiet_alert text.

Definition receipt_message (status : string) : string :=
  if String.eqb status "committed" then
    "The spend is committed with a verified live AccountLock change."
  else if String.eqb status "confirmation_timeout" then
    "Confirmation is taking longer than expected. The submitted transaction hash is preserved."
  else "The transaction was submitted once and is waiting for testnet commitment.".

(** The card of a receipt that is well formed and names the right link. *)
Definition receipt_card (receipt : Receipt) (state : ReceiptView)
    (reconciliationError : option string) : node :=
  let committed := String.eqb (rc_status receipt) "committed" in
  card (if committed then "step-card receipt-card committed-card" else "step-card receipt-card")
    "receipt-heading" (
    [text_element "p" "step-number" (if committed then "COMMITTED" else "SUBMITTED");
     heading "receipt-heading" (if committed then "Spend committed" else "Transaction submitted");
     Element "output" [("role", AText "status"); ("aria-live", AText "polite");
                       ("className", AText "inline-status")] [
       Text (receipt_message (rc_status receipt));
       Text (match rv_notice state with None => "" | Some notice => " " +:+ notice end)];
     Element "div" [("className", AText "hash-panel")] [
       Element "p" [] [Text "Transaction hash"];
       Element "code" [("aria-label", AText ("Transaction hash " +:+ rc_txHash receipt))]
         [Text (rc_txHash receipt)];
       Element "button" [("type", AText "button"); ("className", AText "tertiary-action");
                         ("onClick", AHandler HCopyHash)] [Text "Copy transaction hash"]]] ++
    when_ committed [Element "dl" [("className", AText "review-summary")] [
      definition "Verified AccountLock change"
        [Text (formatCkb (BigInt (rc_remainingCapacityShannons receipt)))]]] ++
    match rv_error state with Some error => [quiet_alert error] | None => [] end ++
    match reconciliationError with Some error => [alert "assertive" error] | None => [] end ++
    [Element "div" [("className", AText "receipt-actions")] (
       Element "a" [("className", AText "secondary-action");
                    ("href", AText (rc_explorerUrl receipt)); ("target", AText "_blank");
                    ("rel", AText "noreferrer")] [Text "View transaction in explorer"] ::
       when_ (negb committed)
         [button "tertiary-action" (rv_checking state) (rv_checking state)
            (HCheckAgain receipt)
            (if rv_checking state then "Checking transaction" else "Check again")])]).

Definition Receipt_view `{Zod} (receiptValue : Receipt) (state : ReceiptView)
    (reconciliationError : option string) : node :=
  match safeParse TransactionReceiptSchema (receipt_val receiptValue) with
  | None => receipt_error "The transaction receipt is malformed."
  | Some data =>
      let receipt := receipt_of data in
      if negb (String.eqb (rc_explorerUrl receipt) (EXPLORER_URL +:+ rc_txHash receipt))
      then receipt_error "The receipt explorer link does not match the CKB testnet transaction."
      else receipt_card receipt state reconciliationError
  end.

(** ** [App.tsx] *)

Definition visibleStatus (displayedState : WizardState) : option DemoStatus :=
  match displayedState with
  | LoadingState => None
  | ActionableState _ status _ _ | ReceiptState _ status _ => Some status
  | BlockedState status _ _ => status
  end.

Definition loading_card : node :=
  card "step-card" "loading-heading" [
    text_element "p" "step-number" "LOCAL CHECK";
    heading "loading-heading" "Preparing your account";
    text_element "p" "step-copy" "Validating the local API, deployment, browser storage, and account manifest.";
    status_line [spinner; Text "Checking local services…"]].
Definition blocked_card (title message : string) : node :=
  card "step-card blocked-card" "blocked-heading" [
    text_element "p" "step-number" "ACTION REQUIRED";
    heading "blocked-heading" title;
    alert "assertive" message;
    text_element "p" "step-copy" "This demo fails closed so it cannot strand capacity or authorize with the wrong credential."].

Definition no_client_card : node :=
  card "step-card blocked-card" "chain-client-heading" [
    text_element "p" "step-number" "ACTION REQUIRED";
    heading "chain-client-heading" "Public testnet access is unavailable";
    quiet_alert "The browser chain client is not configured."].

Section pages.
Context {W : Type} {zod : Zod} {browser : Browser W}.

(** The step that is displayed, by the state of the component that is mounted for it;
    [chainClient] tells that there is a chain client, as [main.tsx] always gives one. *)
Definition step_view (chainClient : bool) (displayedState : WizardState) (c : component)
    (postCommitError : option string) : list node :=
  match displayedState, c with
  | LoadingState, _ => [loading_card]
  | ActionableState needs_passkey _ _ _, PasskeyStep state _ =>
      [PasskeyStep_view passkeyCapabilityProblem state]
  | ActionableState needs_account status _ (Some passkey), BootstrapStep state _ =>
      [BootstrapStep_view status passkey state]
  | ActionableState ready_to_spend _ account (Some passkey), SpendStep _ state _ =>
      if negb chainClient then [no_client_card]
      else when_ (bool_decide (account ≠ None)) [SpendStep_view passkey state]
  | ActionableState ready_to_spend _ _ _, _ => when_ (negb chainClient) [no_client_card]
  | BlockedState _ title message, _ => [blocked_card title message]
  | ReceiptState (submitted | committed) _ receipt, ReceiptStep state _ =>
      when_ chainClient [Receipt_view receipt state postCommitError]
  | _, _ => []
  end.

(** The page of a commit; [postCommitError] is that of the last commit of [App]. *)
Definition App_view (chainClient : bool) (postCommitError : option string) (v : view) : node :=
  Element "div" [("className", AText "app-shell")] [
    StatusHeader_view (visibleStatus (v_displayed v));
    Element "main" [("className", AText "wizard");
                    ("aria-label", AText "Passkey account setup")]
      (step_view chainClient (v_displayed v) (v_component v) postCommitError);
    Element "footer" [] [Element "p" []
      [Text "Reference implementation · Local browser ceremony · CKB testnet only"]]].
End pages.
