(* ===== verification/Review.v ===== *)
(** * What the pages show

    The buttons of a page are the presses of the session; and the page on which a spend is
    authorized shows the transaction that is signed: the amounts, which read back from their
    text, the cells it uses, and the digest given to the passkey. *)

From S2P Require Import Prelude Js JsString Regex Bytes Zod Constants Schemas Json JsonLaws.
From S2P Require Import Effects Base64 Ccc CccRef Protocol Manifests Storage Chain Passkey.
From S2P Require Import Spending Service Http Api Wizard Artifacts Steps Session Pages.
From Stdlib Require Import Ascii.

(** ** Amounts *)

(** A reader of amounts: whole CKB, up to eight decimals, and the unit. *)
Fixpoint decimals (n : nat) (s : string) : Z * string :=
  match n, s with
  | S n', String c s' =>
      if is_dec c then let '(v, r) := decimals n' s' in ((code c - 48) * 10 ^ Z.of_nat n' + v, r)
      else (0, s)
  | _, _ => (0, s)
  end.
Definition read_ckb (s : string) : option Z :=
  let '(whole, r) := digits s 0 in
  let '(fraction, r) := match r with
                        | String "." r' => decimals 8 r'
                        | _ => (0, r)
                        end in
  if String.eqb r " CKB" then Some (whole * 100000000 + fraction) else None.

Lemma digits_dec z rest : 0 <= z → delimited rest = true → digits (dec z +:+ rest) 0 = (z, rest).
Proof.
  intros Hz Hr. pose proof (dec_fuel z Hz) as Hf. unfold dec, to_radix.
  rewrite (proj2 (Z.ltb_ge z 0)) by done. rewrite <- radix_digits_app. cbn [String.append].
  destruct (radix_digits_read (S (Z.to_nat (Z.log2 z))) z rest 0 ltac:(split; lia) ltac:(lia))
    as (k & _ & Hread).
  change ("" +:+ rest) with rest. rewrite Hread, digits_delimited by done. reflexivity.
Qed.

Lemma dec_digits z : 0 <= z → str_all is_dec (dec z) = true.
Proof.
  intros Hz. unfold dec, to_radix. rewrite (proj2 (Z.ltb_ge z 0)) by done.
  generalize (S (Z.to_nat (Z.log2 z))) as n. intros n.
  assert (H : ∀ z acc, 0 <= z → str_all is_dec acc = true →
    str_all is_dec (radix_digits n 10 z acc) = true); [|by apply H].
  clear z Hz. induction n as [|n IH]; intros z acc Hz Ha; [done|].
  pose proof (Z.mod_pos_bound z 10 ltac:(lia)) as Hm. cbn [radix_digits].
  assert (Hacc : str_all is_dec (String (digit_char (z mod 10)) acc) = true).
  { cbn [str_all]. rewrite Ha. unfold is_dec. rewrite digit_char_dec by lia. lia. }
  destruct (z / 10 =? 0); [done|]. apply IH; [|done]. apply Z.div_pos; lia.
Qed.

(** Reading digits as an integer and as decimals. *)
Lemma digits_decimals s acc :
  str_all is_dec s = true →
  digits s acc = (acc * 10 ^ Z.of_nat (str_len s) + (decimals (str_len s) s).1, "").
Proof.
  unfold str_len. revert acc. induction s as [|c s IH]; intros acc; cbn [str_all].
  { intros _. cbn. f_equal. lia. }
  intros [Hc Hs]%andb_true_iff. cbn [digits String.length decimals].
  unfold is_dec in Hc. rewrite Hc. unfold is_dec. rewrite Hc, IH by done.
  destruct (decimals _ s) as [v r]. cbn [fst]. f_equal.
  rewrite Nat2Z.inj_succ, Z.pow_succ_r by lia. lia.
Qed.

(** Trailing zeros do not count. *)
Lemma decimals_strip s rest :
  str_all is_dec s = true → delimited rest = true →
  decimals (str_len s) (strip_trailing "0" s +:+ rest) = ((decimals (str_len s) s).1, rest).
Proof.
  unfold str_len. intros Hs Hr.
  assert (Hrest : ∀ n, decimals n rest = (0, rest)).
  { intros [|n]; [done|]. destruct rest as [|c rest]; [done|]. cbn in Hr.
    apply negb_true_iff in Hr. cbn. by rewrite Hr. }
  induction s as [|c s IH]; [apply Hrest|]. cbn [str_all] in Hs.
  apply andb_true_iff in Hs as [Hc Hs]. specialize (IH Hs).
  destruct (decimals (String.length s) s) as [v r] eqn:Ev. cbn [fst] in IH.
  assert (Hcs : decimals (S (String.length s)) (String c s) =
    ((code c - 48) * 10 ^ Z.of_nat (String.length s) + v, r))
    by (cbn [decimals]; by rewrite Hc, Ev).
  cbn [strip_trailing String.length]. rewrite Hcs. cbn [fst].
  destruct (String.eqb_spec (strip_trailing "0" s) "") as [E|_]; cbn [andb].
  - rewrite E in *. change ("" +:+ rest) with rest in IH. rewrite Hrest in IH.
    injection IH as <-. destruct (Ascii.eqb_spec c "0") as [->|Hne].
    + change ("" +:+ rest) with rest. by rewrite Hrest.
    + cbn [String.append decimals]. rewrite Hc, Hrest. done.
  - cbn [String.append decimals]. by rewrite Hc, IH.
Qed.

Lemma str_repeat_zeros n s acc : digits (str_repeat n "0" +:+ s) acc = digits s (acc * 10 ^ Z.of_nat n).
Proof.
  revert acc. induction n as [|n IH]; intros acc; [cbn; f_equal; lia|].
  cbn [str_repeat]. rewrite str_app_assoc. cbn. rewrite IH. f_equal.
  rewrite Nat2Z.inj_succ, Z.pow_succ_r by lia. change (code "0" - 48) with 0. lia.
Qed.
Lemma str_repeat_all p n c : str_all p c = true → str_all p (str_repeat n c) = true.
Proof.
  intros H. induction n as [|n IH]; [done|]. cbn. by rewrite str_all_app, H, IH.
Qed.
Lemma str_len_repeat n c : str_len (str_repeat n (String c "")) = n.
Proof. induction n as [|n IH]; [done|]. cbn. by f_equal. Qed.

(** The eight decimals of a fraction. *)
Lemma fraction_digits f :
  0 <= f < 100000000 →
  let s := padStart 8 "0" (dec f) in
  str_len s = 8%nat ∧ str_all is_dec s = true ∧ (decimals 8 s).1 = f.
Proof.
  intros Hf. cbn zeta. pose proof (dec_digits f (proj1 Hf)) as Hd.
  assert (Hl : (str_len (dec f) <= 8)%nat).
  { unfold dec, to_radix. rewrite (proj2 (Z.ltb_ge f 0)) by lia.
    assert (H : ∀ fuel k z acc, 0 <= z < 10 ^ Z.of_nat k → (0 < k)%nat →
      (str_len (radix_digits fuel 10 z acc) <= k + str_len acc)%nat).
    { intros fuel. induction fuel as [|fuel IH]; intros k z acc Hz Hk; [cbn [radix_digits]; lia|].
      cbn [radix_digits]. destruct (z / 10 =? 0) eqn:E; bool_simpl.
      - unfold str_len. cbn. lia.
      - destruct k as [|k]; [lia|]. rewrite Nat2Z.inj_succ, Z.pow_succ_r in Hz by lia.
        assert (Hdiv : 0 <= z / 10 < 10 ^ Z.of_nat k).
        { split; [apply Z.div_pos; lia|apply Z.div_lt_upper_bound; lia]. }
        destruct k as [|k]; [cbn in Hdiv; lia|].
        specialize (IH (S k) (z / 10) (String (digit_char (z mod 10)) acc) Hdiv ltac:(lia)).
        unfold str_len in *. cbn [String.length] in IH. lia. }
    specialize (H (S (Z.to_nat (Z.log2 f))) 8%nat f "" Hf ltac:(lia)).
    change (str_len "") with O in H. lia. }
  assert (Hlen : str_len (padStart 8 "0" (dec f)) = 8%nat).
  { unfold padStart. rewrite str_len_app, (str_len_repeat _ "0"). lia. }
  assert (Hall : str_all is_dec (padStart 8 "0" (dec f)) = true).
  { unfold padStart. by rewrite str_all_app, Hd, str_repeat_all. }
  split; [done|]. split; [done|].
  pose proof (digits_decimals (padStart 8 "0" (dec f)) 0 Hall) as H. rewrite Hlen in H.
  unfold padStart in H at 1. rewrite str_repeat_zeros in H.
  pose proof (digits_dec f "" ltac:(lia) eq_refl) as Hd'. rewrite str_app_nil_r in Hd'.
  rewrite !Z.mul_0_l, Hd', Z.add_0_l in H. by injection H.
Qed.

Lemma read_formatted z : 0 <= z → read_ckb (formatCkb z) = Some z.
Proof.
  intros Hz. unfold formatCkb, read_ckb. set (f := Z.rem z 100000000). set (w := Z.quot z 100000000).
  assert (Hf : 0 <= f < 100000000) by (apply Z.rem_bound_pos; lia).
  assert (Hw : 0 <= w) by (apply Z.quot_pos; lia).
  assert (Hwf : z = w * 100000000 + f) by (pose proof (Z.quot_rem' z 100000000); lia).
  destruct (fraction_digits f Hf) as (Hl & Ha & Hv).
  set (s := padStart 8 "0" (dec f)) in *.
  pose proof (decimals_strip s " CKB" Ha eq_refl) as Hs. rewrite Hl, Hv in Hs.
  destruct (String.eqb_spec (strip_trailing "0" s) "") as [E|_].
  - rewrite digits_dec by done. cbn match. rewrite String.eqb_refl.
    rewrite E in Hs. change ("" +:+ " CKB") with " CKB" in Hs.
    change (decimals 8 " CKB") with (0, " CKB") in Hs. injection Hs as Hs. f_equal. lia.
  - rewrite digits_dec by done. cbn [String.append]. rewrite Hs.
    change (Some (w * 100000000 + f) = Some z). by rewrite <- Hwf.
Qed.

Lemma BigInt_dec z : 0 <= z → BigInt (dec z) = z.
Proof.
  intros Hz. pose proof (parseInt_to_radix 10 z ltac:(lia) Hz) as H. unfold parseInt in H.
  unfold BigInt, dec. destruct (parse_digits 10 _ None); [|done]. by injection H.
Qed.

(** ** What a page has *)

(** The handlers of its enabled buttons, in order. *)
Fixpoint enabled (n : node) : list handler :=
  match n with
  | Text _ => []
  | Element _ attributes children =>
      match assoc "onClick" attributes, assoc "disabled" attributes with
      | Some (AHandler _), Some (AFlag true) => []
      | Some (AHandler h), _ => [h]
      | _, _ => []
      end ++ flat_map enabled children
  end.

Fixpoint text_content (n : node) : string :=
  match n with
  | Text s => s
  | Element _ _ children => String.concat "" (text_content <$> children)
  end.
Definition text_of (l : list node) : string := String.concat "" (text_content <$> l).

(** The pairs of an element with tag [a] and one with tag [b] that are all of its parent. *)
Definition row (a b : string) (children : list node) : option (string * string) :=
  match children with
  | [Element x _ l; Element y _ r] =>
      if String.eqb x a && String.eqb y b then Some (text_of l, text_of r) else None
  | _ => None
  end.
Fixpoint rows (a b : string) (n : node) : list (string * string) :=
  match n with
  | Text _ => []
  | Element _ _ children =>
      match row a b children with
      | Some e => [e]
      | None => flat_map (rows a b) children
      end
  end.
(** What a page says about a term of its definition lists. *)
Definition shown (page : node) (term : string) : list string :=
  omap (λ e, if String.eqb e.1 term then Some e.2 else None) (rows "dt" "dd" page).

(** ** Components and displayed states *)

Section coherent.
Context {WB WS WF WC : Type} {zod : Zod} {ccc : Ccc} {json : Json}.
Context {browser : Browser WB} {storage : Storage WS} {fetcher : Fetch WF}.
Context {client : SpendClient WC}.
Context (receipt_prop : option jsval) (clipboard : bool).
Notation render := (render receipt_prop).
Notation presses := (presses clipboard).
Notation displayed := (displayed receipt_prop).

(** A spend that was prepared for the displayed account, funder and passkey. *)
Definition prepared_for (d : WizardState) (p : PreparedSpend) : Prop :=
  ∃ status account passkey verified (w w' : world WC chain_event),
    d = ActionableState ready_to_spend status (Some account) (Some passkey) ∧
    spend_account status account = Ok verified ∧
    prepareSpend verified (st_funderAddress status) (passkey_val passkey) w = (Ok p, w').
Definition preparation_for (d : WizardState) (verified : VerifiedAccount) (funder : string)
    (passkey : PasskeyRecord) : Prop :=
  ∃ status account,
    d = ActionableState ready_to_spend status (Some account) (Some passkey) ∧
    spend_account status account = Ok verified ∧ funder = st_funderAddress status.

Inductive mounted (d : WizardState) : component → Prop :=
  | m_none : mounted d NoStep
  | m_passkey status account passkey st lock :
      d = ActionableState needs_passkey status account passkey → mounted d (PasskeyStep st lock)
  | m_account status account passkey st lock :
      d = ActionableState needs_account status account (Some passkey) →
      mounted d (BootstrapStep st lock)
  | m_spend status account passkey effect st lock :
      d = ActionableState ready_to_spend status (Some account) (Some passkey) →
      (∀ p, st = SpReady p None → prepared_for d p) → mounted d (SpendStep effect st lock)
  | m_receipt stage status receipt st lock :
      d = ReceiptState stage status receipt → stage = submitted ∨ stage = committed →
      mounted d (ReceiptStep st lock).

Definition plain (state : WizardState) : Prop :=
  match state with ReceiptState _ _ _ => False | _ => True end.

(** What holds of every session: the mounted component and the one of the last commit belong
    to what is displayed, and pending preparations to the component that started them. *)
Record coherent (s : session) : Prop := {
  ch_plain : plain (a_state (s_app s));
  ch_component : mounted (v_displayed (s_view s)) (s_component s);
  ch_view : mounted (v_displayed (s_view s)) (v_component (s_view s));
  ch_tasks : ∀ id effect verified funder passkey,
    TPrepare id effect verified funder passkey ∈ s_tasks s →
    (effect < s_next s)%nat ∧
    ∀ st lock, s_component s = SpendStep effect st lock →
      preparation_for (v_displayed (s_view s)) verified funder passkey }.

(** Handlers that leave all of this. *)
Record keeps (s s' : session) : Prop := {
  k_view : s_view s' = s_view s;
  k_next : s_next s' = s_next s;
  k_plain : plain (a_state (s_app s)) → plain (a_state (s_app s'));
  k_mounted : ∀ d, mounted d (s_component s) → mounted d (s_component s');
  k_effect : ∀ effect st lock, s_component s' = SpendStep effect st lock →
    ∃ st lock, s_component s = SpendStep effect st lock;
  k_tasks : ∀ id effect verified funder passkey,
    TPrepare id effect verified funder passkey ∈ s_tasks s' →
    TPrepare id effect verified funder passkey ∈ s_tasks s }.

Lemma keeps_refl s : keeps s s.
Proof. constructor; eauto. Qed.
Lemma keeps_trans s1 s2 s3 : keeps s1 s2 → keeps s2 s3 → keeps s1 s3.
Proof.
  intros [V1 N1 P1 M1 E1 T1] [V2 N2 P2 M2 E2 T2]. constructor; try congruence; eauto.
  intros effect st lock H. destruct (E2 _ _ _ H) as (st' & lock' & H'). eauto.
Qed.

Lemma keeps_coherent s s' : keeps s s' → coherent s → coherent s'.
Proof.
  intros [HV HN HP HM HE HT] [C1 C2 C3 C4]. constructor; rewrite ?HV, ?HN; eauto.
  intros id effect verified funder passkey H. destruct (C4 _ _ _ _ _ (HT _ _ _ _ _ H)) as [Hlt Hp].
  split; [done|]. intros st lock Hc. destruct (HE _ _ _ Hc) as (st' & lock' & Hc'). eauto.
Qed.

(** Updates of a component. *)
Record gentle (f : component → component) : Prop := {
  g_mounted : ∀ d c, mounted d c → mounted d (f c);
  g_effect : ∀ c effect st lock, f c = SpendStep effect st lock →
    ∃ st lock, c = SpendStep effect st lock }.

Ltac gentle_tac :=
  constructor; [intros d c []; cbn; econstructor; eauto|intros [] ? ? ?; cbn; intros [=]; subst; eauto].
Lemma gentle_passkey st : gentle (finish_passkey st).
Proof. gentle_tac. Qed.
Lemma gentle_bootstrap st : gentle (finish_bootstrap st).
Proof. gentle_tac. Qed.
Lemma gentle_spend st : (∀ p, st ≠ SpReady p None) → gentle (set_spend st).
Proof.
  intros H. constructor.
  - intros d c []; cbn; econstructor; eauto. intros p E. by destruct (H p).
  - intros [] ? ? ?; cbn; intros [=]; subst; eauto.
Qed.
Lemma gentle_unlock_spend : gentle unlock_spend.
Proof. gentle_tac. Qed.
Lemma gentle_view f : gentle (set_view f).
Proof. gentle_tac. Qed.
Lemma gentle_unlock_receipt : gentle unlock_receipt.
Proof. gentle_tac. Qed.
Lemma gentle_compose f g : gentle f → gentle g → gentle (λ c, f (g c)).
Proof. intros [] []. constructor; [eauto|]. intros c effect st lock H.
  destruct (g_effect0 _ _ _ _ H) as (? & ? & H'). eauto. Qed.

(** ** Every handler keeps this *)

Lemma keeps_update id f s : gentle f → keeps s (update id f s).
Proof.
  intros [G1 G2]. unfold update. destruct (decide _); [|apply keeps_refl].
  constructor; cbn; eauto.
Qed.
Lemma keeps_component c s :
  (∀ d, mounted d (s_component s) → mounted d c) →
  (∀ effect st lock, c = SpendStep effect st lock →
     ∃ st lock, s_component s = SpendStep effect st lock) →
  keeps s (set_component c s).
Proof. constructor; cbn; eauto. Qed.
Lemma keeps_state v s : plain v → keeps s (set_state v s).
Proof. constructor; cbn; eauto. Qed.
Lemma keeps_receipt r s : keeps s (set_receipt r s).
Proof. constructor; cbn; eauto. Qed.
Lemma keeps_postCommitError e s : keeps s (set_postCommitError e s).
Proof. constructor; cbn; eauto. Qed.
Lemma keeps_reconciledCommit h s : keeps s (set_reconciledCommit h s).
Proof. constructor; cbn; eauto. Qed.
Lemma keeps_event e s : keeps s (record_event e s).
Proof. constructor; cbn; eauto. Qed.
Definition prepares (t : task) : bool := match t with TPrepare _ _ _ _ _ => true | _ => false end.
Lemma keeps_task t s : prepares t = false → keeps s (add_task t s).
Proof.
  intros Ht. constructor; cbn; eauto. intros id effect verified funder passkey.
  rewrite elem_of_app, list_elem_of_singleton. intros [H|<-]; done.
Qed.

Lemma reconcile_plain status account passkey : plain (reconcile status account passkey).
Proof.
  unfold reconcile. repeat case_match; done.
Qed.
Lemma refreshed_plain passkey r : plain (refreshed_state passkey r).
Proof. destruct r as [[]|]; [apply reconcile_plain|done]. Qed.

Lemma handlePasskeyCreated_keeps closure passkey s : keeps s (handlePasskeyCreated closure passkey s).
Proof.
  unfold handlePasskeyCreated. repeat case_match; try apply keeps_refl.
  apply keeps_state, reconcile_plain.
Qed.
Lemma handleAccountCreated_keeps closure s : keeps s (handleAccountCreated closure s).
Proof.
  unfold handleAccountCreated. repeat case_match; try apply keeps_refl. by apply keeps_task.
Qed.
Lemma handleSpendReceipt_keeps closure value s : keeps s (handleSpendReceipt closure value s).
Proof.
  unfold handleSpendReceipt. destruct (safeParse _ value) as [data|]; [|by apply keeps_state].
  assert (H : ∀ passkey, keeps s (add_task (TRefresh passkey true)
    (set_postCommitError None (set_reconciledCommit (rc_txHash (receipt_of data))
      (set_receipt (receipt_of data) s))))).
  { intros passkey. eapply keeps_trans; [apply keeps_receipt|].
    eapply keeps_trans; [apply keeps_reconciledCommit|].
    eapply keeps_trans; [apply keeps_postCommitError|by apply keeps_task]. }
  repeat case_match; try apply keeps_receipt. apply H.
Qed.

(** A press adds a task and an event, and updates its own component. *)
Lemma keeps_pressed c e t s :
  prepares t = false → (∀ d, mounted d (s_component s) → mounted d c) →
  (∀ effect st lock, c = SpendStep effect st lock →
     ∃ st lock, s_component s = SpendStep effect st lock) →
  keeps s (add_task t (record_event e (set_component c s))).
Proof.
  intros Ht Hm He. eapply keeps_trans; [by apply keeps_component|].
  eapply keeps_trans; [apply keeps_event|by apply keeps_task].
Qed.

Ltac own_component E :=
  first [ intros d Hm; rewrite E in Hm; inversion Hm; subst; econstructor; by eauto
        | intros ? ? ? [=]; subst; rewrite E; by eauto ].

Lemma createPasskey_keeps closure state s : keeps s (createPasskey closure state s).
Proof.
  unfold createPasskey. destruct (s_component s) eqn:E; try apply keeps_refl.
  destruct (_ || _); [apply keeps_refl|]. apply keeps_pressed; [done|own_component E..].
Qed.
Lemma createAccount_keeps closure state status passkey s :
  keeps s (createAccount closure state status passkey s).
Proof.
  unfold createAccount. destruct (s_component s) eqn:E; try apply keeps_refl.
  destruct (_ || _); [apply keeps_refl|]. apply keeps_pressed; [done|own_component E..].
Qed.
Lemma authorize_keeps closure state prepared passkey s :
  keeps s (authorize closure state prepared passkey s).
Proof.
  unfold authorize. destruct (s_component s) eqn:E; try apply keeps_refl.
  destruct (_ || _); [apply keeps_refl|]. apply keeps_pressed; [done| |own_component E].
  intros d Hm. rewrite E in Hm. inversion Hm; subst. by econstructor.
Qed.
Lemma checkAgain_keeps closure receipt s : keeps s (checkAgain closure receipt s).
Proof.
  unfold checkAgain. destruct (s_component s) eqn:E; try apply keeps_refl.
  destruct (_ || _); [apply keeps_refl|]. apply keeps_pressed; [done|own_component E..].
Qed.
Lemma copyHash_keeps s : keeps s (copyHash clipboard s).
Proof.
  unfold copyHash. destruct (s_component s) eqn:E; try apply keeps_refl.
  destruct clipboard; [eapply keeps_trans; [|by apply keeps_task]|];
    apply keeps_component; own_component E.
Qed.

Lemma presses_keep s s1 : s1 ∈ presses s → keeps s s1.
Proof.
  assert (Hone : ∀ b s2, keeps s s2 → s1 ∈ (if b : bool then [s2] else []) → keeps s s1).
  { intros [] s2 Hs; [by intros ->%list_elem_of_singleton|by intros ?%not_elem_of_nil]. }
  unfold Session.presses. destruct (v_component (s_view s)) as [|st lock|st lock|effect st lock|st lock];
    [by intros ?%not_elem_of_nil| | | |].
  - apply Hone, createPasskey_keeps.
  - repeat case_match; try (by intros ?%not_elem_of_nil).
    intros ->%list_elem_of_singleton. apply createAccount_keeps.
  - repeat case_match; try (by intros ?%not_elem_of_nil).
    intros ->%list_elem_of_singleton. apply authorize_keeps.
  - destruct (v_displayed (s_view s)); try (by intros ?%not_elem_of_nil).
    intros [H|H]%elem_of_app; revert H; apply Hone; [apply copyHash_keeps|apply checkAgain_keeps].
Qed.

(** ** Settled promises and commits *)

Lemma coherent_fewer l1 t l2 s :
  s_tasks s = l1 ++ t :: l2 → coherent s → coherent (set_tasks (l1 ++ l2) s).
Proof.
  intros Et [C1 C2 C3 C4]. constructor; cbn; try done. intros id effect verified funder passkey H.
  apply (C4 id). rewrite Et. rewrite elem_of_app, elem_of_cons. rewrite elem_of_app in H. tauto.
Qed.

Lemma spend_failure_notice prepared e p : spend_failure prepared e ≠ SpReady p None.
Proof. unfold spend_failure. by repeat case_match. Qed.
Lemma authorized_notice reviewed now passkey assertion st p :
  authorized reviewed now passkey assertion = inl st → st ≠ SpReady p None.
Proof.
  unfold authorized. intros H. repeat case_match; try discriminate H;
    injection H as <-; first [apply spend_failure_notice|done].
Qed.

Lemma keeps_closing id f st s :
  (∀ p, st ≠ SpReady p None) → gentle f → keeps s (update id (λ c, f (set_spend st c)) s).
Proof.
  intros H Hf. apply keeps_update, gentle_compose; [done|by apply gentle_spend].
Qed.

(** All settlements but those of a preparation. *)
Lemma settles_keep t s s' : prepares t = false → settles t s s' → keeps s s'.
Proof.
  intros Ht H. destruct H as [passkey r s|id closure r save s w w' _ _|id closure status passkey r s w w' _
    |passkey afterCommit r s _| |id closure passkey reviewed now r s w w' _|id closure prepared tx r s w w' _
    |id closure prepared receipt r s w w' _|id r s]; try discriminate Ht.
  - apply keeps_state, refreshed_plain.
  - unfold registered_with. repeat case_match; try (apply keeps_update, gentle_passkey).
    eapply keeps_trans; [apply keeps_update, gentle_passkey|apply handlePasskeyCreated_keeps].
  - unfold account_created.
    apply (keeps_trans _ (record_event (SCreated (created_account status r)) s)); [apply keeps_event|].
    destruct (created_account _ _); [|apply keeps_update, gentle_bootstrap].
    eapply keeps_trans; [apply keeps_update, gentle_bootstrap|apply handleAccountCreated_keeps].
  - unfold refreshed_after. destruct afterCommit; [|apply keeps_state, refreshed_plain].
    destruct r as [[status account]|]; [|apply keeps_postCommitError].
    pose proof (reconcile_plain status account (Some passkey)).
    destruct (reconcile _ _ _); by first [apply keeps_state|apply keeps_postCommitError].
  - unfold asserted_with. destruct (authorized _ _ _ _) as [st|tx] eqn:Ea.
    + apply keeps_closing; [|apply gentle_unlock_spend]. intros p. by eapply authorized_notice.
    + eapply keeps_trans; [by apply (keeps_update id (set_spend (SpWorking now submitting))), gentle_spend|].
      eapply keeps_trans; [apply keeps_event|by apply keeps_task].
  - unfold submitted_with. destruct r as [receipt|e].
    + eapply keeps_trans; [by apply (keeps_update id (set_spend (SpSubmitted prepared))), gentle_spend|].
      eapply keeps_trans; [apply handleSpendReceipt_keeps|].
      eapply keeps_trans; [apply keeps_event|by apply keeps_task].
    + apply keeps_closing; [|apply gentle_unlock_spend]. apply spend_failure_notice.
  - unfold confirmed_with. destruct prepared as [p|], r as [receipt'|e].
    + eapply keeps_trans; [apply handleSpendReceipt_keeps|]. apply keeps_update, gentle_unlock_spend.
    + apply keeps_closing; [|apply gentle_unlock_spend]. apply spend_failure_notice.
    + eapply keeps_trans; [apply handleSpendReceipt_keeps|].
      apply keeps_update, gentle_compose; [apply gentle_unlock_receipt|apply gentle_view].
    + apply keeps_update, gentle_compose; [apply gentle_unlock_receipt|apply gentle_view].
  - apply keeps_update, gentle_view.
Qed.

Lemma settle_coherent t l1 l2 s s' :
  coherent s → s_tasks s = l1 ++ t :: l2 → settles t (set_tasks (l1 ++ l2) s) s' → coherent s'.
Proof.
  intros Hc Et H. pose proof (coherent_fewer _ _ _ _ Et Hc) as Hf.
  destruct (prepares t) eqn:Ht; [|by eapply keeps_coherent; [eapply settles_keep|]].
  destruct t as [| | | |id effect verified funder passkey| | | |]; try discriminate Ht.
  inversion H as [| | | |? ? ? ? ? r ? w w' Hr| | | |]; subst. unfold prepared_with, update.
  destruct (decide _); [|done]. destruct Hc as [_ _ _ C4].
  destruct (C4 id effect verified funder passkey) as [_ Hp].
  { rewrite Et. rewrite elem_of_app, elem_of_cons. auto. }
  destruct Hf as [F1 F2 F3 F4]. constructor; cbn; try done.
  - cbn in F2. destruct (s_component s) as [| | |current st lock|]; try done.
    destruct (decide _) as [->|]; [|done]. destruct (Hp st lock eq_refl) as (status & account & Hd & Hv & ->).
    econstructor; [exact Hd|]. intros p E. destruct r as [p'|]; [|done]. injection E as ->.
    by exists status, account, passkey, verified, w, w'.
  - intros id' effect' verified' funder' passkey' Hin. destruct (F4 _ _ _ _ _ Hin) as [Hlt Hp'].
    split; [done|]. intros st lock E. cbn in Hp'.
    destruct (s_component s) as [| | |current st0 lock0|]; try discriminate E.
    destruct (decide _); injection E as -> _ _; by eapply Hp'.
Qed.

Lemma displayed_receipt a stage status receipt :
  plain (a_state a) → displayed a = ReceiptState stage status receipt →
  stage = submitted ∨ stage = committed.
Proof.
  unfold Session.displayed, withReceipt. intros Hp H.
  destruct (a_receipt a), receipt_prop, (a_state a) as [|[]| |]; repeat case_match; try done;
    injection H as <- _ _; auto.
Qed.

(** What a rendering leaves to the commit. *)
Record ready (d : WizardState) (s s' : session) : Prop := {
  rd_app : s_app s' = s_app s;
  rd_mounted : mounted d (s_component s');
  rd_tasks : ∀ id effect verified funder passkey,
    TPrepare id effect verified funder passkey ∈ s_tasks s' →
    (effect < s_next s')%nat ∧
    ∀ st lock, s_component s' = SpendStep effect st lock →
      preparation_for d verified funder passkey }.

Lemma ready_kept d s :
  coherent s → mounted d (s_component s) →
  (∀ effect st lock, s_component s ≠ SpendStep effect st lock) → ready d s s.
Proof.
  intros [_ _ _ C4] Hm Hn. constructor; try done. intros id effect verified funder passkey H.
  split; [by eapply C4|]. intros st lock E. by destruct (Hn effect st lock).
Qed.
Lemma ready_mount d c s :
  coherent s → mounted d c → (∀ effect st lock, c ≠ SpendStep effect st lock) →
  ready d s (mount c s).
Proof.
  intros [_ _ _ C4] Hm Hn. constructor; cbn; try done. intros id effect verified funder passkey H.
  split; [apply C4 in H; lia|]. intros st lock E. by destruct (Hn effect st lock).
Qed.

Lemma ready_prepare status account passkey verified lock s s0 :
  spend_account status account = Ok verified →
  s_app s0 = s_app s → s_tasks s0 = s_tasks s → (s_next s <= s_next s0)%nat → coherent s →
  ready (ActionableState ready_to_spend status (Some account) (Some passkey)) s
    (start_prepare verified status passkey lock s0).
Proof.
  intros Hv Ha Ht Hn [_ _ _ C4]. constructor; cbn; [done| |].
  - econstructor; [done|]. by intros p [=].
  - intros id effect verified' funder passkey'. rewrite elem_of_app, list_elem_of_singleton, Ht.
    intros [H|[= -> -> -> -> ->]].
    + apply C4 in H as [H _]. split; [lia|]. intros st lk [= <- _ _]. lia.
    + split; [lia|]. intros st lk _. by exists status, account.
Qed.

Lemma rendered_ready d s s' :
  coherent s → (∀ stage status receipt, d = ReceiptState stage status receipt →
    stage = submitted ∨ stage = committed) →
  rendered d s = Ok s' → ready d s s'.
Proof.
  intros Hc Hr H. assert (Hnone : match s_component s with NoStep => s | _ => mount NoStep s end = s' →
    ready d s s').
  { intros <-. destruct (s_component s) eqn:E;
      (apply ready_mount || apply ready_kept); rewrite ?E; done || constructor. }
  unfold rendered in H.
  destruct d as [|[] status account passkey|stage status receipt|]; try (apply Hnone; congruence).
  - injection H as <-. destruct (s_component s) eqn:E; (apply ready_mount || apply ready_kept);
      rewrite ?E; try done; by econstructor.
  - destruct passkey as [passkey|]; [|apply Hnone; congruence].
    injection H as <-. destruct (s_component s) eqn:E; (apply ready_mount || apply ready_kept);
      rewrite ?E; try done; by econstructor.
  - destruct account as [account|], passkey as [passkey|]; try (apply Hnone; congruence).
    apply bind_Ok_iff in H as (verified & Hv & [= <-]).
    destruct (s_component s); apply ready_prepare; cbn; try done; lia.
  - injection H as <-. destruct (s_component s) eqn:E; (apply ready_mount || apply ready_kept);
      rewrite ?E; try done; econstructor; by eauto.
Qed.

Lemma render_coherent s s' : coherent s → render s = Ok s' → coherent s'.
Proof.
  intros Hc H. unfold Session.render in H. destruct (a_dirty (s_app s)).
  - apply bind_Ok_iff in H as (s1 & H & [= <-]).
    assert (Hd : ∀ stage status receipt, displayed (s_app s) = ReceiptState stage status receipt →
      stage = submitted ∨ stage = committed).
    { intros stage status receipt. apply displayed_receipt, Hc. }
    destruct (rendered_ready _ _ _ Hc Hd H) as [Ea Em Et].
    constructor; cbn; try done. rewrite Ea. apply Hc.
  - injection H as <-. destruct Hc as [C1 C2 C3 C4]. by constructor.
Qed.

Lemma reachable_coherent s : Session.reachable receipt_prop clipboard s → coherent s.
Proof.
  induction 1 as [passkey w w' _|s s' _ IH Hs].
  - constructor; cbn; try done; [constructor..|].
    intros id effect verified funder pk. by rewrite list_elem_of_singleton.
  - destruct Hs as [s s' Hr|s s1 s' Hin Hr|s l1 t l2 s' Et H].
    + by eapply render_coherent.
    + eapply render_coherent; [|exact Hr]. eapply keeps_coherent; [|exact IH]. by apply presses_keep.
    + by eapply settle_coherent.
Qed.
End coherent.

(** ** The buttons *)

Section buttons.
Context {WB WS WF WC : Type} {zod : Zod} {zod_laws : ZodLaws} {ccc : Ccc} {json : Json}.
Context {browser : Browser WB} {storage : Storage WS} {fetcher : Fetch WF}.
Context {client : SpendClient WC}.
Context (receipt_prop : option jsval) (clipboard : bool).

Lemma receipt_same status r d :
  safeParse (receipt_schema status) (receipt_val r) = Some d → receipt_of d = r.
Proof.
  unfold receipt_schema, receipt_val, Hash32Schema, decimalString, hexBytes.
  destruct r as [h u c t]. rewrite sp_object.
  cbn [forallb has_key assoc String.eqb Ascii.eqb Bool.eqb andb negb fst snd existsb].
  cbn -[safeParse test]. rewrite !sp_string, sp_lit_str. cbn -[test]. intros H.
  repeat match type of H with context [if ?b then _ else _] => destruct b; [cbn in H|discriminate H] end.
  by injection H as <-.
Qed.
Lemma transaction_receipt_same r d :
  safeParse TransactionReceiptSchema (receipt_val r) = Some d → receipt_of d = r.
Proof.
  unfold TransactionReceiptSchema. rewrite sp_union.
  rewrite submitted_schema, committed_schema, timeout_schema.
  cbn [is_plain receipt_val]. destruct (List.find _ _) as [o|] eqn:E; [|done].
  apply List.find_some in E as [Hin _]. revert Hin.
  intros [<-|[<-|[<-|[]]]]; apply receipt_same.
Qed.

(** What a press of a button of the last commit does. *)
Definition handle (s : session) (h : handler) : session :=
  let v := s_view s in
  match h, v_component v with
  | HCreatePasskey, PasskeyStep st _ => createPasskey (v_closure v) st s
  | HCreateAccount status passkey, BootstrapStep st _ =>
      createAccount (v_closure v) st status passkey s
  | HAuthorize prepared passkey, SpendStep _ st _ =>
      authorize (v_closure v) st prepared passkey s
  | HCopyHash, ReceiptStep _ _ => copyHash clipboard s
  | HCheckAgain receipt, ReceiptStep _ _ => checkAgain (v_closure v) receipt s
  | _, _ => s
  end.

Lemma enabled_passkey problem st :
  enabled (PasskeyStep_view problem st) =
  match problem, st with
  | None, (PkReady | PkCancelled) => [HCreatePasskey]
  | _, _ => []
  end.
Proof. destruct problem, st; reflexivity. Qed.
Lemma enabled_account status passkey st :
  enabled (BootstrapStep_view status passkey st) =
  if bootstrap_enabled st then [HCreateAccount status passkey] else [].
Proof. destruct st as [| | |message []]; reflexivity. Qed.

Lemma enabled_dependencies l : flat_map enabled (dependency_item <$> l) = [].
Proof. induction l as [|[[name h] i] l IH]; [done|]. cbn. exact IH. Qed.
Lemma enabled_review p : flat_map enabled (review_summary p) = [].
Proof.
  unfold review_summary. pose proof (enabled_dependencies (dependencies (review p))) as H.
  cbn. cbn in H. by rewrite H.
Qed.
Lemma enabled_spend passkey st :
  enabled (SpendStep_view passkey st) =
  match spend_enabled st with Some p => [HAuthorize p passkey] | None => [] end.
Proof.
  unfold SpendStep_view, card. cbn [enabled assoc String.eqb Ascii.eqb Bool.eqb].
  rewrite !flat_map_app.
  assert (H : flat_map enabled match state_prepared st with
                               | Some p => review_summary p | None => [] end = [])
    by (destruct (state_prepared st); [apply enabled_review|done]).
  rewrite H. destruct st as [|p [n|]|p []|p|m [p|]]; reflexivity.
Qed.
Lemma enabled_receipt r st error :
  enabled (Receipt_view r st error) =
  (if receipt_shown r then [HCopyHash] else []) ++
  (if check_enabled r st then [HCheckAgain r] else []).
Proof.
  unfold Receipt_view, check_enabled, receipt_shown, receipt_link_ok.
  destruct (safeParse _ _) as [data|] eqn:E; [|done].
  apply transaction_receipt_same in E as ->.
  destruct (String.eqb (rc_explorerUrl r) _); [|done]. cbn [negb andb].
  unfold receipt_card, card. destruct (String.eqb (rc_status r) _), (rv_error st), error, (rv_checking st);
   reflexivity.
Qed.

Lemma enabled_header status : enabled (StatusHeader_view status) = [].
Proof. by destruct status. Qed.
Lemma enabled_page error v :
  enabled (App_view true error v) = flat_map enabled (step_view true (v_displayed v) (v_component v) error).
Proof.
  unfold App_view. cbn [enabled assoc String.eqb Ascii.eqb Bool.eqb flat_map].
  by rewrite enabled_header, !app_nil_r.
Qed.

Lemma fmap_if {A B} (f : A → B) (b : bool) x : f <$> (if b then [x] else []) = if b then [f x] else [].
Proof. by destruct b. Qed.

Lemma presses_enabled error s :
  coherent s → presses clipboard s = handle s <$> enabled (App_view true error (s_view s)).
Proof.
  intros [_ _ Hm _]. rewrite enabled_page. unfold presses, handle.
  destruct (v_displayed (s_view s)) as [|stage status account passkey|stage status receipt|st h m],
    (v_component (s_view s)) as [|st1 lock|st1 lock|eff st1 lock|st1 lock];
    inversion Hm; simplify_eq; try done; cbn [step_view].
  - destruct stage; try done; by destruct passkey.
  - cbn [flat_map]. rewrite enabled_passkey, app_nil_r. unfold passkey_enabled.
    by destruct passkeyCapabilityProblem, st1.
  - cbn [flat_map]. rewrite enabled_account, app_nil_r. by rewrite fmap_if.
  - cbn [negb]. rewrite bool_decide_true by done. cbn [when_ flat_map].
    rewrite enabled_spend, app_nil_r. by destruct (spend_enabled st1).
  - by destruct stage.
  - match goal with H : _ = submitted ∨ _ = committed |- _ => destruct H as [-> | ->] end;
      cbn [when_ flat_map]; by rewrite enabled_receipt, app_nil_r, fmap_app, !fmap_if.
Qed.

(** C24 — The markup and the sessions agree: in every reachable session the enabled buttons of
    the page of the last commit, in order, are the presses that the session offers, each with
    the values it was rendered with. *)
Theorem buttons_press (error : option string) (s : session) :
  reachable receipt_prop clipboard s →
  presses clipboard s = handle s <$> enabled (App_view true error (s_view s)).
Proof. intros H%reachable_coherent. by apply presses_enabled. Qed.
End buttons.

(** ** The review of a spend *)

Section review.
Context {WB WS WF WC : Type} {zod : Zod} {zod_laws : ZodLaws} {ccc : Ccc} {ccc_laws : CccLaws}.
Context {json : Json} {browser : Browser WB} {storage : Storage WS} {fetcher : Fetch WF}.
Context {client : SpendClient WC}.
Context (receipt_prop : option jsval) (clipboard : bool).

Definition outpoint_text (o : OutPoint) : string := op_txHash o +:+ ":" +:+ dec (op_index o).

(** The text of one term is this amount. *)
Definition shows_amount (page : node) (term : string) (amount : Z) : Prop :=
  ∃ text, shown page term = [text] ∧ read_ckb text = Some amount.

(** A page shows a transaction that spends [asset]: the capacities of the cell, of the two
    outputs and of the fee, the cell itself and the cells the transaction depends on. *)
Record shows_transaction (page : node) (funder : string) (account : VerifiedAccount)
    (asset : Cell) (p : PreparedSpend) : Prop := {
  sh_input : ∃ since,
    tx_inputs (transaction p) =
      [{| in_previousOutput := cell_outPoint asset; in_since := since |}] ∧
    shown page "Live asset input" = [outpoint_text (cell_outPoint asset)] ∧
    shows_amount page "Input capacity" (co_capacity (cell_cellOutput asset));
  sh_outputs : ∃ lock change,
    tx_outputs (transaction p) = [
      {| co_capacity := 10000000000; co_lock := lock; co_type := None |};
      {| co_capacity := change; co_lock := accountLock account; co_type := None |}] ∧
    Address_fromString funder addressPrefix = Ok lock ∧
    shown page "Backend funder" = [funder] ∧
    shows_amount page "Transfer to local funder" 10000000000 ∧
    shows_amount page "AccountLock change" change ∧
    let fee := co_capacity (cell_cellOutput asset) - 10000000000 - change in
    (0 <= fee → shows_amount page "Transaction fee" fee);
  sh_dependencies : ∃ d1 d2 d3, tx_cellDeps (transaction p) = [d1; d2; d3] ∧
    rows "span" "code" page = [
      ("AccountLock code", outpoint_text (cd_outPoint d1));
      ("P-256 verifier code", outpoint_text (cd_outPoint d2));
      ("AccountState cell", outpoint_text (cd_outPoint d3))];
  sh_digest : shown page "Authorization digest" = [hexFromBytes (ps_authorizationDigest p)] ∧
    spend_message (accountId p) (stateData p) (sequence p) (transaction p) =
      Ok (ps_authorizationDigest p) }.

(** The page on which a spend waits for its authorization. *)
Definition review_page (error : option string) (status : DemoStatus) (passkey : PasskeyRecord)
    (p : PreparedSpend) (notice : option string) : node :=
  Element "div" [("className", AText "app-shell")] [
    StatusHeader_view (Some status);
    Element "main" [("className", AText "wizard");
                    ("aria-label", AText "Passkey account setup")]
      [SpendStep_view passkey (SpReady p notice)];
    Element "footer" [] [Element "p" []
      [Text "Reference implementation · Local browser ceremony · CKB testnet only"]]].

Lemma review_terms error status passkey p notice :
  rows "dt" "dd" (review_page error status passkey p notice) = [
    ("Backend funder", st_funderAddress status);
    ("Public balance", formatCkbBalance (BigInt (st_funderBalanceShannons status)));
    ("Deployment", if st_deploymentVerified status then "Code cells verified"
                   else "Verification required");
    ("Input capacity", formatCkb (BigInt (inputCapacityShannons (review p))));
    ("Transfer to local funder", formatCkb (BigInt (transferCapacityShannons (review p))));
    ("AccountLock change", formatCkb (BigInt (changeCapacityShannons (review p))));
    ("Transaction fee", formatCkb (BigInt (feeShannons (review p))));
    ("Live asset input", (inputOutPoint (review p)).1 +:+ ":" +:+ dec (inputOutPoint (review p)).2);
    ("Authorization digest", hexFromBytes (ps_authorizationDigest p))].
Proof.
  assert (Hd : ∀ l, flat_map (rows "dt" "dd") (dependency_item <$> l) = []).
  { intros l. induction l as [|[[name h] i] l IH]; [done|]. cbn. exact IH. }
  assert (Hr : ∀ l, row "dt" "dd" (dependency_item <$> l) = None).
  { intros [|[[n1 h1] i1] [|[[n2 h2] i2] [|[[n3 h3] i3] l]]]; reflexivity. }
  cbn -[formatCkb BigInt hexFromBytes dec formatCkbBalance dependency_item].
  rewrite Hr, Hd. by destruct notice.
Qed.

Lemma review_dependencies error status passkey p notice a b c :
  dependencies (review p) = [a; b; c] →
  rows "span" "code" (review_page error status passkey p notice) = [
    (dependencyName a.1.1, a.1.2 +:+ ":" +:+ dec a.2);
    (dependencyName b.1.1, b.1.2 +:+ ":" +:+ dec b.2);
    (dependencyName c.1.1, c.1.2 +:+ ":" +:+ dec c.2)].
Proof.
  destruct a as [[n1 h1] i1], b as [[n2 h2] i2], c as [[n3 h3] i3]. intros E.
  unfold review_page, SpendStep_view, review_summary. cbn [state_prepared]. rewrite E.
  cbn -[formatCkb BigInt hexFromBytes dec formatCkbBalance dependencyName].
  by destruct notice.
Qed.

Lemma spend_shown error status passkey p notice verified pk publicKey state asset :
  prepared verified (st_funderAddress status) pk publicKey state asset p →
  shows_transaction (review_page error status passkey p notice) (st_funderAddress status)
    verified asset p.
Proof.
  intros [_ (lock & Ha & Ht & Hr & Hc & _) _ _ _ Hm _ _ Hin].
  set (fee := estimateFee _ _) in *.
  set (change := co_capacity (cell_cellOutput asset) - TRANSFER_CAPACITY - fee) in *.
  pose proof (review_terms error status passkey p notice) as Hterms.
  rewrite Hr in Hterms. set (page := review_page error status passkey p notice) in *.
  assert (Hterm : ∀ term text, omap (λ e : string * string,
      if String.eqb e.1 term then Some e.2 else None) (rows "dt" "dd" page) = [text] →
    shown page term = [text]) by done.
  rewrite Hterms in Hterm. cbn [spend_review inputCapacityShannons transferCapacityShannons
    changeCapacityShannons feeShannons inputOutPoint fst snd] in Hterm.
  assert (Hamount : ∀ term z, 0 <= z → shown page term = [formatCkb (BigInt (dec z))] →
    shows_amount page term z).
  { intros term z Hz Hs. eexists. split; [exact Hs|]. rewrite BigInt_dec by done.
    by apply read_formatted. }
  constructor; rewrite ?Ht; cbn [spend_transaction set_change tx_outputs tx_inputs tx_cellDeps].
  - eexists. split; [reflexivity|]. split; [by apply Hterm|].
    apply Hamount; [unfold TRANSFER_CAPACITY, SHANNONS_PER_CKB in Hin; lia|by apply Hterm].
  - exists lock, change. split; [reflexivity|]. split; [exact Ha|]. split; [by apply Hterm|].
    split; [apply Hamount; [done|by apply Hterm]|].
    split; [apply Hamount; [lia|by apply Hterm]|]. intros Hfee.
    apply Hamount; [exact Hfee|].
    replace (co_capacity (cell_cellOutput asset) - 10000000000 - change) with fee
      by (unfold change, TRANSFER_CAPACITY, SHANNONS_PER_CKB; lia). by apply Hterm.
  - eexists _, _, _. split; [reflexivity|].
    unfold page. erewrite review_dependencies; [|rewrite Hr; reflexivity]. reflexivity.
  - split; [by apply Hterm|]. rewrite <- Ht. exact Hm.
Qed.

(** The one asset that a preparation found, and what it prepared. *)
Lemma prepared_shown error status passkey p notice verified (w w' : world WC chain_event) :
  prepareSpend verified (st_funderAddress status) (passkey_val passkey) w = (Ok p, w') →
  ∃ state asset parsed, discovered verified w w' state asset parsed ∧
    shows_transaction (review_page error status passkey p notice) (st_funderAddress status)
      verified asset p.
Proof.
  intros (pk & publicKey & state & asset & parsed & _ & _ & _ & _ & Hd & Hp)%prepareSpend_inv.
  exists state, asset, parsed. split; [done|]. by eapply spend_shown.
Qed.

(** Only the spend step, with a spend to review, has the button. *)
Lemma authorizable error d c p passkey :
  mounted (WC := WC) d c →
  HAuthorize p passkey ∈ flat_map enabled (step_view true d c error) →
  ∃ status account effect notice lock,
    d = ActionableState ready_to_spend status (Some account) (Some passkey) ∧
    c = SpendStep effect (SpReady p notice) lock ∧ (notice = None → prepared_for (WC := WC) d p).
Proof.
  intros Hm Hb. apply list_elem_of_In, in_flat_map in Hb as (n & Hn & Hb).
  destruct Hm as [|? ? ? st ? ->|? ? pk st ? ->|status account pk effect st lock -> Hp|? ? r st ? -> Hst];
    cbn [step_view] in Hn.
  - destruct d as [|[] ? ? []|[]|]; try (by destruct Hn); destruct Hn as [<-|[]]; by destruct Hb.
  - destruct Hn as [<-|[]]. rewrite enabled_passkey in Hb.
    destruct passkeyCapabilityProblem, st; naive_solver.
  - destruct Hn as [<-|[]]. rewrite enabled_account in Hb. case_match; naive_solver.
  - cbn [negb] in Hn. rewrite bool_decide_true in Hn by done. destruct Hn as [<-|[]].
    rewrite enabled_spend in Hb. destruct st as [|p' notice| | |]; try done.
    destruct Hb as [[= <- <-]|[]]. exists status, account, effect, notice, lock.
    split; [done|]. split; [done|]. intros ->. by apply Hp.
  - assert (Hb' : HAuthorize p passkey ∈ enabled (Receipt_view r st error)).
    { apply list_elem_of_In. by destruct Hst as [-> | ->], Hn as [<-|[]]. }
    rewrite enabled_receipt in Hb'. apply list_elem_of_In in Hb'.
    destruct (receipt_shown r), (check_enabled r st); cbn in Hb'; intuition discriminate.
Qed.

(** The press of the button of a review asks for the assertion of what is shown, or, when a
    press is already being handled, for nothing. *)
Lemma authorize_logs closure st p passkey (s : session) :
  s_log (authorize closure st p passkey s) = s_log s ∨
  s_log (authorize closure st p passkey s) = s_log s ++ [SAssert p passkey].
Proof.
  unfold authorize. destruct (s_component s); [by left..| |by left].
  destruct (_ || _); [by left|by right].
Qed.

(** C7 — What is shown is what is signed: when a page has an enabled button that authorizes
    [p], its header shows the funder, its review shows the digest of [p], and the press asks
    for an assertion of [p] or for nothing. On the first review [p] was prepared from live
    cells of the displayed account, and then the page shows the transaction of [p]: the cell it
    spends with its capacity, the transfer of 100 CKB to the lock of the shown funder, the
    change back to the account's lock and the fee, each amount readable back from its text, the
    three dependencies, and the digest, which is the authorization digest of that transaction. *)
Theorem shown_is_signed (error : option string) (s : session) (p : PreparedSpend)
    (passkey : PasskeyRecord) :
  reachable receipt_prop clipboard s →
  HAuthorize p passkey ∈ enabled (App_view true error (s_view s)) →
  ∃ status account effect notice lock,
    v_displayed (s_view s) = ActionableState ready_to_spend status (Some account) (Some passkey) ∧
    v_component (s_view s) = SpendStep effect (SpReady p notice) lock ∧
    shown (App_view true error (s_view s)) "Backend funder" = [st_funderAddress status] ∧
    shown (App_view true error (s_view s)) "Authorization digest" =
      [hexFromBytes (ps_authorizationDigest p)] ∧
    (∃ l, s_log (handle clipboard s (HAuthorize p passkey)) = s_log s ++ l ∧
       (l = [] ∨ l = [SAssert p passkey])) ∧
    (notice = None → ∃ verified (w w' : world WC chain_event) state asset parsed,
       spend_account status account = Ok verified ∧
       discovered verified w w' state asset parsed ∧
       shows_transaction (App_view true error (s_view s)) (st_funderAddress status) verified
         asset p).
Proof.
  intros [_ _ Hm _]%reachable_coherent Hb. rewrite enabled_page in Hb.
  destruct (authorizable _ _ _ _ _ Hm Hb) as (status & account & effect & notice & lock & Ed & Ec & Hp).
  assert (Epage : App_view true error (s_view s) = review_page error status passkey p notice).
  { unfold App_view, review_page. by rewrite Ed, Ec. }
  exists status, account, effect, notice, lock. split; [done|]. split; [done|].
  rewrite Epage. unfold shown. rewrite review_terms. split; [reflexivity|]. split; [reflexivity|].
  split.
  - unfold handle. rewrite Ec. destruct (authorize_logs (v_closure (s_view s)) (SpReady p notice) p passkey s)
      as [E|E]; rewrite E; [exists []; by rewrite app_nil_r; auto|eauto].
  - intros Hn. destruct (Hp Hn) as (status' & account' & passkey' & verified & w & w' & Ed' & Hv & Hprep).
    rewrite Ed in Ed'. injection Ed' as <- <- <-.
    destruct (prepared_shown error status passkey p notice verified w w' Hprep)
      as (state & asset & parsed & Hd & Hs).
    exists verified, w, w', state, asset, parsed. done.
Qed.
End review.
