(* ===== verification/Host.v ===== *)
(** * The host's state encoder ([crates/host/src/lib.rs], [config.rs])

    The tool the server runs to turn an account configuration into the bytes of the
    account's initial state. *)

From S2P Require Import Prelude Js JsString Regex Bytes Ccc Wire.

Record Authenticator := {
  au_slot : Z; au_algorithm_id : Z; au_capabilities : Z; au_weight : Z;
  au_verifier_hash_type : Z; au_verifier_abi : Z; au_verifier_code_hash : bytes;
  au_key_id : bytes; au_aux : bytes }.
Record AccountState := {
  st_flags : Z; st_sequence : Z; st_spend_threshold : Z; st_rotate_threshold : Z;
  st_recovery_threshold : Z; st_recovery_since : Z; st_authenticators : list Authenticator }.

Record AuthenticatorConfig := {
  acf_slot : Z; acf_algorithm_id : Z; acf_capabilities : Z; acf_weight : Z;
  acf_verifier_hash_type : Z; acf_verifier_abi : Z; acf_verifier_code_hash : string;
  acf_key_id : string; acf_aux : string }.
Record AccountStateConfig := {
  cf_flags : Z; cf_sequence : Z; cf_spend_threshold : Z; cf_rotate_threshold : Z;
  cf_recovery_threshold : Z; cf_recovery_since : Z;
  cf_authenticators : list AuthenticatorConfig }.

Inductive ConfigError := Invalid | Protocol (e : ProtocolError).

(** ** Reading the configuration *)

(** The derived deserialization: every field present, integers in range. *)
Definition uint (width : Z) (v : jsval) : option Z :=
  match v with
  | JNum (NInt z) => if (0 <=? z) && (z <? 2 ^ width) then Some z else None
  | _ => None
  end.
Definition text_field (v : jsval) : option string :=
  match v with JStr s => Some s | _ => None end.

Definition authenticator_config (v : jsval) : option AuthenticatorConfig :=
  slot ← uint 16 (prop v "slot");
  algorithm ← uint 16 (prop v "algorithm_id");
  capabilities ← uint 16 (prop v "capabilities");
  weight ← uint 16 (prop v "weight");
  hash_type ← uint 8 (prop v "verifier_hash_type");
  abi ← uint 8 (prop v "verifier_abi");
  code_hash ← text_field (prop v "verifier_code_hash");
  key_id ← text_field (prop v "key_id");
  aux ← text_field (prop v "aux");
  Some {| acf_slot := slot; acf_algorithm_id := algorithm; acf_capabilities := capabilities;
          acf_weight := weight; acf_verifier_hash_type := hash_type; acf_verifier_abi := abi;
          acf_verifier_code_hash := code_hash; acf_key_id := key_id; acf_aux := aux |}.

Definition account_state_config (v : jsval) : option AccountStateConfig :=
  flags ← uint 8 (prop v "flags");
  sequence ← uint 64 (prop v "sequence");
  spend ← uint 16 (prop v "spend_threshold");
  rotate ← uint 16 (prop v "rotate_threshold");
  recovery ← uint 16 (prop v "recovery_threshold");
  since ← uint 64 (prop v "recovery_since");
  authenticators ← match prop v "authenticators" with
                   | JArr l => mapM authenticator_config l
                   | _ => None
                   end;
  Some {| cf_flags := flags; cf_sequence := sequence; cf_spend_threshold := spend;
          cf_rotate_threshold := rotate; cf_recovery_threshold := recovery;
          cf_recovery_since := since; cf_authenticators := authenticators |}.

(** ** Encoding *)

Definition u16_len (value : Z) : outcome ProtocolError Z :=
  if value <=? 65535 then Good value else Bad LengthOverflow.

Definition entry_size (auth : Authenticator) : Z := 48 + len (au_key_id auth) + len (au_aux auth).

Fixpoint encode_authenticators (auths : list Authenticator) : outcome ProtocolError bytes :=
  match auths with
  | [] => Good []
  | auth :: auths' =>
      entry_len ← u16_len (entry_size auth);
      key_len ← u16_len (len (au_key_id auth));
      aux_len ← u16_len (len (au_aux auth));
      rest ← encode_authenticators auths';
      Good (le_bytes 2 entry_len ++ le_bytes 2 (au_slot auth) ++
            le_bytes 2 (au_algorithm_id auth) ++ le_bytes 2 (au_capabilities auth) ++
            le_bytes 2 (au_weight auth) ++ [byte_of_Z (au_verifier_hash_type auth)] ++
            [byte_of_Z (au_verifier_abi auth)] ++ au_verifier_code_hash auth ++
            le_bytes 2 key_len ++ le_bytes 2 aux_len ++ au_key_id auth ++ au_aux auth ++ rest)
  end.

(** The capacity sum is far from the bound of [usize] for any list in memory. *)
Definition encode_state (state : AccountState) : outcome ProtocolError bytes :=
  let count := len (st_authenticators state) in
  err_if (count >? 255) InvalidState;;
  let capacity := ACCOUNT_STATE_HEADER_LEN +
    foldr (λ auth sum, entry_size auth + sum) 0 (st_authenticators state) in
  err_if (capacity >? ACCOUNT_STATE_MAX_LEN) InvalidState;;
  entries ← encode_authenticators (st_authenticators state);
  let out := ACCOUNT_STATE_MAGIC ++ [byte_of_Z 1; byte_of_Z (st_flags state)] ++
    le_bytes 2 ACCOUNT_STATE_HEADER_LEN ++ le_bytes 8 (st_sequence state) ++
    le_bytes 2 (st_spend_threshold state) ++ le_bytes 2 (st_rotate_threshold state) ++
    le_bytes 2 (st_recovery_threshold state) ++ [byte_of_Z count; byte_of_Z 0] ++
    le_bytes 8 (st_recovery_since state) ++ entries in
  validate_state out;;
  Good out.

(** [strip_prefix("0x")] and [hex::decode], which also takes capital digits. *)
Definition parse_hex (value : string) : outcome ConfigError bytes :=
  let trimmed := if startsWith "0x" value then str_drop 2 value else value in
  if String.eqb trimmed "" then Good []
  else match bytesFromHex ("0x" +:+ toLowerCase trimmed) with
       | Ok b => Good b
       | Throw _ => Bad Invalid
       end.
Definition parse_hash (value : string) : outcome ConfigError bytes :=
  b ← parse_hex value; err_if (negb (len b =? 32)) Invalid;; Good b.

Definition ALG_P256_WEBAUTHN : Z := 1.

Definition to_authenticator (c : AuthenticatorConfig) : outcome ConfigError Authenticator :=
  err_if (negb (acf_verifier_abi c =? 1)) Invalid;;
  err_if (acf_verifier_hash_type c >? 1) Invalid;;
  err_if (outside_mask (acf_capabilities c) CAP_KNOWN_MASK) Invalid;;
  err_if (acf_weight c =? 0) Invalid;;
  aux ← parse_hex (acf_aux c);
  err_if (len aux =? 0) Invalid;;
  err_if ((acf_algorithm_id c =? ALG_P256_WEBAUTHN) && negb (len aux =? 65)) Invalid;;
  code_hash ← parse_hash (acf_verifier_code_hash c);
  key_id ← parse_hash (acf_key_id c);
  Good {| au_slot := acf_slot c; au_algorithm_id := acf_algorithm_id c;
          au_capabilities := acf_capabilities c; au_weight := acf_weight c;
          au_verifier_hash_type := acf_verifier_hash_type c;
          au_verifier_abi := acf_verifier_abi c; au_verifier_code_hash := code_hash;
          au_key_id := key_id; au_aux := aux |}.

Definition available_weight (auths : list Authenticator) (capability : Z) : Z :=
  foldr (λ a sum, (if negb (Z.land (au_capabilities a) capability =? 0)
                   then au_weight a else 0) + sum) 0 auths.
Definition require_satisfiable (threshold : Z) (auths : list Authenticator) (capability : Z)
    : outcome ConfigError unit :=
  err_if (threshold =? 0) Invalid;;
  err_if (available_weight auths capability <? threshold) Invalid.

Fixpoint to_authenticators (cs : list AuthenticatorConfig)
    : outcome ConfigError (list Authenticator) :=
  match cs with
  | [] => Good []
  | c :: cs' => a ← to_authenticator c; rest ← to_authenticators cs'; Good (a :: rest)
  end.
Fixpoint slots_increase (auths : list Authenticator) : bool :=
  match auths with
  | a :: ((b :: _) as rest) => (au_slot a <? au_slot b) && slots_increase rest
  | _ => true
  end.

Definition protocol {A} (m : outcome ProtocolError A) : outcome ConfigError A :=
  match m with Good a => Good a | Bad e => Bad (Protocol e) | Panic => Panic end.

Definition encode (c : AccountStateConfig) : outcome ConfigError bytes :=
  err_if (negb (cf_sequence c =? 0)) Invalid;;
  err_if (outside_mask (cf_flags c) STATE_FLAGS_KNOWN_MASK) Invalid;;
  err_if (len (cf_authenticators c) =? 0) Invalid;;
  err_if (len (cf_authenticators c) >? AUTHENTICATOR_MAX_COUNT) Invalid;;
  authenticators ← to_authenticators (cf_authenticators c);
  err_if (negb (slots_increase authenticators)) Invalid;;
  require_satisfiable (cf_spend_threshold c) authenticators CAP_SPEND;;
  require_satisfiable (cf_rotate_threshold c) authenticators CAP_ROTATE;;
  (if negb (Z.land (cf_flags c) STATE_FLAG_RECOVERY_ENABLED =? 0)
   then require_satisfiable (cf_recovery_threshold c) authenticators CAP_RECOVERY
   else Good tt);;
  let state := {| st_flags := cf_flags c; st_sequence := cf_sequence c;
                  st_spend_threshold := cf_spend_threshold c;
                  st_rotate_threshold := cf_rotate_threshold c;
                  st_recovery_threshold := cf_recovery_threshold c;
                  st_recovery_since := cf_recovery_since c;
                  st_authenticators := authenticators |} in
  encoded ← protocol (encode_state state);
  protocol (validate_state encoded);;
  Good encoded.
