(* ===== verification/Exporter.v ===== *)
(** * State export ([demo/src/server/state-exporter.ts])

    The account configuration for a passkey, and the export of the account's initial
    state through the host tool: a temporary directory, one file written, one process
    run without the funding key, one file read, and the directory removed. *)

From S2P Require Import Prelude Js JsString Regex Bytes Zod Constants Schemas Effects Json.
From S2P Require Import Ccc CccRef Protocol Manifests Service.
From Stdlib Require Import Ascii.

Definition TEMP_DIRECTORY_PREFIX : string := "ckb-passkey-state-".

(** [process.env] and paths are strings; SHA-256 and the path functions are the
    platform's. *)
Class Platform := {
  sha256 : bytes → bytes;
  path_resolve : string → string;
  path_dirname : string → string;
  path_basename : string → string;
  path_join : string → string → string;
  os_tmpdir : string }.

(** The text of the error stream is kept as code units. *)
Record SpawnProcessResult := { exitCode : Z; stderr : list Z }.

Inductive export_event :=
  | XMakeTempDir
  | XWriteFile (path data : string) (mode : Z) (flag : string)
  | XSpawn (command : string) (args : list string) (cwd : string) (env : list (string * string))
  | XReadFile (path : string)
  | XRemoveDir (path : string).

Class ExporterDeps (W : Type) := {
  x_repoRoot : string;
  x_processEnv : list (string * string);
  x_makeTempDir : W → res string * W;
  x_writeFile : string → string → Z → string → W → res unit * W;
  x_spawnProcess : string → list string → string → list (string * string) → W →
    res SpawnProcessResult * W;
  x_readFile : string → W → res bytes * W;
  x_removeDir : string → W → res unit * W }.

(** [name.toUpperCase()]. Code units from 128 on are left as they are: none of those
    below 256 has a capital among the letters of the name it is compared with. *)
Definition upper_char (c : ascii) : ascii :=
  if (97 <=? code c) && (code c <=? 122) then chr (code c - 32) else c.
Definition toUpperCase : string → string := str_map upper_char.

Definition sanitizedEnvironment (env : list (string * string)) : list (string * string) :=
  filter (λ entry, toUpperCase entry.1 ≠ "CKB_PRIVKEY") env.

Definition EXPORT_FAILED : exn := ApiError "BOOTSTRAP_FAILED" 500 "Account state export failed".

Section exporter.
Context {W : Type} {zod : Zod} {ccc : Ccc} {platform : Platform} {deps : ExporterDeps W}.
Notation M := (eff W export_event).

(** [createHash("sha256").update(value, "utf8").digest("hex")]. *)
Definition sha256Hex (value : string) : string :=
  str_drop 2 (hexFromBytes (sha256 (utf8_encode value))).

Definition num (z : Z) : jsval := JNum (NInt z).

Definition accountConfiguration (request : BootstrapRequest) (deployment : DeploymentManifest)
    : res jsval :=
  publicKey ← bytesFromHex (br_publicKey request);
  keyHash ← ckbHash publicKey;
  let keyId := hexFromBytes keyHash in
  let aux := "0x01" +:+ sha256Hex RP_ID +:+ sha256Hex CLIENT_ORIGIN in
  Ok (JObj [
    ("flags", num 1); ("sequence", num 0); ("spend_threshold", num 1);
    ("rotate_threshold", num 1); ("recovery_threshold", num 1); ("recovery_since", num 0);
    ("authenticators", JArr [JObj [
      ("slot", num 0); ("algorithm_id", num 1); ("capabilities", num 7); ("weight", num 1);
      ("verifier_hash_type", num 0); ("verifier_abi", num 1);
      ("verifier_code_hash", JStr (da_dataHash (dm_verifier_p256 deployment)));
      ("key_id", JStr keyId); ("aux", JStr aux)]])]).

Definition safeTemporaryDirectory (path : string) : res string :=
  let resolved := path_resolve path in
  throw_if (negb (String.eqb (path_dirname resolved) (path_resolve os_tmpdir)) ||
            negb (startsWith TEMP_DIRECTORY_PREFIX (path_basename resolved))) EXPORT_FAILED;;
  Ok resolved.

Definition export_args (configPath outputPath : string) : list string := [
  "run"; "-q"; "-p"; "ckb-account-host"; "--example"; "export_account_state"; "--";
  configPath; outputPath].

(** The [try] block once the directory is known. *)
Definition export_in (directory : string) (request : BootstrapRequest)
    (deployment : DeploymentManifest) : M bytes :=
  let configPath := path_join directory "account.json" in
  let outputPath := path_join directory "state.bin" in
  config ← lift (accountConfiguration request deployment);
  let data := JSON_stringify_pretty config +:+ String (chr 10) "" in
  call (XWriteFile configPath data 384 "wx") (x_writeFile configPath data 384 "wx");;
  let args := export_args configPath outputPath in
  let env := sanitizedEnvironment x_processEnv in
  result ← call (XSpawn "cargo" args x_repoRoot env) (x_spawnProcess "cargo" args x_repoRoot env);
  lift (throw_if (negb (exitCode result =? 0)) EXPORT_FAILED);;
  output ← call (XReadFile outputPath) (x_readFile outputPath);
  lift (throw_if (len output =? 0) EXPORT_FAILED);;
  mret output.

(** The [catch] clause. *)
Definition export_error {A} (error : exn) : M A :=
  lift (Throw (if is_ApiError error then error else EXPORT_FAILED)).

(** The [finally] clause of a block that ended with [r]: a failure to remove the
    directory replaces the result. *)
Definition remove_after {A} (directory : string) (m : M A) : M A := λ w,
  let '(r, w1) := m w in
  match call (XRemoveDir directory) (x_removeDir directory) w1 with
  | (Ok _, w2) => (r, w2)
  | (Throw e, w2) => (Throw e, w2)
  end.

Definition exportAccountState (requestValue deploymentValue : jsval) : M bytes :=
  request ← lift (from_option_or INVALID_BOOTSTRAP
                    (safeParse BootstrapRequestSchema requestValue));
  deployment ← lift (service_deployment deploymentValue);
  directory ← catch
    (made ← call XMakeTempDir x_makeTempDir; lift (safeTemporaryDirectory made))
    export_error;
  remove_after directory
    (catch (export_in directory (request_of request) deployment) export_error).
End exporter.
