(* ===== verification/Exported.v ===== *)
(** * The exported account state

    From the passkey of a request to the bytes of the account's first state: the
    configuration the server writes, read and encoded by the host tool, is the layout
    that the client and the contracts accept, for the key and the deployed verifier. *)

From S2P Require Import Prelude Js JsString Regex Bytes Zod Constants Schemas Json Ccc.
From S2P Require Import Wire Protocol Digest Manifests State Effects Service Exporter Host Sha256.
From Stdlib Require Import Ascii.

(** ** Hexadecimal text read by the host *)

Lemma lower_hex_digits b : toLowerCase (hex_digits b) = hex_digits b.
Proof.
  apply (str_map_id is_hex_lower); [|apply hex_digits_all].
  intros c H%hex_lower_cases%list_elem_of_In. simpl in H. naive_solver.
Qed.

Lemma parse_hex_of b : parse_hex (hexFromBytes b) = Good b.
Proof.
  unfold parse_hex. rewrite hexFromBytes_digits.
  change (startsWith "0x" ("0x" +:+ hex_digits b)) with true. cbn [startsWith].
  rewrite str_drop_0x, lower_hex_digits, <- hexFromBytes_digits.
  destruct b as [|x b]; [done|].
  destruct (String.eqb_spec (hex_digits (x :: b)) "") as [E|_].
  - pose proof (hex_digits_len (x :: b)) as H. rewrite E in H. simpl in H. lia.
  - by rewrite bytesFromHex_of_bytes.
Qed.

Lemma parse_hash_of b : length b = 32%nat → parse_hash (hexFromBytes b) = Good b.
Proof. intros H. unfold parse_hash, len. rewrite parse_hex_of. cbn. by rewrite H. Qed.

Lemma hash_hex_text (bs : bytes) s :
  hexFromBytes bs = "0x" +:+ s → "0x01" +:+ s = hexFromBytes (x01 :: bs).
Proof. rewrite !hexFromBytes_digits. intros H%str_app_inv_l. by subst. Qed.

(** ** One P-256 key *)

Definition one_key (v k : bytes) : Authenticator := {|
  au_slot := 0; au_algorithm_id := 1; au_capabilities := 7; au_weight := 1;
  au_verifier_hash_type := 0; au_verifier_abi := 1; au_verifier_code_hash := v;
  au_key_id := k; au_aux := EXPECTED_AUX |}.
Definition one_key_config (v k : string) : AuthenticatorConfig := {|
  acf_slot := 0; acf_algorithm_id := 1; acf_capabilities := 7; acf_weight := 1;
  acf_verifier_hash_type := 0; acf_verifier_abi := 1; acf_verifier_code_hash := v;
  acf_key_id := k; acf_aux := hexFromBytes EXPECTED_AUX |}.
Definition one_key_account (v k : string) : AccountStateConfig := {|
  cf_flags := 1; cf_sequence := 0; cf_spend_threshold := 1; cf_rotate_threshold := 1;
  cf_recovery_threshold := 1; cf_recovery_since := 0;
  cf_authenticators := [one_key_config v k] |}.

Section one_key.
Context (v k : bytes) (Hv : length v = 32%nat) (Hk : length k = 32%nat).

Lemma to_authenticator_one_key :
  to_authenticator (one_key_config (hexFromBytes v) (hexFromBytes k)) = Good (one_key v k).
Proof.
  unfold to_authenticator. cbn [one_key_config acf_aux acf_verifier_code_hash acf_key_id].
  rewrite parse_hex_of, !parse_hash_of by done. reflexivity.
Qed.

Lemma encode_state_one_key :
  encode_state {| st_flags := 1; st_sequence := 0; st_spend_threshold := 1;
                  st_rotate_threshold := 1; st_recovery_threshold := 1;
                  st_recovery_since := 0; st_authenticators := [one_key v k] |} =
  Good (state_layout v 0 k).
Proof.
  assert (Hkl : len k = 32) by (unfold len; by rewrite Hk).
  assert (Hs : entry_size (one_key v k) = 145)
    by (unfold entry_size; cbn [one_key au_key_id au_aux]; rewrite Hkl; reflexivity).
  unfold encode_state. cbn [st_authenticators encode_authenticators foldr].
  rewrite Hs. cbn [one_key au_key_id au_aux]. rewrite Hkl.
  change (u16_len 145) with (@Good ProtocolError _ 145).
  change (u16_len 32) with (@Good ProtocolError _ 32).
  change (u16_len (len EXPECTED_AUX)) with (@Good ProtocolError _ 65).
  cbn [mbind outcome_bind]. do 2 (change (err_if _ InvalidState) with (@Good ProtocolError _ tt);
    cbn [mbind outcome_bind]).
  match goal with |- context [validate_state ?d] => assert (d = state_layout v 0 k) as -> end.
  - unfold state_layout, state_fields. cbn [concat app]. rewrite ?app_nil_r. reflexivity.
  - by rewrite validate_state_layout.
Qed.

Lemma encode_one_key :
  encode (one_key_account (hexFromBytes v) (hexFromBytes k)) = Good (state_layout v 0 k).
Proof.
  unfold encode. cbn [one_key_account cf_authenticators to_authenticators].
  rewrite to_authenticator_one_key. cbn [mbind outcome_bind].
  repeat first [change (err_if ?c Invalid) with (@Good ConfigError _ tt)
               |progress cbn [mbind outcome_bind]].
  change (encode_state _) with (encode_state
    {| st_flags := 1; st_sequence := 0; st_spend_threshold := 1; st_rotate_threshold := 1;
       st_recovery_threshold := 1; st_recovery_since := 0;
       st_authenticators := [one_key v k] |}).
  rewrite encode_state_one_key. cbn [protocol mbind outcome_bind].
  by rewrite validate_state_layout.
Qed.
End one_key.

(** ** From a request *)

Section exported.
Context {zod : Zod} {ccc : Ccc} {ccc_laws : CccLaws} {platform : Platform}.

Hypothesis sha256_is : ∀ b, sha256 b = sha256_ref b.

Lemma aux_text :
  "0x01" +:+ sha256Hex RP_ID +:+ sha256Hex CLIENT_ORIGIN = hexFromBytes EXPECTED_AUX.
Proof. unfold sha256Hex. rewrite !sha256_is. vm_compute. reflexivity. Qed.

Lemma account_state_config_one_key v k :
  account_state_config (JObj [
    ("flags", num 1); ("sequence", num 0); ("spend_threshold", num 1);
    ("rotate_threshold", num 1); ("recovery_threshold", num 1); ("recovery_since", num 0);
    ("authenticators", JArr [JObj [
      ("slot", num 0); ("algorithm_id", num 1); ("capabilities", num 7); ("weight", num 1);
      ("verifier_hash_type", num 0); ("verifier_abi", num 1);
      ("verifier_code_hash", JStr v); ("key_id", JStr k);
      ("aux", JStr (hexFromBytes EXPECTED_AUX))]])]) = Some (one_key_account v k).
Proof. reflexivity. Qed.

(** The state exported for a request: what the host encodes, and who accepts it. *)
Record exported (request : BootstrapRequest) (deployment : DeploymentManifest)
    (publicKey v : bytes) (config : jsval) (cfg : AccountStateConfig) : Prop := {
  ex_key : br_publicKey request = hexFromBytes publicKey;
  ex_verifier : da_dataHash (dm_verifier_p256 deployment) = hexFromBytes v;
  ex_config : accountConfiguration request deployment = Ok config;
  ex_read : account_state_config config = Some cfg;
  ex_encoded : encode cfg = Good (state_layout v 0 (ckb_digest publicKey));
  ex_on_chain : validate_state (state_layout v 0 (ckb_digest publicKey)) =
    Good (one_key_header 0, {| ss_spend := 1; ss_rotate := 1; ss_recovery := 1 |});
  ex_accepted : ∀ account,
    am_state_bytes (va_manifest account) = 177 →
    codeHash (verifierP256Code (va_deployment account)) =
      da_dataHash (dm_verifier_p256 deployment) →
    parseAccountState (hexFromBytes (state_layout v 0 (ckb_digest publicKey))) account =
      Ok {| ps_sequence := 0; ps_keyId := ckb_digest publicKey |} }.

Lemma export_accepted request deployment :
  request_wf request → deployment_wf deployment →
  ∃ publicKey v config cfg, exported request deployment publicKey v config cfg.
Proof.
  intros [(b & Hb & Hkey)%public_key_iff _] Hd.
  destruct (proj1 (hash32_iff _) (awf_dataHash _ _ (dwf_verifier _ Hd)))
    as (v & Hv & Hver).
  assert (Hk := ckb_digest_len (x04 :: b)).
  eexists (x04 :: b), v, _, _. constructor; [done|done|..].
  - unfold accountConfiguration. rewrite Hkey, bytesFromHex_of_bytes by done.
    cbn [mbind res_bind]. rewrite ckbHash_spec. cbn [mbind res_bind].
    rewrite aux_text, Hver. reflexivity.
  - apply account_state_config_one_key.
  - by apply encode_one_key.
  - by apply validate_state_layout.
  - intros account Hsize Hcode.
    apply (parseAccountState_layout account v {| ps_sequence := 0; ps_keyId := _ |}).
    constructor; cbn; [done|by rewrite Hcode|done|lia|done].
Qed.

Lemma exported_verifier_length request deployment publicKey v config cfg :
  deployment_wf deployment → exported request deployment publicKey v config cfg →
  length v = 32%nat.
Proof.
  intros Hd Hex. destruct (proj1 (hash32_iff _) (awf_dataHash _ _ (dwf_verifier _ Hd)))
    as (v' & Hv & Hver).
  rewrite (ex_verifier _ _ _ _ _ _ Hex) in Hver. by apply hexFromBytes_inj in Hver as ->.
Qed.

(** C29 — For every well-formed request and deployment, the account configuration the
    server writes is accepted and encoded by the host tool; the encoded state names the
    hash of the passkey's public key and the deployed verifier, passes the on-chain
    validator, and is read by the client as sequence zero with that key. *)
Theorem exported_state_accepted request deployment :
  request_wf request → deployment_wf deployment →
  ∃ publicKey v config cfg, exported request deployment publicKey v config cfg.
Proof. apply export_accepted. Qed.
End exported.

(** ** The export *)

Section export.
Context {W : Type} {zod : Zod} {zod_laws : ZodLaws} {ccc : Ccc} {ccc_laws : CccLaws}.
Context {platform : Platform} {deps : ExporterDeps W}.
Notation world := (world W export_event).

(** The file with the configuration, the host tool, the file it wrote. *)
Definition export_events (directory : string) (config : jsval) : list export_event :=
  let configPath := path_join directory "account.json" in
  let outputPath := path_join directory "state.bin" in [
  XWriteFile configPath (JSON_stringify_pretty config +:+ String (chr 10) "") 384 "wx";
  XSpawn "cargo" (export_args configPath outputPath) x_repoRoot
    (sanitizedEnvironment x_processEnv);
  XReadFile outputPath].

Definition temporary (directory : string) : Prop :=
  path_dirname directory = path_resolve os_tmpdir ∧
  startsWith TEMP_DIRECTORY_PREFIX (path_basename directory) = true.

(** The output was read after the host tool exited with success. *)
Definition exported_by_tool (directory : string) (output : bytes) : Prop :=
  output ≠ [] ∧
  (∃ env env', x_readFile (path_join directory "state.bin") env = (Ok output, env')) ∧
  (∃ env env' result,
    x_spawnProcess "cargo" (export_args (path_join directory "account.json")
                                        (path_join directory "state.bin"))
      x_repoRoot (sanitizedEnvironment x_processEnv) env = (Ok result, env') ∧
    exitCode result = 0).

Inductive export_run : list export_event → res bytes → Prop :=
  | export_refused e : is_ApiError e = true → export_run [] (Throw e)
  | export_no_directory e : is_ApiError e = true → export_run [XMakeTempDir] (Throw e)
  | export_ran request deployment config directory n r :
      request_wf request → deployment_wf deployment → temporary directory → (n <= 3)%nat →
      accountConfiguration request deployment = Ok config →
      (∀ output, r = Ok output → n = 3%nat ∧ exported_by_tool directory output) →
      (∀ e, r = Throw e → is_ApiError e = true ∨
        ∃ env env', x_removeDir directory env = (Throw e, env')) →
      export_run (XMakeTempDir :: take n (export_events directory config) ++
                  [XRemoveDir directory]) r.

Lemma accountConfiguration_total request deployment :
  request_wf request → ∃ config, accountConfiguration request deployment = Ok config.
Proof.
  intros [(b & _ & Hkey)%public_key_iff _]. unfold accountConfiguration.
  rewrite Hkey, bytesFromHex_of_bytes by done. cbn [mbind res_bind].
  rewrite ckbHash_spec. eexists. reflexivity.
Qed.

Lemma export_in_run directory request deployment config (w w' : world) r :
  accountConfiguration request deployment = Ok config →
  export_in directory request deployment w = (r, w') →
  ∃ n, (n <= 3)%nat ∧ w_log w' = w_log w ++ take n (export_events directory config) ∧
    ∀ output, r = Ok output → n = 3%nat ∧ exported_by_tool directory output.
Proof.
  intros Hc H. unfold export_in in H. rewrite Hc in H.
  run_step H; [done|]. injection Hm as <-.
  run_step H; [by exists 1%nat; split; [lia|]; split; [log_eq|]|].
  run_step H; [by exists 2%nat; split; [lia|]; split; [log_eq|]|].
  run_step H; [by exists 2%nat; split; [lia|]; split; [log_eq|]|].
  symmetry in Hm1. apply throw_if_Ok in Hm1. bool_simpl.
  run_step H; [by exists 3%nat; split; [lia|]; split; [log_eq|]|].
  exists 3%nat. split; [lia|].
  run_step H; [split; [log_eq|done]|].
  symmetry in Hm3. apply throw_if_Ok in Hm3. bool_simpl.
  unfold mret, eff_ret in H. injection H as <- <-. split; [log_eq|].
  intros output [= <-]. split; [done|]. split; [by intros ->|].
  split; [eauto|]. eauto 10.
Qed.

Lemma export_error_run {A} e (w w' : world) (r : res A) :
  export_error e w = (r, w') → w' = w ∧ ∃ e', r = Throw e' ∧ is_ApiError e' = true.
Proof.
  unfold export_error. intros [-> ->]%lift_run. split; [done|].
  destruct (is_ApiError e) eqn:He; eauto.
Qed.

Lemma catch_export_run {A} (m : eff W export_event A) (w w' : world) r :
  catch m export_error w = (r, w') →
  ∃ r0, m w = (r0, w') ∧ (∀ a, r = Ok a → r0 = Ok a) ∧
    (∀ e, r = Throw e → is_ApiError e = true).
Proof.
  unfold catch. destruct (m w) as [[a|e] w1]; intros H.
  - injection H as <- <-. eexists. by repeat split.
  - apply export_error_run in H as (-> & e' & -> & He). eexists. split; [done|].
    split; [done|]. by intros ? [= <-].
Qed.

Lemma make_directory_run (w w' : world) r :
  (made ← call XMakeTempDir x_makeTempDir; lift (safeTemporaryDirectory made)) w = (r, w') →
  w_log w' = w_log w ++ [XMakeTempDir] ∧ ∀ d, r = Ok (d) →
    ∃ made, d = path_resolve made ∧ temporary d.
Proof.
  intros H. run_step H; [done|]. apply lift_run in H as [-> ->]. split; [done|].
  intros d Hd. unfold safeTemporaryDirectory in Hd. inv_res. bool_simpl.
  exists v. by repeat split.
Qed.

Lemma service_deployment_api v e : service_deployment v = Throw e → is_ApiError e = true.
Proof. unfold service_deployment. destruct (safeParse _ _); cbn; by intros [= <-]. Qed.

Lemma service_deployment_wf v d :
  is_json v = true → service_deployment v = Ok d → deployment_wf d.
Proof.
  unfold service_deployment. intros Hj H. inv_res.
  destruct (deployment_record _ _ Hj H0) as (m & -> & Hw). by rewrite deployment_of_val.
Qed.

(** An export either touches nothing, or creates one directory; a directory under
    the temporary path with the export's name prefix is the only one used, holds the
    only file written, which is private and new, and is removed at the end whatever
    happened; the host tool runs at most once and without the funding key in its
    environment. The result is the non-empty output of a successful run of the tool, or
    an error for the client, unless removing the directory failed. *)
Theorem export_confined requestValue deploymentValue (w w' : world) r :
  is_json deploymentValue = true →
  exportAccountState requestValue deploymentValue w = (r, w') →
  (∃ l, w_log w' = w_log w ++ l ∧ export_run l r) ∧
  ∀ name value, (name, value) ∈ sanitizedEnvironment x_processEnv ↔
    toUpperCase name ≠ "CKB_PRIVKEY" ∧ (name, value) ∈ x_processEnv.
Proof.
  intros Hjson H. split.
  2: { intros. unfold sanitizedEnvironment. by rewrite list_elem_of_filter. }
  unfold exportAccountState in H.
  run_step H.
  { exists []. split; [log_eq|]. apply export_refused.
    destruct (safeParse _ _); cbn in Hm; by simplify_eq. }
  symmetry in Hm. apply from_option_or_Ok in Hm.
  destruct (request_record _ _ Hm) as (request & -> & Hrw). rewrite request_of_val in H.
  run_step H.
  { exists []. split; [log_eq|]. apply export_refused. by eapply service_deployment_api. }
  pose proof (service_deployment_wf _ _ Hjson (eq_sym Hm0)) as Hdw. rename v into deployment.
  destruct (accountConfiguration_total request deployment Hrw) as [config Hc].
  run_step H.
  { apply catch_export_run in Hm1 as (r0 & Hm1 & _ & He).
    apply make_directory_run in Hm1 as [Hl _]. exists [XMakeTempDir].
    split; [done|]. apply export_no_directory. eauto. }
  apply catch_export_run in Hm1 as (r0 & Hm1 & Hr0 & _). rename v into directory.
  apply make_directory_run in Hm1 as [Hl Hd].
  destruct (Hd directory (Hr0 _ eq_refl)) as (made & _ & Htmp).
  unfold remove_after in H. destruct (catch _ _ _) as [r1 w1'] eqn:Hx.
  apply catch_export_run in Hx as (r2 & Hx & Hok & Hthrow).
  destruct (export_in_run _ _ _ _ _ _ _ Hc Hx) as (n & Hn & Hln & Hout).
  destruct (call _ _ _) as [r3 w3] eqn:Hcall. apply call_run in Hcall as [Hrm Hl3].
  assert (w3 = w') as -> by (destruct r3; congruence).
  eexists. split; [rewrite Hl3, Hln, Hl, <- !app_assoc; reflexivity|].
  cbn [app]. apply (export_ran request deployment config directory n); try done.
  - intros output ->. destruct r3; [|done]. injection H as ->. auto.
  - intros e ->. destruct r3; injection H as ->; eauto.
Qed.
End export.
