(* ===== verification/Process.v ===== *)
(** * The exporter on the platform ([demo/src/server/state-exporter.ts])

    The child process with its error stream, the dependencies that the server gives to the
    export ([spawnCargo], [createExporterDeps]), and an export over them, with the calls of
    the operating system it makes. *)

From S2P Require Import Prelude Js JsString Regex Bytes Zod Constants Schemas Effects Json.
From S2P Require Import Ccc CccRef Protocol Manifests Service Exporter Exported.

(** ** The child process *)

(** How a child ends: an error of the platform, or an exit code, absent after a signal. *)
Inductive child_end := ChildError (error : exn) | ChildClose (code : option Z).
(** The chunks of its error stream before that, in order. *)
Record child_run := { ch_data : list bytes; ch_end : child_end }.

(** [chunk.toString("utf8")], as UTF-16 code units. *)
Definition utf16 (cp : Z) : list Z :=
  if cp <? 65536 then [cp]
  else [55296 + (cp - 65536) / 1024; 56320 + (cp - 65536) mod 1024].
Definition toString_utf8 (chunk : bytes) : list Z := flat_map utf16 (utf8_run utf8_idle chunk).

Definition slice_units (n : Z) (s : list Z) : list Z := take (Z.to_nat n) s.

Definition on_data (stderr : list Z) (chunk : bytes) : list Z :=
  if len stderr <? 16384 then stderr ++ toString_utf8 chunk else stderr.
Definition on_close (stderr : list Z) (code : option Z) : SpawnProcessResult :=
  {| exitCode := default 1 code; stderr := slice_units 16384 stderr |}.

(** What the promise of [spawnCargo] settles with. *)
Definition child_result (run : child_run) : res SpawnProcessResult :=
  let stderr := foldl on_data [] (ch_data run) in
  match ch_end run with
  | ChildError error => Throw error
  | ChildClose code => Ok (on_close stderr code)
  end.

(** ** The platform *)

Inductive os_event :=
  | OMkdtemp (prefix : string)
  | OChmod (path : string) (mode : Z)
  | OWriteFile (path data : string) (mode : Z) (flag : string)
  | OSpawn (command : string) (args : list string) (cwd : string) (env : list (string * string))
      (shell : bool) (stdio : list string)
  | OReadFile (path : string)
  | ORm (path : string) (recursive force : bool).

Class Os (W : Type) := {
  os_mkdtemp : string → W → res string * W;
  os_chmod : string → Z → W → res unit * W;
  os_writeFile : string → string → Z → string → W → res unit * W;
  os_spawn : string → list string → string → list (string * string) → W → child_run * W;
  os_readFile : string → W → res bytes * W;
  os_rm : string → bool → bool → W → res unit * W }.

Section platform.
Context {W : Type} {platform : Platform} {os : Os W}.
Notation M := (eff W os_event).

Definition spawnCargo (command : string) (args : list string) (cwd : string)
    (env : list (string * string)) : M SpawnProcessResult :=
  call (OSpawn command args cwd env false ["ignore"; "ignore"; "pipe"])
    (λ w, let '(run, w') := os_spawn command args cwd env w in (child_result run, w')).

Definition makeTempDir : M string :=
  let prefix := path_join os_tmpdir TEMP_DIRECTORY_PREFIX in
  directory ← call (OMkdtemp prefix) (os_mkdtemp prefix);
  call (OChmod directory 448) (os_chmod directory 448);;
  mret directory.

(** The dependencies run on the platform with its calls recorded. *)
Definition createExporterDeps (repoRoot : string) (processEnv : list (string * string))
    : ExporterDeps (world W os_event) := {|
  x_repoRoot := repoRoot;
  x_processEnv := processEnv;
  x_makeTempDir := makeTempDir;
  x_writeFile path data mode flag :=
    call (OWriteFile path data mode flag) (os_writeFile path data mode flag);
  x_spawnProcess := spawnCargo;
  x_readFile path := call (OReadFile path) (os_readFile path);
  x_removeDir path := call (ORm path true true) (os_rm path true true) |}.
End platform.

(** ** The error stream is bounded *)

Lemma utf16_length cp : (1 <= length (utf16 cp) <= 2)%nat.
Proof. unfold utf16. destruct (cp <? 65536); cbn; lia. Qed.
Lemma utf16_small cp : cp < 65536 → length (utf16 cp) = 1%nat.
Proof. intros H. unfold utf16. by rewrite (proj2 (Z.ltb_lt _ _) H). Qed.

Definition pending (st : utf8_state) : nat := match u_needed st with O => 0 | S _ => 1 end.
Definition units (cps : list Z) : nat := length (flat_map utf16 cps).

Lemma units_cons cp cps : units (cp :: cps) = (length (utf16 cp) + units cps)%nat.
Proof. unfold units. cbn. by rewrite length_app. Qed.

Lemma utf8_lead_units b :
  b < 256 → (units (utf8_lead b).2 + pending (utf8_lead b).1 <= 1)%nat.
Proof.
  intros Hb. unfold utf8_lead. repeat case_match; cbn; try lia.
  unfold units. cbn. rewrite app_nil_r, utf16_small; [lia|].
  apply Z.leb_le in H. lia.
Qed.

Lemma utf8_step_units st b :
  b < 256 → (units (utf8_step st b).2 + pending (utf8_step st b).1 <= 1 + pending st)%nat.
Proof.
  intros Hb. pose proof (utf8_lead_units b Hb) as Hl. unfold utf8_step, pending at 2.
  destruct (u_needed st) as [|n]; [lia|]. destruct (_ && _).
  - destruct n; cbn [fst snd]; [|unfold units, pending; cbn; lia].
    rewrite units_cons. unfold units. cbn. pose proof (utf16_length (u_cp st * 64 + b mod 64)). lia.
  - destruct (utf8_lead b) as [st' out]. cbn [fst snd] in *. rewrite units_cons.
    rewrite utf16_small by done. lia.
Qed.

(** A chunk has at most as many code units as bytes. *)
Lemma toString_utf8_length chunk : len (toString_utf8 chunk) <= len chunk.
Proof.
  assert (H : ∀ st, (units (utf8_run st chunk) <= length chunk + pending st)%nat).
  { induction chunk as [|b chunk IH]; intros st; cbn [utf8_run].
    - unfold pending. destruct (u_needed st); unfold units; cbn; lia.
    - pose proof (Z_of_byte_range b) as Hb.
      pose proof (utf8_step_units st (Z_of_byte b) (proj2 Hb)) as Hs.
      destruct (utf8_step st (Z_of_byte b)) as [st' out]. cbn [fst snd] in Hs.
      unfold units in *. rewrite flat_map_app, length_app. specialize (IH st'). cbn [length]. lia. }
  specialize (H utf8_idle). unfold units, toString_utf8, len in *. cbn [pending u_needed utf8_idle] in H.
  unfold pending in H. cbn in H. lia.
Qed.

Definition received (chunks : list bytes) : list Z := concat (toString_utf8 <$> chunks).

(** Collecting stops early, but loses nothing of the first code units. *)
Lemma collected_prefix chunks stderr :
  slice_units 16384 (foldl on_data stderr chunks) = slice_units 16384 (stderr ++ received chunks).
Proof.
  unfold slice_units. revert stderr. induction chunks as [|chunk chunks IH]; intros stderr.
  { unfold received. cbn. by rewrite app_nil_r. }
  cbn [foldl]. rewrite IH. unfold on_data, len. destruct (Z.ltb_spec (Z.of_nat (length stderr)) 16384).
  - unfold received. cbn [fmap list_fmap concat]. by rewrite app_assoc.
  - rewrite !take_app_le by lia. done.
Qed.

Lemma collected_bound chunks k stderr :
  0 <= k → Forall (λ chunk, len chunk <= k) chunks → len stderr <= 16383 + k →
  len (foldl on_data stderr chunks) <= 16383 + k.
Proof.
  intros Hk Hc. revert stderr. induction Hc as [|chunk chunks Hl Hc IH]; intros stderr Hs; [done|].
  cbn [foldl]. apply IH. unfold on_data. destruct (Z.ltb_spec (len stderr) 16384); [|done].
  rewrite len_app. pose proof (toString_utf8_length chunk). lia.
Qed.

(** The error stream of the host tool is bounded however much the tool writes: the result
    holds the first 16384 code units of all the text that was received, chunk by chunk, and at
    no moment are more than 16383 units and one chunk kept; a child without an exit code counts
    as failed. *)
Theorem stderr_bounded (run : child_run) (r : SpawnProcessResult) (k : Z) :
  child_result run = Ok r → 0 <= k → Forall (λ chunk, len chunk <= k) (ch_data run) →
  stderr r = slice_units 16384 (received (ch_data run)) ∧ len (stderr r) <= 16384 ∧
  (∀ n, len (foldl on_data [] (take n (ch_data run))) <= 16383 + k) ∧
  (exitCode r = 0 ↔ ch_end run = ChildClose (Some 0)).
Proof.
  unfold child_result. intros H Hk Hc. destruct (ch_end run) as [e|code]; [done|].
  injection H as <-. cbn [stderr exitCode on_close]. rewrite collected_prefix. cbn [app].
  split; [done|]. split; [|split].
  - unfold slice_units, len. rewrite length_take. lia.
  - intros n. apply collected_bound; [done|by apply Forall_take|rewrite len_nil; lia].
  - destruct code; cbn; split; congruence.
Qed.

(** ** An export on the platform *)

Definition os_of (e : export_event) : list os_event :=
  match e with
  | XMakeTempDir => []
  | XWriteFile path data mode flag => [OWriteFile path data mode flag]
  | XSpawn command args cwd env =>
      [OSpawn command args cwd env false ["ignore"; "ignore"; "pipe"]]
  | XReadFile path => [OReadFile path]
  | XRemoveDir path => [ORm path true true]
  end.

Section traced.
Context {W : Type}.
Notation M := (eff (world W os_event) export_event).

(** The calls of the platform are those of the export's own log. *)
Definition traced {A} (m : M A) : Prop :=
  ∀ w r w', m w = (r, w') →
  ∃ l, w_log w' = w_log w ++ l ∧ w_log (w_env w') = w_log (w_env w) ++ flat_map os_of l.

Lemma traced_lift {A} (m : res A) : traced (lift m).
Proof. intros w r w' [-> ->]%lift_run. exists []. by rewrite !app_nil_r. Qed.

Lemma traced_bind {A B} (m : M A) (f : A → M B) :
  traced m → (∀ a, traced (f a)) → traced (m ≫= f).
Proof.
  intros Hm Hf w r w' [(e & H & ->)|(a & w1 & H1 & H2)]%eff_bind_cases; [by eapply Hm|].
  apply Hm in H1 as (l1 & E1 & O1). apply Hf in H2 as (l2 & E2 & O2).
  exists (l1 ++ l2). by rewrite E2, O2, E1, O1, flat_map_app, !app_assoc.
Qed.

Lemma traced_catch {A} (m : M A) (h : exn → M A) :
  traced m → (∀ e, traced (h e)) → traced (catch m h).
Proof.
  intros Hm Hh w r w' H. unfold catch in H. destruct (m w) as [[a|e] w1] eqn:E.
  - injection H as <- <-. by eapply Hm.
  - apply Hm in E as (l1 & E1 & O1). apply Hh in H as (l2 & E2 & O2).
    exists (l1 ++ l2). by rewrite E2, O2, E1, O1, flat_map_app, !app_assoc.
Qed.

Lemma traced_call {A} ev os (f : world W os_event → res A * world W os_event) :
  os_of ev = [os] → (∀ w r w', f w = (r, w') → w_log w' = w_log w ++ [os]) →
  traced (call ev f).
Proof.
  intros Hev Hf w r w' [H%Hf El]%call_run. exists [ev]. split; [done|].
  cbn. by rewrite Hev.
Qed.
End traced.

Section export.
Context {W : Type} {zod : Zod} {zod_laws : ZodLaws} {ccc : Ccc} {ccc_laws : CccLaws}.
Context {platform : Platform} {os : Os W}.
Context (repoRoot : string) (processEnv : list (string * string)).
#[local] Instance deps : ExporterDeps (world W os_event) := createExporterDeps repoRoot processEnv.
Notation world := (world (world W os_event) export_event).
Let made_prefix := path_join os_tmpdir TEMP_DIRECTORY_PREFIX.

Lemma spawnCargo_run command args cwd env (w w' : Effects.world W os_event) r :
  spawnCargo command args cwd env w = (r, w') →
  w_log w' = w_log w ++ [OSpawn command args cwd env false ["ignore"; "ignore"; "pipe"]].
Proof. unfold spawnCargo. by intros [_ H]%call_run. Qed.

Lemma export_in_traced directory request deployment :
  traced (export_in (deps := deps) directory request deployment).
Proof.
  unfold export_in. apply traced_bind; [apply traced_lift|intros config].
  apply traced_bind; [eapply traced_call; [done|by intros w r w' [_ H]%call_run]|intros _].
  apply traced_bind; [eapply traced_call; [done|intros w r w'; apply spawnCargo_run]|intros result].
  apply traced_bind; [apply traced_lift|intros _].
  apply traced_bind; [eapply traced_call; [done|by intros w r w' [_ H]%call_run]|intros output].
  apply traced_bind; [apply traced_lift|intros _; apply (traced_lift (Ok output))].
Qed.

(** The calls of a run once the directory is made, up to the one that fails. *)
Definition os_calls (directory : string) (config : jsval) : list os_event :=
  let configPath := path_join directory "account.json" in
  let outputPath := path_join directory "state.bin" in [
  OWriteFile configPath (JSON_stringify_pretty config +:+ String (chr 10) "") 384 "wx";
  OSpawn "cargo" (export_args configPath outputPath) repoRoot (sanitizedEnvironment processEnv)
    false ["ignore"; "ignore"; "pipe"];
  OReadFile outputPath].

Lemma os_of_events n directory config :
  flat_map os_of (take n (export_events (deps := deps) directory config)) =
  take n (os_calls directory config).
Proof. destruct n as [|[|[|[|n]]]]; reflexivity. Qed.

(** What the operating system sees of an export. *)
Inductive os_export : list os_event → res bytes → Prop :=
  | os_refused e : is_ApiError e = true → os_export [] (Throw e)
  | os_not_made e : is_ApiError e = true → os_export [OMkdtemp made_prefix] (Throw e)
  | os_unsafe made e : is_ApiError e = true →
      os_export [OMkdtemp made_prefix; OChmod made 448] (Throw e)
  | os_ran made request deployment config n r :
      request_wf request → deployment_wf deployment → temporary (path_resolve made) →
      accountConfiguration request deployment = Ok config → (n <= 3)%nat →
      (∀ output, r = Ok output → n = 3%nat ∧ output ≠ []) →
      os_export (OMkdtemp made_prefix :: OChmod made 448 ::
                 take n (os_calls (path_resolve made) config) ++
                 [ORm (path_resolve made) true true]) r.

Lemma makeTempDir_run (w w' : Effects.world W os_event) r :
  makeTempDir w = (r, w') →
  (∃ e, r = Throw e ∧ w_log w' = w_log w ++ [OMkdtemp made_prefix]) ∨
  ∃ made, w_log w' = w_log w ++ [OMkdtemp made_prefix; OChmod made 448] ∧
    ∀ d, r = Ok d → d = made.
Proof.
  unfold makeTempDir. intros H. run_step H; [left; eauto|].
  right. eexists. run_step H; [split; [log_eq|done]|].
  unfold mret, eff_ret in H. injection H as <- <-. split; [log_eq|]. by intros d [= <-].
Qed.

(** The outcome of the steps that make the directory. *)
Definition making (made : option string) : list os_event :=
  OMkdtemp made_prefix :: match made with Some d => [OChmod d 448] | None => [] end.

Lemma directory_made (w w' : world) r :
  catch (made ← call XMakeTempDir x_makeTempDir; lift (safeTemporaryDirectory made))
    export_error w = (r, w') →
  ∃ made, w_log (w_env w') = w_log (w_env w) ++ making made ∧
    match r with
    | Ok directory => ∃ d, made = Some d ∧ directory = path_resolve d ∧ temporary directory
    | Throw e => is_ApiError e = true
    end.
Proof.
  intros H. apply catch_export_run in H as (r0 & H & Hok & He).
  run_step H.
  - apply makeTempDir_run in Hm as [(e' & _ & El)|(made & El & _)].
    + exists None. split; [exact El|]. destruct r; [|by eapply He].
      by specialize (Hok _ eq_refl).
    + exists (Some made). split; [exact El|]. destruct r; [|by eapply He].
      by specialize (Hok _ eq_refl).
  - apply lift_run in H as [-> ->].
    apply makeTempDir_run in Hm as [(e' & ? & _)|(made & El & Hmade)]; [done|].
    exists (Some made). split; [exact El|]. destruct r as [directory|e]; [|by eapply He].
    specialize (Hok _ eq_refl). unfold safeTemporaryDirectory in Hok. inv_res. bool_simpl.
    exists made. split; [done|]. rewrite (Hmade _ eq_refl) in *. by repeat split.
Qed.

(** C37 — On the platform, an export makes at most one temporary directory, with the export's
    prefix, and makes it private before anything else; then it writes one new private file
    there, runs the host tool once without a shell and without the funding key in its
    environment, and reads one file; and whichever of these last three steps fails, it
    removes the directory recursively. If the directory cannot be made private, or its path
    is refused, nothing is written there and the export fails, but the directory stays
    ([os_unsafe]). It returns bytes only when all of the steps succeeded, and never an empty
    output. *)
Theorem private_export requestValue deploymentValue (w w' : world) r :
  is_json deploymentValue = true →
  exportAccountState (deps := deps) requestValue deploymentValue w = (r, w') →
  (∃ l, w_log (w_env w') = w_log (w_env w) ++ l ∧ os_export l r) ∧
  ∀ name value, (name, value) ∈ sanitizedEnvironment processEnv →
    toUpperCase name ≠ "CKB_PRIVKEY".
Proof.
  intros Hjson H. split.
  2: { intros name value Hin. unfold sanitizedEnvironment in Hin.
       by apply list_elem_of_filter in Hin as [? _]. }
  unfold exportAccountState in H. run_step H.
  { exists []. rewrite app_nil_r. split; [done|]. apply os_refused.
    destruct (safeParse _ _); cbn in Hm; by simplify_eq. }
  symmetry in Hm. apply from_option_or_Ok in Hm.
  destruct (request_record _ _ Hm) as (request & -> & Hrw). rewrite request_of_val in H.
  run_step H.
  { exists []. rewrite app_nil_r. split; [done|]. apply os_refused.
    by eapply service_deployment_api. }
  pose proof (service_deployment_wf _ _ Hjson (eq_sym Hm0)) as Hdw. rename v into deployment.
  destruct (accountConfiguration_total request deployment Hrw) as [config Hc].
  run_step H.
  { apply directory_made in Hm1 as ([made|] & El & He); eexists; (split; [exact El|]);
      constructor; exact He. }
  apply directory_made in Hm1 as (? & El & made & -> & -> & Htmp).
  unfold remove_after in H. destruct (catch _ _ _) as [r1 w1'] eqn:Hx.
  apply catch_export_run in Hx as (r2 & Hx & Hok & _).
  destruct (export_in_traced _ _ _ _ _ _ Hx) as (l & Hl & Ho).
  destruct (export_in_run _ _ _ _ _ _ _ Hc Hx) as (n & Hn & Hln & Hout).
  rewrite Hln in Hl. apply app_inv_head in Hl as <-. rewrite os_of_events in Ho.
  destruct (call _ _ _) as [r3 w3] eqn:Hcall. apply call_run in Hcall as [Hrm _].
  apply call_run in Hrm as [_ Hrm].
  assert (w3 = w') as -> by (destruct r3; congruence).
  eexists. split; [rewrite Hrm, Ho, El; by rewrite <- !app_assoc|]. cbn [making app].
  apply (os_ran made request deployment config n); try done.
  intros output ->. destruct r3; [|done]. injection H as ->.
  destruct (Hout output (Hok _ eq_refl)) as (-> & Hne & _). done.
Qed.
End export.
