(* ===== verification/Provisioning.v ===== *)
(** * Account creation through the demo

    The server, the deploy library, the exporter and the client put together as
    [demo/src/server/index.ts] wires them: an account created for a request is one that
    the server returns, and one that the client validates and can spend from. *)

From S2P Require Import Prelude Js JsString Regex Bytes Zod Constants Schemas Ccc CccRef Effects.
From S2P Require Import Wire Protocol Digest Manifests State Account Artifacts Bootstrap.
From S2P Require Import Service Exporter Host Exported Sha256.

(** [{ stateData, assetCapacityCkb: INITIAL_ASSET / SHANNONS_PER_CKB }]. *)
Definition creation_options (stateData : bytes) : BootstrapOptions :=
  {| bo_stateData := stateData; bo_assetCapacityCkb := INITIAL_ASSET / SHANNONS_PER_CKB |}.

Lemma creation_capacities stateData :
  stateData ≠ [] →
  validateOptions (creation_options stateData) =
    Ok (accountStateCapacity (len stateData), INITIAL_ASSET).
Proof.
  intros Hd. unfold validateOptions.
  assert (len stateData ≠ 0) by (unfold len; destruct stateData; simpl; [done|lia]).
  cbn [creation_options bo_stateData bo_assetCapacityCkb]. pass_guard.
  change (INITIAL_ASSET / SHANNONS_PER_CKB) with 200. pass_guard.
  pose proof (cellCapacity_spec Bootstrap.ACCOUNT_LOCK_ARGS_LENGTH (Some Bootstrap.TYPE_ID_ARGS_LENGTH)
    (len stateData) ltac:(done) (len_nonneg _) ltac:(by intros ? [= <-])) as E1.
  pose proof (cellCapacity_spec Bootstrap.ACCOUNT_LOCK_ARGS_LENGTH None 0
    ltac:(done) ltac:(done) ltac:(done)) as E2.
  cbn [fmap option_fmap option_map] in E1, E2. rewrite E1, E2. cbn [mbind res_bind].
  pass_guard. reflexivity.
Qed.

(** The deployment file, as the server parsed it, names the lock code. *)
Lemma accountLockCodeHash_val m :
  deployment_wf m →
  accountLockCodeHash (deployment_val m) = Ok (da_dataHash (dm_account_lock m)).
Proof.
  intros [Hv Hn Hp Ht _ [_ Hd Hh _ _ _] _]. apply test_prefixed in Hd.
  change (test (hex_re "0x" 64) (da_dataHash (dm_account_lock m)) = true) in Hd.
  unfold accountLockCodeHash, deployment_val.
  assert (∀ note, prop (JObj ([("schema_version", JNum (NInt (dm_schema_version m)));
     ("network", JStr (dm_network m)); ("published", JBool (dm_published m));
     ("hash_type", JStr (dm_hash_type m))] ++
     match note with Some s => [("note", JStr s)] | None => [] end ++
     [("artifacts", JObj [("account_lock", artifact_val (dm_account_lock m));
        ("verifier_p256", artifact_val (dm_verifier_p256 m))])])) "artifacts" =
     JObj [("account_lock", artifact_val (dm_account_lock m));
           ("verifier_p256", artifact_val (dm_verifier_p256 m))]) as Ha
    by by intros [|].
  rewrite Ha. clear Ha. cbn -[test hex_re]. rewrite Hv, Hn, Hp, Ht, Hh, Hd. done.
Qed.

Section provisioning.
Context {zod : Zod} {zod_laws : ZodLaws} {ccc : Ccc} {ccc_laws : CccLaws}.
Context {platform : Platform}.

Lemma parseAccount_own m deployment :
  account_wf m → am_code_hash m = da_dataHash (dm_account_lock deployment) →
  parseAccount (account_val m) deployment = Ok (Some m).
Proof.
  intros Hw Hc. unfold parseAccount. change (is_null (account_val m)) with false. cbn match.
  rewrite account_parse by done. by rewrite account_of_val, Hc, String.eqb_refl.
Qed.

Context {W : Type} {deps : BootstrapDeps W} {laws : BootstrapLaws}.
Hypothesis sha256_is : ∀ b, sha256 b = sha256_ref b.

(** The account a client can spend from: its manifest validates against the deployment,
    and its state is read as the first state of the passkey. *)
Record spendable (deployment : DeploymentManifest) (m : AccountManifest) (stateData : bytes)
    (publicKey : bytes) (d : VerifiedDeployment) (a : VerifiedAccount) : Prop := {
  sp_deployment : validateDeployment (deployment_val deployment) = Ok d;
  sp_account : validateAccount (account_val m) d = Ok a;
  sp_state : parseAccountState (hexFromBytes stateData) a =
    Ok {| ps_sequence := 0; ps_keyId := ckb_digest publicKey |} }.

(** C27 — An account created for a well-formed request is the requested one. The state
    exported for the request costs, with the asset, what the balance check of the server
    requires less the fee reserve; when the deploy library creates the account with the
    deployment file the server has loaded, the server returns the manifest instead of
    refusing it, the transaction sent carries the exported state, and the client
    validates the manifest and reads the state as that of the requesting passkey. *)
Theorem created_account_spendable request deployment (w w' : world W bootstrap_event) m :
  request_wf request → deployment_wf deployment →
  (∀ env r env', bd_readJson (repo_path "deploy/testnet-deployments.json") env = (r, env') →
     r = Ok (deployment_val deployment)) →
  ∃ publicKey v config cfg,
    exported request deployment publicKey v config cfg ∧
    let stateData := state_layout v 0 (ckb_digest publicKey) in
    requiredBalance (len stateData) =
      accountStateCapacity (len stateData) + INITIAL_ASSET + BOOTSTRAP_FEE_RESERVE ∧
    validateOptions (creation_options stateData) =
      Ok (accountStateCapacity (len stateData), INITIAL_ASSET) ∧
    (bootstrapAccount (creation_options stateData) w = (Ok m, w') →
     parseAccount (account_val m) deployment = Ok (Some m) ∧
     (∃ tx, BSendTransaction tx ∈ w_log w' ∧
        creation_consistent tx (da_dataHash (dm_account_lock deployment))
          (hexFromBytes stateData)) ∧
     ∃ d a, spendable deployment m stateData publicKey d a).
Proof.
  intros Hr Hd Hfile.
  destruct (export_accepted sha256_is request deployment Hr Hd)
    as (publicKey & v & config & cfg & Hex).
  exists publicKey, v, config, cfg. split; [done|]. intros stateData. split; [done|].
  assert (Hlen : length stateData = 177%nat).
  { apply state_layout_length; [|apply ckb_digest_len].
    by eapply exported_verifier_length. }
  split; [apply creation_capacities; by intros E; rewrite E in Hlen|]. intros Hrun.
  destruct (bootstrapAccount_run _ _ _ _ Hrun) as (l & tx & code & input & Hm & env & x & env' & Hx & Hcode).
  { change (len stateData <= MAX_SAFE_INTEGER). unfold len. by rewrite Hlen. }
  specialize (Hfile _ _ _ Hx). injection Hfile as ->.
  rewrite accountLockCodeHash_val in Hcode by done. injection Hcode as <-.
  destruct Hm as (Hlog & Hcc & _ & _ & _ & Hsize & Hvalid).
  set (d := deployment_result deployment).
  specialize (Hvalid d eq_refl). cbn [creation_options bo_stateData] in *.
  destruct (validateAccount_inv _ _ _ Hvalid) as (m' & Hp & Hw & Hb & E).
  assert (m' = m) as -> by (by injection E).
  split; [apply parseAccount_own; [done|exact (ab_code _ _ Hb)]|]. split.
  - exists tx. split; [|done]. rewrite Hlog, !elem_of_app. right. right. by left.
  - exists d, (account_result m d). constructor; [|done|].
    + apply validateDeployment_val; [by apply deployment_parse|done].
    + apply (ex_accepted _ _ _ _ _ _ Hex); [|reflexivity].
      cbn. rewrite Hsize. unfold len. by rewrite Hlen.
Qed.
End provisioning.
