(* ===== verification/Startup.v ===== *)
(** * Starting the server ([demo/src/server/index.ts])

    What the server program checks before it listens, what it prints, and what it tells
    when it cannot start; and the dependencies it gives to the service. *)

From S2P Require Import Prelude Js JsString Regex Bytes Zod Constants Schemas Effects Json.
From S2P Require Import Ccc CccRef Wire Manifests Account Artifacts Deployment Publish.
From S2P Require Import Bootstrap Creation Service Requests Exporter Exported Process Provisioning.

(** The network interface of the process. *)
Class Listener (W : Type) := { server_listen : Z → string → W → res unit * W }.

Inductive server_event :=
  | VTool (e : tool_event)
  | VBootstrap (e : bootstrap_event)
  | VExport (request : BootstrapRequest)
  | VListen (port : Z) (host : string).

Definition DEPLOYMENT_INVALID : exn :=
  ApiError "DEPLOYMENT_INVALID" 500 "Testnet deployment is invalid".

(** [`${body.error.code}: ${body.error.message}`] *)
Definition error_line (error : exn) : string :=
  let body := prop (toSafeErrorBody error) "error" in
  js_text (prop body "code") +:+ ": " +:+ js_text (prop body "message").

(** The outcome of a promise, as a value. *)
Definition settled {W Ev A} (m : eff W Ev A) : eff W Ev (res A) :=
  λ w, let '(r, w') := m w in (Ok r, w').

(** The export of the service on the platform: [createExporterDeps] at the repository's root,
    with the environment of the process. *)
Definition export_state {W} {zod : Zod} {ccc : Ccc} {platform : Platform} {os : Os W}
    (repoRoot : string) (processEnv : list (string * string)) (deployment : DeploymentManifest)
    (request : BootstrapRequest) : world W os_event → res bytes * world W os_event := λ w,
  let '(r, w') := exportAccountState (deps := createExporterDeps repoRoot processEnv)
    (request_val request) (deployment_val deployment) (World w []) in
  (r, w_env w').

Section server.
Context {W : Type} {zod : Zod} {ccc : Ccc} {tool : Tool W} {listener : Listener W}.
(** The exporter, with the dependencies that [createExporterDeps] binds to the platform,
    and the atomic writer of the deploy library. *)
Context (exportState : DeploymentManifest → BootstrapRequest → W → res bytes * W)
  (writeJsonAtomicFile : string → jsval → W → res unit * W).
Notation M := (eff W server_event).

Definition log_line (line : string) : M unit := embed VTool (print line).

Definition cell_data (cell : option Cell) : option string := cell_outputData <$> cell.

(** The dependencies: how each await of the service is answered. *)
Definition get_cell (txHash : string) (index : Z) : M (option string) :=
  cell ← call (VTool (TGetCell txHash index)) (tool_getCellLive txHash index);
  mret (cell_data cell).
Definition funder_balance : M Z := call (VTool TBalance) tool_balance.
(** [Promise.all] of the address and the balance: both are requested. *)
Definition funder : M (string * Z) :=
  address ← settled (call (VTool TAddress) tool_address);
  balance ← settled funder_balance;
  lift (address ← address; balance ← balance; Ok (address, balance)).
Definition read_account : M jsval :=
  let accountPath := tool_path "deploy/testnet-account.json" in
  call (VTool (TReadJson accountPath)) (readJsonOrNull accountPath).
Definition create_account (stateData : bytes) : M jsval :=
  manifest ← embed VBootstrap
    (bootstrapAccount (deps := creation_deps writeJsonAtomicFile) (creation_options stateData));
  mret (account_val manifest).

Definition server_deployment : M DeploymentManifest :=
  let deploymentPath := tool_path "deploy/testnet-deployments.json" in
  value ← call (VTool (TReadJson deploymentPath)) (readJsonOrNull deploymentPath);
  match safeParse DeploymentManifestSchema value with
  | Some data => mret (deployment_of data)
  | None => lift (Throw DEPLOYMENT_INVALID)
  end.

(** A program of the service that runs alone, each await answered by its dependency. *)
Fixpoint alone {A} (deployment : DeploymentManifest) (verify : M unit) (p : prog A) : M A :=
  match p with
  | Done r => lift r
  | GetDeploymentCell h i k => x ← settled (get_cell h i); alone deployment verify (k x)
  | GetStateCell o k =>
      x ← settled (get_cell (mo_tx_hash o) (mo_index o)); alone deployment verify (k x)
  | ReadAccountManifest k => x ← settled read_account; alone deployment verify (k x)
  | FunderBalance k => x ← settled funder_balance; alone deployment verify (k x)
  | Funder k => x ← settled funder; alone deployment verify (k x)
  | ExportState q k =>
      x ← settled (call (VExport q) (exportState deployment q)); alone deployment verify (k x)
  | CreateAccount d k => x ← settled (create_account d); alone deployment verify (k x)
  | VerifyDeployment k => x ← settled verify; alone deployment verify (k x)
  end.

(** The verification of the deployment, as the first request starts it; it does not wait
    for itself. *)
Definition verify_alone (deployment : DeploymentManifest) : M unit :=
  catch (alone deployment (lift (Throw UNVERIFIED)) (verification deployment))
    (λ error, lift (Throw (api_or UNVERIFIED error))).

(** A creation request to a server that has just started. *)
Definition serve_creation (deployment : DeploymentManifest) (request : BootstrapRequest)
    : M AccountManifest :=
  alone deployment (verify_alone deployment) (bootstrapOnce deployment request).

(** [main]; the result is the deployment and the configuration the server runs with. *)
Definition server_main : M (DeploymentManifest * ServerConfig) :=
  config ← lift (loadServerConfig tool_privateKey);
  deployment ← server_deployment;
  lift (tool_signer (privateKey config));;
  '(address, balance) ← funder;
  call (VListen (port config) (host config)) (server_listen (port config) (host config));;
  log_line ("CKB passkey demo API listening on http://" +:+ host config +:+ ":" +:+
            dec (port config));;
  log_line ("Network " +:+ network config);;
  log_line ("Funder " +:+ address);;
  log_line ("Balance " +:+ dec balance +:+ " shannons");;
  mret (deployment, config).

(** The program: what it serves with, or nothing and exit code 1. *)
Definition server : M (option (DeploymentManifest * ServerConfig)) :=
  catch (served ← server_main; mret (Some served))
    (λ error, call (VTool (TPrintError (error_line error))) (λ w, (Ok tt, w));; mret None).
End server.

(** ** The service behind its dependencies *)

Definition library_calls (l : list server_event) : list bootstrap_event :=
  omap (λ e, match e with VBootstrap e => Some e | _ => None end) l.

Section composition.
Context {W : Type} {zod : Zod} {zod_laws : ZodLaws} {ccc : Ccc} {ccc_laws : CccLaws}.
Context {tool : Tool W}.
Context (exportState : DeploymentManifest → BootstrapRequest → W → res bytes * W)
  (writeJsonAtomicFile : string → jsval → W → res unit * W).
Context (deployment : DeploymentManifest).
Notation M := (eff W server_event).
Notation deps := (creation_deps writeJsonAtomicFile).
Notation alone := (alone exportState writeJsonAtomicFile deployment).
Let accountPath := tool_path "deploy/testnet-account.json".

(** A published cell that was read with the recorded hash. *)
Definition published_cell (artifact : DeploymentArtifact) : Prop :=
  ∃ cell, Publish.answers (tool_getCellLive (da_txHash artifact) (da_index artifact)) (Some cell) ∧
    hashCkb_hex (cell_outputData cell) = Ok (da_dataHash artifact).
Definition published_cells : Prop :=
  Forall published_cell [dm_account_lock deployment; dm_verifier_p256 deployment].

Definition cell_read (h : string) (i : Z) (x : res (option string)) : Prop :=
  ∀ text, x = Ok (Some text) →
    ∃ cell, Publish.answers (tool_getCellLive h i) (Some cell) ∧ cell_outputData cell = text.

(** What an answered await establishes; only a creation calls the library. *)
Definition wired (c : dep_call) (l : list server_event) : Prop :=
  match c with
  | CCreateAccount stateData x =>
      ∃ env rb wb, bootstrapAccount (deps := deps) (creation_options stateData) (World env []) = (rb, wb) ∧
        x = account_val <$> rb ∧ l = VBootstrap <$> w_log wb
  | CGetDeploymentCell h i x => library_calls l = [] ∧ cell_read h i x
  | CGetStateCell o x => library_calls l = [] ∧ cell_read (mo_tx_hash o) (mo_index o) x
  | CReadAccountManifest x =>
      library_calls l = [] ∧ ∀ v, x = Ok v → Publish.answers (readJsonOrNull accountPath) v
  | CFunderBalance x => library_calls l = [] ∧ ∀ b, x = Ok b → Publish.answers tool_balance b
  | CFunder _ => library_calls l = []
  | CExportState q x =>
      library_calls l = [] ∧ ∀ d, x = Ok d → Publish.answers (exportState deployment q) d
  | CVerifyDeployment x => library_calls l = [] ∧ (x = Ok tt → published_cells)
  end.

Lemma settled_run {A B} (m : M A) (f : res A → M B) (w w' : world W server_event) r :
  (x ← settled m; f x) w = (r, w') → ∃ x w1, m w = (x, w1) ∧ f x w1 = (r, w').
Proof.
  unfold mbind, eff_bind, settled. destruct (m w) as [x w1]. intros H. by exists x, w1.
Qed.

Lemma get_cell_run h i (w w' : world W server_event) x :
  get_cell h i w = (x, w') →
  ∃ l, w_log w' = w_log w ++ l ∧ library_calls l = [] ∧ cell_read h i x.
Proof.
  unfold get_cell. intros [(e & H & ->)|(cell & w1 & H & [= <- <-])]%eff_bind_cases;
    apply call_run in H as [H El]; eexists; (split; [exact El|]); (split; [done|]).
  - by intros text [=].
  - intros text [= E]. destruct cell as [cell|]; [|done]. injection E as E.
    exists cell. split; [|done]. by eexists _, _.
Qed.

Lemma funder_run (w w' : world W server_event) x :
  funder w = (x, w') → ∃ l, w_log w' = w_log w ++ l ∧ library_calls l = [].
Proof.
  unfold funder, funder_balance. intros (x1 & w1 & [_ E1]%call_run & H)%settled_run.
  apply settled_run in H as (x2 & w2 & [_ E2]%call_run & [_ ->]%lift_run).
  eexists. split; [log_eq|done].
Qed.

(** A run alone is a run of the program whose answers are those of the dependencies. *)
Lemma alone_runs {A} verify (p : prog A) (w w' : world W server_event) r :
  (∀ w x w', verify w = (x, w') →
     ∃ l, w_log w' = w_log w ++ l ∧ wired (CVerifyDeployment x) l) →
  alone verify p w = (r, w') →
  ∃ calls evs, runs p calls r ∧ Forall2 wired calls evs ∧ w_log w' = w_log w ++ concat evs.
Proof.
  intros Hv. revert w. assert (Hcall : ∀ (p p' : prog A) c l (w1 w2 : world W server_event),
    answers p c p' → wired c l → w_log w2 = w_log w1 ++ l →
    (∃ calls evs, runs p' calls r ∧ Forall2 wired calls evs ∧ w_log w' = w_log w2 ++ concat evs) →
    ∃ calls evs, runs p calls r ∧ Forall2 wired calls evs ∧ w_log w' = w_log w1 ++ concat evs).
  { intros p1 p2 c l w1 w2 Ha Hw E (calls & evs & Hr & Hf & El). exists (c :: calls), (l :: evs).
    split; [by eapply runs_call|]. split; [by constructor|]. cbn [concat]. by rewrite El, E, app_assoc. }
  induction p as [r0|h i k IH|o k IH|k IH|k IH|k IH|q k IH|d k IH|k IH]; intros w; cbn [Startup.alone].
  { intros [-> ->]%lift_run. exists [], []. split; [constructor|]. split; [constructor|].
    by rewrite app_nil_r. }
  all: intros (x & w1 & H1 & H2)%settled_run.
  - apply get_cell_run in H1 as (l & El & Hl & Hc). eapply Hcall; [constructor|by split|exact El|by eapply IH].
  - apply get_cell_run in H1 as (l & El & Hl & Hc). eapply Hcall; [constructor|by split|exact El|by eapply IH].
  - apply call_run in H1 as [H1 El]. eapply Hcall; [constructor| |exact El|by eapply IH].
    split; [done|]. intros v ->. by eexists _, _.
  - apply call_run in H1 as [H1 El]. eapply Hcall; [constructor| |exact El|by eapply IH].
    split; [done|]. intros v ->. by eexists _, _.
  - apply funder_run in H1 as (l & El & Hl). eapply Hcall; [constructor|exact Hl|exact El|by eapply IH].
  - apply call_run in H1 as [H1 El]. eapply Hcall; [constructor| |exact El|by eapply IH].
    split; [done|]. intros v ->. by eexists _, _.
  - assert (Hc : ∃ l, w_log w1 = w_log w ++ l ∧ wired (CCreateAccount d x) l).
    { unfold create_account in H1.
      apply eff_bind_cases in H1 as [(e & H1 & ->)|(m & w2 & H1 & [= <- <-])];
        apply embed_run in H1 as (wb & Hb & El); eexists; (split; [exact El|]);
        by eexists _, _, wb. }
    destruct Hc as (l & El & Hc). eapply Hcall; [constructor|exact Hc|exact El|by eapply IH].
  - apply Hv in H1 as (l & El & Hc). eapply Hcall; [constructor|exact Hc|exact El|by eapply IH].
Qed.

Lemma library_calls_app l1 l2 : library_calls (l1 ++ l2) = library_calls l1 ++ library_calls l2.
Proof. apply omap_app. Qed.
Lemma library_calls_embedded l : library_calls (VBootstrap <$> l) = l.
Proof. induction l as [|e l IH]; [done|]. cbn. by f_equal. Qed.

Lemma wired_quiet c l : wired c l → is_creation c = false → library_calls l = [].
Proof. destruct c; cbn; by intros; destruct_and?. Qed.
Lemma wired_quiets calls evs :
  Forall2 wired calls evs → forallb (λ c, negb (is_creation c)) calls = true →
  library_calls (concat evs) = [].
Proof.
  induction 1 as [|c l calls evs Hw _ IH]; [done|]. cbn. intros [Hc Hcs]%andb_true_iff.
  rewrite library_calls_app, IH by done. apply negb_true_iff in Hc.
  by rewrite (wired_quiet _ _ Hw Hc).
Qed.

Lemma runs_verification {u} calls :
  runs (verification deployment) calls u → forallb (λ c, negb (is_creation c)) calls = true.
Proof.
  assert (H : ∀ l calls u, runs (verify_artifacts l) calls u →
    forallb (λ c, negb (is_creation c)) calls = true).
  { intros l. induction l as [|a l IH]; intros cs r H; cbn [verify_artifacts mbind prog_bind and_then] in H.
    - by run_inv H.
    - run_inv H. cbn. destruct x as [[text|]|e]; cbn in H; [|by run_inv H..].
      destruct (hashCkb_hex text) as [h|e]; cbn in H; [|by run_inv H].
      destruct (throw_if _ _); cbn in H; [by eapply IH|by run_inv H]. }
  apply H.
Qed.

Lemma verify_wired (w w' : world W server_event) x :
  verify_alone exportState writeJsonAtomicFile deployment w = (x, w') →
  ∃ l, w_log w' = w_log w ++ l ∧ wired (CVerifyDeployment x) l.
Proof.
  unfold verify_alone, catch.
  destruct (alone _ _ w) as [x1 w1] eqn:H.
  apply alone_runs in H as (calls & evs & Hr & Hf & El).
  2: { intros w2 x2 w3 [-> ->]%lift_run. exists []. by rewrite app_nil_r. }
  pose proof (wired_quiets _ _ Hf (runs_verification _ Hr)) as Hq.
  destruct x1 as [[]|e].
  - intros [= <- <-]. exists (concat evs). split; [done|]. split; [done|]. intros _.
    apply verify_artifacts_checked in Hr. revert Hr. apply Forall_impl.
    intros a (text & Hin & Hh). apply list_elem_of_lookup in Hin as [i Hi].
    destruct (Forall2_lookup_l _ _ _ _ _ Hf Hi) as (l & _ & _ & Hc).
    destruct (Hc text eq_refl) as (cell & Ha & <-). by exists cell.
  - intros [-> ->]%lift_run. exists (concat evs). done.
Qed.

(** What a served creation request has done. *)
Record served (request : BootstrapRequest) (l : list server_event) (r : res AccountManifest)
    : Prop := {
  sv_once : (length (filter is_send (library_calls l)) <= 1)%nat;
  sv_guarded : ∀ tx, BSendTransaction tx ∈ library_calls l →
    published_cells ∧ ∃ stateData balance,
      Publish.answers (exportState deployment request) stateData ∧
      Publish.answers (readJsonOrNull accountPath) JNull ∧
      Publish.answers tool_balance balance ∧ requiredBalance (len stateData) <= balance ∧
      send_guarded (deps := deps) (creation_options stateData) tx;
  sv_account : ∀ m, r = Ok m →
    published_cells ∧ ∃ stateData, Publish.answers (exportState deployment request) stateData ∧
      ((library_calls l = [] ∧ ∃ value, Publish.answers (readJsonOrNull accountPath) value ∧
          recorded deployment value m ∧ am_state_bytes m = len stateData) ∨
       ∃ env created wb, recorded deployment (account_val created) m ∧
         bootstrapAccount (deps := deps) (creation_options stateData) (World env []) =
           (Ok created, wb) ∧ library_calls l = w_log wb) }.

(** The calls of a creation and their events. *)
Lemma wired_creation request d b x evs :
  Forall2 wired [CVerifyDeployment (Ok tt); CExportState request (Ok d);
    CReadAccountManifest (Ok JNull); CFunderBalance (Ok b); CCreateAccount d x] evs →
  published_cells ∧ Publish.answers (exportState deployment request) d ∧
  Publish.answers (readJsonOrNull accountPath) JNull ∧ Publish.answers tool_balance b ∧
  ∃ env rb wb, bootstrapAccount (deps := deps) (creation_options d) (World env []) = (rb, wb) ∧
    x = account_val <$> rb ∧ library_calls (concat evs) = w_log wb.
Proof.
  intros H.
  apply Forall2_cons_inv_l in H as (l1 & ? & [Q1 H1] & H & ->).
  apply Forall2_cons_inv_l in H as (l2 & ? & [Q2 H2] & H & ->).
  apply Forall2_cons_inv_l in H as (l3 & ? & [Q3 H3] & H & ->).
  apply Forall2_cons_inv_l in H as (l4 & ? & [Q4 H4] & H & ->).
  apply Forall2_cons_inv_l in H as (l5 & ? & (env & rb & wb & Hb & -> & ->) & H & ->).
  apply Forall2_nil_inv_l in H as ->.
  do 4 (split; [by auto|]). exists env, rb, wb. split; [done|]. split; [done|].
  cbn [concat]. by rewrite !library_calls_app, Q1, Q2, Q3, Q4, library_calls_embedded, app_nil_r.
Qed.

(** C30 — The server as it is wired: a creation request that runs alone sends at most one
    transaction, and only after both published cells were read with their recorded hashes,
    the state was exported for the request, no account file was found, the funder's balance
    covers the cost, and the library's own guards hold for that state. An account that is
    returned is the recorded one, with a state of the exported size and no call of the
    library, or the one that the library has just created. *)
Theorem served_creation (request : BootstrapRequest) (w w' : world W server_event)
    (r : res AccountManifest) :
  serve_creation exportState writeJsonAtomicFile deployment request w = (r, w') →
  ∃ l, w_log w' = w_log w ++ l ∧ served request l r.
Proof.
  intros H. apply alone_runs in H as (calls & evs & Hr & Hf & El);
    [|intros w1 x w2; apply verify_wired].
  exists (concat evs). split; [done|]. apply bootstrapOnce_safe in Hr as [_ Hg Hok _].
  destruct (existsb is_creation calls) eqn:Ec.
  - apply existsb_exists in Ec as (c & Hin & Hc). destruct c as [| | | | | |d x|]; try discriminate Hc.
    apply list_elem_of_In in Hin. destruct (Hg d x Hin) as (b & Hb & ->).
    apply wired_creation in Hf as (Hp & He & Ha & Hbal & env & rb & wb & Hboot & -> & Hl).
    destruct (bootstrap_guarded _ _ _ _ Hboot) as (lb & Elb & Hs). cbn in Elb.
    rewrite <- Elb in Hs. destruct Hs as (H1 & H2 & _).
    constructor; rewrite Hl; [done|by eauto 10|]. intros m Hm.
    split; [done|]. exists d. split; [done|]. right.
    destruct (Hok m Hm) as [d' v live Hv|d' b' v E _ Hrec]; [discriminate Hv|].
    assert (Ev : account_val <$> rb = Ok v) by congruence.
    destruct rb as [created|]; [|discriminate Ev]. injection Ev as <-.
    by exists env, created, wb.
  - assert (Hq : library_calls (concat evs) = []).
    { eapply wired_quiets; [exact Hf|]. apply forallb_forall. intros c Hin.
      apply negb_true_iff. destruct (is_creation c) eqn:E; [|done].
      rewrite <- Ec. symmetry. apply existsb_exists. by exists c. }
    constructor; rewrite Hq; [cbn; lia|by intros tx ?%not_elem_of_nil|]. intros m Hm.
    destruct (Hok m Hm) as [d v live -> Hrec Hsize _|d b v -> _ _]; [|discriminate Ec].
    apply Forall2_cons_inv_l in Hf as (l1 & ? & [_ H1] & Hf & ->).
    apply Forall2_cons_inv_l in Hf as (l2 & ? & [_ H2] & Hf & ->).
    apply Forall2_cons_inv_l in Hf as (l3 & ? & [_ H3] & Hf & ->).
    split; [by apply H1|]. exists d. split; [by apply H2|]. left. split; [done|].
    exists v. split; [by apply H3|done].
Qed.
End composition.

(** ** Starting *)

Section startup.
Context {W : Type} {zod : Zod} {zod_laws : ZodLaws} {ccc : Ccc} {tool : Tool W}.
Context {listener : Listener W}.
Let deploymentPath := tool_path "deploy/testnet-deployments.json".

(** Errors of the platform are not the program's own. *)
Hypothesis signer_errors : ∀ key e, tool_signer key = Throw e → is_ApiError e = false.
Hypothesis read_errors : ∀ env e env',
  readJsonOrNull deploymentPath env = (Throw e, env') → is_ApiError e = false.
Hypothesis address_errors : ∀ env e env',
  tool_address env = (Throw e, env') → is_ApiError e = false.
Hypothesis balance_errors : ∀ env e env',
  tool_balance env = (Throw e, env') → is_ApiError e = false.
Hypothesis listen_errors : ∀ p h env e env',
  server_listen p h env = (Throw e, env') → is_ApiError e = false.
Hypothesis read_json : ∀ env v env',
  readJsonOrNull deploymentPath env = (Ok v, env') → is_json v = true.

Definition listens (l : list server_event) : list (Z * string) :=
  omap (λ e, match e with VListen p h => Some (p, h) | _ => None end) l.

(** The lines a server that cannot start may print. *)
Definition START_ERRORS : list string := [
  "KEY_UNAVAILABLE: CKB_PRIVKEY is missing or invalid";
  "DEPLOYMENT_INVALID: Testnet deployment is invalid";
  "INTERNAL_ERROR: Unexpected local server error"].

Definition start_error (e : exn) : Prop := error_line e ∈ START_ERRORS.

Lemma foreign_start_error e : is_ApiError e = false → start_error e.
Proof.
  unfold start_error, error_line, toSafeErrorBody, is_ApiError.
  destruct (exn_class e); try discriminate; intros _; right; right; by left.
Qed.

(** What the server runs with. *)
Record checked_start (d : DeploymentManifest) (c : ServerConfig) : Prop := {
  st_key : tool_privateKey = Some (privateKey c) ∧ test PRIVATE_KEY (privateKey c) = true ∧
    tool_signer (privateKey c) = Ok tt;
  st_address : (port c, host c) = (8790, "127.0.0.1");
  st_file : ∃ v, Publish.answers (readJsonOrNull deploymentPath) v ∧
    safeParse DeploymentManifestSchema v = Some (deployment_val d) ∧ deployment_wf d }.

Lemma config_inv c :
  loadServerConfig tool_privateKey = Ok c →
  tool_privateKey = Some (privateKey c) ∧ test PRIVATE_KEY (privateKey c) = true ∧
  (port c, host c) = (8790, "127.0.0.1").
Proof.
  unfold loadServerConfig. intros H. inv_res. bool_simpl. cbn.
  destruct tool_privateKey as [key|]; [done|]. by vm_compute in H0.
Qed.

Lemma config_error e : loadServerConfig tool_privateKey = Throw e → start_error e.
Proof.
  unfold loadServerConfig. destruct (throw_if _ _) eqn:E; [done|].
  apply throw_if_Throw in E as [_ ->]. intros [= <-]. by left.
Qed.

Lemma server_deployment_run (w w' : world W server_event) r :
  server_deployment w = (r, w') →
  (∃ l, w_log w' = w_log w ++ l ∧ listens l = []) ∧
  match r with
  | Ok d => ∃ v, Publish.answers (readJsonOrNull deploymentPath) v ∧
      safeParse DeploymentManifestSchema v = Some (deployment_val d) ∧ deployment_wf d
  | Throw e => start_error e
  end.
Proof.
  unfold server_deployment. intros [(e & H & ->)|(v & w1 & H & H2)]%eff_bind_cases;
    apply call_run in H as [H El].
  { split; [by eexists|]. by eapply foreign_start_error, read_errors. }
  destruct (safeParse _ v) as [data|] eqn:Ep.
  - injection H2 as <- <-. split; [by eexists|].
    pose proof Ep as Hd. apply deployment_record in Hd as (d & -> & Hd); [|by eapply read_json].
    exists v. rewrite deployment_of_val. split; [by eexists _, _|]. done.
  - apply lift_run in H2 as [-> ->]. split; [by eexists|]. right; by left.
Qed.

Lemma listens_app l1 l2 : listens (l1 ++ l2) = listens l1 ++ listens l2.
Proof. apply omap_app. Qed.

Lemma log_line_run line (w w' : world W server_event) r :
  log_line line w = (r, w') → r = Ok tt ∧ w_log w' = w_log w ++ [VTool (TPrint line)].
Proof.
  intros (w1 & H & El)%embed_run. apply print_run in H as [-> E]. split; [done|].
  by rewrite El, E.
Qed.

Lemma funder_outcome (w w' : world W server_event) r :
  funder w = (r, w') → (∃ l, w_log w' = w_log w ++ l ∧ listens l = []) ∧
  ∀ e, r = Throw e → start_error e.
Proof.
  unfold funder, funder_balance. intros (x1 & w1 & [H1 E1]%call_run & H)%settled_run.
  apply settled_run in H as (x2 & w2 & [H2 E2]%call_run & [-> ->]%lift_run).
  split; [eexists; split; [log_eq|done]|]. intros e He. apply foreign_start_error.
  destruct x1 as [a|e1]; [destruct x2 as [b|e2]|]; cbn in He; try discriminate He;
    injection He as <-; [by eapply balance_errors|by eapply address_errors].
Qed.

(** The outcome of [main]: it served, or it failed before or while it started to listen. *)
Definition main_outcome (l : list server_event) (r : res (DeploymentManifest * ServerConfig))
    : Prop :=
  match r with
  | Ok (d, c) => checked_start d c ∧ listens l = [(8790, "127.0.0.1")]
  | Throw e => start_error e ∧
      (listens l = [] ∨
       listens l = [(8790, "127.0.0.1")] ∧ ∃ d c, checked_start d c)
  end.

(** The four lines of a server that listens. *)
Lemma greeting_run (a b c d : string) {A} (x : A) (w w' : world W server_event) r :
  (log_line a;; log_line b;; log_line c;; log_line d;; mret x) w = (r, w') →
  r = Ok x ∧ ∃ l, w_log w' = w_log w ++ l ∧ listens l = [].
Proof.
  intros H.
  do 4 (let w1 := fresh "w" in let El := fresh "El" in
    apply eff_bind_cases in H as [(? & H & _)|(? & w1 & [_ El]%log_line_run & H)];
    [by apply log_line_run in H as [? _]|]).
  injection H as <- <-. split; [done|]. eexists. split; [log_eq|done].
Qed.

Lemma server_main_run (w w' : world W server_event) r :
  server_main w = (r, w') → ∃ l, w_log w' = w_log w ++ l ∧ main_outcome l r.
Proof.
  unfold server_main. intros H. run_step H.
  { exists []. rewrite app_nil_r. split; [done|]. split; [by apply config_error|by left]. }
  match goal with H : Ok ?c = loadServerConfig _ |- _ => symmetry in H;
    apply config_inv in H as (Hk & Ht & Ha); rename c into config end.
  apply eff_bind_cases in H as [(e & H & ->)|(d & w1 & H1 & H)].
  { apply server_deployment_run in H as [(l & El & Hl) He]. exists l. split; [done|].
    split; [done|by left]. }
  apply server_deployment_run in H1 as [(l1 & El1 & Hl1) Hd].
  run_step H.
  { exists l1. split; [done|]. split; [by eapply foreign_start_error, signer_errors|by left]. }
  match goal with H : Ok ?u = tool_signer _ |- _ => destruct u; symmetry in H; rename H into Hs end.
  assert (Hc : checked_start d config) by (by split).
  apply eff_bind_cases in H as [(e & H & ->)|([address balance] & w2 & H2 & H)].
  { apply funder_outcome in H as [(l & El & Hl) He]. exists (l1 ++ l). split; [log_eq|].
    split; [by apply He|]. left. by rewrite listens_app, Hl1, Hl. }
  apply funder_outcome in H2 as [(l2 & El2 & Hl2) _].
  assert (Hlisten : ∀ l, listens l = [] →
    listens (l1 ++ l2 ++ VListen (port config) (host config) :: l) = [(8790, "127.0.0.1")]).
  { intros l Hl. rewrite !listens_app, Hl1, Hl2. cbn. change (omap _ l) with (listens l).
    by rewrite Hl, Ha. }
  run_step H.
  { eexists. split; [log_eq|]. split; [by eapply foreign_start_error, listen_errors|].
    right. split; [by apply (Hlisten [])|by eauto]. }
  apply greeting_run in H as (-> & lg & Elg & Hlg). eexists. split; [log_eq|].
  split; [done|]. by apply Hlisten.
Qed.

(** A server that serves has a well-formed key that the wallet accepts and a well-formed
    manifest of published contracts, and listens once, on the loopback interface only. One
    that does not has printed one of three fixed lines as its last, whatever went wrong, so
    no error text of the platform, and with it no key, is shown. *)
Theorem server_started (env : W) (w' : world W server_event)
    (r : res (option (DeploymentManifest * ServerConfig))) :
  server (World env []) = (r, w') →
  (∃ d c, r = Ok (Some (d, c)) ∧ checked_start d c ∧
     listens (w_log w') = [(8790, "127.0.0.1")]) ∨
  (r = Ok None ∧ ∃ l line, w_log w' = l ++ [VTool (TPrintError line)] ∧ line ∈ START_ERRORS ∧
     (listens l = [] ∨ listens l = [(8790, "127.0.0.1")] ∧ ∃ d c, checked_start d c)).
Proof.
  unfold server, catch. destruct ((served ← server_main; mret (Some served)) _) as [[o|e] w1] eqn:H.
  - intros [= <- <-]. apply eff_bind_Ok in H as ([d c] & w2 & H & [= <- <-]).
    apply server_main_run in H as (l & -> & Hc & Hl). left. by exists d, c.
  - apply eff_bind_Throw in H as [H|(s & w2 & _ & ?)]; [|done].
    apply server_main_run in H as (l & El & He & Hl). intros [= <- <-]. right.
    split; [done|]. exists l, (error_line e). cbn [w_log]. by rewrite El.
Qed.
End startup.
