(* ===== verification/Samples.v ===== *)
(** * Sample inputs

    One deployment, one account with the repository's vector state, one passkey and
    one chain, on which the theorems with hypotheses are instantiated. *)

From S2P Require Import Prelude Js JsString Regex Bytes Zod Constants Schemas Base64.
From S2P Require Import Effects Json Ccc CccRef Wire Protocol Manifests State Chain.
From S2P Require Import Vectors Account Artifacts Deployment Bootstrap Sha256 Exporter.
From Stdlib Require Import Ascii.

Definition repeat_hash (byte : string) : string := "0x" +:+ str_repeat 32 byte.

Definition sample_lock_artifact : DeploymentArtifact := {|
  da_name := "account_lock";
  da_dataHash := "0xc546913fec9a02ebdf59c7e22e38bd5d9bb07bea81985c4cf8288040f0480abe";
  da_hashType := "data2"; da_txHash := repeat_hash "11"; da_index := 0;
  da_capacityShannons := "10000000000" |}.
Definition sample_verifier_artifact : DeploymentArtifact := {|
  da_name := "verifier_p256";
  da_dataHash := "0x376a3e1bfefc57d63cff2e5d022283800fb6b5f014b5edac4be573d58a7b124a";
  da_hashType := "data2"; da_txHash := repeat_hash "22"; da_index := 0;
  da_capacityShannons := "10000000000" |}.
Definition sample_deployment : DeploymentManifest := {|
  dm_schema_version := 1; dm_network := "testnet"; dm_published := true;
  dm_hash_type := "data2"; dm_note := None; dm_account_lock := sample_lock_artifact;
  dm_verifier_p256 := sample_verifier_artifact |}.
Definition sample_verified : VerifiedDeployment := deployment_result sample_deployment.

(** The identifier is the hash of the Type ID script with these arguments. *)
Definition sample_id : string :=
  "0x1c750c0786bc8646d418eddac78a33d0f9be2f24046a1681bd2562feeeb1a7bb".
Definition sample_account : AccountManifest := {|
  am_schema_version := 1; am_network := "testnet"; am_account_id := sample_id;
  am_code_hash := da_dataHash sample_lock_artifact; am_hash_type := "data2";
  am_args := "0x01" +:+ str_drop 2 sample_id; am_type_id_args := repeat_hash "44";
  am_state_out_point := {| mo_tx_hash := repeat_hash "33"; mo_index := 0 |};
  am_asset_out_point := {| mo_tx_hash := repeat_hash "33"; mo_index := 1 |};
  am_state_bytes := 177 |}.
Definition sample_verified_account : VerifiedAccount :=
  account_result sample_account sample_verified.

Definition sample_passkey : PasskeyRecord := {|
  pk_schemaVersion := 1; pk_credentialId := "AQIDBA"; pk_publicKey := V_PUBLIC_KEY;
  pk_keyId := "0xd7ef93190b2298d3def2e6ecba04747ae5ca7ec7eb1a76e2138a588580440d64";
  pk_rpId := RP_ID; pk_origin := CLIENT_ORIGIN; pk_createdAt := "2026-07-27T00:00:00Z" |}.

(** ** A chain *)

Definition sample_state_cell : Cell := {|
  cell_outPoint := manifest_outpoint (am_state_out_point sample_account);
  cell_cellOutput := {| co_capacity := 40000000000;
    co_lock := accountLock sample_verified_account;
    co_type := Some (stateType sample_verified_account) |};
  cell_outputData := V_STATE |}.
Definition sample_asset_cell : Cell := {|
  cell_outPoint := manifest_outpoint (am_asset_out_point sample_account);
  cell_cellOutput := {| co_capacity := 50000000000;
    co_lock := accountLock sample_verified_account; co_type := None |};
  cell_outputData := "0x" |}.

(** The hash every submission returns, and its change cell. *)
Definition sample_tx_hash : string := repeat_hash "55".
Definition sample_change_cell : Cell := {|
  cell_outPoint := {| op_txHash := sample_tx_hash; op_index := 1 |};
  cell_cellOutput := {| co_capacity := 39999990000;
    co_lock := accountLock sample_verified_account; co_type := None |};
  cell_outputData := "0x" |}.

Definition sample_cells : list Cell := [sample_state_cell; sample_asset_cell; sample_change_cell].

(** A chain whose environment counts the transactions sent. *)
#[export] Instance sample_client : SpendClient nat := {|
  addressPrefix := "ckt";
  getCellLive o _ _ n := (Ok (List.find (λ c, bool_decide (cell_outPoint c = o)) sample_cells), n);
  findCellsByLock _ _ _ _ _ n := (([sample_state_cell; sample_asset_cell], None), n);
  sendTransaction _ _ n := (Ok sample_tx_hash, S n);
  waitTransaction _ _ _ n := (Ok true, n) |}.

Definition chain0 : world nat chain_event := World 0%nat [].
Definition sample_address : string := "ckt1qsample".

(** Client data for the prepared digest, as a browser serializes it. *)
Definition quoted (s : string) : string := String QUOTE s +:+ String QUOTE "".
Definition sample_client_data (p : PreparedSpend) : string :=
  "{" +:+ quoted "type" +:+ ":" +:+ quoted "webauthn.get" +:+ "," +:+
  quoted "challenge" +:+ ":" +:+ quoted (base64urlEncode (ps_authorizationDigest p)) +:+ "," +:+
  quoted "origin" +:+ ":" +:+ quoted CLIENT_ORIGIN +:+ "," +:+
  quoted "crossOrigin" +:+ ":false}".
Definition sample_assertion (p : PreparedSpend) : AssertionMaterial := {|
  as_credentialId := pk_credentialId sample_passkey;
  as_authenticatorData := hx V_AUTHENTICATOR_DATA;
  as_clientDataJson := utf8_encode (sample_client_data p);
  as_signature := hx V_SIGNATURE |}.

Definition sample_receipt : Receipt := {|
  rc_txHash := sample_tx_hash; rc_explorerUrl := EXPLORER_URL +:+ sample_tx_hash;
  rc_remainingCapacityShannons := "39999990000"; rc_status := "submitted" |}.

(** ** The deployment tools *)

Definition sample_record (name hash : string) : DeployedRecord := {|
  dr_name := name; dr_dataHash := hash; dr_hashType := "data2";
  dr_txHash := repeat_hash "11"; dr_index := NInt 0; dr_capacityShannons := "6200000000" |}.
Definition sample_lock_record : DeployedRecord :=
  sample_record "account_lock" (da_dataHash sample_lock_artifact).
Definition sample_verifier_record : DeployedRecord :=
  sample_record "verifier_p256" (da_dataHash sample_verifier_artifact).

(** A disk with one artifact of three bytes. *)
Definition sample_binary : bytes := [x01; x02; x03].
Definition sample_identity : ArtifactIdentity := {|
  id_name := "account_lock"; id_path := JStr "lock.bin";
  id_dataHash := JStr (hexFromBytes (ckb_digest sample_binary)) |}.
#[export] Instance sample_files : Files := {|
  resolve_path root path := match path with
                            | JStr p => Ok (root +:+ "/" +:+ p)
                            | _ => Throw (TypeError "") end;
  read_bytes path := if String.eqb path "/r/lock.bin" then Ok sample_binary
                     else Throw (Error "ENOENT");
  read_json path :=
    Ok (JObj [("local", JObj [("artifacts", JObj [("account_lock", JObj [
      ("path", id_path sample_identity); ("data_hash", id_dataHash sample_identity)])])])]) |}.

(** A wallet with one cell, and the repository's files. *)
Definition sample_input : CellInput := {|
  in_previousOutput := {| op_txHash := repeat_hash "66"; op_index := 0 |}; in_since := 0 |}.
Definition add_input (tx : Transaction) : Transaction := {|
  tx_cellDeps := tx_cellDeps tx; tx_inputs := tx_inputs tx ++ [sample_input];
  tx_outputs := tx_outputs tx; tx_outputsData := tx_outputsData tx;
  tx_witnesses := tx_witnesses tx |}.
#[export] Instance sample_wallet : BootstrapDeps unit := {|
  repo_path p := p;
  bd_readJson p w :=
    (Ok (if String.eqb p "deploy/testnet-deployments.json"
         then deployment_val sample_deployment else JNull), w);
  bd_writeJsonAtomic _ _ w := (Ok tt, w);
  bd_completeInputs tx w := (Ok (add_input tx), w);
  bd_completeFee tx _ w := (Ok tx, w);
  bd_sendTransaction _ w := (Ok sample_tx_hash, w);
  bd_waitTransaction _ _ _ w := (Ok tt, w) |}.

#[export] Instance sample_wallet_laws : BootstrapLaws.
Proof.
  constructor; cbn; intros.
  - simplify_eq. done.
  - simplify_eq. done.
  - simplify_eq. apply test_prefixed. vm_compute. reflexivity.
Qed.

Definition sample_options : BootstrapOptions := {|
  bo_stateData := hx V_STATE; bo_assetCapacityCkb := 200 |}.

(** A successful run of effectful code, and its result. *)
Definition succeeds {W Ev A} (m : eff W Ev A) (w : world W Ev) : bool :=
  match m w with (Ok _, _) => true | _ => false end.
Lemma succeeds_run {W Ev A} (m : eff W Ev A) w :
  succeeds m w = true → ∃ a w', m w = (Ok a, w').
Proof. unfold succeeds. destruct (m w) as [[a|e] w']; [eauto|done]. Qed.

(** ** The server *)

Definition sample_request : BootstrapRequest := {|
  br_publicKey := V_PUBLIC_KEY; br_credentialId := pk_credentialId sample_passkey |}.
Lemma sample_request_wf : request_wf sample_request.
Proof.
  split; [apply test_prefixed; vm_compute; reflexivity|].
  split; [discriminate|vm_compute; reflexivity].
Qed.
Lemma sample_deployment_wf : deployment_wf sample_deployment.
Proof.
  constructor; try done; constructor; try done;
    lazymatch goal with
    | |- hash32 _ => apply test_prefixed; vm_compute; reflexivity
    | |- index_ok _ => vm_compute; split; discriminate
    | |- decimal _ => vm_compute; reflexivity
    end.
Qed.

(** A file system whose paths are absolute and normal. *)
Fixpoint last_segment (s acc : string) : string :=
  match s with
  | EmptyString => acc
  | String c s' =>
      if Ascii.eqb c "/" then last_segment s' "" else last_segment s' (acc +:+ String c "")
  end.
#[export] Instance sample_platform : Platform := {|
  sha256 := sha256_ref;
  path_resolve s := s;
  path_dirname s := str_take (str_len s - str_len (last_segment s "") - 1) s;
  path_basename s := last_segment s "";
  path_join a b := a +:+ "/" +:+ b;
  os_tmpdir := "/tmp" |}.

Definition sample_directory : string := "/tmp/ckb-passkey-state-a1b2c3".
(** A host tool that writes the state of the vectors. *)
#[export] Instance sample_exporter : ExporterDeps unit := {|
  x_repoRoot := "/repo";
  x_processEnv := [("PATH", "/bin"); ("CKB_PRIVKEY", "0x00"); ("ckb_privkey", "0x01")];
  x_makeTempDir w := (Ok sample_directory, w);
  x_writeFile _ _ _ _ w := (Ok tt, w);
  x_spawnProcess _ _ _ _ w := (Ok {| exitCode := 0; stderr := [] |}, w);
  x_readFile _ w := (Ok (hx V_STATE), w);
  x_removeDir _ w := (Ok tt, w) |}.
