(* ===== verification/Witnesses.v ===== *)
(** * Instances of the theorems

    Each theorem with hypotheses, applied to the sample inputs with the concrete
    chain library, schema parser, JSON parser, chain and wallet. *)

From S2P Require Import Prelude Js JsString Regex Bytes Zod Constants Schemas Base64.
From S2P Require Import Effects Json Ccc CccRef Wire Protocol Codec Manifests State.
From S2P Require Import Chain Spending Vectors Account Artifacts Deployment Bootstrap.
From S2P Require Import Samples.

(** ** Manifests and state *)

Lemma validate_deployment_exact_witness :
  is_json (deployment_val sample_deployment) = true ∧
  ∃ m, safeParse DeploymentManifestSchema (deployment_val sample_deployment) =
      Some (deployment_val m) ∧ deployment_wf m ∧ sample_verified = deployment_result m ∧
    validateDeployment (deployment_val m) = Ok sample_verified.
Proof.
  assert (Hj : is_json (deployment_val sample_deployment) = true) by (vm_compute; reflexivity).
  split; [exact Hj|].
  apply (proj1 (validate_deployment_exact (deployment_val sample_deployment) sample_verified Hj)).
  vm_compute. reflexivity.
Defined.

Lemma validate_account_exact_witness :
  ∃ m, safeParse AccountManifestSchema (account_val sample_account) = Some (account_val m) ∧
    account_wf m ∧ account_bound m sample_verified ∧
    sample_verified_account = account_result m sample_verified ∧
    validateAccount (account_val m) sample_verified = Ok sample_verified_account.
Proof.
  apply (proj1 (validate_account_exact (account_val sample_account) sample_verified
                  sample_verified_account)).
  vm_compute. reflexivity.
Defined.

Lemma accepted_state_is_valid_on_chain_witness :
  ∃ p, parseAccountState V_STATE sample_verified_account = Ok p ∧
  ∃ data v, bytesFromHex V_STATE = Ok data ∧
    validate_state data = Good (one_key_header (ps_sequence p),
                                {| ss_spend := 1; ss_rotate := 1; ss_recovery := 1 |}) ∧
    parse_authenticator data 32 None = Good (one_key_entry v (ps_keyId p), len data) ∧
    codeHash (verifierP256Code (va_deployment sample_verified_account)) = hexFromBytes v.
Proof.
  assert (H : parseAccountState V_STATE sample_verified_account =
    Ok {| ps_sequence := 0; ps_keyId := hx (pk_keyId sample_passkey) |})
    by (vm_compute; reflexivity).
  eexists. split; [exact H|]. exact (accepted_state_is_valid_on_chain _ _ _ H).
Defined.

(** ** Spending *)

Lemma discovery_sound_witness :
  ∃ w' p, discoverAccountCells sample_verified_account chain0 =
      (Ok (sample_state_cell, sample_asset_cell), w') ∧
    discovered sample_verified_account chain0 w' sample_state_cell sample_asset_cell p.
Proof.
  assert (H : discoverAccountCells sample_verified_account chain0 =
    (Ok (sample_state_cell, sample_asset_cell),
     World 0%nat (discovery_log sample_verified_account))) by (vm_compute; reflexivity).
  destruct (discovery_sound _ _ _ _ _ H) as [p Hp]. eexists _, p. split; [exact H | exact Hp].
Defined.

Definition prepares : eff nat chain_event PreparedSpend :=
  prepareSpend sample_verified_account sample_address (passkey_val sample_passkey).
Definition finalizes (p : PreparedSpend) : res Transaction :=
  finalizeSpend p (passkey_val sample_passkey) (sample_assertion p).

Lemma sample_run :
  ∃ p w' tx, prepares chain0 = (Ok p, w') ∧ finalizes p = Ok tx.
Proof.
  assert (H : succeeds (p ← prepares; lift (finalizes p)) chain0 = true)
    by (vm_compute; reflexivity).
  apply succeeds_run in H as (tx & w2 & H). apply eff_bind_Ok in H as (p & w1 & H1 & H2).
  apply lift_run in H2 as [H2 _]. eauto.
Qed.

Lemma prepare_spend_sound_witness :
  ∃ p w', prepares chain0 = (Ok p, w') ∧
  ∃ passkey publicKey state asset parsed,
    safeParse PasskeyRecordSchema (passkey_val sample_passkey) = Some (passkey_val passkey) ∧
    passkey_wf passkey ∧
    bytesFromHex (pk_publicKey passkey) = Ok publicKey ∧
    pk_keyId passkey = hexFromBytes (ckb_digest publicKey) ∧
    discovered sample_verified_account chain0 w' state asset parsed ∧
    prepared sample_verified_account sample_address passkey publicKey state asset p.
Proof.
  destruct sample_run as (p & w' & _ & H & _). exists p, w'. split; [exact H|].
  exact (prepare_spend_sound _ _ _ _ _ _ H).
Defined.

Lemma finalize_spend_sound_witness :
  ∃ p tx, finalizes p = Ok tx ∧
  ∃ publicKey packed lock proof,
    bytesFromHex (ps_publicKey p) = Ok publicKey ∧
    as_credentialId (sample_assertion p) = ps_credentialId p ∧
    assertion_ok p (sample_assertion p) ∧
    tx = set_first_witness (hexFromBytes packed) (transaction p) ∧
    len packed <= maxWitnessBytes p ∧
    unpackAccountWitness packed = Ok lock ∧
    parse_witness_header lock = Good (witness_facts OP_SPEND (sequence p) 1) ∧
    parse_proofs collect lock (witness_facts OP_SPEND (sequence p) 1) [] =
      Good [(0, proof)] ∧
    parse_proof proof =
      Good (passkey_proof (proof_input_of publicKey (sample_assertion p))).
Proof.
  destruct sample_run as (p & w' & tx & _ & H). exists p, tx. split; [exact H|].
  exact (finalize_spend_sound _ _ _ _ H).
Defined.

Lemma finalize_spend_complete_witness :
  ∃ p w', prepares chain0 = (Ok p, w') ∧ assertion_ok p (sample_assertion p) ∧
  ∃ tx, finalizeSpend p (passkey_val sample_passkey) (sample_assertion p) = Ok tx.
Proof.
  destruct sample_run as (p & w' & tx & Hp & Hf). exists p, w'. split; [exact Hp|].
  destruct (finalizeSpend_inv _ _ _ _ Hf) as (_ & _ & _ & Hc & _ & _ & _ & Hok & _).
  split; [exact Hok|]. exact (finalize_spend_complete _ _ _ _ _ _ _ Hp Hc Hok).
Defined.

Definition sample_transaction : Transaction := {|
  tx_cellDeps := []; tx_inputs := [sample_input];
  tx_outputs := [cell_cellOutput sample_asset_cell; cell_cellOutput sample_change_cell];
  tx_outputsData := ["0x"; "0x"]; tx_witnesses := [] |}.

Lemma submit_sends_once_witness :
  ∃ w', submitSpend sample_transaction chain0 = (Ok sample_receipt, w') ∧
  ((¬ spend_shape sample_transaction ∧ w' = chain0 ∧
      Ok sample_receipt = Throw (TypeError "Spend transaction has an unexpected output shape")) ∨
   (spend_shape sample_transaction ∧
     w_log w' = w_log chain0 ++ [ESendTransaction sample_transaction "passthrough"] ∧
     ∀ receipt, Ok sample_receipt = Ok receipt →
       ∃ txHash change,
         Chain.sendTransaction sample_transaction "passthrough" (w_env chain0) =
           (Ok txHash, w_env w') ∧
         tx_outputs sample_transaction !! 1%nat = Some change ∧
         receipt = {| rc_txHash := txHash; rc_explorerUrl := EXPLORER_URL +:+ txHash;
                      rc_remainingCapacityShannons := dec (co_capacity change);
                      rc_status := "submitted" |})).
Proof.
  assert (H : submitSpend sample_transaction chain0 =
    (Ok sample_receipt, World 1%nat [ESendTransaction sample_transaction "passthrough"]))
    by (vm_compute; reflexivity).
  eexists. split; [exact H|]. exact (submit_sends_once _ _ _ _ H).
Defined.

Lemma sample_receipt_wf : receipt_wf "submitted" sample_receipt.
Proof.
  constructor; [apply test_prefixed; vm_compute; reflexivity|vm_compute; reflexivity| |done].
  unfold decimal. vm_compute. reflexivity.
Qed.

Lemma confirm_spend_sound_witness :
  receipt_wf "submitted" sample_receipt ∧
  ∃ w', confirmSpend (receipt_val sample_receipt) chain0 =
      (Ok (with_status sample_receipt "committed"), w') ∧
  ∃ l, w_log w' = w_log chain0 ++ l ∧
    confirmation sample_receipt (w_env chain0) (w_env w')
      (Ok (with_status sample_receipt "committed")) l.
Proof.
  split; [exact sample_receipt_wf|].
  assert (H : confirmSpend (receipt_val sample_receipt) chain0 =
    (Ok (with_status sample_receipt "committed"),
     World 0%nat [EWaitTransaction sample_tx_hash 0 300000;
       EGetCellLive {| op_txHash := sample_tx_hash; op_index := 1 |} true true]))
    by (vm_compute; reflexivity).
  eexists. split; [exact H|].
  exact (confirm_spend_sound sample_receipt _ _ _ sample_receipt_wf H).
Defined.

(** ** The deployment tools *)

Definition sample_type : Script := state_type_script (hashTypeId sample_input 0).
Definition sample_creation_lock : Script := {|
  codeHash := da_dataHash sample_lock_artifact; hashType := "data2";
  args := "0x01" +:+ str_drop 2 (Script_hash sample_type) |}.
Definition sample_creation : Transaction := {|
  tx_cellDeps := []; tx_inputs := [sample_input];
  tx_outputs := [
    {| co_capacity := 40000000000; co_lock := sample_creation_lock; co_type := Some sample_type |};
    {| co_capacity := 20000000000; co_lock := sample_creation_lock; co_type := None |}];
  tx_outputsData := [V_STATE; "0x"]; tx_witnesses := [] |}.

Lemma creation_check_exact_witness :
  creation_consistent sample_creation (da_dataHash sample_lock_artifact) V_STATE.
Proof. apply creation_check_exact. vm_compute. reflexivity. Defined.

Lemma deployment_plan_exact_witness :
  ∃ plan, buildDeploymentPlan "/r" ["account_lock"] (NInt 33) = Ok plan ∧
  ["account_lock"] ≠ [] ∧ NoDup ["account_lock"] ∧
  ∃ ids, readLocalArtifactIdentities "/r" = Ok ids ∧
    Forall2 (planned "/r" ids 33) ["account_lock"] (dp_cells plan) ∧
    dp_total plan = foldr (λ c t, pc_capacity c + t) 0 (dp_cells plan).
Proof.
  assert (H : buildDeploymentPlan "/r" ["account_lock"] (NInt 33) =
    Ok {| dp_cells := [{| pc_identity := sample_identity; pc_data := sample_binary;
                          pc_capacity := 7700000000 |}]; dp_total := 7700000000 |})
    by (vm_compute; reflexivity).
  eexists. split; [exact H|].
  apply (proj1 (deployment_plan_exact "/r" ["account_lock"] 33 _ ltac:(discriminate)) H).
Defined.

Lemma deployment_args_safe_witness :
  let parsed := {| da_broadcast := true; da_selection := ["verifier_p256"] |} in
  let argv := ["--only"; "verifier_p256"; "--broadcast"] in
  parseDeploymentArgs argv = Ok parsed ∧
  da_selection parsed ≠ [] ∧ NoDup (da_selection parsed) ∧
  Forall (λ n, n ∈ ALL_ARTIFACTS) (da_selection parsed) ∧
  (da_broadcast parsed = true → "--broadcast" ∈ argv) ∧
  (argv = [] → parsed = {| da_broadcast := false; da_selection := PHASED_P256_ARTIFACTS |}).
Proof.
  intros parsed argv.
  assert (H : parseDeploymentArgs argv = Ok parsed) by (vm_compute; reflexivity).
  split; [exact H|]. exact (deployment_args_safe argv parsed H).
Defined.

(** A publisher that records every call. *)
Definition sample_publish (name : string) : eff unit string DeployedRecord :=
  call name (λ w, (Ok (sample_record name (repeat_hash "77")), w)).

Lemma publish_deployment_sound_witness :
  ∃ m w', publishDeployment JUndef PHASED_P256_ARTIFACTS sample_publish (World tt []) =
      (Ok m, w') ∧
  ((∃ e, buildDeploymentManifest JUndef [] = Throw e ∧ Ok m = Throw e ∧ w' = World tt []) ∨
   (∃ e, mapM_eff sample_publish PHASED_P256_ARTIFACTS (World tt []) = (Throw e, w') ∧
      Ok m = Throw e) ∨
   (∃ records, mapM_eff sample_publish PHASED_P256_ARTIFACTS (World tt []) = (Ok records, w') ∧
      Ok m = buildDeploymentManifest JUndef records)).
Proof.
  assert (H : publishDeployment JUndef PHASED_P256_ARTIFACTS sample_publish (World tt []) =
    (Ok (manifest_val (merged [] [sample_record "account_lock" (repeat_hash "77");
                                  sample_record "verifier_p256" (repeat_hash "77")])),
     World tt PHASED_P256_ARTIFACTS)) by (vm_compute; reflexivity).
  eexists _, _. split; [exact H|]. exact (publish_deployment_sound _ _ _ _ _ _ H).
Defined.

Lemma sample_record_ok name hash :
  test HASH_TEXT hash = true → record_ok (sample_record name hash).
Proof.
  intros H. constructor; [by apply hash_text_iff|done| | |vm_compute; reflexivity].
  - apply hash_text_iff. vm_compute. reflexivity.
  - exists 0. split; [done|]. unfold index_ok, MAX_SAFE_INTEGER. lia.
Qed.

(** The manifest of a full deployment, as recorded, with a third artifact. *)
Definition full_artifacts : list (string * jsval) :=
  merged [] [sample_lock_record; sample_verifier_record;
             sample_record "verifier_mldsa65" (repeat_hash "77")].

Lemma recorded_manifest_in_demo_witness :
  (m ← buildDeploymentManifest JUndef [sample_lock_record; sample_verifier_record];
   validateDeployment m) =
    Ok (deployment_result (demo_manifest sample_lock_record sample_verifier_record)) ∧
  validateDeployment (manifest_val full_artifacts) = Throw (invalidManifest "Deployment").
Proof.
  assert (Hl : record_ok sample_lock_record)
    by (apply sample_record_ok; vm_compute; reflexivity).
  assert (Hv : record_ok sample_verifier_record)
    by (apply sample_record_ok; vm_compute; reflexivity).
  destruct (recorded_manifest_in_demo sample_lock_record sample_verifier_record full_artifacts
    "verifier_mldsa65" (record_val (sample_record "verifier_mldsa65" (repeat_hash "77")))
    Hl Hv eq_refl eq_refl) as [H1 H2].
  split; [exact H1|]. apply H2; [vm_compute; reflexivity | discriminate | discriminate].
Defined.

Lemma bootstrap_runs : ∃ m w', bootstrapAccount sample_options (World tt []) = (Ok m, w').
Proof. apply succeeds_run. vm_compute. reflexivity. Qed.

Lemma bootstrap_sends_guarded_witness :
  ∃ m w', bootstrapAccount sample_options (World tt []) = (Ok m, w') ∧
  ∃ l, w_log w' = w_log (World tt []) ++ l ∧ sends_guarded sample_options l.
Proof.
  destruct bootstrap_runs as (m & w' & H). exists m, w'. split; [exact H|].
  exact (bootstrap_sends_guarded _ _ _ _ H).
Defined.

Lemma bootstrap_account_sound_witness :
  ∃ m w', bootstrapAccount sample_options (World tt []) = (Ok m, w') ∧
  len (bo_stateData sample_options) <= MAX_SAFE_INTEGER ∧
  ∃ l tx code input,
    w_log w' = w_log (World tt []) ++ l ++ [BSendTransaction tx;
      BWaitTransaction (mo_tx_hash (am_state_out_point m)) 0 300000;
      BWriteJson (repo_path "deploy/testnet-account.json") (account_val m)] ∧
    creation_consistent tx code (hexFromBytes (bo_stateData sample_options)) ∧
    head (tx_inputs tx) = Some input ∧
    am_type_id_args m = hashTypeId input 0 ∧
    am_account_id m = Script_hash (state_type_script (am_type_id_args m)) ∧
    am_state_bytes m = len (bo_stateData sample_options) ∧
    ∀ d, codeHash (accountLockCode d) = code →
      validateAccount (account_val m) d = Ok (account_result m d).
Proof.
  destruct bootstrap_runs as (m & w' & H). exists m, w'. split; [exact H|].
  assert (Hn : len (bo_stateData sample_options) <= MAX_SAFE_INTEGER)
    by (vm_compute; discriminate).
  split; [exact Hn|]. exact (bootstrap_account_sound _ _ _ _ H Hn).
Defined.
