(* ===== verification/ToolWitnesses.v ===== *)
(** * Instances of the theorems on the command line programs

    A chain that remembers the transactions it was sent, a wallet with one cell, and the
    repository's files: the deployment program publishes the account lock, and the creation
    program creates an account. *)

From S2P Require Import Prelude Js JsString Regex Bytes Zod Constants Schemas Base64.
From S2P Require Import Effects Json Ccc CccRef Wire Protocol Manifests State Vectors.
From S2P Require Import Account Artifacts Bundle Build Deployment Publish Bootstrap Creation Sha256 Exporter.
From S2P Require Import Samples JsonLaws Atomic Service Requests Startup.
From stdpp Require Import gmap.
#[local] Open Scope Z_scope.

(** The first output of the transaction with this hash. *)
Definition find_cell (txHash : string) (chain : list Transaction) : option Cell :=
  head (omap (λ tx,
    if String.eqb (Transaction_hash tx) txHash then
      match tx_outputs tx, tx_outputsData tx with
      | output :: _, data :: _ => Some {|
          cell_outPoint := {| op_txHash := txHash; op_index := 0 |};
          cell_cellOutput := output; cell_outputData := data |}
      | _, _ => None
      end
    else None) chain).

Definition sample_manifest : jsval := manifest_val [
  ("account_lock", record_val sample_lock_record);
  ("verifier_p256", record_val sample_verifier_record)].

#[local] Instance sample_tool : Tool (list Transaction) := {|
  tool_path p := p; tool_privateKey := Some "0x01"; tool_signer _ := Ok tt;
  tool_exists p w := (Ok (String.eqb p "deploy/testnet-deployments.json"), w);
  tool_readJson _ w := (Ok sample_manifest, w);
  tool_write _ _ w := (Ok tt, w);
  tool_address w := (Ok sample_address, w);
  tool_lock w := (Ok {| codeHash := "0x"; hashType := "type"; args := "0x" |}, w);
  tool_balance w := (Ok 100000000000000, w);
  tool_completeInputs tx w := (Ok (add_input tx), w);
  tool_completeFee tx _ w := (Ok tx, w);
  tool_send tx w := (Ok (Transaction_hash tx), w ++ [tx]);
  tool_wait _ _ _ w := (Ok tt, w);
  tool_getCellLive h _ w := (Ok (find_cell h w), w) |}.

#[local] Instance sample_tool_laws : ToolLaws.
Proof.
  constructor; intros *; cbn [tool_completeInputs tool_completeFee tool_send sample_tool].
  - intros H. assert (E : tx' = add_input tx) by congruence. by rewrite E.
  - intros H. assert (E : tx' = tx) by congruence. by rewrite E.
  - intros H. assert (E : h = Transaction_hash tx) by congruence. rewrite E.
    destruct (Transaction_hash_spec tx) as (b & Hb & ->). apply hash32_iff. by exists b.
Qed.

Definition exit_code {E A} (r : res A * world (list Transaction) E) : res A := r.1.

Definition deploy_argv : list string := ["--broadcast"; "--only"; "account_lock"].
Lemma deploy_guarded_witness :
  ∃ w', deploy "/r" deploy_argv (World [] []) = (Ok 0, w') ∧
    length (sent (w_log w')) = 1%nat ∧ deployed "/r" deploy_argv (w_log w') 0.
Proof.
  assert (Hc : exit_code (deploy "/r" deploy_argv (World [] [])) = Ok 0)
    by (vm_compute; reflexivity).
  assert (Hs : length (sent (w_log (deploy "/r" deploy_argv (World [] [])).2)) = 1%nat)
    by (vm_compute; reflexivity).
  destruct (deploy "/r" deploy_argv (World [] [])) as [r w'] eqn:E.
  destruct (deploy_guarded "/r" deploy_argv [] r w' E) as (code & -> & H).
  cbn in Hc. injection Hc as ->. exists w'. split; [reflexivity|]. split; [exact Hs|exact H].
Defined.

Definition create_argv : list string := ["--state"; "/r/state.bin"; "--broadcast"].
#[local] Instance state_files : Files := {|
  resolve_path root path := Throw (TypeError "");
  read_bytes path := if String.eqb path "/r/state.bin" then Ok (hx V_STATE)
                     else Throw (Error "ENOENT");
  read_json path := Throw (Error "ENOENT") |}.
Definition no_write (_ : string) (_ : jsval) (w : list Transaction) : res unit * list Transaction :=
  (Ok tt, w).
Notation creation_run :=
  (create (files := state_files) no_write "/r" id create_argv (World [] [])).

Lemma creation_guarded_witness :
  ∃ w', creation_run = (Ok 0, w') ∧
    existsb is_send (boots (w_log w')) = true ∧
    created (files := state_files) no_write id create_argv (w_log w') 0.
Proof.
  assert (Hc : exit_code creation_run = Ok 0) by (vm_compute; reflexivity).
  assert (Hs : existsb is_send (boots (w_log creation_run.2)) = true) by (vm_compute; reflexivity).
  destruct creation_run as [r w'] eqn:E.
  destruct (creation_guarded (files := state_files) no_write "/r" id create_argv [] r w' E)
    as (code & -> & H).
  cbn in Hc. injection Hc as ->. exists w'. split; [reflexivity|]. split; [exact Hs|exact H].
Defined.

(** A disk whose only descriptor is 3. *)
Record disk_state := { ds_files : disk; ds_open : option string }.
Definition set_file (p text : string) (w : disk_state) : disk_state :=
  {| ds_files := <[p := text]> (ds_files w); ds_open := ds_open w |}.
Definition remove_file (p : string) (w : disk_state) : disk_state :=
  {| ds_files := delete p (ds_files w); ds_open := ds_open w |}.
#[local] Instance sample_disk : FileSystem disk_state := {|
  fs_files := ds_files; fs_opened w d := if d =? 3 then ds_open w else None;
  process_pid := 42;
  randomUUID w := (Ok "0b1c", w);
  openSync_wx p _ w :=
    match ds_files w !! p with
    | Some _ => (Throw (Error "EEXIST"), w)
    | None => (Ok 3, {| ds_files := <[p := ""]> (ds_files w); ds_open := Some p |})
    end;
  writeFileSync d text w :=
    match (if d =? 3 then ds_open w else None) with
    | Some p => (Ok tt, set_file p text w)
    | None => (Throw (Error "EBADF"), w)
    end;
  fsyncSync _ w := (Ok tt, w); closeSync _ w := (Ok tt, w);
  renameSync p q w :=
    match ds_files w !! p with
    | Some text => (Ok tt, set_file q text (remove_file p w))
    | None => (Throw (Error "ENOENT"), w)
    end;
  unlinkSync p w := (Ok tt, remove_file p w) |}.

#[local] Instance sample_disk_laws : FileSystemLaws.
Proof.
  constructor; cbn; intros *; try by intros [= _ <-].
  - intros _ w r w'. destruct (ds_files w !! p); by intros [= <- <-].
  - intros Hp. rewrite Hp. by intros [= <- <-].
  - by intros _ w r w' [= _ <-].
  - by intros _ w r w' [= _ <-].
  - destruct (ds_files w !! p) eqn:E; intros [= <- <-]; cbn; eauto.
  - by intros [= <- <-].
Qed.

Definition disk0 : disk_state := {| ds_files := {["/r/account.json" := "old"]}; ds_open := None |}.
Definition atomic_value : jsval := JObj [("a", JNum (NInt 1))].
Lemma atomic_write_witness :
  ∃ w', writeJsonAtomicFile "/r/account.json" atomic_value (World disk0 []) = (Ok tt, w') ∧
    fs_files (w_env w') = {["/r/account.json" := json_file atomic_value]}.
Proof.
  assert (Hok : (writeJsonAtomicFile "/r/account.json" atomic_value (World disk0 [])).1 = Ok tt)
    by (vm_compute; reflexivity).
  destruct (writeJsonAtomicFile "/r/account.json" atomic_value (World disk0 [])) as [r w'] eqn:E.
  cbn in Hok. subst r. exists w'. split; [reflexivity|].
  assert (Hs : has_slash "/r/account.json" = true) by reflexivity.
  assert (Hf : fresh_name "/r/account.json" disk0)
    by (intros uuid env' H; vm_compute in H; injection H as <- _; vm_compute; reflexivity).
  destruct (atomic_write "/r/account.json" atomic_value disk0 (Ok tt) w' Hs Hf eq_refl E)
    as (t & _ & _ & H).
  rewrite H. vm_compute. reflexivity.
Defined.

(** ** The server *)

(** Contracts whose code is the sample binary. *)
Definition published_artifact (name tx : string) : DeploymentArtifact := {|
  da_name := name; da_dataHash := hexFromBytes (ckb_digest sample_binary);
  da_hashType := "data2"; da_txHash := repeat_hash tx; da_index := 0;
  da_capacityShannons := "6400000000" |}.
Definition published_deployment : DeploymentManifest := {|
  dm_schema_version := 1; dm_network := "testnet"; dm_published := true;
  dm_hash_type := "data2"; dm_note := None;
  dm_account_lock := published_artifact "account_lock" "11";
  dm_verifier_p256 := published_artifact "verifier_p256" "22" |}.

Definition server_tool : Tool (list Transaction) := {|
  tool_path p := p; tool_privateKey := Some ("0x" +:+ str_repeat 64 "1");
  tool_signer _ := Ok tt;
  tool_exists p w := (Ok (String.eqb p "deploy/testnet-deployments.json"), w);
  tool_readJson _ w := (Ok (deployment_val published_deployment), w);
  tool_write _ _ w := (Ok tt, w);
  tool_address w := (Ok sample_address, w);
  tool_lock w := (Ok {| codeHash := "0x"; hashType := "type"; args := "0x" |}, w);
  tool_balance w := (Ok 100000000000000, w);
  tool_completeInputs tx w := (Ok (add_input tx), w);
  tool_completeFee tx _ w := (Ok tx, w);
  tool_send tx w := (Ok (Transaction_hash tx), w ++ [tx]);
  tool_wait _ _ _ w := (Ok tt, w);
  tool_getCellLive h i w := (Ok (Some {|
    cell_outPoint := {| op_txHash := h; op_index := i |};
    cell_cellOutput := {| co_capacity := 6400000000; co_lock :=
      {| codeHash := "0x"; hashType := "type"; args := "0x" |}; co_type := None |};
    cell_outputData := hexFromBytes sample_binary |}), w) |}.

Definition export_vector (_ : DeploymentManifest) (_ : BootstrapRequest)
    (w : list Transaction) : res bytes * list Transaction := (Ok (hx V_STATE), w).
Notation served_run := (serve_creation (tool := server_tool) export_vector no_write
  published_deployment sample_request (World [] [])).

Lemma served_creation_witness :
  ∃ m w', served_run = (Ok m, w') ∧
    existsb is_send (library_calls (w_log w')) = true ∧
    served (tool := server_tool) export_vector no_write published_deployment sample_request
      (w_log w') (Ok m).
Proof.
  assert (Hc : succeeds (serve_creation (tool := server_tool) export_vector no_write
    published_deployment sample_request) (World [] []) = true) by (vm_compute; reflexivity).
  assert (Hs : existsb is_send (library_calls (w_log served_run.2)) = true)
    by (vm_compute; reflexivity).
  unfold succeeds in Hc. destruct served_run as [r w'] eqn:E.
  destruct r as [m|e]; [|discriminate Hc].
  destruct (served_creation (tool := server_tool) export_vector no_write
    published_deployment sample_request (World [] []) w' (Ok m) E) as (l & El & H).
  cbn in El. exists m, w'. split; [reflexivity|]. split; [exact Hs|]. rewrite El. exact H.
Defined.

(** ** The bundle check *)

Definition built (extra : string) : list entry := [
  EFile "index.html"; EDirectory "assets" [EFile "main.js"; EFile "icon.png"; EFile extra];
  EDirectory ".vite" [EFile "manifest.json"; EFile "client-modules.json"]].
Definition built_manifest : jsval := JObj [
  ("src/client/main.tsx", JObj [("file", JStr "assets/main.js"); ("isEntry", JBool true)])].
Definition built_graph (modules : list string) : jsval := JObj [
  ("version", JNum (NInt 1));
  ("chunks", JArr [JObj [("fileName", JStr "assets/main.js");
                         ("modules", JArr (JStr <$> modules))]])].
Definition built_file (modules : list string) (path : string) : res string :=
  if String.eqb path "/d/.vite/manifest.json" then Ok (JSON_stringify built_manifest)
  else if String.eqb path "/d/.vite/client-modules.json" then
    Ok (JSON_stringify (built_graph modules))
  else if String.eqb path "/d/assets/leak.js" then Ok "import x from node:child_process"
  else Ok "text".
Definition bundle_run (modules : list string) (extra : string) : res string :=
  check_bundle (json := json_ref) (built_file modules) "/d" (Some (built extra)).

Example clean_bundle :
  bundle_run ["/r/demo/src/client/main.tsx"] "x.css" =
  Ok "Client bundle boundary verified across 6 files and 1 module-graph chunks".
Proof. vm_compute. reflexivity. Qed.
Example server_text_refused :
  bundle_run ["/r/demo/src/client/main.tsx"] "leak.js" =
  Throw (Error "client bundle contains forbidden server term child_process in /d/assets/leak.js").
Proof. vm_compute. reflexivity. Qed.
Example deploy_module_refused :
  bundle_run ["/r/demo/src/client/main.tsx"; "/r/tools/deploy/src/keys.ts"] "x.css" =
  Throw (Error
    "client module graph contains server-only module /r/tools/deploy/src/keys.ts").
Proof. vm_compute. reflexivity. Qed.

Definition leaking_build : list output :=
  [OAsset "style.css";
   OChunk "assets/main.js" true
     ["/r/demo/src/client/main.tsx"; "/r/tools/deploy/src/keys.ts?v=1"]].
Definition leaking_file (path : string) : res string :=
  if String.eqb path "/d/.vite/client-modules.json" then
    Ok (clientModuleEvidence (λ _ _, 0) "/r/demo" leaking_build)
  else built_file [] path.
Lemma server_code_refused_witness :
  server_path "/r" "/r/tools/deploy/src/keys.ts" ∧
  ∀ line, check_bundle (json := json_ref) leaking_file "/d" (Some (built "x.css")) ≠ Ok line.
Proof.
  assert (Hp : server_path "/r" "/r/tools/deploy/src/keys.ts")
    by exact (sp_deploy "/r" "src/keys.ts" ["src"; "keys.ts"] eq_refl).
  split; [exact Hp|]. intros line.
  apply (server_code_refused (λ _ _, 0) leaking_file "/d" "/r" leaking_build "assets/main.js" true
    ["/r/demo/src/client/main.tsx"; "/r/tools/deploy/src/keys.ts?v=1"]
    "/r/tools/deploy/src/keys.ts" "?v=1").
  - right. exists "r". reflexivity.
  - right. left.
  - right. left.
  - exact Hp.
  - reflexivity.
  - right. exists "v=1". reflexivity.
  - reflexivity.
Defined.
(** Other spellings: a path that leaves the server's directory is public, one that comes
    back into it is not. *)
Example resolved_paths :
  publicModuleId "/r/demo" "/r/demo/src/server/../client/main.tsx" = "src/client/main.tsx" ∧
  publicModuleId "/r/demo" "/r//demo/src/./client/../server/http.ts?v=1" = "src/server/http.ts" ∧
  server_path "/r" "/r//demo/src/./client/../server/http.ts" ∧
  publicModuleId "/r/demo" "/r/demo/node_modules/zod/index.js" = "node_modules/zod/index.js" ∧
  publicModuleId "/r/demo" "/r/x/../y.ts?q" = "/r/x/../y.ts".
Proof.
  split; [reflexivity|]. split; [reflexivity|].
  split; [|split; reflexivity].
  exact (sp_server "/r" "r//demo/src/./client/../server/http.ts" ["http.ts"] eq_refl).
Qed.
(** What the check says about it. *)
Example leaking_build_message :
  check_bundle (json := json_ref) leaking_file "/d" (Some (built "x.css")) =
  Throw (Error "client module graph contains server-only module /r/tools/deploy/src/keys.ts").
Proof. vm_compute. reflexivity. Qed.

(** ** Starting the server *)

#[local] Instance open_listener : Listener (list Transaction) := {|
  server_listen _ _ w := (Ok tt, w) |}.
#[local] Instance busy_listener : Listener (list Transaction) := {|
  server_listen _ _ w := (Throw (Error "listen EADDRINUSE"), w) |}.
Definition printed (l : list server_event) : list string :=
  omap (λ e, match e with
             | VTool (TPrint line) | VTool (TPrintError line) => Some line
             | _ => None
             end) l.

Example server_lines :
  printed (w_log (server (tool := server_tool) (listener := open_listener) (World [] [])).2) = [
    "CKB passkey demo API listening on http://127.0.0.1:8790"; "Network testnet";
    "Funder " +:+ sample_address; "Balance 100000000000000 shannons"].
Proof. vm_compute. reflexivity. Qed.
Example server_busy :
  printed (w_log (server (tool := server_tool) (listener := busy_listener) (World [] [])).2) =
    ["INTERNAL_ERROR: Unexpected local server error"].
Proof. vm_compute. reflexivity. Qed.
