(* ===== verification/ServerWitnesses.v ===== *)
(** * Instances of the theorems on the server

    Concrete requests, an export and an account creation with the sample wallet, on
    which the theorems of the server's components are applied. *)

From S2P Require Import Prelude Js JsString Regex Bytes Zod Constants Schemas.
From S2P Require Import Effects Json Ccc CccRef Wire Protocol Digest Manifests State.
From S2P Require Import Vectors Account Artifacts Deployment Bootstrap Sha256.
From S2P Require Import Service Requests Completion Host Exporter Exported Process Provisioning Samples.

(** ** Requests *)

(** The state after one creation request: its run is in progress. *)
Definition creating : service_state :=
  start_run (Some V_PUBLIC_KEY)
    (as_value account_val (bootstrapOnce sample_deployment sample_request)) new_service.
Definition creating_trace : list label := [LBootstrap (request_val sample_request) (Promised 0)].

Lemma handle_valid r s :
  safeParse BootstrapRequestSchema (request_val r) = Some (request_val r) →
  handle_bootstrap sample_deployment (request_val r) s =
    match active s with
    | Some (publicKey, i) =>
        if String.eqb publicKey (br_publicKey r) then (Promised i, s)
        else (Rejected OTHER_CREATION, s)
    | None => (Promised (length (request_runs s)),
               start_run (Some (br_publicKey r))
                 (as_value account_val (bootstrapOnce sample_deployment r)) s)
    end.
Proof. intros E. unfold handle_bootstrap. by rewrite E, request_of_val. Qed.

Lemma creating_reachable : reachable sample_deployment creating_trace creating.
Proof.
  apply (steps_snoc _ _ [] new_service); [constructor|].
  apply s_bootstrap. rewrite handle_valid by (vm_compute; reflexivity). reflexivity.
Qed.

Lemma creations_serialized_witness :
  reachable sample_deployment creating_trace creating ∧
  ∀ i j a b p q, request_runs creating !! i = Some a → request_runs creating !! j = Some b →
    rr_creates a = Some p → rr_creates b = Some q → settled a = false → settled b = false →
    i = j.
Proof.
  split; [exact creating_reachable|].
  exact (proj1 (proj2 (creations_serialized _ _ _ creating_reachable))).
Defined.

Lemma bootstrap_reply_witness :
  reachable sample_deployment creating_trace creating ∧
  (∃ other i run,
     handle_bootstrap sample_deployment
       (request_val {| br_publicKey := "0x04" +:+ str_repeat 64 "ab"; br_credentialId := "AQ" |})
       creating = (Rejected OTHER_CREATION, creating) ∧
     other ≠ "0x04" +:+ str_repeat 64 "ab" ∧
     request_runs creating !! i = Some run ∧ rr_creates run = Some other ∧
     settled run = false).
Proof.
  split; [exact creating_reachable|].
  set (r := {| br_publicKey := _; br_credentialId := _ |}).
  assert (Ep : safeParse BootstrapRequestSchema (request_val r) = Some (request_val r))
    by (vm_compute; reflexivity).
  assert (E : handle_bootstrap sample_deployment (request_val r) creating =
    (Rejected OTHER_CREATION, creating)) by (rewrite (handle_valid r creating Ep); reflexivity).
  pose proof (bootstrap_reply _ _ _ _ _ _ creating_reachable E) as H.
  rewrite Ep in H. cbv zeta in H. rewrite request_of_val in H.
  destruct H as [(other & i & run & _ & _ & Hne & H)|(? & ? & H & _)]; [|discriminate H].
  exists other, i, run. split; [exact E|]. split; [exact Hne|exact H].
Defined.

(** The creation starts the verification of the deployment. *)
Definition verifying_state : service_state :=
  match bootstrapOnce sample_deployment sample_request with
  | VerifyDeployment k =>
      set_run 0 (Waiting 0 (λ x, and_then (k x)
        (λ r, match r with Ok a => Done (Ok (account_val a)) | Throw e => Done (Throw e) end)))
        (verifyDeployment sample_deployment creating).2
  | _ => creating
  end.

Lemma verifying_step : step sample_deployment creating LInternal verifying_state.
Proof. eapply (s_verify _ creating 0); reflexivity. Qed.

Lemma verification_shared_witness :
  reachable sample_deployment creating_trace creating ∧
  step sample_deployment creating LInternal verifying_state ∧
  (∀ v u, verifications creating !! v = Some (VSettled (Ok u)) →
     verifications verifying_state = verifications creating ∧
     ∀ w c, LInternal ≠ LVerificationCall w c).
Proof.
  split; [exact creating_reachable|]. split; [exact verifying_step|].
  exact (proj2 (proj2 (proj2 (verification_shared _ _ _ _ _ creating_reachable verifying_step)))).
Defined.

(** The first cell of the verification cannot be read: the creation fails after six steps,
    and the service is at rest. *)
Definition unread : exn := Error "unavailable".
Lemma failed_creation :
  ∃ tr s, reachable sample_deployment tr s ∧ requests tr = 1%nat ∧ length tr = 6%nat ∧
    quiet sample_deployment s ∧
    request_runs s !! 0%nat =
      Some {| rr_creates := Some V_PUBLIC_KEY; rr_state := Settled (Throw UNVERIFIED) |}.
Proof.
  assert (H1 : reachable sample_deployment (creating_trace ++ [LInternal]) verifying_state)
    by exact (steps_snoc _ _ _ _ _ _ creating_reachable verifying_step).
  eassert (H2 : reachable sample_deployment _ _).
  { eapply steps_snoc; [exact H1|].
    eapply (s_verification_call _ verifying_state 0 _ (CGetDeploymentCell _ _ (Throw unread)));
      [reflexivity|constructor]. }
  eassert (H3 : reachable sample_deployment _ _).
  { eapply steps_snoc; [exact H2|]. eapply (s_verification_done _ _ 0). reflexivity. }
  eassert (H4 : reachable sample_deployment _ _).
  { eapply steps_snoc; [exact H3|]. eapply (s_resume _ _ 0); reflexivity. }
  eassert (H5 : reachable sample_deployment _ _).
  { eapply steps_snoc; [exact H4|]. eapply (s_settle _ _ 0); reflexivity. }
  eexists _, _. split; [exact H5|]. split; [reflexivity|]. split; [reflexivity|].
  split; [|reflexivity]. apply at_rest_quiet. constructor.
  - intros [|i] run; [by intros [= <-]|by destruct i].
  - reflexivity.
  - intros [|v] x; [intros [= <-]; eauto|by destruct v].
  - by intros v.
Qed.

Lemma requests_complete_witness :
  ∃ tr s, reachable sample_deployment tr s ∧ requests tr = 1%nat ∧ length tr = 6%nat ∧
    quiet sample_deployment s ∧
  (∀ tr' s', steps sample_deployment s tr' s' → requests tr' = 0%nat →
     (length tr + length tr' <= 11 * requests tr)%nat) ∧
  (∀ o i run, request_runs s !! i = Some run → settled run = false →
     enabled sample_deployment o s) ∧
  at_rest s.
Proof.
  destruct failed_creation as (tr & s & Hr & Hn & Hl & Hq & _). exists tr, s.
  split; [exact Hr|]. split; [exact Hn|]. split; [exact Hl|]. split; [exact Hq|].
  destruct (requests_complete sample_deployment tr s Hr) as (H1 & H2 & H3).
  split; [exact H1|]. split; [exact H2|]. exact (proj1 (H3 Hq)).
Defined.

(** ** Export and creation *)

Lemma sample_sha256 : ∀ b, sha256 b = sha256_ref b.
Proof. reflexivity. Qed.

Lemma exported_state_accepted_witness :
  request_wf sample_request ∧ deployment_wf sample_deployment ∧
  ∃ publicKey v config cfg, exported sample_request sample_deployment publicKey v config cfg.
Proof.
  split; [exact sample_request_wf|]. split; [exact sample_deployment_wf|].
  exact (exported_state_accepted sample_sha256 _ _ sample_request_wf sample_deployment_wf).
Defined.

Definition sample_export : eff unit export_event bytes :=
  exportAccountState (request_val sample_request) (deployment_val sample_deployment).

Lemma export_confined_witness :
  is_json (deployment_val sample_deployment) = true ∧
  ∃ output w', sample_export (World tt []) = (Ok output, w') ∧
  ∃ l, w_log w' = w_log (World tt []) ++ l ∧ export_run l (Ok output).
Proof.
  assert (Hj : is_json (deployment_val sample_deployment) = true) by (vm_compute; reflexivity).
  split; [exact Hj|].
  assert (H : ∃ output w', sample_export (World tt []) = (Ok output, w'))
    by (apply succeeds_run; vm_compute; reflexivity).
  destruct H as (output & w' & H). exists output, w'. split; [exact H|].
  exact (proj1 (export_confined _ _ _ _ _ Hj H)).
Defined.

(** A machine on which the host tool writes the state of the vectors. *)
#[local] Instance sample_os : Os bool := {|
  os_mkdtemp prefix w := (Ok (prefix +:+ "a1b2c3"), w);
  os_chmod _ _ w := (Ok tt, w);
  os_writeFile _ _ _ _ w := (Ok tt, w);
  os_spawn _ _ _ _ _ := ({| ch_data := [zeros 3]; ch_end := ChildClose (Some 0) |}, true);
  os_readFile _ w := (if w then Ok (hx V_STATE) else Throw (Error "ENOENT"), w);
  os_rm _ _ _ w := (Ok tt, w) |}.
Definition sample_environment : list (string * string) :=
  [("PATH", "/bin"); ("CKB_PRIVKEY", "0x00"); ("ckb_privkey", "0x01")].
Definition platform_export :=
  exportAccountState (deps := createExporterDeps "/repo" sample_environment)
    (request_val sample_request) (deployment_val sample_deployment).

Lemma private_export_witness :
  is_json (deployment_val sample_deployment) = true ∧
  ∃ output w', platform_export (World (World false []) []) = (Ok output, w') ∧
  ∃ l, w_log (w_env w') = l ∧ os_export "/repo" sample_environment l (Ok output).
Proof.
  assert (Hj : is_json (deployment_val sample_deployment) = true) by (vm_compute; reflexivity).
  split; [exact Hj|].
  assert (H : ∃ output w', platform_export (World (World false []) []) = (Ok output, w'))
    by (apply succeeds_run; vm_compute; reflexivity).
  destruct H as (output & w' & H). exists output, w'. split; [exact H|].
  exact (proj1 (private_export _ _ _ _ _ _ _ Hj H)).
Defined.

(** A child that says more than is kept, and is killed. *)
Definition noisy_child : child_run := {|
  ch_data := [le_bytes 3 8364226; zeros 5]; ch_end := ChildClose None |}.
Lemma stderr_bounded_witness :
  ∃ r, child_result noisy_child = Ok r ∧ exitCode r = 1 ∧
    stderr r = slice_units 16384 (received (ch_data noisy_child)) ∧ len (stderr r) <= 16384.
Proof.
  assert (E : child_result noisy_child = Ok (on_close (foldl on_data [] (ch_data noisy_child)) None))
    by reflexivity.
  eexists. split; [exact E|]. split; [reflexivity|].
  assert (Hc : Forall (λ chunk, len chunk <= 5) (ch_data noisy_child))
    by (repeat constructor; vm_compute; discriminate).
  destruct (stderr_bounded noisy_child _ 5 E ltac:(lia) Hc) as (H1 & H2 & _).
  split; [exact H1|exact H2].
Defined.

Lemma sample_file : ∀ env r env',
  bd_readJson (repo_path "deploy/testnet-deployments.json") env = (r, env') →
  r = Ok (deployment_val sample_deployment).
Proof. intros env r env' [= <- _]. reflexivity. Qed.

Lemma sample_creation_runs :
  ∃ m w', bootstrapAccount (creation_options (hx V_STATE)) (World tt []) = (Ok m, w').
Proof. apply succeeds_run. vm_compute. reflexivity. Qed.

Lemma sample_layout publicKey v config cfg :
  exported sample_request sample_deployment publicKey v config cfg →
  state_layout v 0 (ckb_digest publicKey) = hx V_STATE.
Proof.
  intros [Hk Hv _ _ _ _ _].
  assert (publicKey = hx V_PUBLIC_KEY) as ->
    by (apply hexFromBytes_inj; rewrite <- Hk; vm_compute; reflexivity).
  assert (v = hx (da_dataHash sample_verifier_artifact)) as ->
    by (apply hexFromBytes_inj; rewrite <- Hv; vm_compute; reflexivity).
  vm_compute. reflexivity.
Qed.

Lemma created_account_spendable_witness :
  ∃ m w' publicKey v config cfg,
    exported sample_request sample_deployment publicKey v config cfg ∧
    bootstrapAccount (creation_options (hx V_STATE)) (World tt []) = (Ok m, w') ∧
    parseAccount (account_val m) sample_deployment = Ok (Some m) ∧
    ∃ d a, spendable sample_deployment m (hx V_STATE) publicKey d a.
Proof.
  destruct sample_creation_runs as (m & w' & Hrun).
  destruct (created_account_spendable sample_sha256 sample_request sample_deployment
    (World tt []) w' m sample_request_wf sample_deployment_wf sample_file)
    as (publicKey & v & config & cfg & Hex & _ & _ & H).
  pose proof (sample_layout _ _ _ _ Hex) as E. rewrite E in H.
  destruct (H Hrun) as (Hparse & _ & Hspend).
  exists m, w', publicKey, v, config, cfg.
  split; [exact Hex|]. split; [exact Hrun|]. split; [exact Hparse|exact Hspend].
Defined.
