(* ===== verification/ClientWitnesses.v ===== *)
(** * Instances of the theorems on the client

    A browser with one credential, its storage, and a service behind the development
    server, on which the theorems of the client's components are applied. *)

From S2P Require Import Prelude Js JsString Regex Bytes Zod Constants Schemas Base64.
From S2P Require Import Effects Json JsonLaws Storage Ccc CccRef Protocol Digest Manifests.
From S2P Require Import State Chain Vectors Passkey Service Http Api Samples.
From stdpp Require Import gmap.
#[local] Open Scope Z_scope.

(** ** Storage *)

Definition empty_storage : world (gmap string string) storage_event := World ∅ [].
Definition saved_storage : world (gmap string string) storage_event :=
  (savePasskeyRecord (passkey_val sample_passkey) empty_storage).2.

Lemma stored_passkey_witness :
  ∃ u, savePasskeyRecord (passkey_val sample_passkey) empty_storage = (Ok u, saved_storage) ∧
  ∀ r w, loadPasskeyRecord saved_storage = (r, w) → ∀ o, r = Ok o → o = Some sample_passkey.
Proof.
  assert (E : savePasskeyRecord (passkey_val sample_passkey) empty_storage =
    (Ok tt, saved_storage)) by (vm_compute; reflexivity).
  exists tt. split; [exact E|]. intros r w Hload.
  destruct (proj1 stored_passkey _ _ _ _ E) as [(Hs & _)|(p & Hs & _ & _ & _ & H)].
  - vm_compute in Hs. discriminate Hs.
  - destruct (H tt saved_storage w r eq_refl eq_refl Hload) as [_ Ho].
    intros o Hr. specialize (Ho o Hr).
    assert (Hp : safeParse PasskeyRecordSchema (passkey_val sample_passkey) =
      Some (passkey_val sample_passkey)) by (vm_compute; reflexivity).
    rewrite Hp in Hs. injection Hs as Hs1 Hs2 Hs3 Hs4 Hs5 Hs6 Hs7. subst o. f_equal.
    destruct p. cbn in *. subst. reflexivity.
Defined.

(** ** Passkeys *)

(** A browser whose user has one authenticator and always consents. *)
#[export] Instance sample_browser : Browser nat := {|
  CryptoKey := unit;
  isSecureContext := true; has_PublicKeyCredential := true;
  has_AuthenticatorAttestationResponse := true; has_getPublicKey := true;
  getRandomValues n w := (Ok (repeat x07 (Z.to_nat n)), w);
  credentials_create _ w := (Ok (Some {|
    cc_id := "AQIDBA"; cc_type := "public-key"; cc_rawId := Some [x01; x02; x03; x04];
    cc_getPublicKey := Some (Ok (Some [x30])) |}), w);
  credentials_get _ w := (Ok (Some {|
    ac_id := "AQIDBA"; ac_type := "public-key"; ac_rawId := Some [x01; x02; x03; x04];
    ac_authenticatorData := Some (hx V_AUTHENTICATOR_DATA);
    ac_clientDataJSON := Some (utf8_encode "{}"); ac_signature := Some (hx V_SIGNATURE) |}), w);
  importKey_spki _ w := (Ok tt, w);
  exportKey_raw _ w := (Ok (hx V_PUBLIC_KEY), w);
  digest_sha256 _ w := (Ok (repeat x00 32), w);
  now_iso w := ("2026-07-27T00:00:00Z", w) |}.

Definition browser0 : world nat passkey_event := World 0%nat [].

Lemma register_sound_witness :
  ∃ p w, registerPasskey browser0 = (Ok p, w) ∧
  ∃ l, w_log w = w_log browser0 ++ l ∧ registration l (Ok p).
Proof.
  assert (H : ∃ p w, registerPasskey browser0 = (Ok p, w))
    by (apply succeeds_run; vm_compute; reflexivity).
  destruct H as (p & w & H). exists p, w. split; [exact H|].
  exact (register_sound _ _ _ H).
Defined.

Lemma sample_passkey_wf : passkey_wf sample_passkey.
Proof.
  constructor; try done;
    lazymatch goal with
    | |- base64url_text _ => split; [discriminate|vm_compute; reflexivity]
    | |- public_key_hex _ => apply test_prefixed; vm_compute; reflexivity
    | |- hash32 _ => apply test_prefixed; vm_compute; reflexivity
    end.
Qed.

Definition sample_challenge : bytes := repeat x2a 32.
Lemma assertion_sound_witness :
  ∃ a w, requestAssertion sample_challenge (passkey_val sample_passkey) browser0 = (Ok a, w) ∧
  as_credentialId a = pk_credentialId sample_passkey ∧
  w_log w = [PGet (assertion_request sample_challenge [x01; x02; x03; x04])].
Proof.
  assert (H : ∃ a w, requestAssertion sample_challenge (passkey_val sample_passkey) browser0
    = (Ok a, w)) by (apply succeeds_run; vm_compute; reflexivity).
  destruct H as (a & w & H). exists a, w. split; [exact H|].
  destruct (assertion_sound _ _ _ _ _ sample_passkey_wf H)
    as [_ [(_ & _ & Hno & _)|(_ & _ & rawId & answer & Hd & Hl & _ & Hok & _)]].
  - destruct (Hno a eq_refl).
  - destruct (Hok a eq_refl) as (c & _ & Ha). split; [exact (proj1 (at_id _ _ _ Ha))|].
    vm_compute in Hd. injection Hd as <-. exact Hl.
Defined.

(** ** The server *)

(** A service without a funding key, whose account exists; creations are counted. *)
Definition sample_failure : exn := ApiError "KEY_UNAVAILABLE" 503 "Funding key is unavailable".
#[export] Instance sample_service : DemoService nat := {|
  sv_status n := (Throw sample_failure, n);
  sv_account n := (Ok (account_val sample_account), n);
  sv_bootstrap _ n := (Ok (account_val sample_account), S n) |}.
#[export] Instance sample_url : UrlParser := λ url, Ok url.
#[local] Instance sample_network : Fetch nat := loopback.

Lemma sample_values : ∀ ev v, service_answer ev (Ok v) → json_plain v = true.
Proof.
  intros [| |q|r] v (env & env' & H); cbn in H; [discriminate| | |done];
    injection H as <- _; vm_compute; reflexivity.
Qed.
Lemma sample_errors : ∀ ev e, service_answer ev (Throw e) → api_error_ok e.
Proof.
  intros [| |q|r] e (env & env' & H); cbn in H; [|discriminate|discriminate|done].
  injection H as <- _. cbn. unfold API_ERROR_CODES.
  split; [apply list_elem_of_In; cbn; tauto|]. split; cbn; lia.
Qed.
Lemma sample_url_errors : ∀ u e, url_pathname u = Throw e → is_ApiError e = false.
Proof. intros u e H. discriminate H. Qed.

Definition sample_post : HttpRequest := proxied (bootstrap_options sample_request).
Definition server0 : world nat http_event := World 0%nat [].

Lemma http_gate_witness :
  ∃ w calls response,
    serve sample_post server0 = (Ok tt, w) ∧
    w_log w = calls ++ [HRespond response] ∧ answered sample_post calls response.
Proof.
  assert (Hb : ∀ e, rq_error sample_post = Some e → is_ApiError e = false)
    by (intros e He; discriminate He).
  destruct (serve sample_post server0) as [r w] eqn:E.
  destruct (http_gate sample_url_errors sample_errors sample_post server0 w r Hb eq_refl E)
    as (calls & response & -> & H).
  exists w, calls, response. split; [reflexivity|exact H].
Defined.

Lemma sample_paths :
  ∀ path, path ∈ ["/api/status"; "/api/account"; "/api/account/bootstrap"] →
    url_pathname path = Ok path.
Proof. reflexivity. Qed.

Definition client0 : world nat api_event := World 0%nat [].
Lemma client_transparent_witness :
  api_status client0 =
    (Throw (DemoApiError "KEY_UNAVAILABLE" "Funding key is unavailable" (Some 503)),
     World 0%nat [AFetch (fetch_options "/api/status" "GET" None)]) ∧
  body_size sample_request <= BODY_LIMIT ∧
  api_bootstrap (request_val sample_request) client0 =
    (Ok (account_val sample_account), World 1%nat [AFetch (bootstrap_options sample_request)]).
Proof.
  destruct (client_transparent sample_paths sample_values sample_errors client0)
    as (H1 & _ & _ & H4).
  split; [exact (H1 _ _ eq_refl)|].
  assert (Hs : body_size sample_request <= BODY_LIMIT) by (vm_compute; discriminate).
  split; [exact Hs|].
  assert (Hp : safeParse BootstrapRequestSchema (request_val sample_request)
    = Some (request_val sample_request)) by (vm_compute; reflexivity).
  destruct (H4 _ _ Hp) as (q & Eq & _ & H).
  assert (q = sample_request) as ->
    by (rewrite <- (request_of_val q), <- Eq; apply request_of_val).
  rewrite (proj2 (Z.leb_le _ _) Hs) in H.
  assert (Ha : client_result AccountManifestSchema (Ok (account_val sample_account))
    = Ok (account_val sample_account)) by (vm_compute; reflexivity).
  rewrite <- Ha. exact (H (Ok (account_val sample_account)) 1%nat eq_refl).
Defined.
