(* ===== verification/SessionWitnesses.v ===== *)
(** * Instances of the theorems on sessions

    A session of a browser whose passkey is stored, with a service whose account exists:
    the wizard loads, prepares the spend, and submits it after the user has authorized it;
    and one without an account, which asks for one. *)

From S2P Require Import Prelude Js JsString Regex Bytes Zod Constants Schemas Base64.
From S2P Require Import Effects Json JsonLaws Storage Ccc CccRef Protocol Digest Manifests.
From S2P Require Import State Chain Vectors Passkey Service Http Api Samples.
From S2P Require Import Wizard Steps Session Sessions Pages Review.
From stdpp Require Import gmap.
#[local] Open Scope Z_scope.

(** ** The surroundings *)

#[local] Instance online_service : DemoService nat := {|
  sv_status n := (Ok (status_val sample_deployment sample_address 100000000000
                        (Some sample_account)), n);
  sv_account n := (Ok (account_val sample_account), n);
  sv_bootstrap _ n := (Ok (account_val sample_account), n) |}.
#[local] Instance online_url : UrlParser := λ url, Ok url.
#[local] Instance online : Fetch nat := loopback.

(** An authenticator that signs any challenge. *)
Definition client_data (challenge : bytes) : string :=
  "{" +:+ quoted "type" +:+ ":" +:+ quoted "webauthn.get" +:+ "," +:+
  quoted "challenge" +:+ ":" +:+ quoted (base64urlEncode challenge) +:+ "," +:+
  quoted "origin" +:+ ":" +:+ quoted CLIENT_ORIGIN +:+ "," +:+
  quoted "crossOrigin" +:+ ":false}".
#[local] Instance consenting_browser : Browser nat := {|
  CryptoKey := unit;
  isSecureContext := true; has_PublicKeyCredential := true;
  has_AuthenticatorAttestationResponse := true; has_getPublicKey := true;
  getRandomValues n w := (Ok (repeat x07 (Z.to_nat n)), w);
  credentials_create _ w := (Ok None, w);
  credentials_get o w := (Ok (Some {|
    ac_id := pk_credentialId sample_passkey; ac_type := "public-key";
    ac_rawId := Some [x01; x02; x03; x04];
    ac_authenticatorData := Some (hx V_AUTHENTICATOR_DATA);
    ac_clientDataJSON := Some (utf8_encode (client_data (ro_challenge o)));
    ac_signature := Some (hx V_SIGNATURE) |}), w);
  importKey_spki _ w := (Ok tt, w);
  exportKey_raw _ w := (Ok (hx V_PUBLIC_KEY), w);
  digest_sha256 _ w := (Ok (repeat x00 32), w);
  now_iso w := ("2026-07-27T00:00:00Z", w) |}.

Lemma loopback_json (service : DemoService nat) : ∀ o (w w' : nat) response value,
  loopback o w = (Ok response, w') → fr_json response = Ok value → is_json value = true.
Proof.
  intros o w w' response value. unfold loopback.
  destruct (serve _ _) as [u w1]. destruct (last_response _) as [r|]; [|discriminate].
  intros [= <- _] H. apply from_option_or_Ok in H. exact (json_text_json _ _ H).
Qed.
Lemma online_errors : ∀ tx v (w w' : nat) e,
  sendTransaction tx v w = (Throw e, w') → is_PasskeyCancelledError e = false.
Proof. intros tx v w w' e H. discriminate H. Qed.

(** ** A session with an account *)

Definition rendered_ok (r : res session) : session :=
  match r with Ok s => s | Throw _ => started None end.
Notation show s := (rendered_ok (render None s)).

Definition stored : world (gmap string string) storage_event :=
  (savePasskeyRecord (passkey_val sample_passkey) (World ∅ [])).2.
Definition outcome {W E A} (m : eff W E A) (w : W) : res A := (m (World w [])).1.

Notation reaches := (Session.reachable (WB := nat) (WF := nat) (WC := nat) None true).

Definition session0 : session := started (Some sample_passkey).
Definition refresh0 : res (DemoStatus * option AccountManifest) :=
  status ← outcome api_status 0%nat; account ← outcome api_account 0%nat;
  Ok (status_of status, account_of_nullable account).
(** Each state is evaluated, so that the next one starts from a value. *)
Definition session1 : session := Eval vm_compute in
  show (set_state (refreshed_state (Some sample_passkey) refresh0) (set_tasks [] session0)).
Definition ready_state : WizardState :=
  ActionableState ready_to_spend
    {| st_schemaVersion := 1; st_network := "testnet"; st_origin := CLIENT_ORIGIN; st_rpId := RP_ID;
       st_deploymentVerified := true; st_deployment := sample_deployment;
       st_funderAddress := sample_address; st_funderBalanceShannons := "100000000000";
       st_account := Some sample_account |} (Some sample_account) (Some sample_passkey).

Lemma session0_reaches : reaches session0.
Proof.
  apply (r_start _ _ _ stored (loadPasskeyRecord stored).2). vm_compute. reflexivity.
Qed.

Lemma refresh0_refreshed : refreshed refresh0.
Proof.
  assert (H1 : ∃ v w, api_status (World 0%nat []) = (Ok v, w))
    by (apply succeeds_run; vm_compute; reflexivity).
  assert (H2 : ∃ v w, api_account (World 0%nat []) = (Ok v, w))
    by (apply succeeds_run; vm_compute; reflexivity).
  destruct H1 as (v1 & w1 & H1), H2 as (v2 & w2 & H2).
  assert (E : refresh0 = Ok (status_of v1, account_of_nullable v2))
    by (unfold refresh0, outcome; rewrite H1, H2; reflexivity).
  rewrite E. exact (both_fulfilled _ _ _ _ _ _ H1 H2).
Qed.

Lemma session1_reaches : reaches session1.
Proof.
  eapply r_step; [|apply s_commit].
  - eapply r_step; [exact session0_reaches|].
    apply (s_settle _ _ _ [] (TLoad (Some sample_passkey)) []); [reflexivity|].
    apply st_load. exact refresh0_refreshed.
  - vm_compute. reflexivity.
Qed.

(** The spend is prepared. *)
Definition session2 : session := Eval vm_compute in
  match s_tasks session1 with
  | [TPrepare id effect account funder passkey] =>
      show (prepared_with id effect
              (outcome (prepareSpend account funder (passkey_val passkey)) 0%nat)
              (set_tasks [] session1))
  | _ => started None
  end.
(** The button is pressed, and the authenticator answers. *)
Definition session3 : session := Eval vm_compute in
  match presses true session2 with [s] => show s | _ => started None end.
Definition session4 : session := Eval vm_compute in
  match s_tasks session3 with
  | [TAssert id closure passkey reviewed] =>
      asserted_with id closure passkey reviewed reviewed
        (outcome (requestAssertion (ps_authorizationDigest reviewed) (passkey_val passkey)) 0%nat)
        (set_tasks [] session3)
  | _ => started None
  end.

(** A run from the initial world of an interface. *)
Lemma outcome_run {W E A} (m : eff W E A) w : m (World w []) = (outcome m w, (m (World w [])).2).
Proof. unfold outcome. destruct (m (World w [])). reflexivity. Qed.

Definition is_ok {A} (r : res A) : bool := match r with Ok _ => true | Throw _ => false end.
Lemma show_commit s : is_ok (render None s) = true → render None s = Ok (show s).
Proof. destruct (render None s); [reflexivity|discriminate]. Qed.

(** A commit after a settled promise or a press. *)
Lemma settle_and_show s l1 t l2 s1 s2 :
  reaches s → s_tasks s = l1 ++ t :: l2 → settles t (set_tasks (l1 ++ l2) s) s1 →
  render None s1 = Ok s2 → reaches s2.
Proof.
  intros Hs Et Ht Hr. eapply r_step; [|by apply s_commit].
  eapply r_step; [exact Hs|]. by eapply s_settle.
Qed.

Definition preparing : task :=
  TPrepare 1 2 sample_verified_account sample_address sample_passkey.
Lemma session2_reaches : reaches session2.
Proof.
  assert (Et : s_tasks session1 = [preparing]) by (vm_compute; reflexivity).
  assert (Er : render None (prepared_with 1 2
      (outcome (prepareSpend sample_verified_account sample_address (passkey_val sample_passkey))
         0%nat) (set_tasks [] session1)) = Ok session2) by (vm_compute; reflexivity).
  refine (settle_and_show session1 [] preparing [] _ session2 session1_reaches Et _ Er).
  eapply st_prepare. apply outcome_run.
Qed.

Lemma session3_reaches : reaches session3.
Proof.
  assert (Ep : ∃ s, presses true session2 = [s] ∧ render None s = Ok session3)
    by (eexists; split; [vm_compute; reflexivity|vm_compute; reflexivity]).
  destruct Ep as (s & Ep & Er).
  eapply r_step; [exact session2_reaches|]. eapply s_press; [|exact Er].
  rewrite Ep. apply list_elem_of_here.
Qed.

Lemma session4_reaches : reaches session4.
Proof.
  assert (E : ∃ reviewed s1, s_tasks session3 = [TAssert 1 ready_state sample_passkey reviewed] ∧
    s1 = asserted_with 1 ready_state sample_passkey reviewed reviewed
        (outcome (requestAssertion (ps_authorizationDigest reviewed) (passkey_val sample_passkey))
           0%nat) (set_tasks [] session3) ∧ s1 = session4).
  { eexists _, _. split; [vm_compute; reflexivity|]. split; [reflexivity|].
    vm_compute. reflexivity. }
  destruct E as (reviewed & s1 & Et & E1 & <-).
  eapply r_step; [exact session3_reaches|].
  apply (s_settle _ _ _ [] (TAssert 1 ready_state sample_passkey reviewed) []); [exact Et|].
  rewrite E1. eapply st_assert. apply outcome_run.
Qed.

Lemma wizard_renders_witness :
  reaches session1 ∧ a_state (s_app session1) = ready_state ∧
  account_wf sample_account ∧ passkey_wf sample_passkey.
Proof.
  split; [exact session1_reaches|].
  assert (E : a_state (s_app session1) = ready_state) by (vm_compute; reflexivity).
  split; [exact E|].
  destruct (proj2 (wizard_renders None true (loopback_json online_service) online_errors _ session1_reaches) _ _ _ _ E)
    as (_ & _ & _ & Ha & Hp).
  split; [exact (Ha _ eq_refl)|exact (Hp _ eq_refl)].
Defined.

Lemma submits_once_witness :
  reaches session4 ∧ existsb is_submit (s_log session4) = true ∧ submissions_ok (s_log session4).
Proof.
  split; [exact session4_reaches|]. split; [vm_compute; reflexivity|].
  exact (submits_once None true (loopback_json online_service) online_errors _ session4_reaches).
Defined.

(** ** The page of the review *)

Lemma buttons_press_witness :
  reaches session2 ∧ length (presses true session2) = 1%nat ∧
  presses true session2 = handle true session2 <$> enabled (App_view true None (s_view session2)).
Proof.
  split; [exact session2_reaches|]. split; [vm_compute; reflexivity|].
  exact (buttons_press None true None session2 session2_reaches).
Defined.

Lemma shown_is_signed_witness :
  ∃ p verified asset, reaches session2 ∧
    HAuthorize p sample_passkey ∈ enabled (App_view true None (s_view session2)) ∧
    shows_transaction (App_view true None (s_view session2)) sample_address verified asset p.
Proof.
  assert (E : ∃ p, v_component (s_view session2) = SpendStep 2 (SpReady p None) false ∧
    enabled (App_view true None (s_view session2)) = [HAuthorize p sample_passkey])
    by (eexists; split; vm_compute; reflexivity).
  assert (Ed : v_displayed (s_view session2) = ready_state) by (vm_compute; reflexivity).
  destruct E as (p & Ec & E).
  assert (Hin : HAuthorize p sample_passkey ∈ enabled (App_view true None (s_view session2)))
    by (rewrite E; apply list_elem_of_here).
  destruct (shown_is_signed None true None session2 p sample_passkey session2_reaches Hin)
    as (status & account & effect & notice & lock & Ed' & Ec' & _ & _ & _ & H).
  assert (Es : st_funderAddress status = sample_address).
  { rewrite Ed in Ed'. unfold ready_state in Ed'. injection Ed' as <- _. reflexivity. }
  assert (En : notice = None) by congruence.
  destruct (H En) as (verified & w & w' & state & asset & parsed & _ & _ & Hs).
  rewrite Es in Hs. exists p, verified, asset.
  split; [exact session2_reaches|]. split; [exact Hin|exact Hs].
Defined.

(** ** A session without an account, whose funder has no balance *)

#[local] Instance poor_service : DemoService nat := {|
  sv_status n := (Ok (status_val sample_deployment sample_address 0 None), n);
  sv_account n := (Ok JNull, n);
  sv_bootstrap _ n := (Throw (ApiError "INSUFFICIENT_BALANCE" 409 "Not enough CKB"), n) |}.
#[local] Instance poor : Fetch nat := loopback.
Notation poor_reaches :=
  (Session.reachable (WB := nat) (WF := nat) (WC := nat) (fetcher := poor) None true).

Definition poor_status : DemoStatus := Eval vm_compute in
  status_of (status_val sample_deployment sample_address 0 None).
Definition poor_state : WizardState :=
  ActionableState needs_account poor_status None (Some sample_passkey).
Definition session5 : session := Eval vm_compute in
  show (set_state poor_state (set_tasks [] session0)).
Definition session6 : session := Eval vm_compute in
  match presses true session5 with [s] => show s | _ => started None end.
Definition refused : res jsval :=
  outcome (api_bootstrap (request_val (bootstrap_request_of sample_passkey))) 0%nat.
Definition session7 : session := Eval vm_compute in
  show (account_created 1 poor_state poor_status refused (set_tasks [] session6)).
Definition session8 : session := Eval vm_compute in
  match presses true session7 with [s] => show s | _ => started None end.

Lemma poor_refreshed : refreshed (fetcher := poor) (Ok (poor_status, None)).
Proof.
  assert (H1 : ∃ w, api_status (World 0%nat []) =
    (Ok (status_val sample_deployment sample_address 0 None), w))
    by (eexists; vm_compute; reflexivity).
  assert (H2 : ∃ w, api_account (World 0%nat []) = (Ok JNull, w))
    by (eexists; vm_compute; reflexivity).
  destruct H1 as (w1 & H1), H2 as (w2 & H2). exact (both_fulfilled _ _ _ _ _ _ H1 H2).
Qed.

Lemma session5_reaches : poor_reaches session5.
Proof.
  eapply r_step; [|apply s_commit].
  - eapply r_step.
    + apply (r_start _ _ (Some sample_passkey) stored (loadPasskeyRecord stored).2). vm_compute. reflexivity.
    + apply (s_settle _ _ _ [] (TLoad (Some sample_passkey)) []); [reflexivity|].
      apply st_load. exact poor_refreshed.
  - vm_compute. reflexivity.
Qed.

Lemma press_and_show s s' :
  poor_reaches s → (∃ s1, presses true s = [s1] ∧ render None s1 = Ok s') → poor_reaches s'.
Proof.
  intros Hs (s1 & Ep & Er). eapply r_step; [exact Hs|]. eapply s_press; [|exact Er].
  rewrite Ep. apply list_elem_of_here.
Qed.

Lemma session6_reaches : poor_reaches session6.
Proof.
  apply (press_and_show _ _ session5_reaches).
  eexists. split; [vm_compute; reflexivity|vm_compute; reflexivity].
Qed.

Lemma session7_reaches : poor_reaches session7.
Proof.
  assert (Et : s_tasks session6 = [TBootstrap 1 poor_state poor_status sample_passkey])
    by (vm_compute; reflexivity).
  assert (Er : render None (account_created 1 poor_state poor_status refused
    (set_tasks [] session6)) = Ok session7) by (vm_compute; reflexivity).
  eapply r_step; [|apply s_commit; exact Er].
  eapply r_step; [exact session6_reaches|].
  apply (s_settle _ _ _ [] (TBootstrap 1 poor_state poor_status sample_passkey) []); [exact Et|].
  eapply st_bootstrap. apply outcome_run.
Qed.

Lemma session8_reaches : poor_reaches session8.
Proof.
  apply (press_and_show _ _ session7_reaches).
  eexists. split; [vm_compute; reflexivity|vm_compute; reflexivity].
Qed.

Lemma creations_retried_witness :
  poor_reaches session8 ∧
  ∃ q e, s_log session8 = [SCreateAccount q; e; SCreateAccount q] ∧ request_wf q ∧
    is_insufficient e = true.
Proof.
  split; [exact session8_reaches|].
  assert (E : ∃ q e, s_log session8 = [SCreateAccount q; e] ++ SCreateAccount q :: [])
    by (eexists _, _; vm_compute; reflexivity).
  destruct E as (q & e & E). exists q, e. split; [exact E|].
  destruct (creations_retried None true (loopback_json poor_service) online_errors _ _ _ _
    session8_reaches E) as [Hq H].
  split; [exact Hq|]. destruct (H [] q [e] eq_refl) as (e' & He & Hi).
  apply list_elem_of_singleton in He as ->. exact Hi.
Defined.

(** ** The decision itself *)

Lemma poor_status_wf : status_wf poor_status.
Proof.
  assert (Hj : is_json (demo_status_val poor_status) = true) by (vm_compute; reflexivity).
  assert (E : safeParse DemoStatusSchema (demo_status_val poor_status) =
    Some (demo_status_val poor_status)) by (vm_compute; reflexivity).
  destruct (status_record _ _ Hj E) as (s & Es & Hs).
  apply (f_equal status_of) in Es. rewrite !status_of_val in Es. rewrite Es. exact Hs.
Qed.

Lemma reconcile_exact_witness :
  reconcile poor_status None (Some sample_passkey) = poor_state ∧ consistent poor_status None.
Proof.
  assert (E : reconcile poor_status None (Some sample_passkey) = poor_state)
    by (vm_compute; reflexivity).
  split; [exact E|].
  destruct (reconcile_exact poor_status None (Some sample_passkey) poor_status_wf) as [H _];
    [discriminate|].
  destruct (proj1 (H _ _ _ _) E) as (_ & Hc & _). exact Hc.
Defined.
