(* ===== verification/Machine.v ===== *)
(** * A concrete machine

    Instances of the interfaces of [Vm] and [Verifier]: a machine that shows a given
    transaction, a kernel that runs one child at a time, a child that reads its pipe, and
    a stand-in for the signature scheme. The hypotheses of the contracts' theorems hold
    for them. *)

From S2P Require Import Prelude Js JsString Ccc CccRef Wire Codec Sha256 Abi Vm Verifier Assertion.

(** ** Loading from a transaction *)

Definition loads_of (t : TxView) : Loads := {|
  load_script size := deliver size (tv_script t);
  load_tx_hash size := deliver size (tv_hash t);
  load_witness size i source := deliver_or IndexOutOfBound size (witness_of t i source);
  load_cell_data size i source :=
    deliver_or IndexOutOfBound size (cv_data <$> cells_of t source !! i);
  load_cell_by_field size i source field :=
    match cells_of t source !! i with
    | None => Failed IndexOutOfBound
    | Some c => deliver_or ItemMissing size (field_of c field)
    end;
  load_input_since size i source :=
    match source with
    | SInput => deliver_or IndexOutOfBound size
                  ((λ v, le_bytes 8 (iv_since v)) <$> tv_inputs t !! i)
    | _ => Failed IndexOutOfBound
    end |}.

Definition cell_ok (c : CellView) : bool :=
  (len (cv_data_hash c) =? 32) &&
  match cv_type_hash c with Some h => len h =? 32 | None => true end &&
  (len (cv_data c) <? 2 ^ 32).
(** The transaction is as the chain bounds it. *)
Definition view_ok (t : TxView) : bool :=
  (len (tv_hash t) =? 32) &&
  forallb (λ source, forallb cell_ok (cells_of t source)) [SInput; SOutput; SCellDep; SGroupInput] &&
  forallb (λ i, (0 <=? iv_since i) && (iv_since i <? 2 ^ 64)) (tv_inputs t) &&
  forallb (λ w : bytes, len w <? 2 ^ 32) (tv_witnesses t) &&
  forallb (λ i, i <? length (tv_inputs t))%nat (tv_group t).

Lemma forallb_Forall {A} (f : A → bool) (P : A → Prop) l :
  (∀ a, f a = true → P a) → forallb f l = true → Forall P l.
Proof.
  intros H. induction l as [|a l IH]; [constructor|]. cbn. intros [Ha Hl]%andb_true_iff.
  constructor; auto.
Qed.

Lemma view_ok_wf t : view_ok t = true → view_wf t.
Proof.
  unfold view_ok. rewrite !andb_true_iff. intros ((((Hh & Hc) & Hs) & Hw) & Hg).
  constructor; bool_simpl; try done.
  - intros source. assert (Hsrc : forallb cell_ok (cells_of t source) = true).
    { cbn [forallb] in Hc. rewrite !andb_true_iff in Hc. by destruct source; apply Hc. }
    revert Hsrc. apply forallb_Forall. unfold cell_ok. intros c.
    rewrite !andb_true_iff. intros ((H1 & H2) & H3). bool_simpl.
    split; [done|]. split; [|done]. intros h Hh'. rewrite Hh' in H2. by bool_simpl.
  - revert Hs. apply forallb_Forall. intros i Hi. by bool_simpl.
  - revert Hw. apply forallb_Forall. intros w Hi. by bool_simpl.
  - revert Hg. apply forallb_Forall. intros i Hi. by apply Nat.ltb_lt.
Qed.

Lemma loads_of_laws t : view_ok t = true → @LoadLaws (loads_of t) t.
Proof. intros H%view_ok_wf. by constructor. Qed.

(** ** Children *)

(** A child's pipe; a read takes at most 100 bytes. *)
#[export] Instance child_processes : Processes bytes := {|
  pipe s := (Failed (SysOther 1), s);
  spawn _ _ _ s := (Failed (SysOther 1), s);
  write _ _ s := (Failed (SysOther 1), s);
  read _ l s := (Done (take (l `min` 100) s), drop (l `min` 100) s);
  close _ s := (Done tt, s);
  wait _ s := (Failed (SysOther 1), s);
  inherited_fds _ s := ([5], 1%nat, s) |}.

#[export] Instance child_reads : PipeReads (eq (A:=bytes)).
Proof.
  refine {| reading s _ b := s = b |}.
  - intros s b ->. by exists 5, b.
  - intros s fd b l -> Hb Hl. cbn [read child_processes].
    assert (Hm : (0 < l `min` 100 <= l)%nat) by lia.
    revert Hm. generalize (l `min` 100)%nat as m. intros m Hm.
    exists (Nat.pred (m `min` length b)), (drop m b).
    assert (0 < length b)%nat by (destruct b; [done|cbn; lia]).
    rewrite Nat.succ_pred by lia. destruct (decide (m <= length b)%nat).
    + rewrite Nat.min_l by lia. repeat split; lia.
    + rewrite Nat.min_r by lia. rewrite !take_ge, !drop_ge by lia. repeat split; lia.
  - intros s fd l ->. exists (Done []), []. cbn. rewrite take_nil, drop_nil. auto.
  - intros s fd ->. by exists [].
Defined.

Section kernel.
Context {ccc : Ccc} {p256 : P256}.

(** One child at a time: its code cell, what was written to it. The child takes the
    reading end of the pipe with it: the parent has only the writing end, 4. *)
Inductive kernel := Ready | PipeOpen | Running (i : nat) (b : bytes) | Closed (i : nat) (b : bytes).

Definition verdict (b : bytes) : Z := default 1 (Verifier.program_entry b).

(** A write takes at most 64 bytes. *)
#[export] Instance kernel_processes : Processes kernel := {|
  pipe s := match s with Ready => (Done (3, 4), PipeOpen) | _ => (Failed (SysOther 1), s) end;
  spawn i _ _ s := match s with PipeOpen => (Done 7, Running i []) | _ => (Failed (SysOther 1), s) end;
  write _ data s :=
    match s with
    | Running i b => (Done (length data `min` 64)%nat, Running i (b ++ take 64 data))
    | _ => (Failed OtherEndClosed, s)
    end;
  read _ _ s := (Failed InvalidFd, s);
  close fd s :=
    match s with
    | Running i b => if fd =? 4 then (Done tt, Closed i b) else (Failed InvalidFd, s)
    | _ => (Failed InvalidFd, s)
    end;
  wait _ s := match s with Closed _ b => (Done (verdict b), Ready) | _ => (Failed (SysOther 1), s) end;
  inherited_fds _ s := ([], 0%nat, s) |}.

Definition exits_with (i : nat) (b : bytes) (c : Z) : Prop := Verifier.program_entry b = Some c.

#[export] Instance kernel_sound : ProcessSound exits_with.
Proof.
  refine {| piped s r w := s = PipeOpen ∧ r = 3 ∧ w = 4;
            spawned s _ r w i := s = Running i [] ∧ r = 3 ∧ w = 4;
            running s _ w i b := s = Running i b ∧ w = 4;
            waiting s _ i b := s = Closed i b |}.
  - intros [] r w s'; cbn; naive_solver.
  - intros s r w i pid s' (-> & -> & ->). cbn. naive_solver.
  - intros s pid r w i res s' (-> & -> & ->). cbn. by intros [= <- <-].
  - intros s pid w i b data n s' [-> ->]. cbn [write kernel_processes]. intros [= <- <-].
    split; [lia|]. split; [|done]. do 2 f_equal.
    destruct (decide (length data <= 64)%nat).
    + by rewrite Nat.min_l, !take_ge by lia.
    + by rewrite Nat.min_r by lia.
  - intros s pid w i b s' [-> ->]. cbn. naive_solver.
  - intros s pid i b c s' ->. cbn. intros [= <- <-]. unfold exits_with, verdict.
    destruct (program_entry_total b) as [c ->]. done.
Defined.

#[export] Instance kernel_live : ProcessLive kernel_sound (λ _, True).
Proof.
  refine {| idle s := s = Ready |}.
  - intros s ->. by exists 3, 4, PipeOpen.
  - intros s r w i (-> & _) _. by exists 7, (Running i []).
  - intros s pid r w i (-> & -> & ->) _. cbn. eauto.
  - intros s pid w i b [|x data] [-> ->] _ Hd; [done|]. cbn. eauto.
  - intros s pid w i b [-> ->] _. cbn. eauto.
  - intros s pid i b -> _. exists (verdict b), Ready. done.
Defined.
End kernel.

(** ** Signatures *)

(** A signature is a DER header and the message it signs, by any key. *)
#[export] Instance toy_p256 : P256 := {|
  VerifyingKey := bytes;
  Signature := bytes;
  sha256_digest := sha256_ref;
  from_sec1_bytes key := if len key =? 65 then Some key else None;
  to_sec1_point key := key;
  from_der signature := Some signature;
  to_der signature := signature;
  verify_prehash _ hash signature := bool_decide (drop 2 signature = hash) |}.
