(* ===== verification/ContractWitnesses.v ===== *)
(** * Instances of the contracts' theorems

    An account whose code cells hold small programs, a spend of it and the transaction
    the machine shows, on which the theorems about the lock and its verifier apply. *)

From S2P Require Import Prelude Js JsString Bytes Zod Constants Schemas Base64 Effects Json Ccc CccRef Wire Protocol Codec Manifests State Chain Spending Vectors Samples Sha256.
From S2P Require Import Abi Vm Lock Unlock Approval Verifier Assertion PostQuantum Acceptance Machine.

(** ** The account *)

Definition lock_binary : bytes := utf8_encode "the lock".
Definition verifier_binary : bytes := utf8_encode "the verifier".
Definition artifact (name : string) (binary : bytes) (tx_hash : string) : DeploymentArtifact := {|
  da_name := name; da_dataHash := hexFromBytes (ckb_digest binary); da_hashType := "data2";
  da_txHash := tx_hash; da_index := 0; da_capacityShannons := "10000000000" |}.
Definition small_deployment : VerifiedDeployment := deployment_result {|
  dm_schema_version := 1; dm_network := "testnet"; dm_published := true;
  dm_hash_type := "data2"; dm_note := None;
  dm_account_lock := artifact "account_lock" lock_binary (repeat_hash "11");
  dm_verifier_p256 := artifact "verifier_p256" verifier_binary (repeat_hash "22") |}.
Definition small_manifest : AccountManifest := {|
  am_schema_version := 1; am_network := "testnet"; am_account_id := sample_id;
  am_code_hash := hexFromBytes (ckb_digest lock_binary); am_hash_type := "data2";
  am_args := "0x01" +:+ str_drop 2 sample_id; am_type_id_args := repeat_hash "44";
  am_state_out_point := {| mo_tx_hash := repeat_hash "33"; mo_index := 0 |};
  am_asset_out_point := {| mo_tx_hash := repeat_hash "33"; mo_index := 1 |};
  am_state_bytes := 177 |}.
Definition small_account : VerifiedAccount := account_result small_manifest small_deployment.

(** ** The cells *)

Definition code_cell (tx_hash : string) (binary : bytes) : Cell := {|
  cell_outPoint := {| op_txHash := tx_hash; op_index := 0 |};
  cell_cellOutput := {| co_capacity := 10000000000; co_lock := SECP_LOCK; co_type := None |};
  cell_outputData := hexFromBytes binary |}.
Definition lock_cell : Cell := code_cell (repeat_hash "11") lock_binary.
Definition verifier_cell : Cell := code_cell (repeat_hash "22") verifier_binary.
Definition account_cell (out_point : ManifestOutPoint) (type : option Script) (data : string)
    : Cell := {|
  cell_outPoint := manifest_outpoint out_point;
  cell_cellOutput := {| co_capacity := 50000000000; co_lock := accountLock small_account;
    co_type := type |};
  cell_outputData := data |}.
Definition small_state : Cell :=
  account_cell (am_state_out_point small_manifest) (Some (stateType small_account))
    (hexFromBytes (state_layout (ckb_digest verifier_binary) 5 (hx (pk_keyId sample_passkey)))).
Definition small_asset : Cell :=
  account_cell (am_asset_out_point small_manifest) None "0x".

Definition small_chain : chain := λ o,
  List.find (λ c, bool_decide (cell_outPoint c = o))
    [small_state; small_asset; lock_cell; verifier_cell].
#[local] Instance small_client : SpendClient unit := {|
  addressPrefix := "ckt";
  getCellLive o _ _ w := (Ok (small_chain o), w);
  findCellsByLock _ _ _ _ _ w := (([small_state; small_asset], None), w);
  sendTransaction _ _ w := (Ok sample_tx_hash, w);
  waitTransaction _ _ _ w := (Ok true, w) |}.

(** ** The spend *)

Definition get {A} (default : A) (m : res A) : A := match m with Ok a => a | Throw _ => default end.
Definition no_transaction : Transaction := {|
  tx_cellDeps := []; tx_inputs := []; tx_outputs := []; tx_outputsData := []; tx_witnesses := [] |}.
Definition no_spend : PreparedSpend := {|
  transaction := no_transaction; ps_authorizationDigest := [];
  review := spend_review small_account small_asset "" 0 0; maxWitnessBytes := 0;
  sequence := 0; ps_credentialId := ""; ps_publicKey := ""; accountId := ""; stateData := "" |}.

Definition small_prepared : PreparedSpend :=
  Eval vm_compute in get no_spend
    (prepareSpend small_account sample_address (passkey_val sample_passkey) (World tt [])).1.

Definition small_client_data : bytes :=
  Eval vm_compute in utf8_encode (sample_client_data small_prepared).
(** What the stand-in signature scheme accepts. *)
Definition small_signature : bytes := Eval vm_compute in
  [x30; x20] ++ sha256_ref (hx V_AUTHENTICATOR_DATA ++ sha256_ref small_client_data).
Definition small_assertion : AssertionMaterial := {|
  as_credentialId := pk_credentialId sample_passkey;
  as_authenticatorData := hx V_AUTHENTICATOR_DATA;
  as_clientDataJson := small_client_data;
  as_signature := small_signature |}.
Definition small_transaction : Transaction :=
  Eval vm_compute in get no_transaction (finalizeSpend small_prepared (passkey_val sample_passkey) small_assertion).

Definition view_of (cells : chain) (lock : Script) (tx : Transaction) : TxView := {|
  tv_script := script_bytes lock;
  tv_hash := hex_text_bytes (Transaction_hash tx);
  tv_inputs := omap (λ i, c ← cells (in_previousOutput i);
    Some {| iv_cell := cell_view c; iv_since := in_since i |}) (tx_inputs tx);
  tv_outputs := zip_with output_view (tx_outputs tx) (tx_outputsData tx);
  tv_deps := omap (λ d, cell_view <$> cells (cd_outPoint d)) (tx_cellDeps tx);
  tv_witnesses := hex_text_bytes <$> tx_witnesses tx;
  tv_group := List.filter (in_group cells lock (tx_inputs tx)) (seq 0 (length (tx_inputs tx))) |}.
Definition small_view : TxView :=
  Eval vm_compute in view_of small_chain (accountLock small_account) small_transaction.
#[local] Instance small_loads : Loads := loads_of small_view.

(** A transaction whose cells are all there, and whose witnesses are texts. *)
Definition resolved_tx (cells : chain) (tx : Transaction) : bool :=
  forallb (λ i, if cells (in_previousOutput i) then true else false) (tx_inputs tx) &&
  forallb (λ d, if cells (cd_outPoint d) then true else false) (tx_cellDeps tx) &&
  forallb (λ w, String.eqb w (hexFromBytes (hex_text_bytes w))) (tx_witnesses tx).

Lemma view_shows cells lock tx :
  resolved_tx cells tx = true → shows cells lock tx (view_of cells lock tx).
Proof.
  unfold resolved_tx. rewrite !andb_true_iff. intros ((Hi & Hd) & Hw).
  constructor; cbn [view_of tv_script tv_hash tv_inputs tv_outputs tv_deps tv_witnesses tv_group];
    try done.
  - destruct (Transaction_hash_spec tx) as (h & _ & Hh). by rewrite Hh, hex_text_bytes_of.
  - clear Hd Hw. induction (tx_inputs tx) as [|i l IH]; [constructor|]. cbn in Hi |- *.
    destruct (cells (in_previousOutput i)) as [c|] eqn:E; [|done]. constructor; [by exists c|by apply IH].
  - clear Hi Hw. induction (tx_cellDeps tx) as [|d l IH]; [constructor|]. cbn in Hd |- *.
    destruct (cells (cd_outPoint d)) as [c|] eqn:E; [|done]. constructor; [by exists c|by apply IH].
  - clear Hi Hd. induction (tx_witnesses tx) as [|w l IH]; [done|].
    cbn [forallb] in Hw. apply andb_true_iff in Hw as [E%String.eqb_eq Hw].
    rewrite !fmap_cons. f_equal; [done|by apply IH].
Qed.

Lemma small_laws : LoadLaws small_view.
Proof. apply loads_of_laws. vm_compute. reflexivity. Qed.
Lemma small_shown : shows small_chain (accountLock small_account) small_transaction small_view.
Proof.
  assert (E : small_view = view_of small_chain (accountLock small_account) small_transaction)
    by (vm_compute; reflexivity).
  rewrite E. apply view_shows. vm_compute. reflexivity.
Qed.
Lemma enough_parts fuel t :
  forallb (λ n, n <? fuel)%nat [length (tv_inputs t); length (tv_outputs t);
    length (tv_deps t); length (tv_witnesses t); length (tv_group t)] = true → enough fuel t.
Proof. cbn [forallb]. rewrite !andb_true_iff, !Nat.ltb_lt. unfold enough. tauto. Qed.
Lemma small_fuel : enough 10 small_view.
Proof. apply enough_parts. vm_compute. reflexivity. Qed.

Lemma small_deployed : deployed small_chain small_account lock_cell verifier_cell.
Proof.
  constructor.
  - vm_compute. reflexivity.
  - vm_compute. reflexivity.
  - vm_compute. reflexivity.
  - assert (Hs : small_chain (cd_outPoint (stateDep small_account)) = Some small_state)
      by (vm_compute; reflexivity).
    assert (H : ∀ c, bool_decide (code_hash_of c = code_hash_of verifier_cell) = false →
      code_hash_of c ≠ code_hash_of verifier_cell) by (intros c; apply bool_decide_eq_false_1).
    intros c [-> | Hc]; [|rewrite Hs in Hc; injection Hc as <-]; apply H; vm_compute; reflexivity.
  - by intros c s [-> | ->].
Qed.

Lemma small_validates :
  validateAccount (account_val small_manifest) small_deployment = Ok small_account.
Proof. vm_compute. reflexivity. Qed.
Lemma fst_run {A B} (m : A * B) a : m.1 = a → ∃ b, m = (a, b).
Proof. destruct m as [a' b]. cbn. intros ->. by exists b. Qed.
Lemma small_prepares :
  ∃ w', prepareSpend small_account sample_address (passkey_val sample_passkey) (World tt []) =
    (Ok small_prepared, w').
Proof. apply fst_run. vm_compute. reflexivity. Qed.
Lemma small_finalizes :
  finalizeSpend small_prepared (passkey_val sample_passkey) small_assertion =
    Ok small_transaction.
Proof. vm_compute. reflexivity. Qed.

(** ** The theorems *)

Notation run_lock := (Lock.program_entry (S:=kernel) 10 Ready).

Lemma finalized_spend_unlocks_witness :
  ∃ publicKey, bytesFromHex (ps_publicKey small_prepared) = Ok publicKey ∧
    (genuine (ps_authorizationDigest small_prepared) publicKey small_assertion →
     run_lock = Some 0) ∧
    (¬ genuine (ps_authorizationDigest small_prepared) publicKey small_assertion →
     run_lock = Some (code ThresholdUnsatisfied)).
Proof.
  destruct small_prepares as (w' & Hp).
  apply (finalized_spend_unlocks (ccc := ccc_ref) (p256 := toy_p256) (client := small_client)
    (loads := small_loads) (exits := exits_with) (inherits := eq) (live := kernel_live)
    (pipes := child_reads) (λ w _, eq_refl) small_chain
    ltac:(intros o c e e' [= H _]; exact H) (λ b, eq_refl)
    ltac:(intros b c H; exact (ex_intro _ b (conj eq_refl H)))
    (account_val small_manifest) small_deployment small_account sample_address
    (passkey_val sample_passkey) (passkey_val sample_passkey) (World tt []) w' small_prepared
    small_assertion small_transaction lock_cell verifier_cell small_view small_laws 10 Ready);
    [exact small_validates|exact Hp|exact small_finalizes|exact small_deployed
    |exact small_shown|exact small_fuel|reflexivity|exact I].
Defined.

Lemma finalized_spend_verifies_signed_message_witness :
  strip_witnesses small_transaction = strip_witnesses (transaction small_prepared) ∧
  Transaction_hash small_transaction = Transaction_hash (transaction small_prepared) ∧
  ∃ id state sighash summary,
    sample_id = hexFromBytes id ∧
    (script ← load_current_script; args ← script_args script; AccountLockArgs_parse args) =
      Good {| la_version := 1; la_account_id := id |} ∧
    (witness ← load_a_witness 0 SGroupInput; lock ← witness_lock witness;
     parse_witness_header lock) = Good (witness_facts OP_SPEND (sequence small_prepared) 1) ∧
    resolve_state 10 OP_SPEND id =
      Good {| rs_current := state; rs_successor := None; rs_state_input := None |} ∧
    validate_state state = Good (one_key_header (sequence small_prepared), summary) ∧
    canonical_group_sighash 10 = Good sighash ∧
    authorization_digest OP_SPEND id (sequence small_prepared) state sighash =
      ps_authorizationDigest small_prepared.
Proof.
  destruct small_prepares as (w' & Hp).
  exact (finalized_spend_verifies_signed_message (ccc := ccc_ref) (client := small_client)
    (λ w _, eq_refl) small_chain ltac:(intros o c e e' [= H _]; exact H)
    (account_val small_manifest) small_deployment small_account sample_address
    (passkey_val sample_passkey) (passkey_val sample_passkey) (World tt []) w' small_prepared
    small_assertion small_transaction lock_cell verifier_cell small_view small_laws 10
    small_validates Hp small_finalizes small_deployed small_shown small_fuel).
Defined.

Lemma lock_exits_witness : ∃ c, run_lock = Some c ∧ (c = 0 ∨ 20 <= c <= 39).
Proof. exact (lock_exits (laws := small_laws) 10 small_view small_fuel Ready). Defined.

Lemma small_accepted : run_lock = Some 0.
Proof. vm_compute. reflexivity. Qed.
Lemma lock_accepts_authorized_witness :
  run_lock = Some 0 ∧ ∃ id header resolved state ps ws,
    authorized (exits := exits_with) small_view id header resolved state ps ws.
Proof.
  split; [exact small_accepted|].
  exact (lock_accepts_authorized (sound := kernel_sound) (laws := small_laws) 10 small_view small_fuel Ready
           small_accepted).
Defined.

(** Client data with a member the verifier skips. *)
Definition small_members : list (bytes * member_value) := [
  (KEY_TYPE, VString (utf8_encode "webauthn.get"));
  (KEY_CHALLENGE, VString (utf8_encode (base64urlEncode (zeros 32))));
  (KEY_ORIGIN, VString (utf8_encode CLIENT_ORIGIN));
  (utf8_encode "crossOrigin", VPrimitive (utf8_encode "false"))].
Lemma small_members_ok : Forall member_ok small_members.
Proof. repeat constructor; try discriminate; vm_compute; congruence. Qed.
Lemma client_data_exact_witness :
  validate_client_data (client_object small_members) (base64url_digest (zeros 32))
    (utf8_encode CLIENT_ORIGIN) = Good tt ↔
  carries KEY_TYPE (utf8_encode "webauthn.get") small_members ∧
  carries KEY_CHALLENGE (utf8_encode (base64urlEncode (zeros 32))) small_members ∧
  carries KEY_ORIGIN (utf8_encode CLIENT_ORIGIN) small_members.
Proof.
  exact (client_data_exact (zeros 32) (utf8_encode CLIENT_ORIGIN) small_members eq_refl
           small_members_ok).
Defined.

(** The smallest request. *)
Definition small_request : VerifierRequest := {|
  vr_algorithm_id := 1; vr_slot := 0; vr_operation := 1; vr_verifier_profile := 1;
  vr_authorization_digest := zeros 32; vr_key_id := zeros 32; vr_aux := []; vr_proof := [] |}.
Lemma small_request_ok : request_ok small_request.
Proof. constructor; try (vm_compute; intuition congruence). Qed.
Lemma verifier_exact_witness :
  ∃ c, Verifier.program_entry (request_layout small_request) = Some c ∧
    (c = VALID ↔ ∃ p, parse_proof (vr_proof small_request) = Good p ∧ accepted small_request p).
Proof.
  exact (verifier_exact (inherits := eq) (request_layout small_request) small_request eq_refl
           small_request_ok).
Defined.

(** A stand-in scheme: keys of one byte, and a signature is the message. *)
Definition toy_scheme : SignatureScheme := {|
  Key := byte; Sig := bytes;
  decode_key key := match key with [b] => Some b | _ => None end;
  decode_signature signature := Some signature;
  verify_message _ message signature := bool_decide (message = signature) |}.
Definition keyed_request : VerifierRequest := {|
  vr_algorithm_id := ALG_MLDSA65; vr_slot := 0; vr_operation := 1; vr_verifier_profile := 1;
  vr_authorization_digest := zeros 32; vr_key_id := ckb_digest [x07]; vr_aux := [x01];
  vr_proof := key_proof_layout {| kp_public_key := [x07]; kp_signature := zeros 32 |} |}.
Lemma keyed_request_ok : request_ok keyed_request.
Proof. constructor; vm_compute; intuition congruence. Qed.
Lemma keyed_request_accepted :
  adapter_entry (mldsa_verify toy_scheme) (request_layout keyed_request) = Some VALID.
Proof. vm_compute. reflexivity. Qed.
Lemma post_quantum_exact_witness :
  (∃ c, adapter_entry (mldsa_verify toy_scheme) (request_layout keyed_request) = Some c ∧
    (c = VALID ↔ ∃ p, key_accepted ALG_MLDSA65 [x01] toy_scheme keyed_request p)) ∧
  (∃ c, adapter_entry (slhdsa_verify toy_scheme) (request_layout keyed_request) = Some c ∧
    (c = VALID ↔ ∃ p, key_accepted ALG_SLHDSA [x01; x01] toy_scheme keyed_request p)).
Proof.
  exact (post_quantum_exact (inherits := eq) toy_scheme toy_scheme
           (request_layout keyed_request) keyed_request eq_refl keyed_request_ok).
Defined.

(** Client data with an escape in a member that is none of the three: the client's check
    passes it, the verifier refuses it. *)
Definition escaped_client_data : bytes :=
  utf8_encode ("{" +:+ Samples.quoted "type" +:+ ":" +:+ Samples.quoted "webauthn.get" +:+ "," +:+
    Samples.quoted "challenge" +:+ ":" +:+
    Samples.quoted (base64urlEncode (ps_authorizationDigest small_prepared)) +:+ "," +:+
    Samples.quoted "origin" +:+ ":" +:+ Samples.quoted CLIENT_ORIGIN +:+ "," +:+
    Samples.quoted "note" +:+ ":" +:+ Samples.quoted "a\tb" +:+ "}").
Lemma escaped_member_refused :
  validateClientData small_prepared escaped_client_data = Ok tt ∧
  validate_client_data escaped_client_data
    (base64url_digest (ps_authorizationDigest small_prepared)) (utf8_encode CLIENT_ORIGIN) =
    Bad DIGEST_BINDING_FAILURE.
Proof. split; vm_compute; reflexivity. Qed.
